(** * vscode-tap: the TAP line parser, grouping pass and folding passes

    A shallow embedding of [out/extension.js] (three snapshots of the
    extension) and of the legacy snapshot of the same file, with the
    JavaScript primitives they rely on: UTF-16 strings, backtracking
    regular expressions, IEEE-754 binary64 numbers, [null]/[undefined]
    dereferences that raise [TypeError]. *)

From Stdlib Require Import ZArith NArith Bool Lia String Ascii List Sorted.
From Stdlib Require Import Floats.SpecFloat.
From stdpp Require Import base tactics option list.
Import ListNotations.

Set Warnings "-comment-terminator-in-string".

Local Open Scope Z_scope.
Local Open Scope nat_scope.

(* ================================================================== *)
(** * Part I. The JavaScript substrate *)
(* ================================================================== *)

(** ** Strings

    A JavaScript string is a sequence of UTF-16 code units. *)

Definition char := N.
Definition jsstring := list char.

Definition char_of_ascii (a : ascii) : char := N_of_ascii a.

Fixpoint str (s : string) : jsstring :=
  match s with
  | EmptyString => []
  | String a s' => char_of_ascii a :: str s'
  end.

Definition LF : char := 10%N.
Definition CR : char := 13%N.

Definition char_eqb (a b : char) : bool := N.eqb a b.

Fixpoint jsstring_eqb (a b : jsstring) : bool :=
  match a, b with
  | [], [] => true
  | x :: a', y :: b' => char_eqb x y && jsstring_eqb a' b'
  | _, _ => false
  end.

(** LineTerminator: LF, CR, LS (U+2028), PS (U+2029). *)
Definition is_line_terminator (c : char) : bool :=
  (N.eqb c 10 || N.eqb c 13 || N.eqb c 8232 || N.eqb c 8233)%N.

(** WhiteSpace and LineTerminator code units: what [String.prototype.trim]
    strips and what the class [\s] matches.  TAB, VT, FF, SP, NBSP, ZWNBSP
    and the Unicode space separators, then the four line terminators. *)
Definition is_space (c : char) : bool :=
  (N.eqb c 9 || N.eqb c 11 || N.eqb c 12 || N.eqb c 32 || N.eqb c 160
   || N.eqb c 5760 || (N.leb 8192 c && N.leb c 8202)
   || N.eqb c 8239 || N.eqb c 8287 || N.eqb c 12288 || N.eqb c 65279
   || is_line_terminator c)%N.

(** The class [\d] is ASCII only. *)
Definition is_digit (c : char) : bool := (N.leb 48 c && N.leb c 57)%N.

(** The class [.] (no [s] flag): everything but a line terminator. *)
Definition is_dot (c : char) : bool := negb (is_line_terminator c).

Fixpoint trimStart (s : jsstring) : jsstring :=
  match s with
  | c :: s' => if is_space c then trimStart s' else s
  | [] => []
  end.

Definition trimEnd (s : jsstring) : jsstring := rev (trimStart (rev s)).

Definition trim (s : jsstring) : jsstring := trimEnd (trimStart s).

(** [s.split('\n')]: the segments between line feeds; never empty. *)
Fixpoint split_lines_aux (cur : jsstring) (s : jsstring) : list jsstring :=
  match s with
  | [] => [rev cur]
  | c :: s' =>
      if char_eqb c LF then rev cur :: split_lines_aux [] s'
      else split_lines_aux (c :: cur) s'
  end.

Definition split_lines (s : jsstring) : list jsstring := split_lines_aux [] s.

(** [Array.prototype.join]. *)
Fixpoint join (sep : jsstring) (l : list jsstring) : jsstring :=
  match l with
  | [] => []
  | [x] => x
  | x :: l' => x ++ sep ++ join sep l'
  end.

(** Simple case folding of the ASCII letters.  With the [i] flag and no [u]
    flag the engine compares [Canonicalize]d code units; [Canonicalize] never
    sends a code unit above 127 to one below 128, so against the ASCII
    pattern characters of this program the comparison is the one below. *)
Definition ascii_upper (c : char) : char :=
  if (N.leb 97 c && N.leb c 122)%N then (c - 32)%N else c.

(** [String.prototype.toLowerCase], exact on the ASCII range (the extension
    only applies it to a capture of [(ms|s)] under the [i] flag). *)
Definition ascii_lower (c : char) : char :=
  if (N.leb 65 c && N.leb c 90)%N then (c + 32)%N else c.

Definition toLowerCase (s : jsstring) : jsstring := map ascii_lower s.

(** ** Completions

    An abrupt completion is the one failure the extension's own code can
    cause: reading a property of [null] or [undefined]. *)

Inductive JsError := TypeError.

Inductive completion (A : Type) : Type :=
| Normal (a : A)
| Throw (e : JsError).
Arguments Normal {A} a.
Arguments Throw {A} e.

#[global] Instance completion_ret : MRet completion := fun A a => Normal a.
#[global] Instance completion_bind : MBind completion := fun A B k c =>
  match c with
  | Normal a => k a
  | Throw e => Throw e
  end.

(** Property access on a value that may be [undefined] or [null]. *)
Definition deref {A} (o : option A) : completion A :=
  match o with
  | Some a => Normal a
  | None => Throw TypeError
  end.

(** [for (let i = i0; i < n; i++) body], run for the [k = n - i0] indices
    that remain. *)
Fixpoint for_loop {S : Type} (k : nat) (i : nat)
    (body : nat -> S -> completion S) (s : S) : completion S :=
  match k with
  | O => Normal s
  | Datatypes.S k' => s' ← body i s; for_loop k' (Datatypes.S i) body s'
  end.

(** ** Regular expressions

    The fragment the extension uses: anchors, character classes, greedy
    quantifiers over a class, sequence, ordered alternation (an optional
    group is [Alt r Eps]) and capture groups.  Matching is the backtracking
    search of the language: every construct is matched against a
    continuation, and a failed continuation makes the construct try its next
    choice. *)

Inductive regex :=
| Eps
| Bol
| Eol
| Cls (p : char -> bool)
| Star (p : char -> bool)
| Seq (r1 r2 : regex)
| Alt (r1 r2 : regex)
| Cap (n : nat) (r : regex).

Definition Plus (p : char -> bool) : regex := Seq (Cls p) (Star p).
Definition Opt (r : regex) : regex := Alt r Eps.

Fixpoint rseq (rs : list regex) : regex :=
  match rs with
  | [] => Eps
  | [r] => r
  | r :: rs' => Seq r (rseq rs')
  end.

Definition chr (c : char) : regex := Cls (char_eqb c).
Definition chr_i (c : char) : regex :=
  Cls (fun x => char_eqb (ascii_upper x) (ascii_upper c)).

Definition lit (s : string) : regex := rseq (map chr (str s)).
Definition lit_i (s : string) : regex := rseq (map chr_i (str s)).

(** Captures: group number to matched text; an absent key is [undefined]. *)
Definition captures := list (nat * jsstring).

Fixpoint cap_get (n : nat) (cs : captures) : option jsstring :=
  match cs with
  | [] => None
  | (k, v) :: cs' => if Nat.eqb k n then Some v else cap_get n cs'
  end.

(** A successful match: end index and captures. *)
Definition mresult := (nat * captures)%type.
Definition mcont := nat -> jsstring -> captures -> option mresult.

Definition or_else {A} (a b : option A) : option A :=
  match a with
  | Some x => Some x
  | None => b
  end.

(** Greedy [p*]: consume one more character when possible, fall back to the
    continuation at the current position when the longer attempt fails. *)
Fixpoint star_loop (p : char -> bool) (k : nat -> jsstring -> option mresult)
    (pos : nat) (s : jsstring) : option mresult :=
  match s with
  | c :: s' =>
      if p c then or_else (star_loop p k (S pos) s') (k pos s) else k pos s
  | [] => k pos s
  end.

Fixpoint run (r : regex) (k : mcont) (pos : nat) (s : jsstring)
    (cs : captures) : option mresult :=
  match r with
  | Eps => k pos s cs
  | Bol => if Nat.eqb pos 0 then k pos s cs else None
  | Eol => match s with [] => k pos s cs | _ :: _ => None end
  | Cls p =>
      match s with
      | c :: s' => if p c then k (S pos) s' cs else None
      | [] => None
      end
  | Star p => star_loop p (fun pos' s' => k pos' s' cs) pos s
  | Seq r1 r2 => run r1 (run r2 k) pos s cs
  | Alt r1 r2 => or_else (run r1 k pos s cs) (run r2 k pos s cs)
  | Cap n r =>
      run r (fun pos' s' cs' => k pos' s' ((n, firstn (pos' - pos) s) :: cs'))
        pos s cs
  end.

Definition accept : mcont := fun pos _ cs => Some (pos, cs).

(** A match object: index of the match, index after it, captures. *)
Record jsmatch := { m_index : nat; m_end : nat; m_caps : captures }.

(** [RegExp.prototype.exec] without the [g] and [y] flags: the first start
    index, from 0 to the length of the string, at which the pattern matches. *)
Fixpoint exec_from (r : regex) (pos : nat) (s : jsstring) : option jsmatch :=
  match run r accept pos s [] with
  | Some (e, cs) => Some {| m_index := pos; m_end := e; m_caps := cs |}
  | None =>
      match s with
      | [] => None
      | _ :: s' => exec_from r (S pos) s'
      end
  end.

(** [s.match(r)] for a non-global [r]. *)
Definition js_match (s : jsstring) (r : regex) : option jsmatch := exec_from r 0 s.

(** [r.test(s)]. *)
Definition js_test (r : regex) (s : jsstring) : bool :=
  match js_match s r with Some _ => true | None => false end.

(** [s.replace(r, '')] for a non-global [r]: the first match is removed. *)
Definition js_remove (s : jsstring) (r : regex) : jsstring :=
  match js_match s r with
  | Some m => firstn (m_index m) s ++ skipn (m_end m) s
  | None => s
  end.

(** [m[n]]. *)
Definition group (m : jsmatch) (n : nat) : option jsstring := cap_get n (m_caps m).

(** [x || d] for a string or [undefined] [x]. *)
Definition or_default (x : option jsstring) (d : jsstring) : jsstring :=
  match x with
  | Some (c :: s) => c :: s
  | _ => d
  end.

(** [`${x}`] for a string or [undefined] [x]. *)
Definition template_of (x : option jsstring) : jsstring :=
  match x with
  | Some s => s
  | None => str "undefined"
  end.

(** The patterns of the source. *)

(** Source pattern: "/^(\s*)(ok|not ok)\s+(\d+)(?:\s+(?:-\s+)?(.*))?/" *)
Definition TEST_RESULT_REGEX : regex :=
  rseq [Bol; Cap 1 (Star is_space); Cap 2 (Alt (lit "ok") (lit "not ok"));
       Plus is_space; Cap 3 (Plus is_digit);
       Opt (rseq [Plus is_space; Opt (rseq [lit "-"; Plus is_space]);
                 Cap 4 (Star is_dot)])].

(** Source pattern: "/^(\s*)(\d+)\.\.(\d+)$/" *)
Definition TEST_PLAN_REGEX : regex :=
  rseq [Bol; Cap 1 (Star is_space); Cap 2 (Plus is_digit); lit "..";
       Cap 3 (Plus is_digit); Eol].

(** Source pattern: "/^(\d+)\.\.(\d+)$/" *)
Definition TRIMMED_PLAN_REGEX : regex :=
  rseq [Bol; Cap 1 (Plus is_digit); lit ".."; Cap 2 (Plus is_digit); Eol].

(** Source pattern: "/^(\s*)(ok|not ok)\s+(\d+)(?:\s+-\s+(.*))?/" *)
Definition DASHED_RESULT_REGEX : regex :=
  rseq [Bol; Cap 1 (Star is_space); Cap 2 (Alt (lit "ok") (lit "not ok"));
       Plus is_space; Cap 3 (Plus is_digit);
       Opt (rseq [Plus is_space; lit "-"; Plus is_space; Cap 4 (Star is_dot)])].

(** Source pattern: "/# TODO/i" and "/# SKIP/i" *)
Definition TODO_REGEX : regex := lit_i "# TODO".
Definition SKIP_REGEX : regex := lit_i "# SKIP".

(** Source pattern: "/#.*$/" *)
Definition COMMENT_REGEX : regex := rseq [lit "#"; Star is_dot; Eol].

(** Source pattern: "/\s+in\s+(\d+(?:\.\d+)?)(ms|s)\s*$/i" *)
Definition DURATION_REGEX : regex :=
  rseq [Plus is_space; lit_i "in"; Plus is_space;
       Cap 1 (rseq [Plus is_digit; Opt (rseq [lit "."; Plus is_digit])]);
       Cap 2 (Alt (lit_i "ms") (lit_i "s")); Star is_space; Eol].

(** Source pattern: "/\s+in\s+\d+(?:\.\d+)?(?:ms|s)\s*$/i" *)
Definition DURATION_STRIP_REGEX : regex :=
  rseq [Plus is_space; lit_i "in"; Plus is_space;
       Plus is_digit; Opt (rseq [lit "."; Plus is_digit]);
       Alt (lit_i "ms") (lit_i "s"); Star is_space; Eol].

(** ** Numbers

    A JavaScript Number is an IEEE-754 binary64 value; the operations are
    those of the specification of floating-point arithmetic at precision 53
    and maximal exponent 1024. *)

Definition Number := spec_float.
Definition prec : Z := 53%Z.
Definition emax : Z := 1024%Z.

Definition NaN : Number := S754_nan.
Definition Infinity : Number := S754_infinity false.

(** The Number nearest to an integer (ties to even). *)
Definition Number_of_Z (z : Z) : Number := binary_normalize prec emax z 0 false.

(** The Number nearest to the positive rational [num / den]. *)
Definition Number_of_ratio (num den : positive) : Number :=
  SFdiv prec emax (S754_finite false num 0) (S754_finite false den 0).

(** The Number nearest to [m * 10 ^ e] for a natural [m]. *)
Definition Number_of_decimal (m : Z) (e : Z) : Number :=
  match m with
  | Zpos p =>
      match e with
      | Zneg d => Number_of_ratio p (Pos.pow 10 d)
      | _ => Number_of_Z (m * 10 ^ e)
      end
  | _ => S754_zero false
  end.

Definition Number_neg (x : Number) : Number := SFopp x.

(** [x * y] and [x <= y]. *)
Definition Number_mul (x y : Number) : Number := SFmul prec emax x y.
Definition Number_le (x y : Number) : bool := SFleb x y.

Definition digit_value (c : char) : Z := Z.of_N (c - 48)%N.

Fixpoint digits_value (acc : Z) (ds : jsstring) : Z :=
  match ds with
  | [] => acc
  | c :: ds' => digits_value (acc * 10 + digit_value c)%Z ds'
  end.

(** [span p s]: the longest prefix of [s] in the class [p], and the rest. *)
Fixpoint span (p : char -> bool) (s : jsstring) : jsstring * jsstring :=
  match s with
  | c :: s' => if p c then let (a, b) := span p s' in (c :: a, b) else ([], s)
  | [] => ([], [])
  end.

(** The optional sign of a numeric literal: [true] for a minus. *)
Definition read_sign (s : jsstring) : bool * jsstring :=
  match s with
  | c :: s' =>
      if char_eqb c 45%N then (true, s')
      else if char_eqb c 43%N then (false, s') else (false, s)
  | [] => (false, s)
  end.

Definition apply_sign (neg : bool) (x : Number) : Number :=
  if neg then Number_neg x else x.

(** [parseInt(x, 10)]: leading white space and a sign are skipped, the
    longest prefix of decimal digits is read, and [NaN] is returned when
    there is none. *)
Definition parseInt (x : option jsstring) : Number :=
  let '(neg, s) := read_sign (trimStart (template_of x)) in
  match span is_digit s with
  | ([], _) => NaN
  | (ds, _) =>
      match digits_value 0 ds with
      | Z0 => S754_zero neg
      | v => apply_sign neg (Number_of_Z v)
      end
  end.

(** The exponent part of a decimal literal, 0 when there is none. *)
Definition read_exponent (s : jsstring) : Z :=
  match s with
  | c :: s' =>
      if char_eqb (ascii_upper c) 69%N then
        let '(neg, s'') := read_sign s' in
        match span is_digit s'' with
        | ([], _) => 0%Z
        | (ds, _) => if neg then (- digits_value 0 ds)%Z else digits_value 0 ds
        end
      else 0%Z
  | [] => 0%Z
  end.

(** [parseFloat(x)]: the longest prefix that is a decimal literal. *)
Definition parseFloat (x : option jsstring) : Number :=
  let '(neg, s) := read_sign (trimStart (template_of x)) in
  if jsstring_eqb (firstn 8 s) (str "Infinity") then apply_sign neg Infinity
  else
    let '(int_part, s1) := span is_digit s in
    let '(frac_part, s2) :=
      match s1 with
      | c :: s1' => if char_eqb c 46%N then span is_digit s1' else ([], s1)
      | [] => ([], s1)
      end in
    match int_part ++ frac_part with
    | [] => NaN
    | ds =>
        match digits_value 0 ds with
        | Z0 => S754_zero neg
        | v =>
            apply_sign neg
              (Number_of_decimal v (read_exponent s2 - Z.of_nat (length frac_part)))
        end
    end.

(** *** Number to string

    [Number::toString] in radix 10: the shortest decimal [s * 10 ^ q] that
    reads back as the Number, the closest one among those of that length,
    printed plainly up to 21 integer digits and in exponent form beyond. *)

Fixpoint decimal_of_pos_aux (fuel : nat) (n : Z) (acc : jsstring) : jsstring :=
  match fuel with
  | O => acc
  | S fuel' =>
      let acc' := (Z.to_N (n mod 10) + 48)%N :: acc in
      if (n <? 10)%Z then acc' else decimal_of_pos_aux fuel' (n / 10)%Z acc'
  end.

(** The decimal digits of a natural number. *)
Definition decimal_of_Z (n : Z) : jsstring :=
  decimal_of_pos_aux (S (Z.to_nat (Z.log2 n))) n [].

Definition decimal_of_nat (n : nat) : jsstring := decimal_of_Z (Z.of_nat n).

(** The exact value [num / den] of a positive finite Number. *)
Definition ratio_of_finite (m : positive) (e : Z) : Z * Z :=
  match e with
  | Zneg d => (Zpos m, Zpos (Pos.pow 2 d))
  | _ => ((Zpos m) * 2 ^ e, 1)%Z
  end.

(** The least [j >= 1] with [num * 10 ^ j >= den], for [num < den]. *)
Fixpoint leading_zeros (fuel : nat) (j : Z) (num den : Z) : Z :=
  match fuel with
  | O => j
  | S fuel' =>
      if (den <=? num * 10)%Z then j else leading_zeros fuel' (j + 1)%Z (num * 10)%Z den
  end.

(** The [n] with [10 ^ (n - 1) <= num / den < 10 ^ n]. *)
Definition decimal_magnitude (num den : Z) : Z :=
  if (den <=? num)%Z then Z.of_nat (length (decimal_of_Z (num / den)))
  else (1 - leading_zeros (S (Z.to_nat (Z.log2 den))) 1 num den)%Z.

Definition Number_eqb_repr (x y : Number) : bool :=
  match x, y with
  | S754_finite s m e, S754_finite s' m' e' =>
      Bool.eqb s s' && Pos.eqb m m' && Z.eqb e e'
  | S754_infinity s, S754_infinity s' => Bool.eqb s s'
  | S754_zero s, S754_zero s' => Bool.eqb s s'
  | S754_nan, S754_nan => true
  | _, _ => false
  end.

(** The candidate with [k] digits for the value [num / den] of [x], if one
    of the two neighbours [s * 10 ^ q] reads back as [x]. *)
Definition shortest_candidate (x : Number) (num den : Z) (n0 : Z) (k : Z)
    : option (Z * Z) :=
  let q := (n0 - k)%Z in
  let lo := (if (0 <=? q) then num / (den * 10 ^ q) else (num * 10 ^ (- q)) / den)%Z in
  let hi := (lo + 1)%Z in
  let ok s := Number_eqb_repr (Number_of_decimal s q) x in
  let below_mid :=
    (if (0 <=? q) then 2 * num ?= (2 * lo + 1) * 10 ^ q * den
     else 2 * num * 10 ^ (- q) ?= (2 * lo + 1) * den)%Z in
  match ok lo, ok hi with
  | true, true =>
      match below_mid with
      | Lt => Some (lo, q)
      | Gt => Some (hi, q)
      | Eq => if Z.even lo then Some (lo, q) else Some (hi, q)
      end
  | true, false => Some (lo, q)
  | false, true => Some (hi, q)
  | false, false => None
  end.

Fixpoint shortest_decimal (fuel : nat) (x : Number) (num den : Z) (n0 : Z) (k : Z)
    : Z * Z :=
  match fuel with
  | O => (0%Z, 0%Z)
  | S fuel' =>
      match shortest_candidate x num den n0 k with
      | Some r => r
      | None => shortest_decimal fuel' x num den n0 (k + 1)%Z
      end
  end.

Fixpoint strip_zeros (fuel : nat) (s q : Z) : Z * Z :=
  match fuel with
  | O => (s, q)
  | S fuel' =>
      if ((0 <? s) && (s mod 10 =? 0))%Z then strip_zeros fuel' (s / 10)%Z (q + 1)%Z
      else (s, q)
  end.

Definition zeros (n : Z) : jsstring := repeat 48%N (Z.to_nat n).

(** The text of [s * 10 ^ q], [s] without trailing zero. *)
Definition format_decimal (s q : Z) : jsstring :=
  let ds := decimal_of_Z s in
  let k := Z.of_nat (length ds) in
  let n := (q + k)%Z in
  if ((k <=? n) && (n <=? 21))%Z then ds ++ zeros (n - k)
  else if ((0 <? n) && (n <=? 21))%Z then
    firstn (Z.to_nat n) ds ++ str "." ++ skipn (Z.to_nat n) ds
  else if ((-6 <? n) && (n <=? 0))%Z then str "0." ++ zeros (- n) ++ ds
  else
    let e := (n - 1)%Z in
    let mant := match ds with
                | [d] => [d]
                | d :: ds' => d :: str "." ++ ds'
                | [] => []
                end in
    mant ++ str "e" ++ (if (e <? 0)%Z then str "-" else str "+")
         ++ decimal_of_Z (Z.abs e).

Definition Number_toString (x : Number) : jsstring :=
  match x with
  | S754_nan => str "NaN"
  | S754_zero _ => str "0"
  | S754_infinity s => (if s then str "-" else []) ++ str "Infinity"
  | S754_finite sg m e =>
      let '(num, den) := ratio_of_finite m e in
      let '(s, q) := shortest_decimal 17 (S754_finite false m e) num den
                       (decimal_magnitude num den) 1 in
      let '(s', q') := strip_zeros 20 s q in
      (if sg then str "-" else []) ++ format_decimal s' q'
  end.

(* ================================================================== *)
(** * Part II. The extension *)
(* ================================================================== *)

(** ** Data model *)

(** A test object.  The legacy snapshot has neither [duration] nor
    [output] and the flat snapshot has no [output]: they are [None] and
    [[]] there. *)
Record TestRecord := {
  line : nat;
  indent : nat;
  passed : bool;
  testNumber : Number;
  description : jsstring;
  duration : option Number;
  hasTodo : bool;
  hasSkip : bool;
  fullLine : jsstring;
  output : list jsstring
}.

(** A group object, over the representation [T] of its tests. *)
Record TestGroup (T : Type) := {
  name : jsstring;
  group_line : nat;
  tests : list T
}.
Arguments name {T} _.
Arguments group_line {T} _.
Arguments tests {T} _.

Inductive FoldingRangeKind := Region.

(** [new vscode.FoldingRange(start, end, kind)]. *)
Record FoldingRange := {
  fr_start : Z;
  fr_end : Z;
  fr_kind : option FoldingRangeKind
}.

Definition is_empty (s : jsstring) : bool :=
  match s with [] => true | _ :: _ => false end.

(** [x === 'lit'] for a string or [undefined] [x]. *)
Definition strict_eq (x : option jsstring) (s : string) : bool :=
  match x with
  | Some v => jsstring_eqb v (str s)
  | None => false
  end.

(** The inner loop of the YAML branch:
    [for (j = j0; j < lines.length; j++) if (lines[j].trim() === '...') break],
    run for the [k] indices that remain; the index of the closing line. *)
Fixpoint find_yaml_end (k : nat) (j : nat) (lines : list jsstring)
    : completion (option nat) :=
  match k with
  | O => Normal None
  | S k' =>
      l ← deref (lines !! j);
      if jsstring_eqb (trim l) (str "...") then Normal (Some j)
      else find_yaml_end k' (S j) lines
  end.

(** The YAML branch, shared by the two folding providers. *)
Definition yaml_branch (lines : list jsstring) (i : nat)
    (foldingRanges : list FoldingRange) : completion (list FoldingRange) :=
  r ← find_yaml_end (length lines - (i + 1)) (i + 1) lines;
  match r with
  | Some j =>
      Normal (foldingRanges ++
        [{| fr_start := Z.of_nat i; fr_end := Z.of_nat j; fr_kind := Some Region |}])
  | None => Normal foldingRanges
  end.

(** The fields a test-result line yields besides its position, in the flat
    and the grouping snapshots: directives, cleaned description, duration. *)
Definition describe (i : nat) (line : jsstring) (indent : nat) (passed : bool)
    (testNumber : Number) (rest : jsstring) : completion TestRecord :=
  let hasTodo := js_test TODO_REGEX line in
  let hasSkip := js_test SKIP_REGEX line in
  let description :=
    or_default (Some (trim (js_remove rest COMMENT_REGEX)))
               (str "Test " ++ Number_toString testNumber) in
  match js_match description DURATION_REGEX with
  | Some durationMatch =>
      let value := parseFloat (group durationMatch 1) in
      u ← deref (group durationMatch 2);
      let unit := toLowerCase u in
      let duration :=
        if jsstring_eqb unit (str "s") then Number_mul value (Number_of_Z 1000)
        else value in
      Normal {| line := i; indent := indent; passed := passed;
                testNumber := testNumber;
                description := trim (js_remove description DURATION_STRIP_REGEX);
                duration := Some duration; hasTodo := hasTodo; hasSkip := hasSkip;
                fullLine := line; output := [] |}
  | None =>
      Normal {| line := i; indent := indent; passed := passed;
                testNumber := testNumber; description := description;
                duration := None; hasTodo := hasTodo; hasSkip := hasSkip;
                fullLine := line; output := [] |}
  end.

(** ** The legacy snapshot: plan-stack folding, flat list of tests *)

Module Legacy.

Record StackEntry := { startLine : nat; entry_indent : nat }.

Record fstate := {
  foldingRanges : list FoldingRange;
  stack : list StackEntry   (* top of the stack first *)
}.

(** [while (stack.length > 0 && top.indent >= indentation) { pop; ... }] *)
Fixpoint close_deeper (i : nat) (indentation : nat) (stack : list StackEntry)
    (foldingRanges : list FoldingRange) : list FoldingRange * list StackEntry :=
  match stack with
  | prev :: stack' =>
      if Nat.leb indentation (entry_indent prev) then
        close_deeper i indentation stack'
          (if (Z.of_nat (startLine prev) <? Z.of_nat i - 1)%Z
           then foldingRanges ++
                  [{| fr_start := Z.of_nat (startLine prev);
                      fr_end := (Z.of_nat i - 1)%Z; fr_kind := None |}]
           else foldingRanges)
      else (foldingRanges, stack)
  | [] => (foldingRanges, [])
  end.

Definition fold_body (lines : list jsstring) (i : nat) (st : fstate)
    : completion fstate :=
  line ← deref (lines !! i);
  let trimmedLine := trim line in
  let indentation := length line - length (trimStart line) in
  match js_match trimmedLine TRIMMED_PLAN_REGEX with
  | Some planMatch =>
      let '(ranges, stack') :=
        close_deeper i indentation (stack st) (foldingRanges st) in
      Normal {| foldingRanges := ranges;
                stack := {| startLine := i; entry_indent := indentation |} :: stack' |}
  | None =>
      if jsstring_eqb trimmedLine (str "---") then
        ranges ← yaml_branch lines i (foldingRanges st);
        Normal {| foldingRanges := ranges; stack := stack st |}
      else Normal st
  end.

(** [while (stack.length > 0) { pop; ... }] after the loop. *)
Fixpoint close_remaining (n : nat) (stack : list StackEntry)
    (foldingRanges : list FoldingRange) : list FoldingRange :=
  match stack with
  | prev :: stack' =>
      close_remaining n stack'
        (if (Z.of_nat (startLine prev) <? Z.of_nat n - 1)%Z
         then foldingRanges ++
                [{| fr_start := Z.of_nat (startLine prev);
                    fr_end := (Z.of_nat n - 1)%Z; fr_kind := None |}]
         else foldingRanges)
  | [] => foldingRanges
  end.

Definition provideFoldingRanges (text : jsstring) : completion (list FoldingRange) :=
  let lines := split_lines text in
  st ← for_loop (length lines) 0 (fold_body lines)
         {| foldingRanges := []; stack := [] |};
  Normal (close_remaining (length lines) (stack st) (foldingRanges st)).

Definition parse_body (lines : list jsstring) (i : nat) (tests : list TestRecord)
    : completion (list TestRecord) :=
  line ← deref (lines !! i);
  match js_match line DASHED_RESULT_REGEX with
  | Some m =>
      g1 ← deref (group m 1);
      let indent := length g1 in
      let passed := strict_eq (group m 2) "ok" in
      let testNumber := parseInt (group m 3) in
      let rest := or_default (group m 4) [] in
      let hasTodo := js_test TODO_REGEX line in
      let hasSkip := js_test SKIP_REGEX line in
      let description :=
        or_default (Some (trim (js_remove rest COMMENT_REGEX)))
                   (str "Test " ++ Number_toString testNumber) in
      Normal (tests ++
        [{| line := i; indent := indent; passed := passed;
            testNumber := testNumber; description := description;
            duration := None; hasTodo := hasTodo; hasSkip := hasSkip;
            fullLine := line; output := [] |}])
  | None => Normal tests
  end.

Definition parseTapContent (text : jsstring) : completion (list TestRecord) :=
  let lines := split_lines text in
  for_loop (length lines) 0 (parse_body lines) [].

End Legacy.

(** ** The current-test folding provider (flat and grouping snapshots) *)

Module CurrentTest.

Record fstate := {
  foldingRanges : list FoldingRange;
  currentTestLine : Z
}.

(** [if (currentTestLine >= 0 && i > currentTestLine + 1) push(...)] *)
Definition close_current (st : fstate) (i : nat) : list FoldingRange :=
  if ((0 <=? currentTestLine st) && (currentTestLine st + 1 <? Z.of_nat i))%Z
  then foldingRanges st ++
         [{| fr_start := currentTestLine st; fr_end := (Z.of_nat i - 1)%Z;
             fr_kind := None |}]
  else foldingRanges st.

Definition fold_body (lines : list jsstring) (i : nat) (st : fstate)
    : completion fstate :=
  line ← deref (lines !! i);
  let trimmedLine := trim line in
  match js_match line TEST_RESULT_REGEX with
  | Some testMatch =>
      Normal {| foldingRanges := close_current st i;
                currentTestLine := Z.of_nat i |}
  | None =>
      match js_match line TEST_PLAN_REGEX with
      | Some planMatch =>
          Normal {| foldingRanges := close_current st i;
                    currentTestLine := (-1)%Z |}
      | None =>
          if jsstring_eqb trimmedLine (str "---") then
            ranges ← yaml_branch lines i (foldingRanges st);
            Normal {| foldingRanges := ranges;
                      currentTestLine := currentTestLine st |}
          else Normal st
      end
  end.

Definition provideFoldingRanges (text : jsstring) : completion (list FoldingRange) :=
  let lines := split_lines text in
  st ← for_loop (length lines) 0 (fold_body lines)
         {| foldingRanges := []; currentTestLine := (-1)%Z |};
  Normal (close_current st (length lines)).

End CurrentTest.

(** ** The flat snapshot: a list of tests with durations *)

Module Flat.

Definition parse_body (lines : list jsstring) (i : nat) (tests : list TestRecord)
    : completion (list TestRecord) :=
  line ← deref (lines !! i);
  match js_match line TEST_RESULT_REGEX with
  | Some m =>
      g1 ← deref (group m 1);
      let indent := length g1 in
      let passed := strict_eq (group m 2) "ok" in
      let testNumber := parseInt (group m 3) in
      let rest := or_default (group m 4) [] in
      t ← describe i line indent passed testNumber rest;
      Normal (tests ++ [t])
  | None => Normal tests
  end.

Definition parseTapContent (text : jsstring) : completion (list TestRecord) :=
  let lines := split_lines text in
  for_loop (length lines) 0 (parse_body lines) [].

End Flat.

(** ** The grouping snapshot: groups of tests with captured output *)

Module Grouping.

(** A reference to a test object: its index in the store.  [currentTest]
    and the last element of [currentGroup.tests] are the same object, so
    the objects live in a store and both hold a reference. *)
Abbreviation ref := nat.

Record pstate := {
  store : list TestRecord;
  groups : list (TestGroup ref);
  currentGroup : option (TestGroup ref);
  currentTest : option ref;
  lastTestNumber : Number
}.

Definition initial : pstate :=
  {| store := []; groups := []; currentGroup := None; currentTest := None;
     lastTestNumber := Number_of_Z 0 |}.

(** [if (currentGroup) groups.push(currentGroup)] *)
Definition seal (groups : list (TestGroup ref)) (currentGroup : option (TestGroup ref))
    : list (TestGroup ref) :=
  match currentGroup with
  | Some g => groups ++ [g]
  | None => groups
  end.

(** [currentGroup && currentGroup.tests.length > 0] *)
Definition has_tests (currentGroup : option (TestGroup ref)) : bool :=
  match currentGroup with
  | Some g => negb (Nat.eqb (length (tests g)) 0)
  | None => false
  end.

(** [test.output.push(line)] *)
Definition push_output (l : jsstring) (t : TestRecord) : TestRecord :=
  {| line := line t; indent := indent t; passed := passed t;
     testNumber := testNumber t; description := description t;
     duration := duration t; hasTodo := hasTodo t; hasSkip := hasSkip t;
     fullLine := fullLine t; output := output t ++ [l] |}.

(** The branch of a test-plan line. *)
Definition plan_step (i : nat) (planMatch : jsmatch) (st : pstate) : pstate :=
  {| store := store st;
     groups := seal (groups st) (currentGroup st);
     currentGroup :=
       Some {| name := str "Tests " ++ template_of (group planMatch 2)
                         ++ str ".." ++ template_of (group planMatch 3);
               group_line := i; tests := [] |};
     currentTest := None;
     lastTestNumber := Number_of_Z 0 |}.

(** The two guards of the test-result branch: a new group when the test
    number resets, and a default group when there is none. *)
Definition reset_step (i : nat) (testNumber : Number) (st : pstate) : pstate :=
  if Number_le testNumber (lastTestNumber st) && has_tests (currentGroup st) then
    let groups' := seal (groups st) (currentGroup st) in
    {| store := store st; groups := groups';
       currentGroup :=
         Some {| name := str "Tests (group " ++ decimal_of_nat (length groups' + 1)
                           ++ str ")";
                 group_line := i; tests := [] |};
       currentTest := currentTest st; lastTestNumber := lastTestNumber st |}
  else st.

Definition default_step (i : nat) (st : pstate) : pstate :=
  match currentGroup st with
  | Some _ => st
  | None =>
      {| store := store st; groups := groups st;
         currentGroup := Some {| name := str "Tests"; group_line := i; tests := [] |};
         currentTest := currentTest st; lastTestNumber := lastTestNumber st |}
  end.

(** The branch of a test-result line. *)
Definition test_step (i : nat) (line : jsstring) (testMatch : jsmatch)
    (st : pstate) : completion pstate :=
  g1 ← deref (group testMatch 1);
  let indent := length g1 in
  let passed := strict_eq (group testMatch 2) "ok" in
  let testNumber := parseInt (group testMatch 3) in
  let rest := or_default (group testMatch 4) [] in
  let st1 := default_step i (reset_step i testNumber st) in
  t ← describe i line indent passed testNumber rest;
  let r := length (store st1) in
  g ← deref (currentGroup st1);
  Normal {| store := store st1 ++ [t];
            groups := groups st1;
            currentGroup :=
              Some {| name := name g; group_line := group_line g;
                      tests := tests g ++ [r] |};
            currentTest := Some r;
            lastTestNumber := testNumber |}.

(** The branch of any other line:
    [if (currentTest && line.trim()) currentTest.output.push(line)]. *)
Definition output_step (line : jsstring) (st : pstate) : pstate :=
  match currentTest st with
  | Some r =>
      if negb (is_empty (trim line)) then
        {| store := alter (push_output line) r (store st);
           groups := groups st; currentGroup := currentGroup st;
           currentTest := currentTest st; lastTestNumber := lastTestNumber st |}
      else st
  | None => st
  end.

Definition parse_body (lines : list jsstring) (i : nat) (st : pstate)
    : completion pstate :=
  line ← deref (lines !! i);
  match js_match line TEST_PLAN_REGEX with
  | Some planMatch => Normal (plan_step i planMatch st)
  | None =>
      match js_match line TEST_RESULT_REGEX with
      | Some testMatch => test_step i line testMatch st
      | None => Normal (output_step line st)
      end
  end.

(** A group with its test objects read from the store. *)
Definition resolve (h : list TestRecord) (g : TestGroup ref) : TestGroup TestRecord :=
  {| name := name g; group_line := group_line g;
     tests := omap (fun r : ref => h !! r) (tests g) |}.

(** The state after the loop over the first [k] lines. *)
Definition run_lines (lines : list jsstring) (k : nat) : completion pstate :=
  for_loop k 0 (parse_body lines) initial.

Definition parseTapContent (text : jsstring)
    : completion (list (TestGroup TestRecord)) :=
  let lines := split_lines text in
  st ← run_lines lines (length lines);
  Normal (map (resolve (store st)) (seal (groups st) (currentGroup st))).

(** What [updateTestsForDocument] reports for one test. *)
Inductive TestState :=
| Skipped
| Passed (duration : option Number)
| Failed (message : jsstring) (duration : option Number).

Definition report (test : TestRecord) : TestState :=
  if hasSkip test then Skipped
  else if hasTodo test then
    if passed test then Passed (duration test) else Skipped
  else if passed test then Passed (duration test)
  else
    Failed (if Nat.ltb 0 (length (output test)) then join [LF] (output test)
            else str "Test failed: " ++ description test)
           (duration test).

(** The test run of [updateTestsForDocument]: per test item, in order, its
    label and the state reported for it. *)
Definition updateTestsForDocument (text : jsstring)
    : completion (list (jsstring * TestState)) :=
  groups ← parseTapContent text;
  Normal (concat (map (fun g =>
    map (fun test =>
          (Number_toString (testNumber test) ++ str ": " ++ description test,
           report test))
        (tests g)) groups)).

End Grouping.


(** ** Positions, ranges and documents of the editor *)

(** [new vscode.Position(line, character)] and [new vscode.Range(start, end)],
    with the arguments they are given. *)
Record Position := { pos_line : nat; pos_character : nat }.
Record Range := { range_start : Position; range_end : Position }.

(** What the providers read of a [vscode.Uri] and of a [vscode.TextDocument]:
    [uri.toString()], [uri.path], [document.languageId], [document.uri] and
    [document.getText()]. *)
Record Uri := { uri_toString : jsstring; uri_path : jsstring }.
Record TextDocument := { languageId : jsstring; doc_uri : Uri; getText : jsstring }.

(** [s.split(sep)] for a separator of one character; never empty. *)
Fixpoint split_aux (sep : char) (cur : jsstring) (s : jsstring) : list jsstring :=
  match s with
  | [] => [rev cur]
  | c :: s' =>
      if char_eqb c sep then rev cur :: split_aux sep [] s'
      else split_aux sep (c :: cur) s'
  end.

Definition split (sep : char) (s : jsstring) : list jsstring := split_aux sep [] s.

(** [a.pop()] read for its value: the last element, or [undefined]. *)
Definition pop (a : list jsstring) : option jsstring := last a.

(** ** The diagnostics provider (first snapshot) *)

(** Source pattern: "/^(\s*)(not ok)\s+(\d+)(?:\s+-\s+(.*))?/" *)
Definition NOT_OK_REGEX : regex :=
  rseq [Bol; Cap 1 (Star is_space); Cap 2 (lit "not ok");
       Plus is_space; Cap 3 (Plus is_digit);
       Opt (rseq [Plus is_space; lit "-"; Plus is_space; Cap 4 (Star is_dot)])].

Module Diagnostics.

Inductive DiagnosticSeverity := Error | Warning.

(** [new vscode.Diagnostic(range, message, severity)] with its [source] and
    its [code] set. *)
Record Diagnostic := {
  range : Range;
  message : jsstring;
  severity : DiagnosticSeverity;
  source : jsstring;
  code : jsstring
}.

Definition diagnose_body (lines : list jsstring) (i : nat)
    (diagnostics : list Diagnostic) : completion (list Diagnostic) :=
  line ← deref (lines !! i);
  match js_match line NOT_OK_REGEX with
  | Some notOkMatch =>
      g1 ← deref (group notOkMatch 1);
      let indent := length g1 in
      let testNumber := group notOkMatch 3 in
      let description :=
        or_default (group notOkMatch 4) (str "Test " ++ template_of testNumber) in
      let hasTodo := js_test TODO_REGEX line in
      let hasSkip := js_test SKIP_REGEX line in
      let range :=
        {| range_start := {| pos_line := i; pos_character := indent |};
           range_end := {| pos_line := i; pos_character := length line |} |} in
      if negb hasTodo && negb hasSkip then
        Normal (diagnostics ++
          [{| range := range;
              message := str "Test failed: " ++ trim (js_remove description COMMENT_REGEX);
              severity := Error; source := str "TAP";
              code := str "not-ok-" ++ template_of testNumber |}])
      else if hasTodo then
        Normal (diagnostics ++
          [{| range := range;
              message := str "TODO: " ++ trim (js_remove description COMMENT_REGEX);
              severity := Warning; source := str "TAP";
              code := str "todo-" ++ template_of testNumber |}])
      else Normal diagnostics
  | None => Normal diagnostics
  end.

(** [updateDiagnostics(document)]: the list that is set for the document in
    the diagnostic collection, or [None] when nothing is set. *)
Definition updateDiagnostics (document : TextDocument)
    : completion (option (list Diagnostic)) :=
  if negb (jsstring_eqb (languageId document) (str "tap")) then Normal None
  else
    let lines := split_lines (getText document) in
    diagnostics ← for_loop (length lines) 0 (diagnose_body lines) [];
    Normal (Some diagnostics).

End Diagnostics.

(** ** The test provider *)

(** The calls that [updateTestsForDocument] makes on its maps, on the test
    controller, on the test items and on the test run, in order.  A test
    item is named by its id. *)
Inductive Call :=
| DocumentsSet (key : jsstring) (document : TextDocument)
| ItemsGet (key : jsstring)
| CreateTestItem (id : jsstring) (label : option jsstring) (uri : Uri)
| ItemsAdd (id : jsstring)
| ChildrenReplace (id : jsstring)
| SetRange (id : jsstring) (range : Range)
| ChildrenAdd (parent child : jsstring)
| TestItemsSet (id : jsstring)
| CreateTestRun (include : list jsstring)
| RunStarted (id : jsstring)
| RunAppendOutput (output : jsstring) (id : jsstring)
| RunSkipped (id : jsstring)
| RunPassed (id : jsstring) (duration : option Number)
| RunFailed (id : jsstring) (message : jsstring) (location : option Position)
            (duration : option Number)
| RunEnd.

(** The start of [updateTestsForDocument] in the three snapshots: the file
    item of the document, found ([known]) or created and added. *)
Definition file_item_calls (known : bool) (uri : Uri) : list Call :=
  ItemsGet (uri_toString uri)
  :: (if known then []
      else [CreateTestItem (uri_toString uri) (pop (split 47%N (uri_path uri))) uri;
            ItemsAdd (uri_toString uri)]).

(** The range of the item of a test. *)
Definition test_range (test : TestRecord) : Range :=
  {| range_start := {| pos_line := line test; pos_character := indent test |};
     range_end := {| pos_line := line test; pos_character := length (fullLine test) |} |}.

Module LegacyProvider.

(** The body of the loop over the tests. *)
Definition test_calls (uri : Uri) (test : TestRecord) : list Call :=
  let testId := uri_toString uri ++ str "#" ++ Number_toString (testNumber test) in
  [CreateTestItem testId
     (Some (Number_toString (testNumber test) ++ str ": " ++ description test)) uri;
   SetRange testId (test_range test);
   ChildrenAdd (uri_toString uri) testId;
   TestItemsSet testId;
   (if hasSkip test then RunSkipped testId
    else if hasTodo test then
      if passed test then RunPassed testId None else RunSkipped testId
    else if passed test then RunPassed testId None
    else RunFailed testId (str "Test failed: " ++ description test) None None)].

Definition updateTestsForDocument (known : bool) (document : TextDocument)
    : completion (list Call) :=
  let uri := doc_uri document in
  tests ← Legacy.parseTapContent (getText document);
  Normal (file_item_calls known uri
          ++ [ChildrenReplace (uri_toString uri); CreateTestRun [uri_toString uri]]
          ++ flat_map (test_calls uri) tests
          ++ [RunEnd]).

End LegacyProvider.

Module FlatProvider.

Definition test_calls (uri : Uri) (test : TestRecord) : list Call :=
  let testId := uri_toString uri ++ str "#" ++ Number_toString (testNumber test) in
  [CreateTestItem testId
     (Some (Number_toString (testNumber test) ++ str ": " ++ description test)) uri;
   SetRange testId (test_range test);
   ChildrenAdd (uri_toString uri) testId;
   TestItemsSet testId;
   (if hasSkip test then RunSkipped testId
    else if hasTodo test then
      if passed test then RunPassed testId (duration test) else RunSkipped testId
    else if passed test then RunPassed testId (duration test)
    else RunFailed testId (str "Test failed: " ++ description test) None
                   (duration test))].

Definition updateTestsForDocument (known : bool) (document : TextDocument)
    : completion (list Call) :=
  let uri := doc_uri document in
  tests ← Flat.parseTapContent (getText document);
  Normal (file_item_calls known uri
          ++ [ChildrenReplace (uri_toString uri); CreateTestRun [uri_toString uri]]
          ++ flat_map (test_calls uri) tests
          ++ [RunEnd]).

End FlatProvider.

Module GroupingProvider.

Definition group_id (uri : Uri) (groupIndex : nat) : jsstring :=
  uri_toString uri ++ str "#group" ++ decimal_of_nat groupIndex.

Definition test_id (uri : Uri) (groupIndex : nat) (test : TestRecord) : jsstring :=
  uri_toString uri ++ str "#" ++ decimal_of_nat groupIndex ++ str ":"
    ++ decimal_of_nat (line test).

(** The state of the first loop: the calls made and [allTestItems]. *)
Definition items := (list Call * list (jsstring * TestRecord))%type.

(** The body of the loop over the tests of a group. *)
Definition test_step (uri : Uri) (parent : jsstring) (groupIndex : nat)
    (st : items) (test : TestRecord) : items :=
  let testId := test_id uri groupIndex test in
  (fst st ++
     [CreateTestItem testId
        (Some (Number_toString (testNumber test) ++ str ": " ++ description test)) uri;
      SetRange testId (test_range test);
      ChildrenAdd parent testId;
      TestItemsSet testId],
   snd st ++ [(testId, test)]).

(** The body of the loop over the groups. *)
Definition group_body (uri : Uri) (groups : list (TestGroup TestRecord))
    (groupIndex : nat) (st : items) : completion items :=
  group ← deref (groups !! groupIndex);
  if Nat.ltb 1 (length groups) then
    let groupId := group_id uri groupIndex in
    Normal (fold_left (test_step uri groupId groupIndex) (tests group)
      (fst st ++
         [CreateTestItem groupId (Some (name group)) uri;
          SetRange groupId
            {| range_start := {| pos_line := group_line group; pos_character := 0 |};
               range_end := {| pos_line := group_line group; pos_character := 0 |} |};
          ChildrenAdd (uri_toString uri) groupId],
       snd st))
  else
    Normal (fold_left (test_step uri (uri_toString uri) groupIndex) (tests group) st).

(** The body of the loop over [allTestItems]. *)
Definition run_calls (entry : jsstring * TestRecord) : list Call :=
  let '(item, test) := entry in
  RunStarted item
  :: (if Nat.ltb 0 (length (output test))
      then [RunAppendOutput (join [CR; LF] (output test) ++ [CR; LF]) item] else [])
  ++ [if hasSkip test then RunSkipped item
      else if hasTodo test then
        if passed test then RunPassed item (duration test) else RunSkipped item
      else if passed test then RunPassed item (duration test)
      else
        RunFailed item
          (if Nat.ltb 0 (length (output test)) then join [LF] (output test)
           else str "Test failed: " ++ description test)
          (Some {| pos_line := line test; pos_character := indent test |})
          (duration test)].

Definition updateTestsForDocument (known : bool) (document : TextDocument)
    : completion (list Call) :=
  let uri := doc_uri document in
  groups ← Grouping.parseTapContent (getText document);
  st ← for_loop (length groups) 0 (group_body uri groups) ([], []);
  Normal (DocumentsSet (uri_toString uri) document
          :: file_item_calls known uri
          ++ [ChildrenReplace (uri_toString uri)]
          ++ fst st
          ++ [CreateTestRun (map fst (snd st))]
          ++ flat_map run_calls (snd st)
          ++ [RunEnd]).

End GroupingProvider.
(* ================================================================== *)
(** * Part III. Specification vocabulary *)
(* ================================================================== *)

(** Every character of [s] is in the class [p]. *)
Definition all_in (p : char -> bool) (s : jsstring) : Prop :=
  Forall (fun c => p c = true) s.

(** [s] does not start with a character of the class [p]. *)
Definition stops (p : char -> bool) (s : jsstring) : Prop :=
  match s with
  | c :: _ => p c = false
  | [] => True
  end.

(** Equality up to the case of ASCII letters. *)
Definition ci_eq (a b : jsstring) : Prop := map ascii_upper a = map ascii_upper b.

(** [line] contains [pat] up to the case of ASCII letters. *)
Definition contains_ci (pat : string) (line : jsstring) : Prop :=
  exists pre sub post, line = pre ++ sub ++ post /\ ci_eq sub (str pat).

(** A run of one or more decimal digits. *)
Definition is_digits (s : jsstring) : Prop := s <> [] /\ all_in is_digit s.

(** A run of one or more white-space characters. *)
Definition is_spaces (s : jsstring) : Prop := s <> [] /\ all_in is_space s.

(** [N..M]: two runs of digits around two dots. *)
Definition plan_text (s a b : jsstring) : Prop :=
  s = a ++ str ".." ++ b /\ is_digits a /\ is_digits b.

(** A decimal number: digits, optionally followed by a dot and digits. *)
Definition is_decimal (s : jsstring) : Prop :=
  is_digits s \/ exists ip fp, s = ip ++ str "." ++ fp /\ is_digits ip /\ is_digits fp.

(** The clause [<spaces>in<spaces><number><unit><spaces?>] of a description,
    with its number and its unit. *)
Definition duration_clause (clause num unit : jsstring) : Prop :=
  exists w1 kw w2 w3,
    clause = w1 ++ kw ++ w2 ++ num ++ unit ++ w3 /\
    is_spaces w1 /\ ci_eq kw (str "in") /\ is_spaces w2 /\ is_decimal num /\
    (ci_eq unit (str "ms") \/ ci_eq unit (str "s")) /\ all_in is_space w3.

(** The same clause without the leading white space. *)
Definition bare_duration_clause (clause num unit : jsstring) : Prop :=
  exists kw w2 w3,
    clause = kw ++ w2 ++ num ++ unit ++ w3 /\
    ci_eq kw (str "in") /\ is_spaces w2 /\ is_decimal num /\
    (ci_eq unit (str "ms") \/ ci_eq unit (str "s")) /\ all_in is_space w3.

(** [prefix_ci pat s]: [s] starts with [pat] up to ASCII case. *)
Fixpoint prefix_ci (pat s : jsstring) : bool :=
  match pat, s with
  | [], _ => true
  | p :: pat', c :: s' => char_eqb (ascii_upper c) (ascii_upper p) && prefix_ci pat' s'
  | _ :: _, [] => false
  end.

(** [prefix pat s]: [s] starts with [pat]. *)
Fixpoint prefix (pat s : jsstring) : bool :=
  match pat, s with
  | [], _ => true
  | p :: pat', c :: s' => char_eqb p c && prefix pat' s'
  | _ :: _, [] => false
  end.

(** The unit of a duration at the start of [s], and what follows it. *)
Definition read_unit (s : jsstring) : option (jsstring * jsstring) :=
  match s with
  | c1 :: c2 :: s' =>
      if prefix_ci (str "ms") s then Some ([c1; c2], s')
      else if prefix_ci (str "s") s then Some ([c1], c2 :: s') else None
  | [c1] => if prefix_ci (str "s") s then Some ([c1], []) else None
  | [] => None
  end.

(** The number of a duration at the start of [s], and what follows it. *)
Definition read_decimal (s : jsstring) : option (jsstring * jsstring) :=
  match span is_digit s with
  | ([], _) => None
  | (ip, s1) =>
      match s1 with
      | c :: s1' =>
          if char_eqb 46%N c then
            match span is_digit s1' with
            | ([], _) => Some (ip, s1)
            | (fp, s2) => Some (ip ++ c :: fp, s2)
            end
          else Some (ip, s1)
      | [] => Some (ip, s1)
      end
  end.

(** What the duration pattern does at one start position: the whole of [s]
    must be the clause; the number and the unit are returned. *)
Definition read_duration (s : jsstring) : option (jsstring * jsstring) :=
  match span is_space s with
  | ([], _) => None
  | (_, s1) =>
      if prefix_ci (str "in") s1 then
        match span is_space (skipn 2 s1) with
        | ([], _) => None
        | (_, s2) =>
            match read_decimal s2 with
            | Some (num, s3) =>
                match read_unit s3 with
                | Some (u, s4) =>
                    match span is_space s4 with
                    | (_, []) => Some (num, u)
                    | _ => None
                    end
                | None => None
                end
            | None => None
            end
        end
      else None
  end.

(** What the plan pattern does on a whole line: leading white space, then
    [N..M] to the end. *)
Definition read_plan (s : jsstring) : option (jsstring * jsstring * jsstring) :=
  let '(ws, s1) := span is_space s in
  match span is_digit s1 with
  | ([], _) => None
  | (a, s2) =>
      if prefix (str "..") s2 then
        match span is_digit (skipn 2 s2) with
        | (c :: b, []) => Some (ws, a, c :: b)
        | _ => None
        end
      else None
  end.

(** A continuation that keeps the captures it is given. *)
Definition keeps (k : mcont) : Prop :=
  forall pos s cs e cs' n,
    k pos s cs = Some (e, cs') -> is_Some (cap_get n cs) -> is_Some (cap_get n cs').


(** A continuation that keeps the text of the group [n]. *)
Definition keeps_at (n : nat) (k : mcont) : Prop :=
  forall pos s cs e cs' v,
    k pos s cs = Some (e, cs') -> cap_get n cs = Some v -> cap_get n cs' = Some v.

(** [no_cap n r]: the group [n] does not occur in [r]. *)
Fixpoint no_cap (n : nat) (r : regex) : bool :=
  match r with
  | Seq r1 r2 => no_cap n r1 && no_cap n r2
  | Alt r1 r2 => no_cap n r1 && no_cap n r2
  | Cap m r' => negb (Nat.eqb m n) && no_cap n r'
  | _ => true
  end.

(** [binds n r]: every match of [r] goes through the group [n]. *)
Fixpoint binds (n : nat) (r : regex) : bool :=
  match r with
  | Seq r1 r2 => binds n r1 || binds n r2
  | Alt r1 r2 => binds n r1 && binds n r2
  | Cap m r' => Nat.eqb m n || binds n r'
  | _ => false
  end.

(** A continuation that fails on every input starting in the class [p]. *)
Definition refuses (p : char -> bool) (k : mcont) : Prop :=
  forall pos c s cs, p c = true -> k pos (c :: s) cs = None.

(** The letter [i] or [I]. *)
Definition i_like (c : char) : bool := char_eqb (ascii_upper c) 73%N.

(** No character of [s] is the letter [i] or [I]. *)
Definition no_i (s : jsstring) : Prop := all_in (fun c => negb (i_like c)) s.

(** A match object without its captures. *)
Definition forget_caps (m : jsmatch) : jsmatch :=
  {| m_index := m_index m; m_end := m_end m; m_caps := [] |}.

(** The description of a test-result line before its duration is read: the
    remainder without its comment, trimmed, or [Test N] when that is empty. *)
Definition cleaned_description (l : jsstring) : jsstring :=
  match js_match l TEST_RESULT_REGEX with
  | Some m =>
      or_default (Some (trim (js_remove (or_default (group m 4) []) COMMENT_REGEX)))
                 (str "Test " ++ Number_toString (parseInt (group m 3)))
  | None => []
  end.

(** [t] is the test object that the flat and the grouping snapshots build
    for the test-result line [l] at index [i]. *)
Definition record_of (i : nat) (l : jsstring) (t : TestRecord) : Prop :=
  exists m g1,
    js_match l TEST_RESULT_REGEX = Some m /\ group m 1 = Some g1 /\
    describe i l (length g1) (strict_eq (group m 2) "ok") (parseInt (group m 3))
      (or_default (group m 4) []) = Normal t.

(** A test object without its captured output. *)
Definition erase_output (t : TestRecord) : TestRecord :=
  {| line := line t; indent := indent t; passed := passed t;
     testNumber := testNumber t; description := description t;
     duration := duration t; hasTodo := hasTodo t; hasSkip := hasSkip t;
     fullLine := fullLine t; output := [] |}.

(** The Number of a duration given its number and unit. *)
Definition milliseconds (num u : jsstring) : Number :=
  if jsstring_eqb (toLowerCase u) (str "s")
  then Number_mul (parseFloat (Some num)) (Number_of_Z 1000)
  else parseFloat (Some num).

(** ** Invariants of the grouping pass *)

(** [x <= y], and [x > y], as propositions. *)
Definition Number_le_prop (x y : Number) : Prop := Number_le x y = true.
Definition Number_gt_prop (y x : Number) : Prop := Number_le y x = false.

Definition is_NaN (x : Number) : bool :=
  match x with S754_nan => true | _ => false end.

(** Every reference held by a group, sealed groups first. *)
Definition all_refs (st : Grouping.pstate) : list Grouping.ref :=
  concat (map tests (Grouping.seal (Grouping.groups st) (Grouping.currentGroup st))).

(** The references are the store, in allocation order; the test pointer,
    when set, is the latest object and sits in the current group. *)
Definition refs_ok (st : Grouping.pstate) : Prop :=
  all_refs st = seq 0 (length (Grouping.store st)) /\
  forall r, Grouping.currentTest st = Some r ->
    S r = length (Grouping.store st) /\ Grouping.has_tests (Grouping.currentGroup st) = true.

(** The test numbers of a group of references. *)
Definition ordinals (h : list TestRecord) (refs : list Grouping.ref) : list Number :=
  map testNumber (omap (fun r : Grouping.ref => h !! r) refs).

(** Test numbers are never NaN, each group is strictly ascending and
    [lastTestNumber] is the last number of the current group. *)
Definition ordinals_ok (st : Grouping.pstate) : Prop :=
  Forall (fun t => is_NaN (testNumber t) = false) (Grouping.store st) /\
  is_NaN (Grouping.lastTestNumber st) = false /\
  Forall (fun g => Sorted (fun a b => Number_gt_prop b a) (ordinals (Grouping.store st) (tests g)))
    (Grouping.seal (Grouping.groups st) (Grouping.currentGroup st)) /\
  forall g x, Grouping.currentGroup st = Some g ->
    last (ordinals (Grouping.store st) (tests g)) = Some x ->
    Grouping.lastTestNumber st = x.

(** Every test object comes from a test-result line before index [k], and
    its output holds no blank line. *)
Definition provenance (lines : list jsstring) (k : nat) (st : Grouping.pstate) : Prop :=
  Forall (fun t =>
    line t < k /\ lines !! line t = Some (fullLine t) /\
    js_match (fullLine t) TEST_PLAN_REGEX = None /\
    record_of (line t) (fullLine t) (erase_output t) /\
    Forall (fun o => trim o <> []) (output t)) (Grouping.store st).

(** Every group of a state: the sealed ones, then the current one. *)
Definition group_list (st : Grouping.pstate) : list (TestGroup Grouping.ref) :=
  Grouping.seal (Grouping.groups st) (Grouping.currentGroup st).

(** What later steps keep of a state [b]: the first [n0] test objects as
    they are and the sealed groups; the test pointer stays at or above
    [n0]. *)
Definition frozen (n0 : nat) (b st : Grouping.pstate) : Prop :=
  n0 <= length (Grouping.store st) /\
  take n0 (Grouping.store st) = take n0 (Grouping.store b) /\
  (exists more, Grouping.groups st = Grouping.groups b ++ more) /\
  forall r, Grouping.currentTest st = Some r -> n0 <= r.

(** How a state [st] continues a state [b] reached before line [j]: test
    objects keep their fields but the output, the objects added since come
    from line [j] on, and the current group of [b] keeps its place, its
    name and its line, and has only received objects added since. *)
Definition continues (j : nat) (b st : Grouping.pstate) : Prop :=
  length (Grouping.store b) <= length (Grouping.store st) /\
  (forall r t, Grouping.store b !! r = Some t ->
     exists t', Grouping.store st !! r = Some t' /\ erase_output t' = erase_output t) /\
  (forall r t, length (Grouping.store b) <= r -> Grouping.store st !! r = Some t ->
     j <= line t) /\
  (forall g0, Grouping.currentGroup b = Some g0 ->
     exists g new,
       group_list st !! length (Grouping.groups b) = Some g /\
       name g = name g0 /\ group_line g = group_line g0 /\
       tests g = tests g0 ++ new /\
       Forall (fun r => length (Grouping.store b) <= r) new).

(** The three invariants after [k] lines. *)
Definition grouping_inv (lines : list jsstring) (k : nat) (st : Grouping.pstate) : Prop :=
  refs_ok st /\ ordinals_ok st /\ provenance lines k st.

(** [t] is the test object that the legacy snapshot builds for the
    test-result line [l] at index [i]. *)
Definition legacy_record_of (i : nat) (l : jsstring) (t : TestRecord) : Prop :=
  exists m g1,
    js_match l DASHED_RESULT_REGEX = Some m /\ group m 1 = Some g1 /\
    t = {| line := i; indent := length g1; passed := strict_eq (group m 2) "ok";
           testNumber := parseInt (group m 3);
           description :=
             or_default (Some (trim (js_remove (or_default (group m 4) []) COMMENT_REGEX)))
                        (str "Test " ++ Number_toString (parseInt (group m 3)));
           duration := None;
           hasTodo := js_test TODO_REGEX l; hasSkip := js_test SKIP_REGEX l;
           fullLine := l; output := [] |}.

(** The tests of a flat parse after [k] lines: one per matching line, in
    order, each built from its line. *)
Definition flat_inv (matches : jsstring -> bool)
    (built : nat -> jsstring -> TestRecord -> Prop)
    (lines : list jsstring) (k : nat) (ts : list TestRecord) : Prop :=
  Forall (fun t => line t < k /\ lines !! line t = Some (fullLine t) /\
                   built (line t) (fullLine t) t) ts /\
  forall i l, i < k -> lines !! i = Some l -> matches l = true ->
    exists t, In t ts /\ line t = i /\ fullLine t = l.

Definition is_result_line (l : jsstring) : bool :=
  match js_match l TEST_RESULT_REGEX with Some _ => true | None => false end.

Definition is_dashed_result_line (l : jsstring) : bool :=
  match js_match l DASHED_RESULT_REGEX with Some _ => true | None => false end.

Definition is_plan_line (l : jsstring) : bool :=
  match js_match l TEST_PLAN_REGEX with Some _ => true | None => false end.

(** The directive flags of the tests of a parse, in order. *)
Definition flags_of (c : completion (list (TestGroup TestRecord))) : list (bool * bool) :=
  match c with
  | Normal gs => concat (map (fun g => map (fun t => (hasTodo t, hasSkip t)) (tests g)) gs)
  | Throw _ => []
  end.

(** Two texts with a line feed between them. *)
Definition nl (a b : string) : string := (a ++ String (ascii_of_nat 10) b)%string.

(** A text from its lines. *)
Definition text_of (ls : list string) : jsstring := join [LF] (map str ls).

(** ** Folding *)

(** The state of the current-test folding after [k] lines. *)
Definition fold_lines (lines : list jsstring) (k : nat) : completion CurrentTest.fstate :=
  for_loop k 0 (CurrentTest.fold_body lines)
    {| CurrentTest.foldingRanges := []; CurrentTest.currentTestLine := (-1)%Z |}.

(** The state of the plan-stack folding after [k] lines. *)
Definition stack_lines (lines : list jsstring) (k : nat) : completion Legacy.fstate :=
  for_loop k 0 (Legacy.fold_body lines)
    {| Legacy.foldingRanges := []; Legacy.stack := [] |}.

(** The fold of a YAML block and the fold of a test or of a plan. *)
Definition region (i j : nat) : FoldingRange :=
  {| fr_start := Z.of_nat i; fr_end := Z.of_nat j; fr_kind := Some Region |}.

Definition plain_fold (c e : Z) : FoldingRange :=
  {| fr_start := c; fr_end := e; fr_kind := None |}.

Definition starts_at (i : nat) (f : FoldingRange) : bool :=
  (fr_start f =? Z.of_nat i)%Z.

(** The line [j] closes a YAML block; it is the first one after [i] to. *)
Definition closes (lines : list jsstring) (j : nat) : Prop :=
  exists l, lines !! j = Some l /\ trim l = str "...".

Definition first_close (lines : list jsstring) (i j : nat) : Prop :=
  i < j /\ closes lines j /\ forall j', i < j' < j -> ~ closes lines j'.

(** Where the folds of a run start: at a line the pass recognises ([head])
    for a plain fold, at a [---] line for a region. *)
Definition starts_ok (head : jsstring -> Prop) (lines : list jsstring)
    (fs : list FoldingRange) : Prop :=
  Forall (fun f => exists i l, fr_start f = Z.of_nat i /\ lines !! i = Some l /\
                     (fr_kind f = None /\ head l
                      \/ fr_kind f = Some Region /\ trim l = str "---")) fs.

(** The folds that start at a [---] line [i] once [k] lines are read. *)
Definition regions_ok (lines : list jsstring) (k : nat) (fs : list FoldingRange) : Prop :=
  forall i l, lines !! i = Some l -> trim l = str "---" ->
    (k <= i -> List.filter (starts_at i) fs = []) /\
    (i < k ->
       (forall j, first_close lines i j -> List.filter (starts_at i) fs = [region i j]) /\
       ((forall j, i < j -> ~ closes lines j) -> List.filter (starts_at i) fs = [])).

(** [t'] is [t], but for one line [l] that its output may lack. *)
Definition without_line (l : jsstring) (t t' : TestRecord) : Prop :=
  erase_output t = erase_output t' /\
  (output t' = output t
   \/ exists o1 o2, output t = o1 ++ l :: o2 /\ output t' = o1 ++ o2).

(** Two states of the grouping pass that differ by that line at most. *)
Definition alike (l : jsstring) (st st' : Grouping.pstate) : Prop :=
  Grouping.groups st = Grouping.groups st' /\
  Grouping.currentGroup st = Grouping.currentGroup st' /\
  Grouping.currentTest st = Grouping.currentTest st' /\
  Grouping.lastTestNumber st = Grouping.lastTestNumber st' /\
  Forall2 (without_line l) (Grouping.store st) (Grouping.store st').

(** Two results of the grouping pass that differ by that line at most. *)
Definition same_groups (l : jsstring) (gs gs' : list (TestGroup TestRecord)) : Prop :=
  Forall2 (fun g g' => name g = name g' /\ group_line g = group_line g' /\
                       Forall2 (without_line l) (tests g) (tests g')) gs gs'.

(** The lines at which each folding pass starts a plain fold. *)
Definition result_head (l : jsstring) : Prop := is_result_line l = true.

Definition plan_head (l : jsstring) : Prop :=
  js_match (trim l) TRIMMED_PLAN_REGEX <> None.

(** The state of the current-test folding after [k] lines: where its folds
    start, and that the current test line is a test-result line. *)
Definition current_inv (lines : list jsstring) (k : nat) (st : CurrentTest.fstate) : Prop :=
  starts_ok result_head lines (CurrentTest.foldingRanges st) /\
  regions_ok lines k (CurrentTest.foldingRanges st) /\
  (CurrentTest.currentTestLine st = (-1)%Z
   \/ exists c l, c < k /\ CurrentTest.currentTestLine st = Z.of_nat c /\
                  lines !! c = Some l /\ result_head l).

(** The state of the plan-stack folding after [k] lines. *)
Definition stack_inv (lines : list jsstring) (k : nat) (st : Legacy.fstate) : Prop :=
  starts_ok plan_head lines (Legacy.foldingRanges st) /\
  regions_ok lines k (Legacy.foldingRanges st) /\
  Forall (fun e => exists l, lines !! Legacy.startLine e = Some l /\ plan_head l)
    (Legacy.stack st).

(** A text with its line [i] replaced by the empty line. *)
Definition blanked (i : nat) (text : jsstring) : jsstring :=
  join [LF] (<[i := []]> (split_lines text)).

(** A line holds no line feed. *)
Definition lf_free (s : jsstring) : Prop := all_in (fun c => negb (char_eqb c LF)) s.

(** ** Lines of a text *)

(** The line [i], or the empty line past the end. *)
Definition line_at (lines : list jsstring) (i : nat) : jsstring :=
  match lines !! i with
  | Some l => l
  | None => []
  end.

(** The indices below [k] of the lines that [matches] holds of, ascending. *)
Definition lines_where (matches : jsstring -> bool) (lines : list jsstring) (k : nat)
    : list nat :=
  List.filter (fun i => matches (line_at lines i)) (seq 0 k).

(** A line that is neither a test-plan line nor a test-result line. *)
Definition is_other_line (l : jsstring) : bool :=
  negb (is_plan_line l) && negb (is_result_line l).

(** What a test captures of the lines that follow it: those that are not
    blank once trimmed, up to the next test-plan or test-result line. *)
Fixpoint captured (ls : list jsstring) : list jsstring :=
  match ls with
  | [] => []
  | l :: ls' =>
      if is_other_line l then
        if negb (is_empty (trim l)) then l :: captured ls' else captured ls'
      else []
  end.

(** The lines from [a] up to [k], [k] excluded. *)
Definition segment (lines : list jsstring) (a k : nat) : list jsstring :=
  take (k - a) (drop a lines).

(** The output of every test object after [k] lines: what it captured of
    the lines after its own; the lines after the current test are all
    other lines, and some line after any other test is not. *)
Definition outputs_ok (lines : list jsstring) (k : nat) (st : Grouping.pstate) : Prop :=
  forall r t, Grouping.store st !! r = Some t ->
    line t < k /\
    output t = captured (segment lines (S (line t)) k) /\
    (Grouping.currentTest st = Some r ->
     forallb is_other_line (segment lines (S (line t)) k) = true) /\
    (Grouping.currentTest st <> Some r ->
     forallb is_other_line (segment lines (S (line t)) k) = false).

(** The two kinds of group at the place [n] of the result: one that a
    test-plan line starts, named from it, whose tests come after it; one
    that a test-result line starts, whose first test is on that line, named
    [Tests] at the first place and [Tests (group n+1)] elsewhere. *)
Definition group_shape (lines : list jsstring) (n : nat)
    (gname : jsstring) (gline : nat) (test_lines : list nat) : Prop :=
  (exists ws a b,
     lines !! gline = Some (ws ++ a ++ str ".." ++ b) /\
     all_in is_space ws /\ is_digits a /\ is_digits b /\
     gname = str "Tests " ++ a ++ str ".." ++ b /\
     Forall (fun i => gline < i) test_lines)
  \/ (exists rest,
        test_lines = gline :: rest /\ is_result_line (line_at lines gline) = true /\
        (n = 0 /\ gname = str "Tests"
         \/ 0 < n /\ gname = str "Tests (group " ++ decimal_of_nat (n + 1) ++ str ")")).

(** The lines of the tests of a group of references. *)
Definition test_lines (h : list TestRecord) (refs : list Grouping.ref) : list nat :=
  map line (omap (fun r : Grouping.ref => h !! r) refs).

(** The groups after [k] lines: in the order of their lines, each of one
    of the two kinds. *)
Definition groups_ok (lines : list jsstring) (k : nat) (st : Grouping.pstate) : Prop :=
  (Grouping.currentGroup st = None -> Grouping.groups st = []) /\
  Forall (fun g => group_line g < k) (group_list st) /\
  StronglySorted lt (map group_line (group_list st)) /\
  forall n g, group_list st !! n = Some g ->
    group_shape lines n (name g) (group_line g) (test_lines (Grouping.store st) (tests g)).

(** ** Folds *)

(** A fold inside a text of [n] lines, over two lines or more. *)
Definition fold_in_bounds (n : nat) (f : FoldingRange) : Prop :=
  (0 <= fr_start f)%Z /\ (fr_start f < fr_end f)%Z /\ (fr_end f < Z.of_nat n)%Z.

(** The lines [c+1 .. e] are what follows the test-result line [c] up to,
    and without, the test-plan or test-result line [e+1], which is among
    the first [k] lines. *)
Definition hides_upto (lines : list jsstring) (k c e : nat) : Prop :=
  c < e /\ S e < k /\ is_result_line (line_at lines c) = true /\
  (forall j, c < j <= e -> is_other_line (line_at lines j) = true) /\
  is_other_line (line_at lines (S e)) = false.

(** The same up to the next such line or to the last line of the text. *)
Definition hides (lines : list jsstring) (c e : nat) : Prop :=
  c < e /\ e < length lines /\ is_result_line (line_at lines c) = true /\
  (forall j, c < j <= e -> is_other_line (line_at lines j) = true) /\
  (S e = length lines \/ is_other_line (line_at lines (S e)) = false).

(** The state of the current-test folding after [k] lines: its plain folds
    are the tests closed so far with what they hide, and the current test
    line is the last test-result line when no test-plan line follows it. *)
Definition extent_inv (lines : list jsstring) (k : nat) (st : CurrentTest.fstate) : Prop :=
  (forall f, In f (CurrentTest.foldingRanges st) -> fr_kind f = None ->
     exists c e, f = plain_fold (Z.of_nat c) (Z.of_nat e) /\ hides_upto lines k c e) /\
  (forall c e, hides_upto lines k c e ->
     In (plain_fold (Z.of_nat c) (Z.of_nat e)) (CurrentTest.foldingRanges st)) /\
  ((CurrentTest.currentTestLine st = (-1)%Z /\
    forall c, c < k -> is_result_line (line_at lines c) = true ->
      exists j, c < j < k /\ is_other_line (line_at lines j) = false)
   \/ exists c0, c0 < k /\ CurrentTest.currentTestLine st = Z.of_nat c0 /\
        is_result_line (line_at lines c0) = true /\
        forall j, c0 < j < k -> is_other_line (line_at lines j) = true).

(** ** The head of a test-result line *)

(** [ok] or [not ok] at the start of [s], and what follows it. *)
Definition read_verdict (s : jsstring) : option (jsstring * jsstring) :=
  if prefix (str "ok") s then Some (str "ok", skipn 2 s)
  else if prefix (str "not ok") s then Some (str "not ok", skipn 6 s)
  else None.

(** [not ok] at the start of [s], and what follows it. *)
Definition read_not_ok (s : jsstring) : option (jsstring * jsstring) :=
  if prefix (str "not ok") s then Some (str "not ok", skipn 6 s) else None.

(** What the test-result patterns do up to the test number: the leading
    white space, the verdict, white space, the digits; and what follows. *)
Definition read_head_with (rv : jsstring -> option (jsstring * jsstring))
    (l : jsstring) : option (jsstring * jsstring * jsstring * jsstring) :=
  let '(ws, s1) := span is_space l in
  match rv s1 with
  | Some (v, s2) =>
      match span is_space s2 with
      | ([], _) => None
      | (_, s3) =>
          match span is_digit s3 with
          | ([], _) => None
          | (ds, rest) => Some (ws, v, ds, rest)
          end
      end
  | None => None
  end.

Definition read_head := read_head_with read_verdict.

(** The pattern of a test-result line with its verdict [v] and its tail
    [t], the part after the number. *)
Definition result_pattern (v t : regex) : regex :=
  Seq Bol (Seq (Cap 1 (Star is_space)) (Seq (Cap 2 v)
    (Seq (Plus is_space) (Seq (Cap 3 (Plus is_digit)) (Opt t))))).

Definition is_not_ok_line (l : jsstring) : bool :=
  match js_match l NOT_OK_REGEX with Some _ => true | None => false end.

(** The number of white-space characters that start a line. *)
Definition indentation (l : jsstring) : nat := length l - length (trimStart l).

(** The head fields of a test object. *)
Definition head_fields (t : TestRecord)
    : nat * nat * bool * Number * bool * bool * jsstring :=
  (line t, indent t, passed t, testNumber t, hasTodo t, hasSkip t, fullLine t).

(** The head fields of the test object of the line [l] at index [i]. *)
Definition head_of_line (i : nat) (l : jsstring)
    : option (nat * nat * bool * Number * bool * bool * jsstring) :=
  match read_head l with
  | Some (ws, w, ds, _) =>
      Some (i, length ws, jsstring_eqb w (str "ok"), parseInt (Some ds),
            js_test TODO_REGEX l, js_test SKIP_REGEX l, l)
  | None => None
  end.

(** The head fields of the lines below [k]. *)
Definition heads_upto (lines : list jsstring) (k : nat)
    : list (nat * nat * bool * Number * bool * bool * jsstring) :=
  omap (fun i => head_of_line i (line_at lines i)) (seq 0 k).

(** ** Diagnostics *)

Definition diagnostic_line (d : Diagnostics.Diagnostic) : nat :=
  pos_line (range_start (Diagnostics.range d)).

(** A line that gets a diagnostic: a [not ok] line with [# TODO], or
    without [# SKIP]. *)
Definition is_diagnosed (l : jsstring) : bool :=
  is_not_ok_line l && (js_test TODO_REGEX l || negb (js_test SKIP_REGEX l)).

(** What a diagnostic shows: its range and its severity. *)
Definition shown (d : Diagnostics.Diagnostic) : Range * Diagnostics.DiagnosticSeverity :=
  (Diagnostics.range d, Diagnostics.severity d).

(** The diagnostic that a test calls for: none when it passed; a warning
    over its test item when it failed with [# TODO]; none when it failed
    with [# SKIP] only; an error over its test item otherwise. *)
Definition diagnosis_of (t : TestRecord)
    : option (Range * Diagnostics.DiagnosticSeverity) :=
  if passed t then None
  else if hasTodo t then Some (test_range t, Diagnostics.Warning)
  else if hasSkip t then None
  else Some (test_range t, Diagnostics.Error).

(** The same from the head fields. *)
Definition head_diagnosis (h : nat * nat * bool * Number * bool * bool * jsstring)
    : option (Range * Diagnostics.DiagnosticSeverity) :=
  let '(i, ind, p, _, todo, skip, l) := h in
  let r := {| range_start := {| pos_line := i; pos_character := ind |};
              range_end := {| pos_line := i; pos_character := length l |} |} in
  if p then None
  else if todo then Some (r, Diagnostics.Warning)
  else if skip then None
  else Some (r, Diagnostics.Error).

(** A range inside one line of the text, its start not after its end. *)
Definition range_in_line (lines : list jsstring) (r : Range) : Prop :=
  pos_line (range_end r) = pos_line (range_start r) /\
  pos_line (range_start r) < length lines /\
  pos_character (range_start r) <= pos_character (range_end r) /\
  pos_character (range_end r) <= length (line_at lines (pos_line (range_start r))).

(** ** Calls of the test provider *)

Definition created_id (c : Call) : option jsstring :=
  match c with CreateTestItem id _ _ => Some id | _ => None end.

Definition range_set (c : Call) : option Range :=
  match c with SetRange _ r => Some r | _ => None end.

(** The entries of [allTestItems] for the group [g] at the place [gi], and
    the ids of the items created for it. *)
Definition group_entries (uri : Uri) (gi : nat) (g : TestGroup TestRecord)
    : list (jsstring * TestRecord) :=
  map (fun t => (GroupingProvider.test_id uri gi t, t)) (tests g).

Definition group_ids (uri : Uri) (multi : bool) (gi : nat) (g : TestGroup TestRecord)
    : list jsstring :=
  (if multi then [GroupingProvider.group_id uri gi] else [])
  ++ map fst (group_entries uri gi g).

(** What an item stands for: the file, the group at a place, or the test
    of a line in the group at a place. *)
Inductive ItemKey :=
| FileKey
| GroupKey (groupIndex : nat)
| TestKey (groupIndex : nat) (test_line : nat).

Definition key_id (uri : Uri) (k : ItemKey) : jsstring :=
  match k with
  | FileKey => uri_toString uri
  | GroupKey gi => GroupingProvider.group_id uri gi
  | TestKey gi l =>
      uri_toString uri ++ str "#" ++ decimal_of_nat gi ++ str ":" ++ decimal_of_nat l
  end.

Definition group_keys (multi : bool) (gi : nat) (g : TestGroup TestRecord)
    : list ItemKey :=
  (if multi then [GroupKey gi] else []) ++ map (fun t => TestKey gi (line t)) (tests g).

Definition key_index (k : ItemKey) : option nat :=
  match k with
  | FileKey => None
  | GroupKey gi => Some gi
  | TestKey gi _ => Some gi
  end.

Inductive Outcome := WasSkipped | WasPassed | WasFailed.

Definition outcome_of (c : Call) : option Outcome :=
  match c with
  | RunSkipped _ => Some WasSkipped
  | RunPassed _ _ => Some WasPassed
  | RunFailed _ _ _ _ => Some WasFailed
  | _ => None
  end.

(** The outcome that a test-result line calls for: skipped with [# SKIP];
    with [# TODO], passed when [ok] and skipped when [not ok]; passed or
    failed otherwise. *)
Definition line_outcome (l : jsstring) : Outcome :=
  let ok := match read_head l with
            | Some (_, v, _, _) => jsstring_eqb v (str "ok")
            | None => false
            end in
  if js_test SKIP_REGEX l then WasSkipped
  else if js_test TODO_REGEX l then (if ok then WasPassed else WasSkipped)
  else if ok then WasPassed else WasFailed.

(** The same for a test object. *)
Definition test_outcome (t : TestRecord) : Outcome :=
  if hasSkip t then WasSkipped
  else if hasTodo t then (if passed t then WasPassed else WasSkipped)
  else if passed t then WasPassed else WasFailed.

(** ** The folds of the plan-stack folding *)








(* ================================================================== *)
(** * Part IV. The regular expressions of the extension *)
(* ================================================================== *)

(** ** Character classes *)

Ltac bool_props :=
  repeat (progress rewrite ?orb_true_iff, ?andb_true_iff, ?orb_false_iff,
            ?andb_false_iff, ?negb_true_iff, ?negb_false_iff,
            ?N.eqb_eq, ?N.eqb_neq, ?N.leb_le, ?N.leb_gt in * ).

(** Decides a relation between the classes of one character. *)
Ltac chars :=
  repeat match goal with
  | |- context [char_of_ascii ?a] =>
      let v := eval vm_compute in (char_of_ascii a) in
      change (char_of_ascii a) with v
  | H : context [char_of_ascii ?a] |- _ =>
      let v := eval vm_compute in (char_of_ascii a) in
      change (char_of_ascii a) with v in H
  end;
  unfold is_dot, is_space, is_digit, is_line_terminator, char_eqb,
    ascii_upper, ascii_lower in *;
  repeat match goal with
  | |- context [if ?b then _ else _] => destruct b eqn:?
  | H : context [if ?b then _ else _] |- _ => destruct b eqn:?
  end;
  bool_props; try lia.

Lemma space_not_digit c : is_space c = true -> is_digit c = false.
Proof. intros H. chars. Qed.

Lemma digit_not_space c : is_digit c = true -> is_space c = false.
Proof. intros H. chars. Qed.

(** ** Prefixes in a class *)

Lemma span_spec p s a b :
  span p s = (a, b) -> s = a ++ b /\ all_in p a /\ stops p b.
Proof.
  revert a b. induction s as [|c s IH]; intros a b; simpl.
  - intros [= <- <-]. repeat split. constructor.
  - destruct (p c) eqn:Hc.
    + destruct (span p s) as [a' b'] eqn:Hs. intros [= <- <-].
      destruct (IH _ _ eq_refl) as (-> & Ha & Hb).
      repeat split; [constructor; assumption | assumption].
    + intros [= <- <-]. repeat split; [constructor | exact Hc].
Qed.

Lemma span_intro p a b : all_in p a -> stops p b -> span p (a ++ b) = (a, b).
Proof.
  intros Ha Hb. induction Ha as [|c a Hc Ha IH]; simpl.
  - destruct b as [|c b]; [reflexivity|]. simpl in *. now rewrite Hb.
  - cbv beta in Hc. now rewrite Hc, IH.
Qed.

Lemma span_all p a : all_in p a -> span p a = (a, []).
Proof.
  intros Ha. rewrite <- (app_nil_r a) at 1. now apply span_intro.
Qed.

Lemma span_eta p s : s = fst (span p s) ++ snd (span p s).
Proof.
  destruct (span p s) as [a b] eqn:H. now destruct (span_spec _ _ _ _ H).
Qed.

Lemma trimStart_span s : trimStart s = snd (span is_space s).
Proof.
  induction s as [|c s IH]; simpl; [reflexivity|].
  destruct (is_space c); [|reflexivity].
  rewrite IH. now destruct (span is_space s).
Qed.

Lemma trimStart_stops s : stops is_space (trimStart s).
Proof.
  rewrite trimStart_span. destruct (span is_space s) as [a b] eqn:H.
  now destruct (span_spec _ _ _ _ H) as (_ & _ & ?).
Qed.

Lemma trimStart_app_spaces w s : all_in is_space w -> trimStart (w ++ s) = trimStart s.
Proof.
  induction 1 as [|c w Hc _ IH]; simpl; [reflexivity|]. cbv beta in Hc. now rewrite Hc.
Qed.

Lemma trimStart_id s : stops is_space s -> trimStart s = s.
Proof. destruct s as [|c s]; simpl; [reflexivity|]. now intros ->. Qed.

(** ** The greedy quantifier *)

(** When the continuation refuses every input that starts in the class, a
    shorter repetition cannot succeed: the quantifier takes the whole run. *)
Lemma star_loop_det p k pos s :
  (forall pos' c s', p c = true -> k pos' (c :: s') = None) ->
  star_loop p k pos s
  = k (pos + length (fst (span p s))) (snd (span p s)).
Proof.
  intros Hk. revert pos. induction s as [|c s IH]; intros pos; simpl.
  - now rewrite Nat.add_0_r.
  - destruct (p c) eqn:Hc.
    + rewrite IH. destruct (span p s) as [a b]. simpl.
      rewrite (Hk pos c s Hc). rewrite Nat.add_succ_r.
      now destruct (k _ b).
    + simpl. now rewrite Nat.add_0_r.
Qed.

(** When the continuation accepts after the whole run, that is the match. *)
Lemma star_loop_commit p k pos s r :
  k (pos + length (fst (span p s))) (snd (span p s)) = Some r ->
  star_loop p k pos s = Some r.
Proof.
  revert pos. induction s as [|c s IH]; intros pos; simpl.
  - now rewrite Nat.add_0_r.
  - destruct (p c) eqn:Hc.
    + destruct (span p s) as [a b] eqn:Hs. simpl. intros H.
      rewrite (IH (S pos)); [reflexivity|]. simpl.
      now rewrite Nat.add_succ_r in H.
    + simpl. now rewrite Nat.add_0_r.
Qed.

(** A quantifier only ever hands the continuation a suffix of its input. *)
Lemma star_loop_inv p k pos s r :
  star_loop p k pos s = Some r ->
  exists a b, s = a ++ b /\ all_in p a /\ k (pos + length a) b = Some r.
Proof.
  revert pos. induction s as [|c s IH]; intros pos; simpl.
  - intros H. exists [], []. rewrite Nat.add_0_r. repeat split; [constructor | exact H].
  - destruct (p c) eqn:Hc.
    + destruct (star_loop p k (S pos) s) as [r'|] eqn:Hs; simpl.
      * intros [= <-]. destruct (IH _ Hs) as (a & b & -> & Ha & Hk).
        exists (c :: a), b. repeat split; [constructor; assumption|].
        simpl. now rewrite Nat.add_succ_r.
      * intros H. exists [], (c :: s). rewrite Nat.add_0_r.
        repeat split; [constructor | exact H].
    + intros H. exists [], (c :: s). rewrite Nat.add_0_r.
      repeat split; [constructor | exact H].
Qed.

(** ** Captures of a successful match *)

Lemma keeps_accept : keeps accept.
Proof. intros pos s cs e cs' n [= <- <-] H. exact H. Qed.

Lemma cap_get_cons_keep n m v cs :
  is_Some (cap_get n cs) -> is_Some (cap_get n ((m, v) :: cs)).
Proof. simpl. destruct (Nat.eqb m n); [eexists; reflexivity | trivial]. Qed.

Lemma run_keeps r : forall k, keeps k -> keeps (run r k).
Proof.
  induction r as [| | |p|p|r1 IH1 r2 IH2|r1 IH1 r2 IH2|m r IH];
    intros k Hk pos s cs e cs' n; simpl.
  - apply Hk.
  - destruct (Nat.eqb pos 0); [apply Hk | discriminate].
  - destruct s; [apply Hk | discriminate].
  - destruct s as [|c s]; [discriminate|]. destruct (p c); [apply Hk | discriminate].
  - intros H. destruct (star_loop_inv _ _ _ _ _ H) as (a & b & _ & _ & H').
    eapply Hk, H'.
  - apply IH1, IH2, Hk.
  - destruct (run r1 k pos s cs) as [[e1 c1]|] eqn:H1; simpl.
    + intros [= <- <-]. eapply IH1; eassumption.
    + eapply IH2; eassumption.
  - apply IH. intros pos' s' cs0 e0 cs0' n0 H0 Hn.
    eapply Hk; [exact H0|]. now apply cap_get_cons_keep.
Qed.


(** The result of a match is the result of its continuation. *)
Lemma run_via r : forall k pos s cs res,
  run r k pos s cs = Some res -> exists pos' s' cs', k pos' s' cs' = Some res.
Proof.
  induction r as [| | |p|p|r1 IH1 r2 IH2|r1 IH1 r2 IH2|m r IH];
    intros k pos s cs res; simpl.
  - eauto.
  - destruct (Nat.eqb pos 0); [eauto | discriminate].
  - destruct s; [eauto | discriminate].
  - destruct s as [|c s]; [discriminate|]. destruct (p c); [eauto | discriminate].
  - intros H. destruct (star_loop_inv _ _ _ _ _ H) as (a & b & _ & _ & H'). eauto.
  - intros H. destruct (IH1 _ _ _ _ _ H) as (pos' & s' & cs' & H'). eauto.
  - destruct (run r1 k pos s cs) as [res1|] eqn:H1; simpl.
    + intros [= <-]. eauto.
    + eauto.
  - intros H. destruct (IH _ _ _ _ _ H) as (pos' & s' & cs' & H'). eauto.
Qed.

(** A group on every path of the pattern is defined in every match. *)
Lemma run_binds n r : forall k pos s cs e cs',
  binds n r = true -> keeps k ->
  run r k pos s cs = Some (e, cs') -> is_Some (cap_get n cs').
Proof.
  induction r as [| | |p|p|r1 IH1 r2 IH2|r1 IH1 r2 IH2|m r IH];
    intros k pos s cs e cs' Hb Hk; simpl in *; try discriminate.
  - apply orb_true_iff in Hb as [Hb|Hb].
    + apply (IH1 _ _ _ _ _ _ Hb). now apply run_keeps.
    + intros H. destruct (run_via _ _ _ _ _ _ H) as (pos' & s' & cs0 & H').
      eapply IH2; eassumption.
  - apply andb_true_iff in Hb as [Hb1 Hb2].
    destruct (run r1 k pos s cs) as [[e1 c1]|] eqn:H1; simpl.
    + intros [= <- <-]. eapply IH1; eassumption.
    + eapply IH2; eassumption.
  - apply orb_true_iff in Hb as [Hb|Hb].
    + apply Nat.eqb_eq in Hb as ->. intros H.
      destruct (run_via _ _ _ _ _ _ H) as (pos' & s' & cs0 & H').
      eapply Hk; [exact H'|]. simpl. rewrite Nat.eqb_refl. eexists; reflexivity.
    + apply IH; [exact Hb|].
      intros pos' s' cs0 e0 cs0' n0 H0 Hn.
      eapply Hk; [exact H0|]. now apply cap_get_cons_keep.
Qed.

(** ** Searching *)

Lemma exec_from_none r pos s :
  (forall pos' s', run r accept pos' s' [] = None) -> exec_from r pos s = None.
Proof.
  intros H. revert pos. induction s as [|c s IH]; intros pos; simpl; rewrite H;
    [reflexivity | apply IH].
Qed.

(** A pattern that starts with [^] is only tried at index 0. *)
Lemma js_match_anchored r s :
  js_match s (Seq Bol r)
  = match run r accept 0 s [] with
    | Some (e, cs) => Some {| m_index := 0; m_end := e; m_caps := cs |}
    | None => None
    end.
Proof.
  unfold js_match.
  assert (Hlater : forall s' pos, exec_from (Seq Bol r) (S pos) s' = None).
  { induction s' as [|c s' IH]; intros pos; simpl; [reflexivity | apply IH]. }
  destruct s as [|c s]; simpl.
  - now destruct (run r accept 0 [] []) as [[e cs]|].
  - destruct (run r accept 0 (c :: s) []) as [[e cs]|]; [reflexivity | apply Hlater].
Qed.

(** The captures of a match are the groups on every path. *)
Lemma js_match_binds n r s m :
  binds n r = true -> js_match s r = Some m -> is_Some (group m n).
Proof.
  intros Hb. unfold js_match. generalize 0 as pos.
  induction s as [|c s IH]; intros pos; simpl.
  - destruct (run r accept pos [] []) as [[e cs]|] eqn:H; [|discriminate].
    intros [= <-]. unfold group. simpl. eapply run_binds; eauto using keeps_accept.
  - destruct (run r accept pos (c :: s) []) as [[e cs]|] eqn:H.
    + intros [= <-]. unfold group. simpl. eapply run_binds; eauto using keeps_accept.
    + apply IH.
Qed.

(** ** Deterministic quantifiers *)

#[local] Arguments is_space : simpl never.
#[local] Arguments is_digit : simpl never.
#[local] Arguments is_dot : simpl never.
#[local] Arguments char_eqb : simpl never.
#[local] Arguments ascii_upper : simpl never.

Lemma firstn_span_length {A} (a b : list A) pos :
  firstn (pos + length a - pos) (a ++ b) = a.
Proof.
  replace (pos + length a - pos) with (length a) by lia.
  rewrite firstn_app, Nat.sub_diag, firstn_all. simpl. apply app_nil_r.
Qed.

Lemma run_star_det p k pos s cs :
  refuses p k ->
  run (Star p) k pos s cs
  = k (pos + length (fst (span p s))) (snd (span p s)) cs.
Proof.
  intros Hk. simpl. apply star_loop_det. intros pos' c s' Hc. now apply Hk.
Qed.

Lemma run_plus_det p k pos s cs :
  refuses p k ->
  run (Plus p) k pos s cs
  = match span p s with
    | ([], _) => None
    | (a, b) => k (pos + length a) b cs
    end.
Proof.
  intros Hk. unfold Plus. cbn [run]. destruct s as [|c s]; simpl; [reflexivity|].
  destruct (p c) eqn:Hc; [|reflexivity].
  rewrite star_loop_det by (intros pos' c' s' Hc'; now apply Hk).
  destruct (span p s) as [a b]. simpl. now rewrite Nat.add_succ_r.
Qed.

Lemma run_cap_star_det n p k pos s cs :
  refuses p k ->
  run (Cap n (Star p)) k pos s cs
  = k (pos + length (fst (span p s))) (snd (span p s)) ((n, fst (span p s)) :: cs).
Proof.
  intros Hk. cbn [run]. rewrite star_loop_det.
  - destruct (span p s) as [a b] eqn:Hs.
    destruct (span_spec _ _ _ _ Hs) as (-> & _ & _). simpl.
    now rewrite firstn_span_length.
  - intros pos' c s' Hc. now apply Hk.
Qed.

Lemma run_cap_plus_det n p k pos s cs :
  refuses p k ->
  run (Cap n (Plus p)) k pos s cs
  = match span p s with
    | ([], _) => None
    | (a, b) => k (pos + length a) b ((n, a) :: cs)
    end.
Proof.
  intros Hk. cbn [run]. rewrite run_plus_det.
  - destruct (span p s) as [a b] eqn:Hs. destruct a as [|c a]; [reflexivity|].
    destruct (span_spec _ _ _ _ Hs) as (-> & _ & _).
    now rewrite firstn_span_length.
  - intros pos' c s' cs' Hc. now apply Hk.
Qed.

(** Proves [refuses p k] for a continuation that starts with a class
    disjoint from [p]. *)
Ltac refuse :=
  let pos := fresh "pos" in let c := fresh "c" in
  let s := fresh "s" in let cs := fresh "cs" in let Hc := fresh "Hc" in
  intros pos c s cs Hc;
  cbn [run Plus Opt rseq lit lit_i chr chr_i map str or_else star_loop];
  repeat match goal with
  | |- context [if ?q c then _ else _] =>
      let H := fresh in
      assert (H : q c = false) by (clear - Hc; chars); rewrite H; clear H
  | |- context [if char_eqb (ascii_upper c) ?d then _ else _] =>
      let H := fresh in
      assert (H : char_eqb (ascii_upper c) d = false) by (clear - Hc; chars);
      rewrite H; clear H
  end;
  reflexivity.

(** ** The plan pattern *)

Lemma prefix_dots s :
  prefix (str "..") s = true -> exists s', s = str ".." ++ s' /\ skipn 2 s = s'.
Proof.
  destruct s as [|c1 [|c2 s]]; simpl; try discriminate.
  - now rewrite andb_false_r.
  - intros H. apply andb_true_iff in H as [H1 H2]. apply andb_true_iff in H2 as [H2 _].
    apply N.eqb_eq in H1, H2. subst. eexists; split; reflexivity.
Qed.

Lemma run_seq r1 r2 k pos s cs :
  run (Seq r1 r2) k pos s cs = run r1 (run r2 k) pos s cs.
Proof. reflexivity. Qed.

Lemma run_alt r1 r2 k pos s cs :
  run (Alt r1 r2) k pos s cs = or_else (run r1 k pos s cs) (run r2 k pos s cs).
Proof. reflexivity. Qed.

Lemma run_opt r k pos s cs :
  run (Opt r) k pos s cs = or_else (run r k pos s cs) (k pos s cs).
Proof. reflexivity. Qed.

Lemma run_cap n r k pos s cs :
  run (Cap n r) k pos s cs
  = run r (fun pos' s' cs' => k pos' s' ((n, firstn (pos' - pos) s) :: cs')) pos s cs.
Proof. reflexivity. Qed.

Lemma run_chars_exact l k pos s cs :
  run (rseq (map chr l)) k pos s cs
  = if prefix l s then k (pos + length l) (skipn (length l) s) cs else None.
Proof.
  revert pos s. induction l as [|p l IH]; intros pos s.
  - simpl. now rewrite Nat.add_0_r.
  - assert (Hstep : run (rseq (map chr (p :: l))) k pos s cs
                    = run (chr p) (run (rseq (map chr l)) k) pos s cs).
    { destruct l; [|reflexivity]. simpl. destruct s as [|c s]; [reflexivity|].
      now destruct (char_eqb p c). }
    rewrite Hstep. cbn [run chr]. destruct s as [|c s]; [reflexivity|].
    cbn [prefix]. destruct (char_eqb p c); [|reflexivity].
    rewrite IH. cbn [andb length skipn]. now rewrite Nat.add_succ_r.
Qed.

Lemma run_lit pat k pos s cs :
  run (lit pat) k pos s cs
  = if prefix (str pat) s
    then k (pos + length (str pat)) (skipn (length (str pat)) s) cs else None.
Proof. apply run_chars_exact. Qed.

Lemma run_chars_ci l k pos s cs :
  run (rseq (map chr_i l)) k pos s cs
  = if prefix_ci l s then k (pos + length l) (skipn (length l) s) cs else None.
Proof.
  revert pos s. induction l as [|p l IH]; intros pos s.
  - simpl. now rewrite Nat.add_0_r.
  - assert (Hstep : run (rseq (map chr_i (p :: l))) k pos s cs
                    = run (chr_i p) (run (rseq (map chr_i l)) k) pos s cs).
    { destruct l; [|reflexivity]. simpl. destruct s as [|c s]; [reflexivity|].
      now destruct (char_eqb _ _). }
    rewrite Hstep. cbn [run chr_i]. destruct s as [|c s]; [reflexivity|].
    cbn [prefix_ci]. destruct (char_eqb (ascii_upper c) (ascii_upper p)); [|reflexivity].
    rewrite IH. cbn [andb length skipn]. now rewrite Nat.add_succ_r.
Qed.

Lemma run_lit_i pat k pos s cs :
  run (lit_i pat) k pos s cs
  = if prefix_ci (str pat) s
    then k (pos + length (str pat)) (skipn (length (str pat)) s) cs else None.
Proof. apply run_chars_ci. Qed.

Lemma run_TEST_PLAN_REGEX line :
  js_match line TEST_PLAN_REGEX
  = match read_plan line with
    | Some (ws, a, b) =>
        Some {| m_index := 0; m_end := length line;
                m_caps := [(3, b); (2, a); (1, ws)] |}
    | None => None
    end.
Proof.
  unfold TEST_PLAN_REGEX, read_plan. cbn [rseq]. rewrite js_match_anchored.
  rewrite run_seq, run_cap_star_det by refuse.
  destruct (span is_space line) as [ws s1] eqn:Hws. cbn [fst snd].
  destruct (span_spec _ _ _ _ Hws) as (-> & _ & _).
  rewrite run_seq, run_cap_plus_det by refuse.
  destruct (span is_digit s1) as [a s2] eqn:Ha.
  destruct (span_spec _ _ _ _ Ha) as (-> & _ & _).
  destruct a as [|a0 a]; [reflexivity|].
  rewrite run_seq, run_lit.
  destruct (prefix (str "..") s2) eqn:Hdots; [|reflexivity].
  destruct (prefix_dots _ Hdots) as (s3 & -> & Hs3). rewrite Hs3.
  change (skipn (length (str "..")) (str ".." ++ s3)) with s3.
  rewrite run_seq, run_cap_plus_det by refuse.
  destruct (span is_digit s3) as [b s4] eqn:Hb.
  destruct (span_spec _ _ _ _ Hb) as (-> & _ & _).
  destruct b as [|b0 b]; [reflexivity|].
  cbn [run]. destruct s4 as [|c s4]; [|reflexivity].
  unfold accept. repeat f_equal. rewrite !length_app. simpl. lia.
Qed.

Lemma prefix_app l s : prefix l (l ++ s) = true.
Proof.
  induction l as [|c l IH]; simpl; [reflexivity|].
  unfold char_eqb. now rewrite N.eqb_refl.
Qed.

Lemma read_plan_spec line ws a b :
  read_plan line = Some (ws, a, b)
  <-> line = ws ++ a ++ str ".." ++ b /\ all_in is_space ws
      /\ is_digits a /\ is_digits b.
Proof.
  unfold read_plan, is_digits. split.
  - destruct (span is_space line) as [ws' s1] eqn:Hws.
    destruct (span_spec _ _ _ _ Hws) as (-> & Hws' & _).
    destruct (span is_digit s1) as [a' s2] eqn:Ha.
    destruct (span_spec _ _ _ _ Ha) as (-> & Ha' & _).
    destruct a' as [|a0 a']; [discriminate|].
    destruct (prefix (str "..") s2) eqn:Hd; [|discriminate].
    destruct (prefix_dots _ Hd) as (s3 & -> & ->).
    destruct (span is_digit s3) as [b' s4] eqn:Hb.
    destruct (span_spec _ _ _ _ Hb) as (-> & Hb' & _).
    destruct b' as [|b0 b']; [discriminate|]. destruct s4; [|discriminate].
    intros [= <- <- <-]. rewrite app_nil_r. repeat split; try assumption; discriminate.
  - intros (-> & Hws & [Hna Ha] & [Hnb Hb]).
    rewrite (span_intro is_space ws).
    + rewrite (span_intro is_digit a); [|assumption|reflexivity].
      destruct a as [|a0 a]; [contradiction|].
      rewrite prefix_app. change (skipn 2 (str ".." ++ b)) with b.
      rewrite (span_all is_digit b) by assumption.
      destruct b; [contradiction | reflexivity].
    + assumption.
    + destruct a as [|a0 a]; [contradiction|]. simpl.
      apply digit_not_space. now inversion Ha.
Qed.

Lemma run_TRIMMED_PLAN_REGEX s :
  js_match s TRIMMED_PLAN_REGEX
  = match read_plan s with
    | Some ([], a, b) =>
        Some {| m_index := 0; m_end := length s; m_caps := [(2, b); (1, a)] |}
    | _ => None
    end.
Proof.
  unfold TRIMMED_PLAN_REGEX, read_plan. cbn [rseq]. rewrite js_match_anchored.
  rewrite run_seq, run_cap_plus_det by refuse.
  destruct (span is_space s) as [ws s1] eqn:Hws.
  destruct ws as [|w ws].
  - destruct (span_spec _ _ _ _ Hws) as (-> & _ & _). simpl app.
    destruct (span is_digit s1) as [a s2] eqn:Ha.
    destruct (span_spec _ _ _ _ Ha) as (-> & _ & _).
    destruct a as [|a0 a]; [reflexivity|].
    rewrite run_seq, run_lit.
    destruct (prefix (str "..") s2) eqn:Hdots; [|reflexivity].
    destruct (prefix_dots _ Hdots) as (s3 & -> & Hs3). rewrite Hs3.
    change (skipn (length (str "..")) (str ".." ++ s3)) with s3.
    rewrite run_seq, run_cap_plus_det by refuse.
    destruct (span is_digit s3) as [b s4] eqn:Hb.
    destruct (span_spec _ _ _ _ Hb) as (-> & _ & _).
    destruct b as [|b0 b]; [reflexivity|].
    cbn [run]. destruct s4 as [|c s4]; [|reflexivity].
    unfold accept. repeat f_equal. rewrite !length_app. simpl. lia.
  - destruct (span_spec _ _ _ _ Hws) as (-> & Hw & _).
    inversion Hw as [|? ? Hw0 _]; subst. cbn [app span].
    rewrite (space_not_digit _ Hw0).
    destruct (span is_digit s1) as [[|? ?] s2]; [reflexivity|].
    destruct (prefix (str "..") s2); [|reflexivity].
    now destruct (span is_digit (skipn 2 s2)) as [[|? ?] [|? ?]].
Qed.

(** ** The test-result pattern *)

(** A test-result line starts, after its indentation, with [ok] or [not ok]. *)
Lemma TEST_RESULT_REGEX_head line m :
  js_match line TEST_RESULT_REGEX = Some m ->
  prefix (str "ok") (trimStart line) = true
  \/ prefix (str "not ok") (trimStart line) = true.
Proof.
  unfold TEST_RESULT_REGEX. cbn [rseq]. rewrite js_match_anchored.
  rewrite run_seq, run_cap_star_det by refuse.
  rewrite trimStart_span. destruct (span is_space line) as [ws s1]. cbn [fst snd].
  rewrite run_seq. cbn [run]. rewrite !run_lit.
  destruct (prefix (str "ok") s1); [now left|].
  destruct (prefix (str "not ok") s1); [now right|]. discriminate.
Qed.

Lemma DASHED_RESULT_REGEX_head line m :
  js_match line DASHED_RESULT_REGEX = Some m ->
  prefix (str "ok") (trimStart line) = true
  \/ prefix (str "not ok") (trimStart line) = true.
Proof.
  unfold DASHED_RESULT_REGEX. cbn [rseq]. rewrite js_match_anchored.
  rewrite run_seq, run_cap_star_det by refuse.
  rewrite trimStart_span. destruct (span is_space line) as [ws s1]. cbn [fst snd].
  rewrite run_seq. cbn [run]. rewrite !run_lit.
  destruct (prefix (str "ok") s1); [now left|].
  destruct (prefix (str "not ok") s1); [now right|]. discriminate.
Qed.

(** A plan line starts, after its indentation, with a digit. *)
Lemma TEST_PLAN_REGEX_head line m :
  js_match line TEST_PLAN_REGEX = Some m ->
  exists c s, trimStart line = c :: s /\ is_digit c = true.
Proof.
  rewrite run_TEST_PLAN_REGEX. unfold read_plan. rewrite trimStart_span.
  destruct (span is_space line) as [ws s1]. cbn [snd].
  destruct (span is_digit s1) as [a s2] eqn:Ha.
  destruct (span_spec _ _ _ _ Ha) as (-> & Hda & _).
  destruct a as [|a0 a]; [discriminate|]. intros _.
  exists a0, (a ++ s2). split; [reflexivity|]. now inversion Hda.
Qed.

(** ** The directive patterns *)

Lemma prefix_ci_spec pat s :
  prefix_ci pat s = true <-> exists sub post, s = sub ++ post /\ ci_eq sub pat.
Proof.
  unfold ci_eq. revert s. induction pat as [|p pat IH]; intros s; simpl.
  - split; [intros _; now exists [], s|reflexivity].
  - destruct s as [|c s].
    + split; [discriminate|]. intros (sub & post & H & E).
      destruct sub; [discriminate E | discriminate H].
    + rewrite andb_true_iff, IH. unfold char_eqb. rewrite N.eqb_eq. split.
      * intros (Hc & sub & post & -> & E). exists (c :: sub), post.
        split; [reflexivity|]. simpl. now rewrite Hc, E.
      * intros (sub & post & H & E). destruct sub as [|c' sub]; [discriminate E|].
        simpl in H, E. injection H as <- ->. injection E as Hc E. eauto.
Qed.

Lemma prefix_ci_length pat s :
  prefix_ci pat s = true -> length s = length pat + length (skipn (length pat) s).
Proof.
  revert s. induction pat as [|p pat IH]; intros s; simpl; [reflexivity|].
  destruct s as [|c s]; [discriminate|]. intros H.
  apply andb_true_iff in H as [_ H]. simpl. now rewrite (IH _ H).
Qed.

Lemma exec_from_lit_i pat pos s :
  is_Some (exec_from (lit_i pat) pos s)
  <-> exists pre rest, s = pre ++ rest /\ prefix_ci (str pat) rest = true.
Proof.
  revert pos. induction s as [|c s IH]; intros pos; simpl; rewrite run_lit_i.
  - destruct (prefix_ci (str pat) []) eqn:Hp; unfold accept.
    + split; [intros _; now exists [], [] | intros _; eexists; reflexivity].
    + split; [intros [? [=]]|]. intros (pre & rest & E & Hr).
      symmetry in E. apply app_eq_nil in E as [-> ->]. congruence.
  - destruct (prefix_ci (str pat) (c :: s)) eqn:Hp; unfold accept.
    + split; [intros _; now exists [], (c :: s) | intros _; eexists; reflexivity].
    + rewrite IH. split.
      * intros (pre & rest & -> & Hr). now exists (c :: pre), rest.
      * intros (pre & rest & E & Hr). destruct pre as [|c' pre].
        -- simpl in E. subst. congruence.
        -- injection E as <- ->. eauto.
Qed.

(** The directive test is a search for the literal up to ASCII case. *)
Lemma js_test_lit_i pat line :
  js_test (lit_i pat) line = true <-> contains_ci pat line.
Proof.
  unfold js_test, js_match, contains_ci.
  assert (H := exec_from_lit_i pat 0 line).
  destruct (exec_from (lit_i pat) 0 line) as [m|].
  - split; [intros _|reflexivity].
    destruct (proj1 H (ex_intro _ m eq_refl)) as (pre & rest & -> & Hr).
    apply prefix_ci_spec in Hr as (sub & post & -> & E). eauto.
  - split; [discriminate|]. intros (pre & sub & post & -> & E).
    destruct (proj2 H) as [? [=]]. exists pre, (sub ++ post). split; [reflexivity|].
    apply prefix_ci_spec. eauto.
Qed.

(** ** The duration pattern *)

Lemma or_else_none_r {A} (x : option A) : or_else x None = x.
Proof. now destruct x. Qed.

Lemma read_decimal_app s num rest :
  read_decimal s = Some (num, rest) -> s = num ++ rest.
Proof.
  unfold read_decimal. destruct (span is_digit s) as [ip s1] eqn:Hip.
  destruct (span_spec _ _ _ _ Hip) as (-> & _ & _).
  destruct ip as [|i0 ip]; [discriminate|].
  destruct s1 as [|c s1]; [now intros [= <- <-]|].
  destruct (char_eqb 46%N c); [|now intros [= <- <-]].
  destruct (span is_digit s1) as [fp s2] eqn:Hfp.
  destruct (span_spec _ _ _ _ Hfp) as (-> & _ & _).
  destruct fp as [|f0 fp]; intros [= <- <-]; [reflexivity|].
  simpl. f_equal. now rewrite <- app_assoc.
Qed.

Lemma run_decimal k pos s cs :
  refuses is_digit k -> refuses (char_eqb 46%N) k ->
  run (rseq [Plus is_digit; Opt (rseq [lit "."; Plus is_digit])]) k pos s cs
  = match read_decimal s with
    | Some (num, rest) => k (pos + length num) rest cs
    | None => None
    end.
Proof.
  intros Hd Hdot. cbn [rseq]. unfold read_decimal.
  assert (Hopt : refuses is_digit (run (Opt (Seq (lit ".") (Plus is_digit))) k)).
  { intros pos' c s' cs' Hc. rewrite run_opt, run_seq, run_lit.
    cbn [prefix str]. replace (char_eqb (char_of_ascii ".") c) with false by (symmetry; clear - Hc; chars).
    cbn [andb or_else]. now apply Hd. }
  rewrite run_seq, run_plus_det by exact Hopt.
  destruct (span is_digit s) as [ip s1] eqn:Hip.
  destruct ip as [|i0 ip]; [reflexivity|].
  rewrite run_opt, run_seq, run_lit.
  destruct s1 as [|c s1]; [reflexivity|].
  cbn [prefix str]. change (char_of_ascii ".") with 46%N.
  destruct (char_eqb 46%N c) eqn:Hc; cbn [andb or_else]; [|reflexivity].
  change (skipn (length [46%N]) (c :: s1)) with s1.
  rewrite run_plus_det by exact Hd.
  destruct (span is_digit s1) as [fp s2] eqn:Hfp.
  destruct fp as [|f0 fp]; [reflexivity|].
  rewrite (Hdot _ _ _ _ Hc), or_else_none_r.
  f_equal. rewrite length_app. simpl. lia.
Qed.

Lemma prefix_ci_ms_not_s s :
  prefix_ci (str "ms") s = true -> prefix_ci (str "s") s = false.
Proof.
  destruct s as [|c s]; [reflexivity|]. cbn [prefix_ci str].
  intros H. apply andb_true_iff in H as [H _].
  apply andb_false_iff. left. clear - H. chars.
Qed.

Lemma read_unit_app s u rest : read_unit s = Some (u, rest) -> s = u ++ rest.
Proof.
  unfold read_unit. destruct s as [|c1 [|c2 s]]; [discriminate| |].
  - destruct (prefix_ci _ _); [now intros [= <- <-] | discriminate].
  - destruct (prefix_ci (str "ms") _); [now intros [= <- <-]|].
    destruct (prefix_ci _ _); [now intros [= <- <-] | discriminate].
Qed.

Lemma run_unit k pos s cs :
  run (Alt (lit_i "ms") (lit_i "s")) k pos s cs
  = match read_unit s with
    | Some (u, rest) => k (pos + length u) rest cs
    | None => None
    end.
Proof.
  rewrite run_alt, !run_lit_i. unfold read_unit.
  destruct s as [|c1 [|c2 s]]; [reflexivity| |].
  - change (prefix_ci (str "ms") [c1]) with (char_eqb (ascii_upper c1) (ascii_upper 109%N) && false).
    rewrite andb_false_r. cbn [or_else].
    destruct (prefix_ci (str "s") [c1]); reflexivity.
  - destruct (prefix_ci (str "ms") (c1 :: c2 :: s)) eqn:Hms.
    + rewrite (prefix_ci_ms_not_s _ Hms). cbn [or_else]. apply or_else_none_r.
    + cbn [or_else]. destruct (prefix_ci (str "s") (c1 :: c2 :: s)); reflexivity.
Qed.

Lemma run_trailing pos s cs :
  run (rseq [Star is_space; Eol]) accept pos s cs
  = match span is_space s with
    | (w, []) => Some (pos + length w, cs)
    | _ => None
    end.
Proof.
  cbn [rseq]. rewrite run_seq, run_star_det by refuse.
  destruct (span is_space s) as [w [|c r]]; reflexivity.
Qed.

Lemma span_length_end p s w :
  span p s = (w, []) -> length w = length s.
Proof. intros H. destruct (span_spec _ _ _ _ H) as (-> & _). now rewrite app_nil_r. Qed.

Lemma run_DURATION_REGEX pos s :
  run DURATION_REGEX accept pos s []
  = match read_duration s with
    | Some (num, u) => Some (pos + length s, [(2, u); (1, num)])
    | None => None
    end.
Proof.
  unfold DURATION_REGEX, read_duration. cbn [rseq].
  rewrite run_seq, run_plus_det by refuse.
  destruct (span is_space s) as [w1 s1] eqn:Hw1.
  destruct (span_spec _ _ _ _ Hw1) as (-> & _ & _).
  destruct w1 as [|w0 w1]; [reflexivity|].
  rewrite run_seq, run_lit_i.
  destruct (prefix_ci (str "in") s1) eqn:Hin; [|reflexivity].
  change (length (str "in")) with 2.
  rewrite run_seq, run_plus_det by refuse.
  destruct (span is_space (skipn 2 s1)) as [w2 s2] eqn:Hw2.
  destruct w2 as [|w20 w2]; [reflexivity|].
  rewrite run_seq, run_cap, (run_decimal _ _ s2) by refuse.
  destruct (read_decimal s2) as [[num s3]|] eqn:Hnum; [|reflexivity].
  rewrite (read_decimal_app _ _ _ Hnum), firstn_span_length.
  rewrite run_seq, run_cap, (run_unit _ _ s3).
  destruct (read_unit s3) as [[u s4]|] eqn:Hu; [|reflexivity].
  rewrite (read_unit_app _ _ _ Hu), firstn_span_length.
  change (run (Seq (Star is_space) Eol)) with (run (rseq [Star is_space; Eol])).
  rewrite run_trailing.
  destruct (span is_space s4) as [w3 [|c r]] eqn:Hw3; [|reflexivity].
  f_equal. f_equal.
  apply span_length_end in Hw3.
  destruct (span_spec _ _ _ _ Hw2) as (Hs1 & _ & _).
  apply prefix_ci_length in Hin. change (length (str "in")) with 2 in Hin.
  apply read_decimal_app in Hnum. apply read_unit_app in Hu.
  apply (f_equal (@length _)) in Hs1, Hnum, Hu.
  rewrite !length_app in *. simpl in *. lia.
Qed.
(** ** The duration pattern on a description *)

Lemma run_DURATION_STRIP_REGEX pos s :
  run DURATION_STRIP_REGEX accept pos s []
  = match read_duration s with
    | Some _ => Some (pos + length s, [])
    | None => None
    end.
Proof.
  unfold DURATION_STRIP_REGEX, read_duration. cbn [rseq].
  rewrite run_seq, run_plus_det by refuse.
  destruct (span is_space s) as [w1 s1] eqn:Hw1.
  destruct (span_spec _ _ _ _ Hw1) as (-> & _ & _).
  destruct w1 as [|w0 w1]; [reflexivity|].
  rewrite run_seq, run_lit_i.
  destruct (prefix_ci (str "in") s1) eqn:Hin; [|reflexivity].
  change (length (str "in")) with 2.
  rewrite run_seq, run_plus_det by refuse.
  destruct (span is_space (skipn 2 s1)) as [w2 s2] eqn:Hw2.
  destruct w2 as [|w20 w2]; [reflexivity|].
  assert (Hsplit : forall k pos' t cs,
    run (Seq (Plus is_digit) (Seq (Opt (rseq [lit "."; Plus is_digit])) k)) accept pos' t cs
    = run (rseq [Plus is_digit; Opt (rseq [lit "."; Plus is_digit])]) (run k accept) pos' t cs)
    by reflexivity.
  rewrite Hsplit, (run_decimal _ _ s2) by refuse.
  destruct (read_decimal s2) as [[num s3]|] eqn:Hnum; [|reflexivity].
  rewrite run_seq, (run_unit _ _ s3).
  destruct (read_unit s3) as [[u s4]|] eqn:Hu; [|reflexivity].
  change (run (Seq (Star is_space) Eol)) with (run (rseq [Star is_space; Eol])).
  rewrite run_trailing.
  destruct (span is_space s4) as [w3 [|c r]] eqn:Hw3; [|reflexivity].
  f_equal. f_equal.
  apply span_length_end in Hw3.
  destruct (span_spec _ _ _ _ Hw2) as (Hs1 & _ & _).
  apply prefix_ci_length in Hin. change (length (str "in")) with 2 in Hin.
  apply read_decimal_app in Hnum. apply read_unit_app in Hu.
  apply (f_equal (@length _)) in Hs1, Hnum, Hu.
  rewrite !length_app in *. simpl in *. lia.
Qed.

(** The two duration patterns match at the same place. *)
Lemma exec_from_DURATION_STRIP_REGEX pos s :
  exec_from DURATION_STRIP_REGEX pos s
  = option_map forget_caps (exec_from DURATION_REGEX pos s).
Proof.
  revert pos. induction s as [|c s IH]; intros pos; cbn [exec_from];
    rewrite run_DURATION_STRIP_REGEX, run_DURATION_REGEX.
  - now destruct (read_duration []) as [[num u]|].
  - destruct (read_duration (c :: s)) as [[num u]|]; [reflexivity | apply IH].
Qed.

Lemma ci_eq_prefix pat kw rest : ci_eq kw pat -> prefix_ci pat (kw ++ rest) = true.
Proof. intros H. apply prefix_ci_spec. now exists kw, rest. Qed.

Lemma ci_eq_length a b : ci_eq a b -> length a = length b.
Proof. intros H. apply (f_equal (@length _)) in H. now rewrite !length_map in H. Qed.

Lemma skipn_length_app {A} (a b : list A) n : n = length a -> skipn n (a ++ b) = b.
Proof. intros ->. rewrite skipn_app, skipn_all, Nat.sub_diag. reflexivity. Qed.

Lemma all_in_app p a b : all_in p (a ++ b) <-> all_in p a /\ all_in p b.
Proof. apply Forall_app. Qed.

(** After a number come neither a digit nor a dot. *)
Lemma read_decimal_intro num rest :
  is_decimal num -> stops (fun c => is_digit c || char_eqb 46%N c) rest ->
  read_decimal (num ++ rest) = Some (num, rest).
Proof.
  intros Hnum Hrest. unfold read_decimal.
  assert (Hd : stops is_digit rest).
  { destruct rest as [|c r]; [exact I|]. simpl in *. now apply orb_false_iff in Hrest. }
  destruct Hnum as [[Hne Hall] | (ip & fp & -> & [Hip Hipd] & [Hfp Hfpd])].
  - rewrite (span_intro _ _ _ Hall Hd). destruct num as [|n0 num]; [contradiction|].
    destruct rest as [|c r]; [reflexivity|]. simpl in Hrest.
    apply orb_false_iff in Hrest as [_ ->]. reflexivity.
  - rewrite <- app_assoc. rewrite (span_intro _ _ _ Hipd) by reflexivity.
    destruct ip as [|i0 ip]; [contradiction|].
    change ((str "." ++ fp) ++ rest) with (46%N :: fp ++ rest).
    change (char_eqb 46%N 46%N) with true. cbv iota.
    rewrite (span_intro _ _ _ Hfpd Hd). destruct fp as [|f0 fp]; [contradiction|].
    reflexivity.
Qed.

Lemma read_decimal_elim s num rest :
  read_decimal s = Some (num, rest) -> s = num ++ rest /\ is_decimal num.
Proof.
  intros H. split; [now apply read_decimal_app|]. revert H. unfold read_decimal.
  destruct (span is_digit s) as [ip s1] eqn:Hip.
  destruct (span_spec _ _ _ _ Hip) as (-> & Hipd & _).
  destruct ip as [|i0 ip]; [discriminate|].
  assert (Hdig : is_digits (i0 :: ip)) by (split; [discriminate | assumption]).
  destruct s1 as [|c s1]; [intros [= <- <-]; now left|].
  destruct (char_eqb 46%N c) eqn:Hc; [|intros [= <- <-]; now left].
  destruct (span is_digit s1) as [fp s2] eqn:Hfp.
  destruct (span_spec _ _ _ _ Hfp) as (-> & Hfpd & _).
  destruct fp as [|f0 fp]; intros [= <- <-]; [now left|].
  right. exists (i0 :: ip), (f0 :: fp). apply N.eqb_eq in Hc. subst c.
  repeat split; try assumption; discriminate.
Qed.

Lemma read_unit_intro u rest :
  ci_eq u (str "ms") \/ ci_eq u (str "s") -> read_unit (u ++ rest) = Some (u, rest).
Proof.
  intros [H|H]; assert (Hl := ci_eq_length _ _ H).
  - destruct u as [|c1 [|c2 [|? ?]]]; try discriminate Hl.
    unfold read_unit. assert (Hp := ci_eq_prefix _ [c1; c2] rest H).
    cbn [app] in *. now rewrite Hp.
  - destruct u as [|c1 [|? ?]]; try discriminate Hl.
    unfold read_unit. cbn [app].
    assert (Hs := ci_eq_prefix _ [c1] rest H). cbn [app] in Hs.
    assert (Hs' := ci_eq_prefix _ [c1] [] H). cbn [app] in Hs'.
    destruct rest as [|c2 rest]; [now rewrite Hs'|].
    rewrite Hs. destruct (prefix_ci (str "ms") (c1 :: c2 :: rest)) eqn:Hms; [|reflexivity].
    apply prefix_ci_ms_not_s in Hms. congruence.
Qed.

Lemma read_unit_elim s u rest :
  read_unit s = Some (u, rest) ->
  s = u ++ rest /\ (ci_eq u (str "ms") \/ ci_eq u (str "s")).
Proof.
  intros H. split; [now apply read_unit_app|]. revert H. unfold read_unit.
  destruct s as [|c1 [|c2 s]]; [discriminate| |].
  - destruct (prefix_ci (str "s") [c1]) eqn:Hs; [|discriminate]. intros [= <- <-]. right.
    apply prefix_ci_spec in Hs as (sub & post & E & Hsub).
    assert (Hl := ci_eq_length _ _ Hsub). destruct sub as [|? [|? ?]]; try discriminate Hl.
    now injection E as <- _.
  - destruct (prefix_ci (str "ms") (c1 :: c2 :: s)) eqn:Hms.
    + intros [= <- <-]. left.
      apply prefix_ci_spec in Hms as (sub & post & E & Hsub).
      assert (Hl := ci_eq_length _ _ Hsub).
      destruct sub as [|? [|? [|? ?]]]; try discriminate Hl.
      now injection E as <- <- _.
    + destruct (prefix_ci (str "s") (c1 :: c2 :: s)) eqn:Hs; [|discriminate].
      intros [= <- <-]. right.
      apply prefix_ci_spec in Hs as (sub & post & E & Hsub).
      assert (Hl := ci_eq_length _ _ Hsub). destruct sub as [|? [|? ?]]; try discriminate Hl.
      now injection E as <- _.
Qed.

Lemma ci_eq_head u pat p0 :
  ci_eq u (p0 :: pat) -> exists c u', u = c :: u' /\ ascii_upper c = ascii_upper p0.
Proof.
  unfold ci_eq. destruct u as [|c u']; [discriminate|]. simpl. intros [= H _]. eauto.
Qed.

Lemma is_decimal_head num :
  is_decimal num -> exists c r, num = c :: r /\ is_digit c = true.
Proof.
  intros [[Hne Hall] | (ip & fp & -> & [Hne Hall] & _)].
  - destruct num as [|c r]; [contradiction|]. exists c, r. split; [reflexivity|]. now inversion Hall.
  - destruct ip as [|c r]; [contradiction|]. exists c, (r ++ str "." ++ fp).
    split; [reflexivity|]. now inversion Hall.
Qed.

(** The reader accepts exactly the duration clauses. *)
Lemma read_duration_spec s num u :
  read_duration s = Some (num, u) <-> duration_clause s num u.
Proof.
  unfold duration_clause. split.
  - unfold read_duration.
    destruct (span is_space s) as [w1 s1] eqn:Hw1.
    destruct (span_spec _ _ _ _ Hw1) as (-> & Hw1s & _).
    destruct w1 as [|w0 w1]; [discriminate|].
    destruct (prefix_ci (str "in") s1) eqn:Hin; [|discriminate].
    apply prefix_ci_spec in Hin as (kw & post & -> & Hkw).
    rewrite (skipn_length_app kw post 2) by (now apply ci_eq_length in Hkw).
    destruct (span is_space post) as [w2 s2] eqn:Hw2.
    destruct (span_spec _ _ _ _ Hw2) as (-> & Hw2s & _).
    destruct w2 as [|w20 w2]; [discriminate|].
    destruct (read_decimal s2) as [[num' s3]|] eqn:Hnum; [|discriminate].
    apply read_decimal_elim in Hnum as (-> & Hdec).
    destruct (read_unit s3) as [[u' s4]|] eqn:Hu; [|discriminate].
    apply read_unit_elim in Hu as (-> & Hunit).
    destruct (span is_space s4) as [w3 [|? ?]] eqn:Hw3; [|discriminate].
    destruct (span_spec _ _ _ _ Hw3) as (-> & Hw3s & _). rewrite app_nil_r.
    intros [= <- <-]. exists (w0 :: w1), kw, (w20 :: w2), w3.
    repeat split; try assumption; discriminate.
  - intros (w1 & kw & w2 & w3 & -> & [Hw1n Hw1] & Hkw & [Hw2n Hw2] & Hnum & Hu & Hw3).
    unfold read_duration.
    destruct (ci_eq_head _ _ _ Hkw) as (k1 & kw' & -> & Hk1).
    assert (Hu0 : exists c1 u', u = c1 :: u' /\ is_space c1 = false /\ is_digit c1 = false
                                /\ char_eqb 46%N c1 = false).
    { destruct Hu as [Hu|Hu]; destruct (ci_eq_head _ _ _ Hu) as (c1 & u' & -> & Hc1);
        exists c1, u'; (split; [reflexivity|]); clear - Hc1;
        change (char_of_ascii _) with 109%N in Hc1 || change (char_of_ascii _) with 115%N in Hc1;
        repeat split; chars. }
    destruct Hu0 as (c1 & u' & -> & Hc1s & Hc1d & Hc1p).
    destruct (is_decimal_head _ Hnum) as (n0 & num' & -> & Hn0).
    rewrite (span_intro is_space w1); [|assumption|].
    2:{ simpl. clear - Hk1. change (char_of_ascii _) with 105%N in Hk1. chars. }
    destruct w1 as [|w0 w1]; [contradiction|].
    rewrite (ci_eq_prefix _ _ _ Hkw).
    rewrite (skipn_length_app (k1 :: kw') _ 2) by (now apply ci_eq_length in Hkw).
    rewrite (span_intro is_space w2); [|assumption|].
    2:{ simpl. now apply digit_not_space. }
    destruct w2 as [|w20 w2]; [contradiction|].
    rewrite read_decimal_intro; [|assumption|].
    2:{ simpl. now rewrite Hc1d, Hc1p. }
    rewrite read_unit_intro by assumption.
    now rewrite (span_all _ _ Hw3).
Qed.

(** *** The clause holds one letter [i] *)

Lemma space_no_i w : all_in is_space w -> no_i w.
Proof.
  unfold no_i, all_in. intros H. eapply Forall_impl; [exact H|].
  intros c Hc. cbv beta in *. unfold i_like. chars.
Qed.

Lemma digits_no_i w : all_in is_digit w -> no_i w.
Proof.
  unfold no_i, all_in. intros H. eapply Forall_impl; [exact H|].
  intros c Hc. cbv beta in *. unfold i_like. chars.
Qed.

Lemma no_i_app a b : no_i (a ++ b) <-> no_i a /\ no_i b.
Proof. apply Forall_app. Qed.

Lemma decimal_no_i num : is_decimal num -> no_i num.
Proof.
  intros [[_ H] | (ip & fp & -> & [_ Hip] & [_ Hfp])].
  - now apply digits_no_i.
  - rewrite !no_i_app. repeat split; try now apply digits_no_i.
    repeat constructor.
Qed.

Lemma ci_eq_no_i u pat : ci_eq u (str pat) -> no_i (str pat) -> no_i u.
Proof.
  unfold ci_eq, no_i, all_in, i_like. generalize (str pat) as l. clear pat.
  induction u as [|c u IH]; intros [|p l] E H; try discriminate E; [constructor|].
  simpl in E. injection E as Hc E. inversion H as [|? ? Hp Hl]; subst.
  constructor; [|now apply (IH l)]. cbv beta in *.
  unfold char_eqb in *. now rewrite Hc.
Qed.

Lemma unit_no_i u : ci_eq u (str "ms") \/ ci_eq u (str "s") -> no_i u.
Proof.
  intros [H|H]; apply (ci_eq_no_i _ _ H); repeat constructor.
Qed.

(** A duration clause is white space, a letter [i], and a rest without. *)
Lemma duration_clause_shape s num u :
  duration_clause s num u ->
  exists w1 k1 t, s = w1 ++ k1 :: t /\ is_spaces w1 /\ i_like k1 = true /\ no_i t.
Proof.
  intros (w1 & kw & w2 & w3 & -> & Hw1 & Hkw & [_ Hw2] & Hnum & Hu & Hw3).
  assert (Hl := ci_eq_length _ _ Hkw).
  destruct kw as [|k1 [|k2 [|? ?]]]; try discriminate Hl.
  injection Hkw as Hk1 Hk2.
  exists w1, k1, (k2 :: w2 ++ num ++ u ++ w3). repeat split; try apply Hw1.
  - unfold i_like, char_eqb. now rewrite Hk1.
  - change (k2 :: w2 ++ num ++ u ++ w3) with ([k2] ++ w2 ++ num ++ u ++ w3).
    rewrite !no_i_app. repeat split.
    + repeat constructor. unfold i_like, char_eqb. now rewrite Hk2.
    + now apply space_no_i.
    + now apply decimal_no_i.
    + now apply unit_no_i.
    + now apply space_no_i.
Qed.

(** A marked element between two unmarked runs sits at one place only. *)
Lemma unique_mark {A} (P : A -> bool) a x b a' x' b' :
  a ++ x :: b = a' ++ x' :: b' ->
  P x = true -> Forall (fun c => P c = false) a' -> Forall (fun c => P c = false) b' ->
  a = a'.
Proof.
  revert a'. induction a as [|c a IH]; intros [|c' a'] E Hx Ha' Hb'.
  - reflexivity.
  - simpl in E. injection E as <- _. inversion Ha'; subst. congruence.
  - simpl in E. injection E as -> <-.
    apply Forall_app in Hb' as [_ Hb']. inversion Hb'; subst. congruence.
  - simpl in E. injection E as <- E. inversion Ha'; subst. f_equal. eauto.
Qed.

Lemma no_i_false t : no_i t -> Forall (fun c => i_like c = false) t.
Proof.
  intros H. eapply Forall_impl; [exact H|]. intros c. cbv beta. now rewrite negb_true_iff.
Qed.

Lemma duration_clause_extend pre clause num u :
  all_in is_space pre -> duration_clause clause num u ->
  duration_clause (pre ++ clause) num u.
Proof.
  intros Hpre (w1 & kw & w2 & w3 & -> & [Hn Hw1] & H).
  exists (pre ++ w1), kw, w2, w3. rewrite <- app_assoc. split; [reflexivity|].
  split; [|exact H]. split.
  - destruct pre; [exact Hn | discriminate].
  - apply all_in_app. now split.
Qed.

(** A longer text that ends with a clause is a clause only when the added
    text is white space; the number and the unit are then the same. *)
Lemma duration_clause_suffix pre clause num u num' u' :
  duration_clause clause num u -> duration_clause (pre ++ clause) num' u' ->
  all_in is_space pre /\ num' = num /\ u' = u.
Proof.
  intros Hc Hpc.
  destruct (duration_clause_shape _ _ _ Hc) as (w1 & k1 & t & -> & [_ Hw1] & Hk1 & Ht).
  destruct (duration_clause_shape _ _ _ Hpc) as (w1' & k1' & t' & E & [_ Hw1'] & Hk1' & Ht').
  rewrite app_assoc in E.
  apply (unique_mark i_like) in E; [|assumption| |].
  - assert (Hpre : all_in is_space pre).
    { rewrite <- E in Hw1'. now apply all_in_app in Hw1' as [? _]. }
    split; [exact Hpre|].
    apply (duration_clause_extend pre) in Hc; [|exact Hpre].
    apply read_duration_spec in Hc, Hpc. rewrite Hc in Hpc. now injection Hpc.
  - now apply no_i_false, space_no_i.
  - now apply no_i_false.
Qed.

Lemma exec_from_unfold r pos s :
  exec_from r pos s
  = match run r accept pos s [] with
    | Some (e, cs) => Some {| m_index := pos; m_end := e; m_caps := cs |}
    | None => match s with [] => None | _ :: s' => exec_from r (S pos) s' end
    end.
Proof. destruct s; reflexivity. Qed.

(** The search on a text that ends with a clause: the match starts in the
    white space before the clause and runs to the end. *)
Lemma exec_from_duration pos pre clause num u :
  duration_clause clause num u ->
  exists pre0 w,
    pre = pre0 ++ w /\ all_in is_space w /\
    exec_from DURATION_REGEX pos (pre ++ clause)
    = Some {| m_index := pos + length pre0; m_end := pos + length (pre ++ clause);
              m_caps := [(2, u); (1, num)] |}.
Proof.
  intros Hc. revert pos. induction pre as [|c pre IH]; intros pos.
  - exists [], []. repeat split; [constructor|].
    rewrite exec_from_unfold, run_DURATION_REGEX. cbn [app].
    apply read_duration_spec in Hc. rewrite Hc. now rewrite Nat.add_0_r.
  - rewrite exec_from_unfold, run_DURATION_REGEX.
    destruct (read_duration ((c :: pre) ++ clause)) as [[num' u']|] eqn:Hr.
    + apply read_duration_spec in Hr.
      destruct (duration_clause_suffix _ _ _ _ _ _ Hc Hr) as (Hpre & -> & ->).
      exists [], (c :: pre). repeat split; [exact Hpre|]. now rewrite Nat.add_0_r.
    + destruct (IH (S pos)) as (pre0 & w & -> & Hw & E).
      exists (c :: pre0), w. repeat split; [exact Hw|].
      cbn [app]. rewrite E. f_equal. simpl. f_equal; lia.
Qed.

(** The search finds nothing in a text without the letter [i]. *)
Lemma exec_from_no_i pos s : no_i s -> exec_from DURATION_REGEX pos s = None.
Proof.
  revert pos. induction s as [|c s IH]; intros pos Hs;
    rewrite exec_from_unfold, run_DURATION_REGEX.
  - reflexivity.
  - destruct (read_duration (c :: s)) as [[num u]|] eqn:Hr.
    + apply read_duration_spec, duration_clause_shape in Hr
        as (w1 & k1 & t & E & [_ Hw1] & Hk1 & _).
      rewrite E in Hs. apply no_i_app in Hs as [_ Hs]. inversion Hs as [|? ? Hk _]; subst.
      cbv beta in Hk. now rewrite Hk1 in Hk.
    + apply IH. now inversion Hs.
Qed.

(** A description that is only the clause, without white space before it,
    has no match. *)
Lemma js_match_bare_duration d num u :
  bare_duration_clause d num u -> js_match d DURATION_REGEX = None.
Proof.
  intros (kw & w2 & w3 & -> & Hkw & [_ Hw2] & Hnum & Hu & Hw3).
  assert (Hl := ci_eq_length _ _ Hkw).
  destruct kw as [|k1 [|k2 [|? ?]]]; try discriminate Hl.
  injection Hkw as Hk1 Hk2.
  unfold js_match. rewrite exec_from_unfold, run_DURATION_REGEX.
  unfold read_duration. cbn [app span].
  replace (is_space k1) with false by (symmetry; clear - Hk1; chars).
  apply exec_from_no_i.
  change (k2 :: w2 ++ num ++ u ++ w3) with ([k2] ++ w2 ++ num ++ u ++ w3).
  rewrite !no_i_app. repeat split.
  - repeat constructor. unfold i_like, char_eqb. now rewrite Hk2.
  - now apply space_no_i.
  - now apply decimal_no_i.
  - now apply unit_no_i.
  - now apply space_no_i.
Qed.
(** ** Trimming *)

Lemma trimStart_all_spaces w : all_in is_space w -> trimStart w = [].
Proof.
  intros H. rewrite <- (app_nil_r w). now rewrite trimStart_app_spaces.
Qed.

Lemma all_in_rev p w : all_in p w -> all_in p (rev w).
Proof. intros H. unfold all_in. now apply Forall_rev. Qed.

Lemma trimEnd_app_spaces s w : all_in is_space w -> trimEnd (s ++ w) = trimEnd s.
Proof.
  intros Hw. unfold trimEnd. rewrite rev_app_distr.
  now rewrite trimStart_app_spaces by (now apply all_in_rev).
Qed.

Lemma trimStart_app_keep a b :
  trimStart a <> [] -> trimStart (a ++ b) = trimStart a ++ b.
Proof.
  induction a as [|c a IH]; simpl; [contradiction|].
  destruct (is_space c); [exact IH | reflexivity].
Qed.

Lemma trimStart_nil_spaces a : trimStart a = [] -> all_in is_space a.
Proof.
  induction a as [|c a IH]; simpl; [constructor|].
  destruct (is_space c) eqn:Hc; [|discriminate]. intros H.
  constructor; [exact Hc | now apply IH].
Qed.

Lemma trim_app_spaces s w : all_in is_space w -> trim (s ++ w) = trim s.
Proof.
  intros Hw. unfold trim. destruct (trimStart s) as [|c r] eqn:Hs.
  - rewrite trimStart_all_spaces; [reflexivity|].
    apply all_in_app. split; [now apply trimStart_nil_spaces | exact Hw].
  - rewrite trimStart_app_keep by (rewrite Hs; discriminate).
    rewrite Hs. now apply trimEnd_app_spaces.
Qed.

Lemma trim_all_spaces w : all_in is_space w -> trim w = [].
Proof. intros H. unfold trim. now rewrite trimStart_all_spaces. Qed.

Lemma trimEnd_cons c s :
  trimEnd (c :: s) = if is_empty (trimEnd s) && is_space c then [] else c :: trimEnd s.
Proof.
  unfold trimEnd. simpl rev.
  destruct (trimStart (rev s)) as [|d r] eqn:Hs.
  - rewrite trimStart_app_spaces by (now apply trimStart_nil_spaces).
    simpl. now destruct (is_space c).
  - rewrite trimStart_app_keep by (rewrite Hs; discriminate).
    rewrite Hs. simpl. rewrite rev_app_distr. simpl.
    destruct (rev r ++ [d]) eqn:E; [|reflexivity].
    now destruct (rev r).
Qed.

(** Trimming keeps the first character that is not white space. *)
Lemma trim_head s c r :
  trimStart s = c :: r -> exists r', trim s = c :: r'.
Proof.
  intros H. unfold trim. rewrite H. rewrite trimEnd_cons.
  assert (Hc : is_space c = false).
  { assert (Hs := trimStart_stops s). rewrite H in Hs. exact Hs. }
  rewrite Hc, andb_false_r. eauto.
Qed.

Lemma trim_nil_trimStart s : trim s = [] -> trimStart s = [].
Proof.
  destruct (trimStart s) as [|c r] eqn:H; [reflexivity|].
  destruct (trim_head _ _ _ H) as (r' & ->). discriminate.
Qed.

(** ** The fields of a test object *)

Lemma describe_total i l ind p n rest :
  exists t, describe i l ind p n rest = Normal t.
Proof.
  unfold describe.
  destruct (js_match _ DURATION_REGEX) as [dm|] eqn:Hm; [|eauto].
  destruct (js_match_binds 2 DURATION_REGEX _ _ eq_refl Hm) as [u Hu]. rewrite Hu. simpl. eauto.
Qed.

Lemma describe_fields i l ind p n rest t :
  describe i l ind p n rest = Normal t ->
  line t = i /\ indent t = ind /\ passed t = p /\ testNumber t = n /\
  hasTodo t = js_test TODO_REGEX l /\ hasSkip t = js_test SKIP_REGEX l /\
  fullLine t = l /\ output t = [].
Proof.
  unfold describe. destruct (js_match _ DURATION_REGEX) as [dm|].
  - destruct (group dm 2); simpl; [|discriminate]. intros [= <-]. now repeat split.
  - intros [= <-]. now repeat split.
Qed.

Lemma lower_unit_s u : ci_eq u (str "s") -> jsstring_eqb (toLowerCase u) (str "s") = true.
Proof.
  intros H. assert (Hl := ci_eq_length _ _ H).
  destruct u as [|c [|? ?]]; try discriminate Hl. injection H as H.
  change (char_of_ascii _) with 115%N in H.
  simpl. rewrite andb_true_r. clear - H. chars.
Qed.

Lemma lower_unit_ms u : ci_eq u (str "ms") -> jsstring_eqb (toLowerCase u) (str "s") = false.
Proof.
  intros H. assert (Hl := ci_eq_length _ _ H).
  destruct u as [|c [|c' [|? ?]]]; try discriminate Hl.
  simpl. apply andb_false_r.
Qed.

(** A description that ends with a duration clause: the duration is read
    and the clause is removed. *)
Lemma describe_duration i l ind p n rest t pre clause num u :
  or_default (Some (trim (js_remove rest COMMENT_REGEX)))
             (str "Test " ++ Number_toString n) = pre ++ clause ->
  duration_clause clause num u ->
  describe i l ind p n rest = Normal t ->
  duration t = Some (milliseconds num u) /\ description t = trim pre.
Proof.
  intros Hd Hc. unfold describe. rewrite Hd.
  destruct (exec_from_duration 0 pre _ _ _ Hc) as (pre0 & w & -> & Hw & E).
  unfold js_remove, js_match. rewrite exec_from_DURATION_STRIP_REGEX.
  unfold js_match in E. rewrite E. simpl. intros [= <-]. simpl. split; [reflexivity|].
  rewrite (trim_app_spaces pre0 w Hw). f_equal.
  rewrite skipn_all, app_nil_r.
  rewrite <- !app_assoc. rewrite firstn_app, Nat.sub_diag, firstn_all. simpl.
  apply app_nil_r.
Qed.

(** A description that is a bare duration clause is kept as it is. *)
Lemma describe_bare i l ind p n rest t num u :
  bare_duration_clause
    (or_default (Some (trim (js_remove rest COMMENT_REGEX)))
                (str "Test " ++ Number_toString n)) num u ->
  describe i l ind p n rest = Normal t ->
  duration t = None /\
  description t = or_default (Some (trim (js_remove rest COMMENT_REGEX)))
                             (str "Test " ++ Number_toString n).
Proof.
  intros Hd. unfold describe. rewrite (js_match_bare_duration _ _ _ Hd).
  intros [= <-]. now split.
Qed.
(** ** Loops *)

Lemma bind_Normal {A B} (a : A) (k : A -> completion B) : (Normal a ≫= k) = k a.
Proof. reflexivity. Qed.

Lemma bind_inv {A B} (c : completion A) (k : A -> completion B) b :
  (c ≫= k) = Normal b -> exists a, c = Normal a /\ k a = Normal b.
Proof. destruct c as [a|e]; [eauto | discriminate]. Qed.

(** The loop over [k + 1] indices is the loop over [k], then one step. *)
Lemma for_loop_snoc {S} k i (body : nat -> S -> completion S) s :
  for_loop (Datatypes.S k) i body s = (for_loop k i body s ≫= body (i + k)).
Proof.
  revert i s. induction k as [|k IH]; intros i s.
  - simpl. rewrite Nat.add_0_r. now destruct (body i s).
  - change (for_loop (Datatypes.S (Datatypes.S k)) i body s)
      with (body i s ≫= for_loop (Datatypes.S k) (Datatypes.S i) body).
    change (for_loop (Datatypes.S k) i body s)
      with (body i s ≫= for_loop k (Datatypes.S i) body).
    destruct (body i s) as [s'|e]; [|reflexivity].
    rewrite !bind_Normal, IH. now rewrite Nat.add_succ_r.
Qed.

(** The invariant rule: a body that keeps the invariant and completes
    normally at every index makes the loop complete normally. *)
Lemma for_loop_inv {S} (P : nat -> S -> Prop) k (body : nat -> S -> completion S) s :
  P 0 s ->
  (forall j t, j < k -> P j t -> exists t', body j t = Normal t' /\ P (Datatypes.S j) t') ->
  exists s', for_loop k 0 body s = Normal s' /\ P k s'.
Proof.
  intros H0 Hstep. induction k as [|k IH].
  - exists s. now split.
  - destruct IH as (s1 & E1 & P1); [intros j t Hj; apply Hstep; lia|].
    destruct (Hstep k s1) as (s2 & E2 & P2); [lia | exact P1|].
    exists s2. rewrite for_loop_snoc, E1. now split.
Qed.

(** A normal run of [k] steps went through a normal run of every [j <= k]. *)
Lemma for_loop_prefix {S} k j (body : nat -> S -> completion S) s s' :
  for_loop k 0 body s = Normal s' -> j <= k ->
  exists t, for_loop j 0 body s = Normal t.
Proof.
  revert s'. induction k as [|k IH]; intros s' E Hj.
  - assert (j = 0) as -> by lia. eauto.
  - destruct (Nat.eq_dec j (Datatypes.S k)) as [->|Hne]; [eauto|].
    rewrite for_loop_snoc in E. apply bind_inv in E as (t & E & _).
    apply (IH t E). lia.
Qed.

(** A property kept by every step from index [j] on holds at the end. *)
Lemma for_loop_from {S} (Q : S -> Prop) j k (body : nat -> S -> completion S) s t s' :
  for_loop j 0 body s = Normal t -> for_loop k 0 body s = Normal s' -> j <= k ->
  Q t ->
  (forall i u u', j <= i < k -> for_loop i 0 body s = Normal u -> Q u ->
                  body i u = Normal u' -> Q u') ->
  Q s'.
Proof.
  intros Ej. revert s'. induction k as [|k IH]; intros s' Ek Hjk Hq Hstep.
  - assert (j = 0) as -> by lia. simpl in *. congruence.
  - destruct (Nat.eq_dec j (Datatypes.S k)) as [->|Hne]; [congruence|].
    rewrite for_loop_snoc in Ek. apply bind_inv in Ek as (u & Eu & Eb).
    apply (Hstep k u s'); [lia | exact Eu | | exact Eb].
    apply (IH u Eu); [lia | exact Hq|].
    intros i v v' Hi. apply Hstep. lia.
Qed.

(** Two loops whose bodies agree on the indices they visit. *)
Lemma for_loop_ext {S} k i (body body' : nat -> S -> completion S) s :
  (forall j t, i <= j < i + k -> body j t = body' j t) ->
  for_loop k i body s = for_loop k i body' s.
Proof.
  revert i s. induction k as [|k IH]; intros i s H; [reflexivity|].
  simpl. rewrite (H i s) by lia. destruct (body' i s) as [t|e]; [|reflexivity].
  rewrite !bind_Normal. apply IH. intros j u Hj. apply H. lia.
Qed.

(** Two loops related step by step. *)
Lemma for_loop_rel {S S'} (R : nat -> S -> S' -> Prop) k
    (body : nat -> S -> completion S) (body' : nat -> S' -> completion S') s s' :
  R 0 s s' ->
  (forall j t t', j < k -> R j t t' ->
     exists u u', body j t = Normal u /\ body' j t' = Normal u' /\ R (Datatypes.S j) u u') ->
  exists u u', for_loop k 0 body s = Normal u /\ for_loop k 0 body' s' = Normal u' /\ R k u u'.
Proof.
  intros H0 Hstep. induction k as [|k IH].
  - exists s, s'. now repeat split.
  - destruct IH as (t & t' & E & E' & HR); [intros j u u' Hj; apply Hstep; lia|].
    destruct (Hstep k t t') as (u & u' & Eb & Eb' & HR'); [lia | exact HR|].
    exists u, u'. rewrite !for_loop_snoc, E, E'. now repeat split.
Qed.
(** ** Numbers *)

Lemma shr_1_nonneg mrs : (0 <= shr_m mrs)%Z -> (0 <= shr_m (shr_1 mrs))%Z.
Proof.
  destruct mrs as [m r s]. simpl. intros H.
  destruct m as [|[p|p|]|p]; simpl; lia.
Qed.

Lemma iter_pos_shr_1_nonneg p : forall mrs,
  (0 <= shr_m mrs)%Z -> (0 <= shr_m (SpecFloat.iter_pos shr_1 p mrs))%Z.
Proof.
  induction p as [p IH|p IH|]; intros mrs H; simpl.
  - apply IH, IH, shr_1_nonneg, H.
  - apply IH, IH, H.
  - apply shr_1_nonneg, H.
Qed.

Lemma shr_fexp_nonneg m e l :
  (0 <= m)%Z -> (0 <= shr_m (fst (shr_fexp prec emax m e l)))%Z.
Proof.
  intros H. unfold shr_fexp, shr.
  assert (H0 : (0 <= shr_m (shr_record_of_loc m l))%Z).
  { destruct l as [|[| |]]; exact H. }
  destruct (fexp prec emax (Zdigits2 m + e) - e)%Z; simpl; try exact H0.
  now apply iter_pos_shr_1_nonneg.
Qed.

Lemma round_nearest_even_nonneg m l : (0 <= m)%Z -> (0 <= round_nearest_even m l)%Z.
Proof.
  intros H. destruct l as [|[| |]]; simpl; try lia. destruct (Z.even m); lia.
Qed.

(** Rounding a natural mantissa never yields NaN. *)
Lemma binary_round_aux_not_NaN sx mx ex lx :
  (0 <= mx)%Z -> is_NaN (binary_round_aux prec emax sx mx ex lx) = false.
Proof.
  intros H. unfold binary_round_aux.
  assert (H1 := shr_fexp_nonneg mx ex lx H).
  destruct (shr_fexp prec emax mx ex lx) as [mrs' e'].
  assert (H2 := shr_fexp_nonneg _ e' loc_Exact
                  (round_nearest_even_nonneg _ (loc_of_shr_record mrs') H1)).
  destruct (shr_fexp prec emax _ e' loc_Exact) as [mrs'' e''].
  simpl in H2. destruct (shr_m mrs''); [reflexivity| |lia].
  now destruct (e'' <=? emax - prec)%Z.
Qed.

Lemma Number_of_Z_not_NaN z : (0 <= z)%Z -> is_NaN (Number_of_Z z) = false.
Proof.
  intros H. unfold Number_of_Z, binary_normalize.
  destruct z as [|p|p]; [reflexivity| |lia].
  unfold binary_round. destruct (shl_align _ _ _) as [mz ez].
  now apply binary_round_aux_not_NaN.
Qed.

Lemma digits_value_nonneg ds acc : (0 <= acc)%Z -> (0 <= digits_value acc ds)%Z.
Proof.
  revert acc. induction ds as [|c ds IH]; intros acc H; simpl; [exact H|].
  apply IH. unfold digit_value. lia.
Qed.

(** The test number read from a run of digits. *)
Lemma parseInt_digits ds :
  is_digits ds ->
  parseInt (Some ds)
  = match digits_value 0 ds with
    | Z0 => S754_zero false
    | v => Number_of_Z v
    end.
Proof.
  intros [Hne Hall]. unfold parseInt, template_of.
  destruct ds as [|c ds]; [contradiction|].
  assert (Hc : is_digit c = true) by now inversion Hall.
  rewrite trimStart_id by (simpl; now apply digit_not_space).
  unfold read_sign.
  replace (char_eqb c 45%N) with false by (symmetry; clear - Hc; chars).
  replace (char_eqb c 43%N) with false by (symmetry; clear - Hc; chars).
  rewrite (span_all _ _ Hall). now destruct (digits_value 0 (c :: ds)).
Qed.

Lemma parseInt_digits_not_NaN ds : is_digits ds -> is_NaN (parseInt (Some ds)) = false.
Proof.
  intros H. rewrite (parseInt_digits _ H).
  assert (Hv := digits_value_nonneg ds 0 (Z.le_refl 0)).
  destruct (digits_value 0 ds) eqn:E; [reflexivity| |lia].
  rewrite <- E. apply Number_of_Z_not_NaN. lia.
Qed.

(** On Numbers that are not NaN, [x > y] gives [y <= x]. *)
Lemma Number_le_total x y :
  is_NaN x = false -> is_NaN y = false ->
  Number_le y x = false -> Number_le x y = true.
Proof.
  unfold Number_le, SFleb, SFcompare.
  destruct x as [sx|sx| |sx mx ex], y as [sy|sy| |sy my ey];
    try discriminate; intros _ _;
    try (destruct sx, sy; simpl; congruence).
  assert (Hm : Pos.compare_cont Eq my mx = CompOpp (Pos.compare_cont Eq mx my))
    by (symmetry; apply (Pos.compare_cont_antisym mx my Eq)).
  destruct sx, sy; try congruence;
    rewrite (Z.compare_antisym ex ey);
    destruct (ex ?= ey)%Z; simpl; try congruence;
    rewrite Hm; destruct (Pos.compare_cont Eq mx my); simpl; congruence.
Qed.
(** ** The text of a capture group *)

Lemma keeps_at_accept n : keeps_at n accept.
Proof. intros pos s cs e cs' v [= <- <-] H. exact H. Qed.

Lemma run_keeps_at n r : forall k,
  no_cap n r = true -> keeps_at n k -> keeps_at n (run r k).
Proof.
  induction r as [| | |p|p|r1 IH1 r2 IH2|r1 IH1 r2 IH2|m r IH];
    intros k Hn Hk pos s cs e cs' v; simpl in *.
  - apply Hk.
  - destruct (Nat.eqb pos 0); [apply Hk | discriminate].
  - destruct s; [apply Hk | discriminate].
  - destruct s as [|c s]; [discriminate|]. destruct (p c); [apply Hk | discriminate].
  - intros H. destruct (star_loop_inv _ _ _ _ _ H) as (a & b & _ & _ & H').
    eapply Hk, H'.
  - apply andb_true_iff in Hn as [Hn1 Hn2]. apply IH1; [exact Hn1|]. now apply IH2.
  - apply andb_true_iff in Hn as [Hn1 Hn2].
    destruct (run r1 k pos s cs) as [[e1 c1]|] eqn:H1; simpl.
    + intros [= <- <-]. eapply IH1; eassumption.
    + eapply IH2; eassumption.
  - apply andb_true_iff in Hn as [Hm Hn]. apply negb_true_iff in Hm.
    apply IH; [exact Hn|]. intros pos' s' cs0 e0 cs0' v0 H0 Hv.
    eapply Hk; [exact H0|]. simpl. now rewrite Hm.
Qed.

Lemma run_plus_inv p k pos s cs res :
  run (Plus p) k pos s cs = Some res ->
  exists a b, a <> [] /\ all_in p a /\ s = a ++ b /\ k (pos + length a) b cs = Some res.
Proof.
  unfold Plus. cbn [run]. destruct s as [|c s]; [discriminate|].
  destruct (p c) eqn:Hc; [|discriminate]. intros H.
  destruct (star_loop_inv _ _ _ _ _ H) as (a & b & -> & Ha & Hk).
  exists (c :: a), b. repeat split; [discriminate | now constructor|].
  simpl. now rewrite Nat.add_succ_r.
Qed.

(** The third group of a test-result match is its run of digits. *)
Lemma TEST_RESULT_REGEX_number l m :
  js_match l TEST_RESULT_REGEX = Some m ->
  exists ds, group m 3 = Some ds /\ is_digits ds.
Proof.
  unfold TEST_RESULT_REGEX. cbn [rseq]. rewrite js_match_anchored.
  destruct (run _ accept 0 l []) as [[e cs]|] eqn:H; [|discriminate].
  intros [= <-]. unfold group. cbn [m_caps].
  rewrite run_seq in H. apply run_via in H as (p1 & s1 & c1 & H).
  rewrite run_seq in H. apply run_via in H as (p2 & s2 & c2 & H).
  rewrite run_seq in H. apply run_via in H as (p3 & s3 & c3 & H).
  rewrite run_seq, run_cap in H.
  apply run_plus_inv in H as (ds & b & Hne & Hds & -> & H).
  rewrite firstn_span_length in H.
  exists ds. split; [|now split].
  eapply (run_keeps_at 3); [| apply keeps_at_accept | exact H |].
  - reflexivity.
  - simpl. reflexivity.
Qed.

Lemma TEST_RESULT_REGEX_indent l m :
  js_match l TEST_RESULT_REGEX = Some m -> is_Some (group m 1).
Proof. now apply (js_match_binds 1 TEST_RESULT_REGEX). Qed.

Lemma DASHED_RESULT_REGEX_indent l m :
  js_match l DASHED_RESULT_REGEX = Some m -> is_Some (group m 1).
Proof. now apply (js_match_binds 1 DASHED_RESULT_REGEX). Qed.

(** The groups of a plan match are the two numbers of the line. *)
Lemma TEST_PLAN_REGEX_groups l m :
  js_match l TEST_PLAN_REGEX = Some m ->
  exists ws a b,
    l = ws ++ a ++ str ".." ++ b /\ all_in is_space ws /\ is_digits a /\ is_digits b /\
    group m 2 = Some a /\ group m 3 = Some b.
Proof.
  rewrite run_TEST_PLAN_REGEX.
  destruct (read_plan l) as [[[ws a] b]|] eqn:H; [|discriminate].
  intros [= <-]. apply read_plan_spec in H as (-> & Hws & Ha & Hb).
  exists ws, a, b. split; [reflexivity|]. split; [exact Hws|].
  split; [exact Ha|]. split; [exact Hb|]. split; reflexivity.
Qed.

(** A test-result line is no test-plan line. *)
Lemma result_line_not_plan l m :
  js_match l TEST_RESULT_REGEX = Some m -> js_match l TEST_PLAN_REGEX = None.
Proof.
  intros Hres. destruct (js_match l TEST_PLAN_REGEX) as [m'|] eqn:Hplan; [|reflexivity].
  apply TEST_PLAN_REGEX_head in Hplan as (c & s & Hc & Hd).
  apply TEST_RESULT_REGEX_head in Hres. rewrite Hc in Hres. cbn [prefix str] in Hres.
  exfalso. destruct Hres as [H|H]; apply andb_true_iff in H as [H _];
    unfold char_eqb in H; apply N.eqb_eq in H; subst c; discriminate Hd.
Qed.
(** ** The grouping pass: steps *)

Section GroupingSteps.
Import Grouping.

Lemma erase_output_fresh t : output t = [] -> erase_output t = t.
Proof. destruct t; simpl. now intros ->. Qed.

Lemma erase_output_push l t : erase_output (push_output l t) = erase_output t.
Proof. reflexivity. Qed.

(** The group that receives the next test object. *)
Lemma prepare_cases i n st :
  let st1 := default_step i (reset_step i n st) in
  store st1 = store st /\ currentTest st1 = currentTest st /\
  lastTestNumber st1 = lastTestNumber st /\
  ((Number_le n (lastTestNumber st) = true /\ has_tests (currentGroup st) = true /\
    groups st1 = seal (groups st) (currentGroup st) /\
    currentGroup st1
    = Some {| name := str "Tests (group "
                        ++ decimal_of_nat (length (seal (groups st) (currentGroup st)) + 1)
                        ++ str ")";
              group_line := i; tests := [] |})
   \/ (Number_le n (lastTestNumber st) && has_tests (currentGroup st) = false /\
       groups st1 = groups st /\
       ((exists g, currentGroup st = Some g /\ currentGroup st1 = Some g)
        \/ (currentGroup st = None /\
            currentGroup st1
            = Some {| name := str "Tests"; group_line := i; tests := [] |})))).
Proof.
  unfold default_step, reset_step.
  destruct (Number_le n (lastTestNumber st) && has_tests (currentGroup st)) eqn:Hc.
  - apply andb_true_iff in Hc as [H1 H2]. simpl. repeat split. left. now repeat split.
  - destruct (currentGroup st) as [g|] eqn:Hg.
    + repeat split. right. repeat split. left. now exists g.
    + simpl. repeat split. right. repeat split. now right.
Qed.

Lemma test_step_spec i l m st :
  js_match l TEST_RESULT_REGEX = Some m ->
  let n := parseInt (group m 3) in
  let st1 := default_step i (reset_step i n st) in
  exists t g,
    record_of i l t /\ currentGroup st1 = Some g /\
    test_step i l m st
    = Normal {| store := store st ++ [t]; groups := groups st1;
                currentGroup :=
                  Some {| name := name g; group_line := group_line g;
                          tests := tests g ++ [length (store st)] |};
                currentTest := Some (length (store st));
                lastTestNumber := n |}.
Proof.
  intros Hm n st1.
  destruct (TEST_RESULT_REGEX_indent _ _ Hm) as [g1 Hg1].
  destruct (describe_total i l (length g1) (strict_eq (group m 2) "ok") n
              (or_default (group m 4) [])) as [t Ht].
  destruct (prepare_cases i n st) as (Hstore & _ & _ & Hcases).
  fold st1 in Hstore, Hcases.
  assert (Hg : exists g, currentGroup st1 = Some g).
  { destruct Hcases as [(_ & _ & _ & ->) | (_ & _ & [(g & _ & ->) | (_ & ->)])]; eauto. }
  destruct Hg as [g Hg]. exists t, g. split; [|split; [exact Hg|]].
  - exists m, g1. now repeat split.
  - unfold test_step. rewrite Hg1. cbn [deref mbind completion_bind].
    fold n. rewrite Ht. cbn [mbind completion_bind]. fold st1. rewrite Hg, Hstore.
    reflexivity.
Qed.

(** Every step completes normally. *)
Lemma parse_body_total lines i st :
  i < length lines -> exists st', parse_body lines i st = Normal st'.
Proof.
  intros Hi. unfold parse_body.
  destruct (lookup_lt_is_Some_2 lines i Hi) as [l Hl]. rewrite Hl.
  cbn [deref mbind completion_bind].
  destruct (js_match l TEST_PLAN_REGEX); [eauto|].
  destruct (js_match l TEST_RESULT_REGEX) as [m|] eqn:Hm; [|eauto].
  destruct (test_step_spec i l m st Hm) as (t & g & _ & _ & ->). eauto.
Qed.

(** *** References *)

Lemma all_refs_seal gs (cur : option (TestGroup ref)) :
  concat (map tests (seal gs cur))
  = concat (map tests gs) ++ match cur with Some g => tests g | None => [] end.
Proof.
  destruct cur as [g|]; simpl.
  - rewrite map_app, concat_app. simpl. now rewrite app_nil_r.
  - now rewrite app_nil_r.
Qed.

Lemma prepare_refs i n st :
  all_refs (default_step i (reset_step i n st)) = all_refs st.
Proof.
  destruct (prepare_cases i n st) as (_ & _ & _ & Hc). unfold all_refs.
  destruct Hc as [(_ & _ & -> & ->) | (_ & -> & [(g & -> & ->) | (-> & ->)])].
  - rewrite (all_refs_seal (seal _ _)). simpl. now rewrite app_nil_r.
  - reflexivity.
  - rewrite !all_refs_seal. reflexivity.
Qed.

Lemma refs_bound st g :
  refs_ok st -> In g (seal (groups st) (currentGroup st)) ->
  Forall (fun r => r < length (store st)) (tests g).
Proof.
  intros [Hall _] Hg. apply List.Forall_forall. intros r Hr.
  assert (Hin : In r (all_refs st)).
  { unfold all_refs. apply in_concat. exists (tests g). split; [|exact Hr].
    now apply in_map. }
  rewrite Hall in Hin. apply in_seq in Hin. lia.
Qed.

Lemma refs_ok_initial : refs_ok initial.
Proof. split; [reflexivity | discriminate]. Qed.

Lemma refs_ok_plan i m st : refs_ok st -> refs_ok (plan_step i m st).
Proof.
  intros [Hall _]. split; [|discriminate].
  unfold all_refs in *. cbn [plan_step groups currentGroup store].
  rewrite (all_refs_seal (seal _ _)). simpl. now rewrite app_nil_r.
Qed.

Lemma refs_ok_output l st : refs_ok st -> refs_ok (output_step l st).
Proof.
  intros Hok. assert (Hok' := Hok). destruct Hok' as [Hall Hcur]. unfold output_step.
  destruct (currentTest st) as [r|] eqn:Hr; [|exact Hok].
  destruct (negb (is_empty (trim l))); [|exact Hok].
  split.
  - unfold all_refs in *. cbn [groups currentGroup store]. now rewrite length_alter.
  - cbn [currentTest currentGroup store]. rewrite length_alter. exact Hcur.
Qed.

Lemma refs_ok_test i n st t g :
  refs_ok st -> currentGroup (default_step i (reset_step i n st)) = Some g ->
  refs_ok {| store := store st ++ [t];
             groups := groups (default_step i (reset_step i n st));
             currentGroup :=
               Some {| name := name g; group_line := group_line g;
                       tests := tests g ++ [length (store st)] |};
             currentTest := Some (length (store st));
             lastTestNumber := n |}.
Proof.
  intros [Hall _] Hg. split.
  - assert (H1 := prepare_refs i n st). unfold all_refs in *.
    cbn [groups currentGroup store]. rewrite Hg in H1.
    rewrite ?all_refs_seal in *. cbn [tests]. rewrite app_assoc, H1, Hall.
    rewrite length_app. simpl. now rewrite Nat.add_1_r, seq_S.
  - cbn [currentTest store currentGroup]. intros r [= <-]. split.
    + rewrite length_app. simpl. lia.
    + unfold has_tests. cbn [tests]. rewrite length_app. simpl.
      now rewrite Nat.add_1_r.
Qed.

(** *** Test numbers *)

Lemma omap_lookup_extend (h : list TestRecord) t refs :
  Forall (fun r => r < length h) refs ->
  omap (fun r : ref => (h ++ [t]) !! r) refs = omap (fun r : ref => h !! r) refs.
Proof.
  induction 1 as [|r refs Hr _ IH]; [reflexivity|].
  cbn [omap list_omap]. rewrite IH. now rewrite lookup_app_l.
Qed.

Lemma ordinals_extend h t refs :
  Forall (fun r => r < length h) refs -> ordinals (h ++ [t]) refs = ordinals h refs.
Proof. intros H. unfold ordinals. now rewrite omap_lookup_extend. Qed.

Lemma ordinals_snoc h t refs :
  Forall (fun r => r < length h) refs ->
  ordinals (h ++ [t]) (refs ++ [length h]) = ordinals h refs ++ [testNumber t].
Proof.
  intros H. unfold ordinals. rewrite omap_app, map_app, omap_lookup_extend by exact H.
  f_equal. cbn [omap list_omap]. now rewrite list_lookup_middle.
Qed.

Lemma ordinals_alter f r h refs :
  (forall x, testNumber (f x) = testNumber x) ->
  ordinals (alter f r h) refs = ordinals h refs.
Proof.
  intros Hf. unfold ordinals. induction refs as [|r' refs IH]; [reflexivity|].
  cbn [omap list_omap]. destruct (decide (r = r')) as [->|Hne].
  - rewrite list_lookup_alter_eq. destruct (h !! r') as [x|]; simpl; [|exact IH].
    now rewrite Hf, IH.
  - rewrite list_lookup_alter_ne by exact Hne.
    destruct (h !! r'); simpl; [now rewrite IH | exact IH].
Qed.

Lemma Sorted_snoc {A} (R : A -> A -> Prop) l x :
  Sorted R l -> (forall y, last l = Some y -> R y x) -> Sorted R (l ++ [x]).
Proof.
  induction 1 as [|a l Hl IH Hd]; intros Hlast; simpl.
  - repeat constructor.
  - constructor.
    + apply IH. intros y Hy. apply Hlast. destruct l; [discriminate | exact Hy].
    + destruct l as [|b l]; simpl.
      * constructor. now apply Hlast.
      * constructor. now inversion Hd.
Qed.

Lemma ordinals_ok_initial : ordinals_ok initial.
Proof. repeat split; try constructor. discriminate. Qed.

Lemma ordinals_ok_plan i m st : ordinals_ok st -> ordinals_ok (plan_step i m st).
Proof.
  intros (Hnan & _ & Hsorted & _). repeat split.
  - exact Hnan.
  - cbn [plan_step groups currentGroup store seal].
    apply Forall_app. split; [exact Hsorted | repeat constructor].
  - cbn [plan_step currentGroup]. intros g x [= <-]. discriminate.
Qed.

Lemma ordinals_ok_output l st : ordinals_ok st -> ordinals_ok (output_step l st).
Proof.
  intros Hok. assert (Hok' := Hok). destruct Hok' as (Hnan & Hlast & Hsorted & Hcur).
  unfold output_step. destruct (currentTest st) as [r|]; [|exact Hok].
  destruct (negb (is_empty (trim l))); [|exact Hok].
  repeat split; cbn [store groups currentGroup lastTestNumber].
  - apply Forall_alter; [exact Hnan | tauto].
  - exact Hlast.
  - eapply Forall_impl; [exact Hsorted|]. intros g. cbv beta.
    now rewrite ordinals_alter.
  - intros g x Hg. rewrite ordinals_alter by reflexivity. now apply Hcur.
Qed.

Lemma ordinals_nonempty h refs x : last (ordinals h refs) = Some x -> refs <> [].
Proof. now destruct refs. Qed.

(** The group that receives the next test object holds smaller numbers. *)
Lemma prepare_group i n st g :
  refs_ok st -> ordinals_ok st ->
  currentGroup (default_step i (reset_step i n st)) = Some g ->
  Forall (fun r => r < length (store st)) (tests g) /\
  Sorted (fun a b => Number_gt_prop b a) (ordinals (store st) (tests g)) /\
  (forall x, last (ordinals (store st) (tests g)) = Some x -> Number_gt_prop n x) /\
  Forall (fun g0 =>
            Forall (fun r => r < length (store st)) (tests g0) /\
            Sorted (fun a b => Number_gt_prop b a) (ordinals (store st) (tests g0)))
         (groups (default_step i (reset_step i n st))).
Proof.
  intros Hrefs (_ & _ & Hsorted & Hcur) Hg.
  assert (Hall : Forall (fun g0 =>
            Forall (fun r => r < length (store st)) (tests g0) /\
            Sorted (fun a b => Number_gt_prop b a) (ordinals (store st) (tests g0)))
         (seal (groups st) (currentGroup st))).
  { apply List.Forall_forall. intros g0 Hg0. split.
    - now apply refs_bound.
    - rewrite List.Forall_forall in Hsorted. now apply Hsorted. }
  assert (Hgs : Forall (fun g0 =>
            Forall (fun r => r < length (store st)) (tests g0) /\
            Sorted (fun a b => Number_gt_prop b a) (ordinals (store st) (tests g0)))
         (groups st)).
  { destruct (currentGroup st); simpl in Hall; [|exact Hall].
    now apply Forall_app in Hall as [? _]. }
  destruct (prepare_cases i n st) as (_ & _ & _ & Hc).
  destruct Hc as [(_ & _ & Hgr & Hcg) | (Hcond & Hgr & [(g' & Hg' & Hcg) | (_ & Hcg)])];
    rewrite Hcg in Hg; injection Hg as <-; rewrite Hgr; cbn [tests].
  - repeat split; try constructor; [discriminate | exact Hall].
  - rewrite Hg' in Hall. simpl in Hall. apply Forall_app in Hall as [_ Hg0].
    inversion Hg0 as [|? ? [Hb Hs] _]; subst.
    repeat split; try assumption.
    intros x Hx. rewrite (Hcur g' x Hg' Hx) in Hcond. rewrite Hg' in Hcond.
    apply andb_false_iff in Hcond as [Hle|Hne]; [exact Hle|].
    apply ordinals_nonempty in Hx. unfold has_tests in Hne.
    destruct (tests g'); [contradiction | discriminate].
  - repeat split; try constructor; [discriminate | exact Hgs].
Qed.

Lemma ordinals_ok_test i n st t g :
  refs_ok st -> ordinals_ok st -> is_NaN n = false -> testNumber t = n ->
  currentGroup (default_step i (reset_step i n st)) = Some g ->
  ordinals_ok {| store := store st ++ [t];
                 groups := groups (default_step i (reset_step i n st));
                 currentGroup :=
                   Some {| name := name g; group_line := group_line g;
                           tests := tests g ++ [length (store st)] |};
                 currentTest := Some (length (store st));
                 lastTestNumber := n |}.
Proof.
  intros Hrefs Hord Hn Ht Hg.
  destruct (prepare_group i n st g Hrefs Hord Hg) as (Hb & Hs & Hlast & Hgs).
  destruct Hord as (Hnan & _ & _ & _).
  repeat split; cbn [store groups currentGroup lastTestNumber seal tests].
  - apply Forall_app. split; [exact Hnan|]. repeat constructor. now rewrite Ht.
  - exact Hn.
  - apply Forall_app. split.
    + eapply Forall_impl; [exact Hgs|]. intros g0 [Hb0 Hs0]. cbv beta.
      now rewrite ordinals_extend.
    + repeat constructor. cbn [tests]. rewrite ordinals_snoc by exact Hb.
      apply Sorted_snoc; [exact Hs|]. rewrite Ht. exact Hlast.
  - intros g0 x [= <-]. cbn [tests]. rewrite ordinals_snoc by exact Hb.
    rewrite last_snoc, Ht. now intros [= <-].
Qed.

(** *** Provenance *)

Lemma provenance_initial lines : provenance lines 0 initial.
Proof. constructor. Qed.

Lemma provenance_weaken lines k st st' :
  store st' = store st -> provenance lines k st -> provenance lines (S k) st'.
Proof.
  unfold provenance. intros ->. intros H. eapply Forall_impl; [exact H|].
  intros t (Hl & Hrest). cbv beta. split; [lia | exact Hrest].
Qed.

Lemma provenance_output lines k l st :
  provenance lines k st -> provenance lines (S k) (output_step l st).
Proof.
  intros H. unfold output_step.
  destruct (currentTest st) as [r|]; [|now apply (provenance_weaken lines k st)].
  destruct (is_empty (trim l)) eqn:He; cbn [negb];
    [now apply (provenance_weaken lines k st)|].
  unfold provenance in *. cbn [store]. apply Forall_alter.
  - eapply Forall_impl; [exact H|].
    intros t (Hl & Hrest). cbv beta. split; [lia | exact Hrest].
  - intros t _ (Hl & Hline & Hplan & Hrec & Hout). cbn [push_output line fullLine output].
    rewrite erase_output_push.
    split; [lia|]. split; [exact Hline|]. split; [exact Hplan|]. split; [exact Hrec|].
    apply Forall_app. split; [exact Hout|]. repeat constructor.
    intros E. now rewrite E in He.
Qed.

Lemma provenance_test lines k l st t gs cur ct n :
  lines !! k = Some l -> js_match l TEST_PLAN_REGEX = None -> record_of k l t ->
  provenance lines k st ->
  provenance lines (S k)
    {| store := store st ++ [t]; groups := gs; currentGroup := cur;
       currentTest := ct; lastTestNumber := n |}.
Proof.
  intros Hl Hplan Hrec H. unfold provenance in *. cbn [store].
  apply Forall_app. split.
  - eapply Forall_impl; [exact H|].
    intros t0 (Hl0 & Hrest). cbv beta. split; [lia | exact Hrest].
  - constructor; [|constructor].
    assert (Hrec' := Hrec). destruct Hrec' as (m & g1 & Hm & Hg1 & Hd).
    destruct (describe_fields _ _ _ _ _ _ _ Hd)
      as (Hli & _ & _ & _ & _ & _ & Hfl & Hout).
    rewrite Hli, Hfl, (erase_output_fresh _ Hout), Hout.
    split; [lia|]. split; [exact Hl|]. split; [exact Hplan|]. split; [exact Hrec|].
    constructor.
Qed.

End GroupingSteps.
(** ** The grouping pass: runs *)

Section GroupingRuns.
Import Grouping.

Lemma parse_body_cases lines k st st' :
  parse_body lines k st = Normal st' ->
  exists l, lines !! k = Some l /\
    ((exists m, js_match l TEST_PLAN_REGEX = Some m /\ st' = plan_step k m st)
     \/ (js_match l TEST_PLAN_REGEX = None /\
         exists m t g,
           js_match l TEST_RESULT_REGEX = Some m /\ record_of k l t /\
           currentGroup (default_step k (reset_step k (parseInt (group m 3)) st)) = Some g /\
           st' = {| store := store st ++ [t];
                    groups := groups (default_step k (reset_step k (parseInt (group m 3)) st));
                    currentGroup :=
                      Some {| name := name g; group_line := group_line g;
                              tests := tests g ++ [length (store st)] |};
                    currentTest := Some (length (store st));
                    lastTestNumber := parseInt (group m 3) |})
     \/ (js_match l TEST_PLAN_REGEX = None /\ js_match l TEST_RESULT_REGEX = None /\
         st' = output_step l st)).
Proof.
  unfold parse_body. destruct (lines !! k) as [l|]; [|discriminate].
  cbn [deref mbind completion_bind]. intros H. exists l. split; [reflexivity|].
  destruct (js_match l TEST_PLAN_REGEX) as [m|] eqn:Hp.
  - left. exists m. split; [reflexivity|]. now injection H.
  - right. destruct (js_match l TEST_RESULT_REGEX) as [m|] eqn:Hm.
    + left. split; [reflexivity|].
      destruct (test_step_spec k l m st Hm) as (t & g & Hrec & Hg & E).
      rewrite E in H. injection H as <-. now exists m, t, g.
    + right. repeat split. now injection H.
Qed.

Lemma record_of_fields i l t :
  record_of i l t ->
  line t = i /\ fullLine t = l /\ output t = [] /\
  hasTodo t = js_test TODO_REGEX l /\ hasSkip t = js_test SKIP_REGEX l /\
  exists m ds, js_match l TEST_RESULT_REGEX = Some m /\ group m 3 = Some ds /\
               is_digits ds /\ testNumber t = parseInt (Some ds) /\
               passed t = strict_eq (group m 2) "ok".
Proof.
  intros (m & g1 & Hm & Hg1 & Hd).
  destruct (describe_fields _ _ _ _ _ _ _ Hd) as (H1 & _ & H3 & H4 & H5 & H6 & H7 & H8).
  destruct (TEST_RESULT_REGEX_number _ _ Hm) as (ds & Hds & Hdig).
  split; [exact H1|]. split; [exact H7|]. split; [exact H8|].
  split; [exact H5|]. split; [exact H6|]. exists m, ds.
  split; [exact Hm|]. split; [exact Hds|]. split; [exact Hdig|].
  rewrite <- Hds. now split.
Qed.

(** The invariants hold along every run. *)
Lemma parse_body_inv lines k st :
  k < length lines -> grouping_inv lines k st ->
  exists st', parse_body lines k st = Normal st' /\ grouping_inv lines (S k) st'.
Proof.
  intros Hk (Hrefs & Hord & Hprov).
  destruct (parse_body_total lines k st Hk) as [st' E]. exists st'. split; [exact E|].
  destruct (parse_body_cases _ _ _ _ E)
    as (l & Hl & [(m & Hp & ->) | [(Hp & m & t & g & Hm & Hrec & Hg & ->) | (Hp & Hm & ->)]]).
  - split; [now apply refs_ok_plan|]. split; [now apply ordinals_ok_plan|].
    now apply (provenance_weaken lines k st).
  - destruct (record_of_fields _ _ _ Hrec)
      as (_ & _ & _ & _ & _ & m' & ds & Hm' & Hds & Hdig & Hn & _).
    rewrite Hm in Hm'. injection Hm' as <-.
    split; [now apply refs_ok_test|]. split.
    + apply ordinals_ok_test; try assumption.
      * rewrite Hds. now apply parseInt_digits_not_NaN.
      * now rewrite Hds.
    + now apply (provenance_test lines k l).
  - split; [now apply refs_ok_output|]. split; [now apply ordinals_ok_output|].
    now apply provenance_output.
Qed.

Lemma run_lines_inv lines k :
  k <= length lines ->
  exists st, run_lines lines k = Normal st /\ grouping_inv lines k st.
Proof.
  intros Hk. unfold run_lines.
  apply (for_loop_inv (grouping_inv lines)).
  - split; [exact refs_ok_initial|]. split; [exact ordinals_ok_initial|].
    apply provenance_initial.
  - intros j t Hj. apply parse_body_inv. lia.
Qed.

Lemma run_lines_inv' lines k st :
  run_lines lines k = Normal st -> k <= length lines -> grouping_inv lines k st.
Proof.
  intros E Hk. destruct (run_lines_inv lines k Hk) as (st' & E' & H). congruence.
Qed.

Lemma run_lines_S lines k st :
  run_lines lines k = Normal st ->
  run_lines lines (S k) = parse_body lines k st.
Proof. unfold run_lines. intros E. now rewrite for_loop_snoc, E. Qed.

(** The result of the parse is the list of all groups of the last state. *)
Lemma parseTapContent_spec text gs :
  parseTapContent text = Normal gs <->
  exists st, run_lines (split_lines text) (length (split_lines text)) = Normal st /\
             gs = map (resolve (store st)) (group_list st).
Proof.
  unfold parseTapContent. split.
  - intros H. apply bind_inv in H as (st & E & H). injection H as <-. eauto.
  - intros (st & -> & ->). reflexivity.
Qed.

(** *** What later steps keep *)

Lemma frozen_refl n0 st :
  n0 <= length (store st) -> (forall r, currentTest st = Some r -> n0 <= r) ->
  frozen n0 st st.
Proof.
  intros H1 H2. repeat split; try assumption. exists []. now rewrite app_nil_r.
Qed.

Lemma seal_extends (gs : list (TestGroup ref)) cur : exists more, seal gs cur = gs ++ more.
Proof. destruct cur as [g|]; [now exists [g] | exists []; simpl; now rewrite app_nil_r]. Qed.

Lemma prepare_groups_extend i n st :
  exists more, groups (default_step i (reset_step i n st)) = groups st ++ more.
Proof.
  destruct (prepare_cases i n st) as (_ & _ & _ & [(_ & _ & -> & _) | (_ & -> & _)]).
  - apply seal_extends.
  - exists []. now rewrite app_nil_r.
Qed.

Lemma frozen_step n0 b lines k st st' :
  frozen n0 b st -> parse_body lines k st = Normal st' -> frozen n0 b st'.
Proof.
  intros Hfr E. assert (Hfr' := Hfr). destruct Hfr' as (Hlen & Htake & [more Hmore] & Hcur).
  destruct (parse_body_cases _ _ _ _ E)
    as (l & Hl & [(m & Hp & ->) | [(Hp & m & t & g & Hm & Hrec & Hg & ->) | (Hp & Hm & ->)]]).
  - repeat split; cbn [plan_step store groups currentTest]; try assumption; [|discriminate].
    destruct (seal_extends (groups st) (currentGroup st)) as [more' ->].
    exists (more ++ more'). now rewrite Hmore, app_assoc.
  - repeat split; cbn [store groups currentTest].
    + rewrite length_app. lia.
    + now rewrite take_app_le.
    + destruct (prepare_groups_extend k (parseInt (group m 3)) st) as [more' ->].
      exists (more ++ more'). now rewrite Hmore, app_assoc.
    + intros r [= <-]. exact Hlen.
  - unfold output_step. destruct (currentTest st) as [r|] eqn:Hr; [|exact Hfr].
    destruct (negb (is_empty (trim l))); [|exact Hfr].
    repeat split; cbn [store groups currentTest].
    + now rewrite length_alter.
    + rewrite take_alter_ge; [exact Htake|]. now apply Hcur.
    + eauto.
    + exact Hcur.
Qed.

Lemma group_list_middle (st : pstate) g0 :
  currentGroup st = Some g0 -> group_list st !! length (groups st) = Some g0.
Proof. unfold group_list. intros ->. simpl. apply list_lookup_middle. reflexivity. Qed.

Lemma continues_refl j b : continues j b b.
Proof.
  repeat split.
  - lia.
  - eauto.
  - intros r t Hr Ht. apply lookup_lt_Some in Ht. lia.
  - intros g0 Hg0. exists g0, []. rewrite app_nil_r.
    repeat split; [now apply group_list_middle | constructor].
Qed.

Lemma continues_step j b lines k st st' :
  j <= k -> continues j b st -> parse_body lines k st = Normal st' -> continues j b st'.
Proof.
  intros Hjk Hco E. assert (Hco' := Hco). destruct Hco' as (Hlen & Hold & Hnew & Hgrp).
  destruct (parse_body_cases _ _ _ _ E)
    as (l & Hl & [(m & Hp & ->) | [(Hp & m & t & g & Hm & Hrec & Hg & ->) | (Hp & Hm & ->)]]).
  - repeat split; cbn [plan_step store]; try assumption.
    intros g0 Hg0. destruct (Hgrp g0 Hg0) as (g' & new & Hlook & Hrest).
    exists g', new. split; [|exact Hrest].
    unfold group_list in *. cbn [plan_step groups currentGroup seal].
    rewrite lookup_app_l; [exact Hlook|]. now apply lookup_lt_Some in Hlook.
  - destruct (record_of_fields _ _ _ Hrec) as (Hline & _).
    repeat split; cbn [store].
    + rewrite length_app. lia.
    + intros r t0 Hr. destruct (Hold r t0 Hr) as (t' & Ht' & He).
      exists t'. split; [|exact He]. rewrite lookup_app_l; [exact Ht'|].
      now apply lookup_lt_Some in Ht'.
    + intros r t0 Hr Ht0. destruct (decide (r < length (store st))) as [Hlt|Hge].
      * rewrite lookup_app_l in Ht0 by exact Hlt. now apply (Hnew r).
      * apply lookup_lt_Some in Ht0 as Hb. rewrite length_app in Hb. simpl in Hb.
        assert (r = length (store st)) as -> by lia.
        rewrite list_lookup_middle in Ht0 by reflexivity. injection Ht0 as <-. lia.
    + intros g0 Hg0. destruct (Hgrp g0 Hg0) as (g' & new & Hlook & Hname & Hgl & Htests & Hnewrefs).
      unfold group_list in *. cbn [groups currentGroup seal].
      destruct (prepare_cases k (parseInt (group m 3)) st) as (_ & _ & _ & Hc).
      destruct Hc as [(_ & _ & Hgr & Hcg) | (_ & Hgr & [(c & Hc & Hcg) | (Hc & Hcg)])];
        rewrite Hgr.
      * exists g', new. repeat split; try assumption.
        rewrite lookup_app_l; [exact Hlook|]. now apply lookup_lt_Some in Hlook.
      * rewrite Hcg in Hg. injection Hg as <-. rewrite Hc in Hlook. simpl in Hlook.
        destruct (decide (length (groups b) < length (groups st))) as [Hlt|Hge].
        -- exists g', new. repeat split; try assumption.
           rewrite lookup_app_l in Hlook |- * by exact Hlt. exact Hlook.
        -- apply lookup_lt_Some in Hlook as Hb. rewrite length_app in Hb. simpl in Hb.
           assert (Hgi : length (groups b) = length (groups st)) by lia.
           rewrite Hgi in Hlook |- *.
           rewrite list_lookup_middle in Hlook by reflexivity. injection Hlook as <-.
           exists {| name := name c; group_line := group_line c;
                     tests := tests c ++ [length (store st)] |}, (new ++ [length (store st)]).
           rewrite list_lookup_middle by reflexivity. cbn [name group_line tests].
           repeat split; try assumption.
           ++ now rewrite Htests, app_assoc.
           ++ apply Forall_app. split; [exact Hnewrefs|]. repeat constructor. exact Hlen.
      * exists g', new. repeat split; try assumption.
        rewrite Hc in Hlook. simpl in Hlook.
        rewrite lookup_app_l; [exact Hlook|]. now apply lookup_lt_Some in Hlook.
  - unfold output_step. destruct (currentTest st) as [r|] eqn:Hr; [|exact Hco].
    destruct (negb (is_empty (trim l))); [|exact Hco].
    repeat split; cbn [store].
    + now rewrite length_alter.
    + intros r0 t0 Hr0. destruct (Hold r0 t0 Hr0) as (t' & Ht' & He).
      destruct (decide (r = r0)) as [->|Hne].
      * exists (push_output l t'). rewrite list_lookup_alter_eq, Ht'. now split.
      * exists t'. rewrite list_lookup_alter_ne by exact Hne. now split.
    + intros r0 t0 Hr0 Ht0. destruct (decide (r = r0)) as [->|Hne].
      * rewrite list_lookup_alter_eq in Ht0.
        destruct (store st !! r0) as [t1|] eqn:Ht1; [|discriminate].
        injection Ht0 as <-. cbn [push_output line]. now apply (Hnew r0).
      * rewrite list_lookup_alter_ne in Ht0 by exact Hne. now apply (Hnew r0).
    + exact Hgrp.
Qed.

(** Along a run, from one state to a later one. *)
Lemma run_lines_continues lines j k b st :
  run_lines lines j = Normal b -> run_lines lines k = Normal st -> j <= k ->
  continues j b st.
Proof.
  intros Eb Est Hjk.
  apply (for_loop_from (continues j b) j k _ _ b st Eb Est Hjk); [apply continues_refl|].
  intros i u u' Hi _ Hu Eu. apply (continues_step j b lines i u u'); [lia | exact Hu | exact Eu].
Qed.

Lemma run_lines_frozen n0 lines j k b st :
  run_lines lines j = Normal b -> run_lines lines k = Normal st -> j <= k ->
  n0 <= length (store b) -> (forall r, currentTest b = Some r -> n0 <= r) ->
  frozen n0 b st.
Proof.
  intros Eb Est Hjk Hn0 Hcur.
  apply (for_loop_from (frozen n0 b) j k _ _ b st Eb Est Hjk); [now apply frozen_refl|].
  intros i u u' Hi _ Hu Eu. apply (frozen_step n0 b lines i u u'); assumption.
Qed.

(** A group whose references are below [n0] reads the same test objects
    from two stores that agree below [n0]. *)
Lemma resolve_take n0 h h' g :
  take n0 h = take n0 h' -> Forall (fun r => r < n0) (tests g) ->
  resolve h g = resolve h' g.
Proof.
  intros Ht Hb. unfold resolve. f_equal.
  induction Hb as [|r refs Hr _ IH]; [reflexivity|].
  cbn [omap list_omap]. rewrite IH.
  now rewrite <- (lookup_take_lt h n0 r Hr), <- (lookup_take_lt h' n0 r Hr), Ht.
Qed.

End GroupingRuns.
(** ** The grouping pass: the groups returned *)

Section GroupingOutput.
Import Grouping.

Lemma In_omap_lookup (h : list TestRecord) (refs : list nat) t :
  In t (omap (fun r : nat => h !! r) refs) <-> exists r, In r refs /\ h !! r = Some t.
Proof.
  induction refs as [|r refs IH]; cbn [omap list_omap].
  - split; [intros [] | intros (r & [] & _)].
  - destruct (h !! r) as [x|] eqn:Hx.
    + simpl. rewrite IH. split.
      * intros [<- | (r' & Hr' & Ht)]; [exists r; auto | exists r'; auto].
      * intros (r' & [<- | Hr'] & Ht); [left; congruence | right; eauto].
    + rewrite IH. split.
      * intros (r' & Hr' & Ht). exists r'. simpl. auto.
      * intros (r' & [<- | Hr'] & Ht); [congruence | eauto].
Qed.

Lemma In_resolve h (L : list (TestGroup nat)) g t :
  In g (map (resolve h) L) -> In t (tests g) ->
  exists g0 r, In g0 L /\ In r (tests g0) /\ h !! r = Some t /\
               name g = name g0 /\ group_line g = group_line g0.
Proof.
  intros Hg Ht. apply in_map_iff in Hg as (g0 & <- & Hg0).
  cbn [resolve tests] in Ht. apply In_omap_lookup in Ht as (r & Hr & Hlook).
  exists g0, r. now repeat split.
Qed.

(** Every test object returned comes from a test-result line of the text. *)
Lemma output_records text gs g t :
  parseTapContent text = Normal gs -> In g gs -> In t (tests g) ->
  line t < length (split_lines text) /\
  split_lines text !! line t = Some (fullLine t) /\
  js_match (fullLine t) TEST_PLAN_REGEX = None /\
  record_of (line t) (fullLine t) (erase_output t) /\
  Forall (fun o => trim o <> []) (output t).
Proof.
  intros Hp Hg Ht. apply parseTapContent_spec in Hp as (st & Hrun & ->).
  destruct (In_resolve _ _ _ _ Hg Ht) as (g0 & r & _ & _ & Hlook & _).
  destruct (run_lines_inv' _ _ _ Hrun (Nat.le_refl _)) as (_ & _ & Hprov).
  unfold provenance in Hprov. rewrite Forall_lookup in Hprov.
  apply (Hprov r t Hlook).
Qed.

(** Every test-result line of the text has its test object in a group. *)
Lemma line_record text i l m :
  split_lines text !! i = Some l ->
  js_match l TEST_PLAN_REGEX = None -> js_match l TEST_RESULT_REGEX = Some m ->
  exists gs g t,
    parseTapContent text = Normal gs /\ In g gs /\ In t (tests g) /\
    record_of i l (erase_output t) /\ line t = i /\ fullLine t = l.
Proof.
  intros Hl Hplan Hres. set (lines := split_lines text) in *.
  assert (Hi : i < length lines) by (now apply lookup_lt_Some in Hl).
  destruct (run_lines_inv lines i) as (st & Est & _); [lia|].
  destruct (run_lines_inv lines (S i)) as (st' & Est' & _); [lia|].
  destruct (run_lines_inv lines (length lines)) as (stf & Estf & Hrefs & _); [lia|].
  rewrite (run_lines_S _ _ _ Est) in Est'.
  destruct (parse_body_cases _ _ _ _ Est')
    as (l' & Hl' & [(m' & Hp & _) | [(_ & m' & t0 & g0 & Hm' & Hrec & Hg0 & E) | (_ & Hm' & _)]]);
    rewrite Hl in Hl'; injection Hl' as <-; try congruence.
  rewrite <- (run_lines_S _ _ _ Est) in Est'.
  destruct (run_lines_continues lines (S i) (length lines) st' stf Est' Estf)
    as (Hlen & Hold & _); [lia|].
  destruct (Hold (length (store st)) t0) as (t & Ht & He).
  { rewrite E. cbn [store]. now apply list_lookup_middle. }
  destruct (record_of_fields _ _ _ Hrec) as (Hline & Hfull & Hout & _).
  rewrite (erase_output_fresh _ Hout) in He.
  assert (Hin : In (length (store st)) (all_refs stf)).
  { destruct Hrefs as [-> _]. apply in_seq. apply lookup_lt_Some in Ht. lia. }
  unfold all_refs in Hin. apply in_concat in Hin as (refs & Hrefs' & Hr).
  apply in_map_iff in Hrefs' as (g & <- & Hg).
  exists (map (resolve (store stf)) (group_list stf)), (resolve (store stf) g), t.
  split; [apply parseTapContent_spec; eauto|].
  split; [now apply in_map|].
  split; [apply In_omap_lookup; eauto|].
  rewrite He. split; [exact Hrec|].
  split; [now rewrite <- Hline, <- He | now rewrite <- Hfull, <- He].
Qed.

(** The duration and the description of a record built for a line. *)
Lemma record_of_duration i l t pre clause num u :
  record_of i l t ->
  cleaned_description l = pre ++ clause -> duration_clause clause num u ->
  duration t = Some (milliseconds num u) /\ description t = trim pre.
Proof.
  intros (m & g1 & Hm & Hg1 & Hd) Hc Hcl. unfold cleaned_description in Hc.
  rewrite Hm in Hc. exact (describe_duration _ _ _ _ _ _ _ _ _ _ _ Hc Hcl Hd).
Qed.

Lemma record_of_bare i l t num u :
  record_of i l t -> bare_duration_clause (cleaned_description l) num u ->
  duration t = None /\ description t = cleaned_description l.
Proof.
  intros (m & g1 & Hm & Hg1 & Hd) Hc. unfold cleaned_description in *.
  rewrite Hm in *. exact (describe_bare _ _ _ _ _ _ _ _ _ Hc Hd).
Qed.

End GroupingOutput.
(** ** The flat parsers *)

Lemma flat_body_total lines i ts :
  i < length lines -> exists ts', Flat.parse_body lines i ts = Normal ts'.
Proof.
  intros Hi. unfold Flat.parse_body.
  destruct (lookup_lt_is_Some_2 lines i Hi) as [l Hl]. rewrite Hl.
  cbn [deref mbind completion_bind].
  destruct (js_match l TEST_RESULT_REGEX) as [m|] eqn:Hm; [|eauto].
  destruct (TEST_RESULT_REGEX_indent _ _ Hm) as [g1 ->]. cbn [deref mbind completion_bind].
  destruct (describe_total i l (length g1) (strict_eq (group m 2) "ok")
              (parseInt (group m 3)) (or_default (group m 4) [])) as [t ->].
  cbn [mbind completion_bind]. eauto.
Qed.

Lemma flat_body_inv lines k ts :
  k < length lines -> flat_inv is_result_line record_of lines k ts ->
  exists ts', Flat.parse_body lines k ts = Normal ts'
              /\ flat_inv is_result_line record_of lines (S k) ts'.
Proof.
  intros Hk [Hall Hex]. unfold Flat.parse_body.
  destruct (lookup_lt_is_Some_2 lines k Hk) as [l Hl]. rewrite Hl.
  cbn [deref mbind completion_bind].
  assert (Hweak : Forall (fun t => line t < S k /\ lines !! line t = Some (fullLine t) /\
                                   record_of (line t) (fullLine t) t) ts).
  { eapply Forall_impl; [exact Hall|]. intros t (H1 & H2). cbv beta. split; [lia | exact H2]. }
  destruct (js_match l TEST_RESULT_REGEX) as [m|] eqn:Hm.
  - destruct (TEST_RESULT_REGEX_indent _ _ Hm) as [g1 Hg1]. rewrite Hg1.
    cbn [deref mbind completion_bind].
    destruct (describe_total k l (length g1) (strict_eq (group m 2) "ok")
                (parseInt (group m 3)) (or_default (group m 4) [])) as [t Ht].
    rewrite Ht. cbn [mbind completion_bind]. exists (ts ++ [t]). split; [reflexivity|].
    assert (Hrec : record_of k l t) by (exists m, g1; now repeat split).
    destruct (record_of_fields _ _ _ Hrec) as (Hline & Hfull & _).
    split.
    + apply Forall_app. split; [exact Hweak|]. constructor; [|constructor].
      rewrite Hline, Hfull. split; [lia|]. now split.
    + intros i l' Hi Hl' Hmatch. destruct (decide (i = k)) as [->|Hne].
      * rewrite Hl in Hl'. injection Hl' as <-. exists t. split; [|now split].
        apply in_or_app. right. now left.
      * destruct (Hex i l') as (t' & Hin & Hrest); [lia | assumption | assumption|].
        exists t'. split; [apply in_or_app; now left | exact Hrest].
  - exists ts. split; [reflexivity|]. split; [exact Hweak|].
    intros i l' Hi Hl' Hmatch. destruct (decide (i = k)) as [->|Hne].
    + rewrite Hl in Hl'. injection Hl' as <-. unfold is_result_line in Hmatch.
      now rewrite Hm in Hmatch.
    + apply Hex; [lia | assumption | assumption].
Qed.

(** The flat snapshot returns one test object per test-result line. *)
Lemma flat_parse_spec text :
  exists ts, Flat.parseTapContent text = Normal ts /\
    flat_inv is_result_line record_of (split_lines text) (length (split_lines text)) ts.
Proof.
  unfold Flat.parseTapContent.
  apply (for_loop_inv (flat_inv is_result_line record_of (split_lines text))).
  - split; [constructor|]. intros i l Hi. lia.
  - intros j t Hj. now apply flat_body_inv.
Qed.

Lemma legacy_body_inv lines k ts :
  k < length lines -> flat_inv is_dashed_result_line legacy_record_of lines k ts ->
  exists ts', Legacy.parse_body lines k ts = Normal ts'
              /\ flat_inv is_dashed_result_line legacy_record_of lines (S k) ts'.
Proof.
  intros Hk [Hall Hex]. unfold Legacy.parse_body.
  destruct (lookup_lt_is_Some_2 lines k Hk) as [l Hl]. rewrite Hl.
  cbn [deref mbind completion_bind].
  assert (Hweak : Forall (fun t => line t < S k /\ lines !! line t = Some (fullLine t) /\
                                   legacy_record_of (line t) (fullLine t) t) ts).
  { eapply Forall_impl; [exact Hall|]. intros t (H1 & H2). cbv beta. split; [lia | exact H2]. }
  destruct (js_match l DASHED_RESULT_REGEX) as [m|] eqn:Hm.
  - destruct (DASHED_RESULT_REGEX_indent _ _ Hm) as [g1 Hg1]. rewrite Hg1.
    cbn [deref mbind completion_bind]. eexists. split; [reflexivity|]. split.
    + apply Forall_app. split; [exact Hweak|]. constructor; [|constructor].
      cbn [line fullLine]. split; [lia|]. split; [exact Hl|].
      exists m, g1. now repeat split.
    + intros i l' Hi Hl' Hmatch. destruct (decide (i = k)) as [->|Hne].
      * rewrite Hl in Hl'. injection Hl' as <-. eexists.
        split; [apply in_or_app; right; left; reflexivity | split; reflexivity].
      * destruct (Hex i l') as (t' & Hin & Hrest); [lia | assumption | assumption|].
        exists t'. split; [apply in_or_app; now left | exact Hrest].
  - exists ts. split; [reflexivity|]. split; [exact Hweak|].
    intros i l' Hi Hl' Hmatch. destruct (decide (i = k)) as [->|Hne].
    + rewrite Hl in Hl'. injection Hl' as <-. unfold is_dashed_result_line in Hmatch.
      now rewrite Hm in Hmatch.
    + apply Hex; [lia | assumption | assumption].
Qed.

(** The legacy snapshot returns one test object per test-result line. *)
Lemma legacy_parse_spec text :
  exists ts, Legacy.parseTapContent text = Normal ts /\
    flat_inv is_dashed_result_line legacy_record_of
      (split_lines text) (length (split_lines text)) ts.
Proof.
  unfold Legacy.parseTapContent.
  apply (for_loop_inv (flat_inv is_dashed_result_line legacy_record_of (split_lines text))).
  - split; [constructor|]. intros i l Hi. lia.
  - intros j t Hj. now apply legacy_body_inv.
Qed.
(** ** The grouping pass: what the result keeps of a state *)

Section GroupingFinal.
Import Grouping.

Lemma lookup_map {A B} (f : A -> B) (l : list A) i :
  map f l !! i = option_map f (l !! i).
Proof.
  revert i. induction l as [|x l IH]; intros [|i]; simpl; try reflexivity. apply IH.
Qed.

Lemma omap_lookup_erase (h h' : list TestRecord) (refs : list nat) :
  (forall r t, In r refs -> h !! r = Some t ->
     exists t', h' !! r = Some t' /\ erase_output t' = erase_output t) ->
  Forall (fun r => r < length h) refs ->
  map erase_output (omap (fun r : nat => h' !! r) refs)
  = map erase_output (omap (fun r : nat => h !! r) refs).
Proof.
  intros H Hb. induction Hb as [|r refs Hr _ IH]; [reflexivity|].
  cbn [omap list_omap].
  destruct (lookup_lt_is_Some_2 h r Hr) as [t Ht]. rewrite Ht.
  destruct (H r t (or_introl eq_refl) Ht) as (t' & Ht' & He). rewrite Ht'.
  simpl. rewrite He. f_equal. apply IH. intros r0 t0 Hr0. apply H. now right.
Qed.

Lemma omap_lookup_new (h : list TestRecord) (refs : list nat) n j :
  Forall (fun r => n <= r) refs ->
  (forall r t, n <= r -> h !! r = Some t -> j <= line t) ->
  Forall (fun t => j <= line t) (omap (fun r : nat => h !! r) refs).
Proof.
  intros Hb H. induction Hb as [|r refs Hr _ IH]; [constructor|].
  cbn [omap list_omap]. destruct (h !! r) as [t|] eqn:Ht; [|exact IH].
  constructor; [now apply (H r) | exact IH].
Qed.

(** The sealed groups of a state are in the result as they are, with the
    test objects as the state has them, once the test pointer has left
    them for good. *)
Lemma final_sealed text j b n0 gs :
  run_lines (split_lines text) j = Normal b -> j <= length (split_lines text) ->
  parseTapContent text = Normal gs ->
  n0 <= length (store b) -> (forall r, currentTest b = Some r -> n0 <= r) ->
  Forall (fun g => Forall (fun r => r < n0) (tests g)) (groups b) ->
  take (length (groups b)) gs = map (resolve (store b)) (groups b).
Proof.
  intros Eb Hj Hp Hn0 Hcur Hrefs.
  apply parseTapContent_spec in Hp as (stf & Estf & ->).
  destruct (run_lines_frozen n0 _ _ _ _ _ Eb Estf Hj Hn0 Hcur) as (_ & Htake & [more Hmore] & _).
  unfold group_list. rewrite Hmore.
  destruct (seal_extends (groups b ++ more) (currentGroup stf)) as [more' ->].
  rewrite <- app_assoc, map_app.
  rewrite take_app_length' by (now rewrite length_map).
  apply map_ext_Forall. eapply Forall_impl; [exact Hrefs|].
  intros g Hg. cbv beta. now apply (resolve_take n0).
Qed.

(** The current group of a state is in the result at its place, with its
    name and line; it holds the test objects it had, up to their output,
    and then only objects from later lines. *)
Lemma final_current text j b g0 gs :
  run_lines (split_lines text) j = Normal b -> j <= length (split_lines text) ->
  parseTapContent text = Normal gs -> currentGroup b = Some g0 ->
  exists g old new,
    gs !! length (groups b) = Some g /\ name g = name g0 /\ group_line g = group_line g0 /\
    tests g = old ++ new /\
    map erase_output old = map erase_output (tests (resolve (store b) g0)) /\
    Forall (fun t => j <= line t) new.
Proof.
  intros Eb Hj Hp Hg0.
  apply parseTapContent_spec in Hp as (stf & Estf & ->).
  destruct (run_lines_inv' _ _ _ Eb Hj) as (Hrefs & _).
  destruct (run_lines_continues _ _ _ _ _ Eb Estf Hj) as (Hlen & Hold & Hnew & Hgrp).
  destruct (Hgrp g0 Hg0) as (g & new & Hlook & Hname & Hline & Htests & Hnewrefs).
  exists (resolve (store stf) g),
         (omap (fun r : nat => store stf !! r) (tests g0)),
         (omap (fun r : nat => store stf !! r) new).
  split; [rewrite lookup_map, Hlook; reflexivity|].
  split; [exact Hname|]. split; [exact Hline|].
  split; [cbn [resolve tests]; now rewrite Htests, omap_app|].
  split.
  - cbn [resolve tests]. apply omap_lookup_erase.
    + intros r t _. apply Hold.
    + apply (refs_bound b g0 Hrefs). rewrite Hg0. simpl. apply in_or_app. right. now left.
  - now apply (omap_lookup_new _ _ (length (store b))).
Qed.

Lemma Sorted_gt_le l :
  Forall (fun x => is_NaN x = false) l ->
  Sorted (fun a b => Number_gt_prop b a) l -> Sorted Number_le_prop l.
Proof.
  intros Hn Hs. induction Hs as [|a l Hs IH Hd]; [constructor|].
  inversion Hn as [|? ? Ha Hl]; subst. constructor; [now apply IH|].
  destruct Hd as [|b l Hab]; constructor.
  inversion Hl; subst. now apply Number_le_total.
Qed.

Lemma ordinals_not_NaN h refs :
  Forall (fun t => is_NaN (testNumber t) = false) h ->
  Forall (fun x => is_NaN x = false) (ordinals h refs).
Proof.
  intros H. unfold ordinals. induction refs as [|r refs IH]; [constructor|].
  cbn [omap list_omap]. destruct (h !! r) as [t|] eqn:Ht; [|exact IH].
  simpl. constructor; [|exact IH]. rewrite Forall_lookup in H. now apply (H r).
Qed.

(** In every group returned the test numbers ascend. *)
Lemma parse_sorted text :
  exists gs, parseTapContent text = Normal gs /\
    Forall (fun g => Sorted Number_le_prop (map testNumber (tests g))) gs.
Proof.
  destruct (run_lines_inv (split_lines text) (length (split_lines text)) (Nat.le_refl _))
    as (st & Est & _ & (Hnan & _ & Hsorted & _) & _).
  exists (map (resolve (store st)) (group_list st)).
  split; [apply parseTapContent_spec; eauto|].
  apply Forall_map. eapply Forall_impl; [exact Hsorted|].
  intros g Hg. cbv beta. cbn [resolve tests].
  apply Sorted_gt_le; [|exact Hg]. now apply ordinals_not_NaN.
Qed.

Lemma last_ordinals h refs r t :
  last refs = Some r -> h !! r = Some t ->
  Forall (fun r => r < length h) refs ->
  last (ordinals h refs) = Some (testNumber t).
Proof.
  intros Hlast Ht Hb. apply last_Some in Hlast as (refs' & ->).
  unfold ordinals. rewrite omap_app, map_app. cbn [omap list_omap]. rewrite Ht.
  simpl. apply last_snoc.
Qed.

End GroupingFinal.
(** ** The folding passes *)

Lemma char_eqb_eq a b : char_eqb a b = true <-> a = b.
Proof. unfold char_eqb. apply N.eqb_eq. Qed.

Lemma jsstring_eqb_eq a b : jsstring_eqb a b = true <-> a = b.
Proof.
  revert b. induction a as [|x a IH]; intros [|y b]; cbn [jsstring_eqb]; try easy.
  rewrite andb_true_iff, char_eqb_eq, IH. split; [intros [-> ->]; reflexivity|].
  intros [= -> ->]. now split.
Qed.

Lemma jsstring_eqb_neq a b : jsstring_eqb a b = false <-> a <> b.
Proof.
  rewrite <- jsstring_eqb_eq. destruct (jsstring_eqb a b); split; congruence.
Qed.

(** *** The YAML branch *)

Lemma find_yaml_end_total k j lines :
  j + k <= length lines -> exists r, find_yaml_end k j lines = Normal r.
Proof.
  revert j. induction k as [|k IH]; intros j Hj; [now exists None|].
  cbn [find_yaml_end].
  destruct (lookup_lt_is_Some_2 lines j) as [l Hl]; [lia|]. rewrite Hl.
  cbn [deref mbind completion_bind].
  destruct (jsstring_eqb (trim l) (str "...")); [eauto|]. apply IH. lia.
Qed.

Lemma find_yaml_end_some k j lines j' :
  j <= j' < j + k -> closes lines j' -> (forall i, j <= i < j' -> ~ closes lines i) ->
  find_yaml_end k j lines = Normal (Some j').
Proof.
  revert j. induction k as [|k IH]; intros j Hj Hc Hfirst; [lia|].
  cbn [find_yaml_end].
  destruct (Nat.eq_dec j j') as [->|Hne].
  - destruct Hc as (l & -> & Hl). cbn [deref mbind completion_bind].
    apply jsstring_eqb_eq in Hl. now rewrite Hl.
  - destruct Hc as (l' & Hl' & Hc).
    destruct (lookup_lt_is_Some_2 lines j) as [l Hl];
      [apply lookup_lt_Some in Hl'; lia|].
    rewrite Hl. cbn [deref mbind completion_bind].
    destruct (jsstring_eqb (trim l) (str "...")) eqn:E.
    + apply jsstring_eqb_eq in E. exfalso. apply (Hfirst j); [lia|]. now exists l.
    + apply IH; [lia | now exists l' |]. intros i Hi. apply Hfirst. lia.
Qed.

Lemma find_yaml_end_none k j lines :
  j + k <= length lines -> (forall i, j <= i < j + k -> ~ closes lines i) ->
  find_yaml_end k j lines = Normal None.
Proof.
  revert j. induction k as [|k IH]; intros j Hj Hnone; [reflexivity|].
  cbn [find_yaml_end].
  destruct (lookup_lt_is_Some_2 lines j) as [l Hl]; [lia|]. rewrite Hl.
  cbn [deref mbind completion_bind].
  destruct (jsstring_eqb (trim l) (str "...")) eqn:E.
  - apply jsstring_eqb_eq in E. exfalso. apply (Hnone j); [lia|]. now exists l.
  - apply IH; [lia|]. intros i Hi. apply Hnone. lia.
Qed.

Lemma closes_lt lines j : closes lines j -> j < length lines.
Proof. intros (l & Hl & _). now apply lookup_lt_Some in Hl. Qed.

Lemma first_close_unique lines i j j' :
  first_close lines i j -> first_close lines i j' -> j = j'.
Proof.
  intros (Hij & Hc & Hf) (Hij' & Hc' & Hf').
  destruct (Nat.lt_trichotomy j j') as [H|[H|H]]; [|exact H|].
  - exfalso. apply (Hf' j); [lia | exact Hc].
  - exfalso. apply (Hf j'); [lia | exact Hc'].
Qed.

Lemma yaml_branch_total lines i fs :
  i < length lines -> exists fs', yaml_branch lines i fs = Normal fs'.
Proof.
  intros Hi. unfold yaml_branch.
  destruct (find_yaml_end_total (length lines - (i + 1)) (i + 1) lines) as [r ->]; [lia|].
  cbn [mbind completion_bind]. destruct r; eauto.
Qed.

Lemma yaml_branch_some lines i j fs :
  first_close lines i j -> yaml_branch lines i fs = Normal (fs ++ [region i j]).
Proof.
  intros (Hij & Hc & Hf). unfold yaml_branch.
  rewrite (find_yaml_end_some _ _ _ j); [reflexivity | | exact Hc |].
  - apply closes_lt in Hc. lia.
  - intros k Hk. apply Hf. lia.
Qed.

Lemma yaml_branch_none lines i fs :
  i < length lines -> (forall j, i < j -> ~ closes lines j) ->
  yaml_branch lines i fs = Normal fs.
Proof.
  intros Hi Hnone. unfold yaml_branch.
  rewrite find_yaml_end_none; [reflexivity | lia |].
  intros k Hk. apply Hnone. lia.
Qed.

(** The branch adds the region of the first closing line or nothing. *)
Lemma yaml_branch_cases lines i fs :
  i < length lines ->
  (exists j, first_close lines i j /\ yaml_branch lines i fs = Normal (fs ++ [region i j]))
  \/ ((forall j, i < j -> ~ closes lines j) /\ yaml_branch lines i fs = Normal fs).
Proof.
  intros Hi. unfold yaml_branch.
  assert (Hgen : forall k j0, j0 + k <= length lines ->
            (exists j, j0 <= j < j0 + k /\ closes lines j /\
                       (forall j', j0 <= j' < j -> ~ closes lines j') /\
                       find_yaml_end k j0 lines = Normal (Some j))
            \/ ((forall j, j0 <= j < j0 + k -> ~ closes lines j) /\
                find_yaml_end k j0 lines = Normal None)).
  { induction k as [|k IH]; intros j0 Hj0.
    - right. split; [intros j Hj; lia | reflexivity].
    - cbn [find_yaml_end].
      destruct (lookup_lt_is_Some_2 lines j0) as [l Hl]; [lia|]. rewrite Hl.
      cbn [deref mbind completion_bind].
      destruct (jsstring_eqb (trim l) (str "...")) eqn:E.
      + apply jsstring_eqb_eq in E. left. exists j0.
        split; [lia|]. split; [now exists l|]. split; [intros j' Hj'; lia | reflexivity].
      + apply jsstring_eqb_neq in E.
        assert (Hn : ~ closes lines j0).
        { intros (l' & Hl' & Hc). rewrite Hl in Hl'. injection Hl' as <-. contradiction. }
        destruct (IH (S j0)) as [(j & Hj & Hc & Hf & Ef) | (Hnone & Ef)]; [lia | |].
        * left. exists j. split; [lia|]. split; [exact Hc|]. split; [|exact Ef].
          intros j' Hj'. destruct (Nat.eq_dec j' j0) as [->|Hne]; [exact Hn|].
          apply Hf. lia.
        * right. split; [|exact Ef]. intros j Hj.
          destruct (Nat.eq_dec j j0) as [->|Hne]; [exact Hn|]. apply Hnone. lia. }
  destruct (Hgen (length lines - (i + 1)) (i + 1)) as [(j & Hj & Hc & Hf & ->) | (Hnone & ->)];
    [lia | |].
  - left. exists j. split; [|reflexivity]. split; [lia|]. split; [exact Hc|].
    intros j' Hj'. apply Hf. lia.
  - right. split; [|reflexivity]. intros j Hj Hc.
    apply (Hnone j); [|exact Hc]. apply closes_lt in Hc. lia.
Qed.

(** *** Lines that open a YAML block *)

Lemma opener_head l : trim l = str "---" -> exists r, trimStart l = 45%N :: r.
Proof.
  intros H. destruct (trimStart l) as [|c r] eqn:E.
  - unfold trim in H. rewrite E in H. discriminate H.
  - destruct (trim_head _ _ _ E) as [r' Hr']. rewrite H in Hr'.
    injection Hr' as <- _. now exists r.
Qed.

Lemma opener_not_result l : trim l = str "---" -> js_match l TEST_RESULT_REGEX = None.
Proof.
  intros H. destruct (opener_head l H) as [r Hr].
  destruct (js_match l TEST_RESULT_REGEX) as [m|] eqn:E; [|reflexivity].
  apply TEST_RESULT_REGEX_head in E. rewrite Hr in E. destruct E as [E|E]; discriminate E.
Qed.

Lemma opener_not_plan l : trim l = str "---" -> js_match l TEST_PLAN_REGEX = None.
Proof.
  intros H. destruct (opener_head l H) as [r Hr].
  destruct (js_match l TEST_PLAN_REGEX) as [m|] eqn:E; [|reflexivity].
  apply TEST_PLAN_REGEX_head in E as (c & s & Hc & Hd). rewrite Hr in Hc.
  injection Hc as <- _. discriminate Hd.
Qed.

Lemma opener_not_trimmed_plan l :
  trim l = str "---" -> js_match (trim l) TRIMMED_PLAN_REGEX = None.
Proof. intros ->. vm_compute. reflexivity. Qed.

Lemma blank_not_result : js_match [] TEST_RESULT_REGEX = None.
Proof. vm_compute. reflexivity. Qed.

Lemma blank_not_plan : js_match [] TEST_PLAN_REGEX = None.
Proof. vm_compute. reflexivity. Qed.

(** *** Totality *)

Lemma current_fold_body_total lines i st :
  i < length lines -> exists st', CurrentTest.fold_body lines i st = Normal st'.
Proof.
  intros Hi. unfold CurrentTest.fold_body.
  destruct (lookup_lt_is_Some_2 lines i Hi) as [l ->].
  cbn [deref mbind completion_bind].
  destruct (js_match l TEST_RESULT_REGEX); [eauto|].
  destruct (js_match l TEST_PLAN_REGEX); [eauto|].
  destruct (jsstring_eqb (trim l) (str "---")); [|eauto].
  destruct (yaml_branch_total lines i (CurrentTest.foldingRanges st) Hi) as [fs ->].
  cbn [mbind completion_bind]. eauto.
Qed.

Lemma legacy_fold_body_total lines i st :
  i < length lines -> exists st', Legacy.fold_body lines i st = Normal st'.
Proof.
  intros Hi. unfold Legacy.fold_body.
  destruct (lookup_lt_is_Some_2 lines i Hi) as [l ->].
  cbn [deref mbind completion_bind].
  destruct (js_match (trim l) TRIMMED_PLAN_REGEX).
  - destruct (Legacy.close_deeper _ _ _ _). eauto.
  - destruct (jsstring_eqb (trim l) (str "---")); [|eauto].
    destruct (yaml_branch_total lines i (Legacy.foldingRanges st) Hi) as [fs ->].
    cbn [mbind completion_bind]. eauto.
Qed.

Lemma fold_lines_total lines k :
  k <= length lines -> exists st, fold_lines lines k = Normal st.
Proof.
  intros Hk. destruct (for_loop_inv (fun _ _ => True) k (CurrentTest.fold_body lines)
    {| CurrentTest.foldingRanges := []; CurrentTest.currentTestLine := (-1)%Z |} I)
    as (st & E & _); [|now exists st].
  intros j t Hj _. destruct (current_fold_body_total lines j t) as [t' E]; [lia|]. eauto.
Qed.

Lemma stack_lines_total lines k :
  k <= length lines -> exists st, stack_lines lines k = Normal st.
Proof.
  intros Hk. destruct (for_loop_inv (fun _ _ => True) k (Legacy.fold_body lines)
    {| Legacy.foldingRanges := []; Legacy.stack := [] |} I)
    as (st & E & _); [|now exists st].
  intros j t Hj _. destruct (legacy_fold_body_total lines j t) as [t' E]; [lia|]. eauto.
Qed.

Lemma fold_lines_S lines k st :
  fold_lines lines k = Normal st ->
  fold_lines lines (S k) = CurrentTest.fold_body lines k st.
Proof. intros E. unfold fold_lines in *. now rewrite for_loop_snoc, E. Qed.

Lemma stack_lines_S lines k st :
  stack_lines lines k = Normal st ->
  stack_lines lines (S k) = Legacy.fold_body lines k st.
Proof. intros E. unfold stack_lines in *. now rewrite for_loop_snoc, E. Qed.
(** *** Where folds start *)

Lemma starts_at_region i j k : starts_at i (region k j) = Nat.eqb k i.
Proof.
  unfold starts_at, region. cbn [fr_start].
  destruct (Nat.eqb_spec k i) as [->|H]; [apply Z.eqb_refl|].
  apply Z.eqb_neq. lia.
Qed.

Lemma starts_at_plain i c e : starts_at i (plain_fold (Z.of_nat c) e) = Nat.eqb c i.
Proof.
  unfold starts_at, plain_fold. cbn [fr_start].
  destruct (Nat.eqb_spec c i) as [->|H]; [apply Z.eqb_refl|].
  apply Z.eqb_neq. lia.
Qed.

Lemma starts_ok_app head lines fs f :
  starts_ok head lines fs ->
  (exists i l, fr_start f = Z.of_nat i /\ lines !! i = Some l /\
     (fr_kind f = None /\ head l \/ fr_kind f = Some Region /\ trim l = str "---")) ->
  starts_ok head lines (fs ++ [f]).
Proof. intros H Hf. apply Forall_app. split; [exact H|]. now constructor. Qed.

(** A line that does not open a block leaves the regions as they are. *)
Lemma regions_ok_skip lines k fs l :
  lines !! k = Some l -> trim l <> str "---" ->
  regions_ok lines k fs -> regions_ok lines (S k) fs.
Proof.
  intros Hl Hn H i li Hi Hopen. destruct (H i li Hi Hopen) as [Hge Hlt].
  assert (i <> k) by (intros ->; congruence).
  split; [intros ?; apply Hge; lia | intros ?; apply Hlt; lia].
Qed.

(** So does a fold that starts at such a line. *)
Lemma regions_ok_plain lines k fs c lc e :
  lines !! c = Some lc -> trim lc <> str "---" ->
  regions_ok lines k fs -> regions_ok lines k (fs ++ [plain_fold (Z.of_nat c) e]).
Proof.
  intros Hc Hn H i li Hi Hopen.
  assert (Hne : Nat.eqb c i = false) by (apply Nat.eqb_neq; intros ->; congruence).
  rewrite List.filter_app. cbn [List.filter]. rewrite starts_at_plain, Hne, app_nil_r.
  exact (H i li Hi Hopen).
Qed.

(** The YAML branch at a line that opens a block. *)
Lemma regions_ok_yaml lines k fs fs' l :
  lines !! k = Some l -> trim l = str "---" ->
  yaml_branch lines k fs = Normal fs' ->
  regions_ok lines k fs -> regions_ok lines (S k) fs'.
Proof.
  intros Hl Hopen E H i li Hi Hopeni.
  assert (Hk : k < length lines) by (now apply lookup_lt_Some in Hl).
  destruct (H i li Hi Hopeni) as [Hge Hlt].
  destruct (yaml_branch_cases lines k fs Hk) as [(j & Hj & E') | (Hnone & E')];
    rewrite E' in E; injection E as <-.
  - rewrite List.filter_app. cbn [List.filter]. rewrite starts_at_region.
    destruct (Nat.eqb_spec k i) as [->|Hne].
    + split; [intros ?; lia|]. intros _. rewrite Hge by lia. split.
      * intros j' Hj'. now rewrite (first_close_unique _ _ _ _ Hj Hj').
      * intros Hnone. exfalso. destruct Hj as (Hij & Hc & _). exact (Hnone j Hij Hc).
    + rewrite app_nil_r. split; [intros ?; apply Hge; lia | intros ?; apply Hlt; lia].
  - destruct (Nat.eq_dec k i) as [->|Hne].
    + split; [intros ?; lia|]. intros _. rewrite Hge by lia. split; [|reflexivity].
      intros j (Hij & Hc & _). exfalso. exact (Hnone j Hij Hc).
    + split; [intros ?; apply Hge; lia | intros ?; apply Hlt; lia].
Qed.

Lemma starts_ok_yaml head lines k fs fs' l :
  lines !! k = Some l -> trim l = str "---" ->
  yaml_branch lines k fs = Normal fs' ->
  starts_ok head lines fs -> starts_ok head lines fs'.
Proof.
  intros Hl Hopen E H.
  assert (Hk : k < length lines) by (now apply lookup_lt_Some in Hl).
  destruct (yaml_branch_cases lines k fs Hk) as [(j & Hj & E') | (Hnone & E')];
    rewrite E' in E; injection E as <-; [|exact H].
  apply starts_ok_app; [exact H|]. exists k, l. cbn [region fr_start fr_kind].
  split; [reflexivity|]. split; [exact Hl|]. now right.
Qed.

Lemma result_head_not_opener l : result_head l -> trim l <> str "---".
Proof.
  unfold result_head, is_result_line. intros H Hopen.
  rewrite (opener_not_result l Hopen) in H. discriminate H.
Qed.

Lemma plan_head_not_opener l : plan_head l -> trim l <> str "---".
Proof. intros H Hopen. exact (H (opener_not_trimmed_plan l Hopen)). Qed.

Lemma plan_line_not_opener l m :
  js_match l TEST_PLAN_REGEX = Some m -> trim l <> str "---".
Proof. intros H Hopen. rewrite (opener_not_plan l Hopen) in H. discriminate H. Qed.

(** *** The current-test folding *)

(** What [close_current] adds. *)
Lemma close_current_cases st i :
  (exists c, CurrentTest.currentTestLine st = Z.of_nat c /\ c + 1 < i /\
     CurrentTest.close_current st i
     = CurrentTest.foldingRanges st ++ [plain_fold (Z.of_nat c) (Z.of_nat i - 1)])
  \/ ((CurrentTest.currentTestLine st < 0
       \/ Z.of_nat i <= CurrentTest.currentTestLine st + 1)%Z /\
      CurrentTest.close_current st i = CurrentTest.foldingRanges st).
Proof.
  unfold CurrentTest.close_current.
  destruct (Z.leb_spec 0 (CurrentTest.currentTestLine st)) as [H0|H0]; cbn [andb].
  - destruct (Z.ltb_spec (CurrentTest.currentTestLine st + 1) (Z.of_nat i)) as [H1|H1].
    + left. exists (Z.to_nat (CurrentTest.currentTestLine st)).
      rewrite Z2Nat.id by exact H0. split; [reflexivity|]. split; [lia | reflexivity].
    + right. split; [now right | reflexivity].
  - right. split; [now left | reflexivity].
Qed.

Lemma close_current_inv lines k st i :
  current_inv lines k st ->
  starts_ok result_head lines (CurrentTest.close_current st i) /\
  regions_ok lines k (CurrentTest.close_current st i).
Proof.
  intros (Hs & Hr & Hc).
  destruct (close_current_cases st i) as [(c & Ec & _ & ->) | (_ & ->)]; [|now split].
  destruct Hc as [Hc | (c' & l & _ & Ec' & Hl & Hhead)]; [lia|].
  assert (c' = c) as -> by lia. split.
  - apply starts_ok_app; [exact Hs|]. exists c, l. cbn [plain_fold fr_start fr_kind].
    split; [reflexivity|]. split; [exact Hl|]. now left.
  - apply (regions_ok_plain _ _ _ _ l); [exact Hl | now apply result_head_not_opener | exact Hr].
Qed.

(** The cases of one step of the current-test folding. *)
Lemma current_fold_body_cases lines k st l :
  lines !! k = Some l ->
  (exists m, js_match l TEST_RESULT_REGEX = Some m /\
     CurrentTest.fold_body lines k st
     = Normal {| CurrentTest.foldingRanges := CurrentTest.close_current st k;
                 CurrentTest.currentTestLine := Z.of_nat k |})
  \/ (js_match l TEST_RESULT_REGEX = None /\
      exists m, js_match l TEST_PLAN_REGEX = Some m /\
        CurrentTest.fold_body lines k st
        = Normal {| CurrentTest.foldingRanges := CurrentTest.close_current st k;
                    CurrentTest.currentTestLine := (-1)%Z |})
  \/ (js_match l TEST_RESULT_REGEX = None /\ js_match l TEST_PLAN_REGEX = None /\
      trim l = str "---" /\
      exists fs, yaml_branch lines k (CurrentTest.foldingRanges st) = Normal fs /\
        CurrentTest.fold_body lines k st
        = Normal {| CurrentTest.foldingRanges := fs;
                    CurrentTest.currentTestLine := CurrentTest.currentTestLine st |})
  \/ (js_match l TEST_RESULT_REGEX = None /\ js_match l TEST_PLAN_REGEX = None /\
      trim l <> str "---" /\ CurrentTest.fold_body lines k st = Normal st).
Proof.
  intros Hl. assert (Hk : k < length lines) by (now apply lookup_lt_Some in Hl).
  unfold CurrentTest.fold_body. rewrite Hl. cbn [deref mbind completion_bind].
  destruct (js_match l TEST_RESULT_REGEX) as [m|]; [left; eauto|]. right.
  destruct (js_match l TEST_PLAN_REGEX) as [m|]; [left; eauto|]. right.
  destruct (jsstring_eqb (trim l) (str "---")) eqn:E.
  - left. apply jsstring_eqb_eq in E.
    destruct (yaml_branch_total lines k (CurrentTest.foldingRanges st) Hk) as [fs Efs].
    rewrite Efs. cbn [mbind completion_bind]. eauto 10.
  - right. apply jsstring_eqb_neq in E. eauto.
Qed.

Lemma current_fold_body_inv lines k st :
  k < length lines -> current_inv lines k st ->
  exists st', CurrentTest.fold_body lines k st = Normal st' /\ current_inv lines (S k) st'.
Proof.
  intros Hk Hinv. destruct (lookup_lt_is_Some_2 lines k Hk) as [l Hl].
  destruct (close_current_inv lines k st k Hinv) as [Hs' Hr'].
  destruct (current_fold_body_cases lines k st l Hl)
    as [(m & Hm & ->) | [(Hres & m & Hm & ->) | [(Hres & Hplan & Hopen & fs & Efs & ->)
       | (Hres & Hplan & Hopen & ->)]]];
    (eexists; split; [reflexivity|]).
  - assert (Hhead : result_head l) by (unfold result_head, is_result_line; now rewrite Hm).
    split; [exact Hs'|]. split.
    + apply (regions_ok_skip _ _ _ l); [exact Hl | now apply result_head_not_opener | exact Hr'].
    + right. exists k, l. cbn [CurrentTest.currentTestLine].
      split; [lia|]. split; [reflexivity|]. split; [exact Hl | exact Hhead].
  - split; [exact Hs'|]. split; [|now left].
    apply (regions_ok_skip _ _ _ l); [exact Hl | now apply (plan_line_not_opener l m) | exact Hr'].
  - destruct Hinv as (Hs & Hr & Hc). split; [|split].
    + exact (starts_ok_yaml _ _ _ _ _ _ Hl Hopen Efs Hs).
    + exact (regions_ok_yaml _ _ _ _ _ Hl Hopen Efs Hr).
    + cbn [CurrentTest.currentTestLine].
      destruct Hc as [Hc | (c & lc & Hck & Hrest)]; [now left|].
      right. exists c, lc. split; [lia | exact Hrest].
  - destruct Hinv as (Hs & Hr & Hc). split; [exact Hs|]. split.
    + exact (regions_ok_skip _ _ _ l Hl Hopen Hr).
    + destruct Hc as [Hc | (c & lc & Hck & Hrest)]; [now left|].
      right. exists c, lc. split; [lia | exact Hrest].
Qed.

Lemma fold_lines_inv lines k :
  k <= length lines -> exists st, fold_lines lines k = Normal st /\ current_inv lines k st.
Proof.
  intros Hk. apply (for_loop_inv (current_inv lines)).
  - split; [constructor|]. split; [|now left].
    intros i l _ _. split; [reflexivity|]. intros H. lia.
  - intros j t Hj. apply current_fold_body_inv. lia.
Qed.

Lemma fold_lines_inv' lines k st :
  fold_lines lines k = Normal st -> k <= length lines -> current_inv lines k st.
Proof.
  intros E Hk. destruct (fold_lines_inv lines k Hk) as (st' & E' & H). congruence.
Qed.

(** The folds of the current-test folding: those of the loop and then the
    one of the last test. *)
Lemma current_provide_spec text :
  exists st,
    fold_lines (split_lines text) (length (split_lines text)) = Normal st /\
    CurrentTest.provideFoldingRanges text
    = Normal (CurrentTest.close_current st (length (split_lines text))).
Proof.
  destruct (fold_lines_total (split_lines text) (length (split_lines text))) as [st E];
    [lia|].
  exists st. split; [exact E|]. unfold CurrentTest.provideFoldingRanges. cbv zeta.
  unfold fold_lines in E. now rewrite E.
Qed.

(** *** The plan-stack folding *)

Lemma close_deeper_inv lines k i ind stack fs :
  Forall (fun e => exists l, lines !! Legacy.startLine e = Some l /\ plan_head l) stack ->
  starts_ok plan_head lines fs -> regions_ok lines k fs ->
  starts_ok plan_head lines (fst (Legacy.close_deeper i ind stack fs)) /\
  regions_ok lines k (fst (Legacy.close_deeper i ind stack fs)) /\
  Forall (fun e => exists l, lines !! Legacy.startLine e = Some l /\ plan_head l)
    (snd (Legacy.close_deeper i ind stack fs)).
Proof.
  intros Hst. revert fs. induction Hst as [|e stack (l & Hl & Hhead) Hst IH]; intros fs Hs Hr.
  - cbn [Legacy.close_deeper fst snd]. split; [exact Hs|]. split; [exact Hr | constructor].
  - cbn [Legacy.close_deeper]. destruct (Nat.leb ind (Legacy.entry_indent e)).
    + apply IH.
      * destruct (_ <? _)%Z; [|exact Hs]. apply starts_ok_app; [exact Hs|].
        exists (Legacy.startLine e), l. cbn [fr_start fr_kind].
        split; [reflexivity|]. split; [exact Hl|]. left. now split.
      * destruct (_ <? _)%Z; [|exact Hr].
        apply (regions_ok_plain _ _ _ _ l); [exact Hl | now apply plan_head_not_opener | exact Hr].
    + cbn [fst snd]. split; [exact Hs|]. split; [exact Hr|]. constructor; [now exists l | exact Hst].
Qed.

Lemma close_remaining_inv lines k n stack fs :
  Forall (fun e => exists l, lines !! Legacy.startLine e = Some l /\ plan_head l) stack ->
  starts_ok plan_head lines fs -> regions_ok lines k fs ->
  starts_ok plan_head lines (Legacy.close_remaining n stack fs) /\
  regions_ok lines k (Legacy.close_remaining n stack fs).
Proof.
  intros Hst. revert fs. induction Hst as [|e stack (l & Hl & Hhead) Hst IH]; intros fs Hs Hr.
  - now split.
  - cbn [Legacy.close_remaining]. apply IH.
    + destruct (_ <? _)%Z; [|exact Hs]. apply starts_ok_app; [exact Hs|].
      exists (Legacy.startLine e), l. cbn [fr_start fr_kind].
        split; [reflexivity|]. split; [exact Hl|]. left. now split.
    + destruct (_ <? _)%Z; [|exact Hr].
      apply (regions_ok_plain _ _ _ _ l); [exact Hl | now apply plan_head_not_opener | exact Hr].
Qed.

(** The cases of one step of the plan-stack folding. *)
Lemma legacy_fold_body_cases lines k st l :
  lines !! k = Some l ->
  (exists m, js_match (trim l) TRIMMED_PLAN_REGEX = Some m /\
     Legacy.fold_body lines k st
     = Normal
         {| Legacy.foldingRanges :=
              fst (Legacy.close_deeper k (length l - length (trimStart l))
                     (Legacy.stack st) (Legacy.foldingRanges st));
            Legacy.stack :=
              {| Legacy.startLine := k;
                 Legacy.entry_indent := length l - length (trimStart l) |}
              :: snd (Legacy.close_deeper k (length l - length (trimStart l))
                        (Legacy.stack st) (Legacy.foldingRanges st)) |})
  \/ (js_match (trim l) TRIMMED_PLAN_REGEX = None /\ trim l = str "---" /\
      exists fs, yaml_branch lines k (Legacy.foldingRanges st) = Normal fs /\
        Legacy.fold_body lines k st
        = Normal {| Legacy.foldingRanges := fs; Legacy.stack := Legacy.stack st |})
  \/ (js_match (trim l) TRIMMED_PLAN_REGEX = None /\ trim l <> str "---" /\
      Legacy.fold_body lines k st = Normal st).
Proof.
  intros Hl. assert (Hk : k < length lines) by (now apply lookup_lt_Some in Hl).
  unfold Legacy.fold_body. rewrite Hl. cbn [deref mbind completion_bind].
  destruct (js_match (trim l) TRIMMED_PLAN_REGEX) as [m|].
  - left. exists m. split; [reflexivity|]. now destruct (Legacy.close_deeper _ _ _ _).
  - right. destruct (jsstring_eqb (trim l) (str "---")) eqn:E.
    + left. apply jsstring_eqb_eq in E.
      destruct (yaml_branch_total lines k (Legacy.foldingRanges st) Hk) as [fs Efs].
      rewrite Efs. cbn [mbind completion_bind]. eauto 10.
    + right. apply jsstring_eqb_neq in E. eauto.
Qed.

Lemma legacy_fold_body_inv lines k st :
  k < length lines -> stack_inv lines k st ->
  exists st', Legacy.fold_body lines k st = Normal st' /\ stack_inv lines (S k) st'.
Proof.
  intros Hk (Hs & Hr & Hst). destruct (lookup_lt_is_Some_2 lines k Hk) as [l Hl].
  destruct (legacy_fold_body_cases lines k st l Hl)
    as [(m & Hm & ->) | [(Hplan & Hopen & fs & Efs & ->) | (Hplan & Hopen & ->)]];
    (eexists; split; [reflexivity|]).
  - assert (Hhead : plan_head l) by (unfold plan_head; now rewrite Hm).
    destruct (close_deeper_inv lines k k (length l - length (trimStart l))
                (Legacy.stack st) (Legacy.foldingRanges st) Hst Hs Hr) as (Hs' & Hr' & Hst').
    split; [exact Hs'|]. split.
    + apply (regions_ok_skip _ _ _ l); [exact Hl | now apply plan_head_not_opener | exact Hr'].
    + constructor; [now exists l | exact Hst'].
  - split; [|split; [|exact Hst]].
    + exact (starts_ok_yaml _ _ _ _ _ _ Hl Hopen Efs Hs).
    + exact (regions_ok_yaml _ _ _ _ _ Hl Hopen Efs Hr).
  - split; [exact Hs|]. split; [|exact Hst].
    exact (regions_ok_skip _ _ _ l Hl Hopen Hr).
Qed.

Lemma stack_lines_inv lines k :
  k <= length lines -> exists st, stack_lines lines k = Normal st /\ stack_inv lines k st.
Proof.
  intros Hk. apply (for_loop_inv (stack_inv lines)).
  - split; [constructor|]. split; [|constructor].
    intros i l _ _. split; [reflexivity|]. intros H. lia.
  - intros j t Hj. apply legacy_fold_body_inv. lia.
Qed.

Lemma legacy_provide_spec text :
  exists st,
    stack_lines (split_lines text) (length (split_lines text)) = Normal st /\
    stack_inv (split_lines text) (length (split_lines text)) st /\
    Legacy.provideFoldingRanges text
    = Normal (Legacy.close_remaining (length (split_lines text))
                (Legacy.stack st) (Legacy.foldingRanges st)).
Proof.
  destruct (stack_lines_inv (split_lines text) (length (split_lines text))) as (st & E & H);
    [lia|].
  exists st. split; [exact E|]. split; [exact H|].
  unfold Legacy.provideFoldingRanges. cbv zeta.
  unfold stack_lines in E. now rewrite E.
Qed.

(** *** The folds at a line that opens a block *)

Lemma current_folds_at text fs :
  CurrentTest.provideFoldingRanges text = Normal fs ->
  starts_ok result_head (split_lines text) fs /\
  regions_ok (split_lines text) (length (split_lines text)) fs.
Proof.
  destruct (current_provide_spec text) as (st & E & ->). intros [= <-].
  apply close_current_inv. now apply fold_lines_inv'.
Qed.

Lemma legacy_folds_at text fs :
  Legacy.provideFoldingRanges text = Normal fs ->
  starts_ok plan_head (split_lines text) fs /\
  regions_ok (split_lines text) (length (split_lines text)) fs.
Proof.
  destruct (legacy_provide_spec text) as (st & E & (Hs & Hr & Hst) & ->). intros [= <-].
  now apply close_remaining_inv.
Qed.

(** *** Blank lines and the open test line *)

Lemma blank_line_not_result l : trim l = [] -> js_match l TEST_RESULT_REGEX = None.
Proof.
  intros H. apply trim_nil_trimStart in H.
  destruct (js_match l TEST_RESULT_REGEX) as [m|] eqn:E; [|reflexivity].
  apply TEST_RESULT_REGEX_head in E. rewrite H in E. destruct E as [E|E]; discriminate E.
Qed.

Lemma blank_line_not_plan l : trim l = [] -> js_match l TEST_PLAN_REGEX = None.
Proof.
  intros H. apply trim_nil_trimStart in H.
  destruct (js_match l TEST_PLAN_REGEX) as [m|] eqn:E; [|reflexivity].
  apply TEST_PLAN_REGEX_head in E as (c & s & Hc & _). rewrite H in Hc. discriminate Hc.
Qed.

Lemma blank_line_fold lines i l st :
  lines !! i = Some l -> trim l = [] -> CurrentTest.fold_body lines i st = Normal st.
Proof.
  intros Hl Hb. unfold CurrentTest.fold_body. rewrite Hl.
  cbn [deref mbind completion_bind].
  rewrite (blank_line_not_result l Hb), (blank_line_not_plan l Hb), Hb. reflexivity.
Qed.

Lemma close_current_open st c i :
  CurrentTest.currentTestLine st = Z.of_nat c ->
  (c + 1 < i ->
   CurrentTest.close_current st i
   = CurrentTest.foldingRanges st ++ [plain_fold (Z.of_nat c) (Z.of_nat i - 1)]) /\
  (~ c + 1 < i -> CurrentTest.close_current st i = CurrentTest.foldingRanges st).
Proof.
  intros Hc. unfold CurrentTest.close_current. rewrite Hc.
  destruct (Z.leb_spec 0 (Z.of_nat c)) as [_|H0]; [|lia]. cbn [andb].
  destruct (Z.ltb_spec (Z.of_nat c + 1) (Z.of_nat i)) as [H1|H1]; split; intros H;
    try lia; reflexivity.
Qed.

Lemma close_current_none st i :
  CurrentTest.currentTestLine st = (-1)%Z ->
  CurrentTest.close_current st i = CurrentTest.foldingRanges st.
Proof. intros Hc. unfold CurrentTest.close_current. now rewrite Hc. Qed.
(** *** A text with one line blanked

    The passes on a text whose line [i], which opens a YAML block that no
    line closes, is replaced by the empty line. *)

Section Blanked.
Variable lines : list jsstring.
Variable i : nat.
Variable l : jsstring.
Hypothesis Hl : lines !! i = Some l.
Hypothesis Hopen : trim l = str "---".

Lemma blanked_lookup_eq :
  @lookup nat jsstring (list jsstring) _ i (<[i := []]> lines) = Some [].
Proof. apply list_lookup_insert_eq. now apply lookup_lt_Some in Hl. Qed.

Lemma blanked_find_yaml_end k j :
  find_yaml_end k j (<[i := []]> lines) = find_yaml_end k j lines.
Proof.
  revert j. induction k as [|k IH]; intros j; [reflexivity|].
  cbn [find_yaml_end]. destruct (Nat.eq_dec j i) as [->|Hne].
  - rewrite blanked_lookup_eq, Hl. cbn [deref mbind completion_bind].
    rewrite Hopen. change (jsstring_eqb (trim []) (str "...")) with false.
    change (jsstring_eqb (str "---") (str "...")) with false. apply IH.
  - rewrite list_lookup_insert_ne by congruence.
    destruct (lines !! j) as [lj|]; [|reflexivity]. cbn [deref mbind completion_bind].
    now rewrite IH.
Qed.

Lemma blanked_yaml_branch j fs :
  yaml_branch (<[i := []]> lines) j fs = yaml_branch lines j fs.
Proof. unfold yaml_branch. now rewrite length_insert, blanked_find_yaml_end. Qed.

Hypothesis Hnone : forall j, i < j -> ~ closes lines j.

Lemma blanked_current_fold_body j st :
  CurrentTest.fold_body (<[i := []]> lines) j st = CurrentTest.fold_body lines j st.
Proof.
  destruct (Nat.eq_dec j i) as [->|Hne].
  - rewrite (blank_line_fold _ _ [] st blanked_lookup_eq eq_refl).
    unfold CurrentTest.fold_body. rewrite Hl. cbn [deref mbind completion_bind].
    rewrite (opener_not_result l Hopen), (opener_not_plan l Hopen), Hopen.
    change (jsstring_eqb (str "---") (str "---")) with true. cbv iota.
    rewrite yaml_branch_none; [now destruct st | now apply lookup_lt_Some in Hl | exact Hnone].
  - unfold CurrentTest.fold_body. rewrite list_lookup_insert_ne by congruence.
    destruct (lines !! j) as [lj|]; [|reflexivity]. cbn [deref mbind completion_bind].
    now rewrite blanked_yaml_branch.
Qed.

Lemma blanked_legacy_fold_body j st :
  Legacy.fold_body (<[i := []]> lines) j st = Legacy.fold_body lines j st.
Proof.
  destruct (Nat.eq_dec j i) as [->|Hne].
  - unfold Legacy.fold_body. rewrite blanked_lookup_eq, Hl.
    cbn [deref mbind completion_bind].
    rewrite Hopen. change (trim []) with (@nil char).
    change (js_match [] TRIMMED_PLAN_REGEX) with (@None jsmatch).
    change (js_match (str "---") TRIMMED_PLAN_REGEX) with (@None jsmatch).
    change (jsstring_eqb [] (str "---")) with false.
    change (jsstring_eqb (str "---") (str "---")) with true. cbv iota.
    rewrite yaml_branch_none; [now destruct st | now apply lookup_lt_Some in Hl | exact Hnone].
  - unfold Legacy.fold_body. rewrite list_lookup_insert_ne by congruence.
    destruct (lines !! j) as [lj|]; [|reflexivity]. cbn [deref mbind completion_bind].
    now rewrite blanked_yaml_branch.
Qed.

Lemma opener_not_dashed_result : js_match l DASHED_RESULT_REGEX = None.
Proof.
  destruct (opener_head l Hopen) as [r Hr].
  destruct (js_match l DASHED_RESULT_REGEX) as [m|] eqn:E; [|reflexivity].
  apply DASHED_RESULT_REGEX_head in E. rewrite Hr in E. destruct E as [E|E]; discriminate E.
Qed.

Lemma blanked_flat_body j ts :
  Flat.parse_body (<[i := []]> lines) j ts = Flat.parse_body lines j ts.
Proof.
  unfold Flat.parse_body. destruct (Nat.eq_dec j i) as [->|Hne].
  - rewrite blanked_lookup_eq, Hl. cbn [deref mbind completion_bind].
    now rewrite blank_not_result, (opener_not_result l Hopen).
  - now rewrite list_lookup_insert_ne by congruence.
Qed.

Lemma blanked_legacy_body j ts :
  Legacy.parse_body (<[i := []]> lines) j ts = Legacy.parse_body lines j ts.
Proof.
  unfold Legacy.parse_body. destruct (Nat.eq_dec j i) as [->|Hne].
  - rewrite blanked_lookup_eq, Hl. cbn [deref mbind completion_bind].
    rewrite opener_not_dashed_result.
    change (js_match [] DASHED_RESULT_REGEX) with (@None jsmatch). reflexivity.
  - now rewrite list_lookup_insert_ne by congruence.
Qed.

End Blanked.

(** *** The grouping pass on two texts that differ by an output line *)

Section Alike.
Import Grouping.
Variable l : jsstring.

Lemma without_line_refl t : without_line l t t.
Proof. split; [reflexivity | now left]. Qed.

Lemma without_line_push lj t t' :
  without_line l t t' -> without_line l (push_output lj t) (push_output lj t').
Proof.
  intros [He Ho]. split; [now rewrite !erase_output_push|].
  cbn [push_output output]. destruct Ho as [-> | (o1 & o2 & -> & ->)]; [now left|].
  right. exists o1, (o2 ++ [lj]). now rewrite <- !app_assoc.
Qed.

Lemma without_line_pushed t : without_line l (push_output l t) t.
Proof.
  split; [apply erase_output_push|]. right. exists (output t), [].
  cbn [push_output output]. now rewrite app_nil_r.
Qed.

Lemma alike_refl st : alike l st st.
Proof.
  repeat split. apply Forall_Forall2_diag, List.Forall_forall.
  intros t _. apply without_line_refl.
Qed.

(** The opening line itself: one side takes it as output, the other has a
    blank line. *)
Lemma alike_opener st : alike l (output_step l st) st.
Proof.
  unfold output_step. destruct (currentTest st) as [r|] eqn:Hr; [|apply alike_refl].
  destruct (negb (is_empty (trim l))); [|apply alike_refl].
  split; [reflexivity|]. split; [reflexivity|]. split; [exact (eq_sym Hr)|].
  split; [reflexivity|]. cbn [store].
  generalize (store st). clear. intros h. revert r.
  induction h as [|t h IH]; intros [|r]; try constructor.
  - apply without_line_pushed.
  - apply Forall_Forall2_diag, List.Forall_forall. intros t' _. apply without_line_refl.
  - apply without_line_refl.
  - apply IH.
Qed.

Lemma record_of_unique k lj t t' : record_of k lj t -> record_of k lj t' -> t = t'.
Proof.
  intros (m & g1 & Hm & Hg & Hd) (m' & g1' & Hm' & Hg' & Hd').
  rewrite Hm in Hm'. injection Hm' as <-. rewrite Hg in Hg'. injection Hg' as <-.
  rewrite Hd in Hd'. now injection Hd'.
Qed.

Lemma alike_prepare k n st st' :
  alike l st st' ->
  groups (default_step k (reset_step k n st)) = groups (default_step k (reset_step k n st')) /\
  currentGroup (default_step k (reset_step k n st))
  = currentGroup (default_step k (reset_step k n st')).
Proof.
  intros (Hg & Hc & _ & Hn & _). destruct st as [h G C T N], st' as [h' G' C' T' N'].
  cbn [groups currentGroup lastTestNumber] in Hg, Hc, Hn. subst G' C' N'.
  unfold default_step, reset_step. cbn [groups currentGroup lastTestNumber store currentTest].
  destruct (Number_le n N && has_tests C); cbn [currentGroup groups]; [now split|].
  destruct C; cbn [currentGroup groups]; now split.
Qed.

(** One step on the same line keeps two states alike. *)
Lemma alike_step lines lines' j lj st st' :
  lines !! j = Some lj -> lines' !! j = Some lj -> alike l st st' ->
  exists u u', parse_body lines j st = Normal u /\ parse_body lines' j st' = Normal u' /\
               alike l u u'.
Proof.
  intros Hj Hj' Hal. unfold parse_body. rewrite Hj, Hj'.
  cbn [deref mbind completion_bind].
  destruct (js_match lj TEST_PLAN_REGEX) as [m|] eqn:Hplan.
  - eexists _, _. split; [reflexivity|]. split; [reflexivity|].
    destruct Hal as (Hg & Hc & Ht & Hn & Hs). unfold plan_step.
    split; cbn [groups currentGroup currentTest lastTestNumber store]; [now rewrite Hg, Hc|].
    now repeat split.
  - destruct (js_match lj TEST_RESULT_REGEX) as [m|] eqn:Hres.
    + destruct (test_step_spec j lj m st Hres) as (t & g & Hrec & Hcg & ->).
      destruct (test_step_spec j lj m st' Hres) as (t' & g' & Hrec' & Hcg' & ->).
      cbv zeta in *.
      destruct (alike_prepare j (parseInt (group m 3)) st st' Hal) as [Hg1 Hc1].
      rewrite Hc1, Hcg' in Hcg. injection Hcg as <-.
      rewrite (record_of_unique _ _ _ _ Hrec' Hrec).
      destruct Hal as (Hg & Hc & Ht & Hn & Hs).
      eexists _, _. split; [reflexivity|]. split; [reflexivity|].
      rewrite (Forall2_length _ _ _ Hs). rewrite Hg1.
      split; [reflexivity|]. split; [reflexivity|]. split; [reflexivity|].
      split; [reflexivity|]. cbn [store].
      apply Forall2_app; [exact Hs|]. constructor; [apply without_line_refl | constructor].
    + eexists _, _. split; [reflexivity|]. split; [reflexivity|].
      assert (Hal' := Hal).
      destruct Hal as (Hg & Hc & Ht & Hn & Hs). unfold output_step. rewrite <- Ht.
      destruct (currentTest st) as [r|] eqn:Hr; [|exact Hal'].
      destruct (negb (is_empty (trim lj))); [|exact Hal'].
      split; [exact Hg|]. split; [exact Hc|]. split; [cbn [currentTest]; congruence|].
      split; [exact Hn|]. cbn [store]. apply Forall2_alter; [exact Hs|].
      intros x y _ _. apply without_line_push.
Qed.

Lemma alike_resolve st st' :
  alike l st st' ->
  same_groups l (map (resolve (store st)) (group_list st))
                (map (resolve (store st')) (group_list st')).
Proof.
  intros (Hg & Hc & _ & _ & Hs). unfold group_list, same_groups. rewrite <- Hg, <- Hc.
  apply Forall2_fmap, Forall_Forall2_diag, List.Forall_forall.
  intros g _. cbn [resolve name group_line tests].
  split; [reflexivity|]. split; [reflexivity|].
  induction (tests g) as [|r refs IH]; [constructor|].
  cbn [omap list_omap]. rewrite Forall2_lookup in Hs. specialize (Hs r).
  destruct Hs as [x y Hxy|]; [constructor; [exact Hxy | exact IH] | exact IH].
Qed.

End Alike.

(** The grouping pass on a text and on the text with the opening line [i]
    blanked. *)
Lemma blanked_grouping text text' i l :
  split_lines text !! i = Some l -> trim l = str "---" ->
  split_lines text' = <[i := []]> (split_lines text) ->
  exists gs gs',
    Grouping.parseTapContent text = Normal gs /\
    Grouping.parseTapContent text' = Normal gs' /\ same_groups l gs gs'.
Proof.
  intros Hl Hopen Hlines. set (lines := split_lines text) in *.
  assert (Hi : i < length lines) by (now apply lookup_lt_Some in Hl).
  destruct (for_loop_rel
              (fun j st st' => if Nat.leb j i then st = st' else alike l st st')
              (length lines) (Grouping.parse_body lines)
              (Grouping.parse_body (<[i := []]> lines)) Grouping.initial Grouping.initial)
    as (u & u' & Eu & Eu' & HR).
  - reflexivity.
  - intros j t t' Hj HR.
    destruct (lookup_lt_is_Some_2 lines j Hj) as [lj Hlj].
    destruct (Nat.leb_spec j i) as [Hji|Hji].
    + subst t'. destruct (Nat.eq_dec j i) as [->|Hne].
      * exists (Grouping.output_step l t), t.
        unfold Grouping.parse_body. rewrite (blanked_lookup_eq lines i l Hl), Hl.
        cbn [deref mbind completion_bind].
        rewrite (opener_not_plan l Hopen), (opener_not_result l Hopen).
        rewrite blank_not_plan, blank_not_result.
        split; [reflexivity|]. split.
        { unfold Grouping.output_step. now destruct (Grouping.currentTest t). }
        destruct (Nat.leb_spec (S i) i); [lia|]. apply alike_opener.
      * destruct (parse_body_total lines j t Hj) as [t' Et].
        exists t', t'. split; [exact Et|]. split.
        { unfold Grouping.parse_body in *. now rewrite list_lookup_insert_ne by congruence. }
        destruct (Nat.leb_spec (S j) i); [reflexivity | lia].
    + destruct (alike_step l lines (<[i := []]> lines) j lj t t' Hlj) as (u & u' & E & E' & Hal);
        [rewrite list_lookup_insert_ne by lia; exact Hlj | exact HR|].
      exists u, u'. split; [exact E|]. split; [exact E'|].
      destruct (Nat.leb_spec (S j) i); [lia | exact Hal].
  - destruct (Nat.leb_spec (length lines) i); [lia|].
    exists (map (Grouping.resolve (Grouping.store u)) (group_list u)),
           (map (Grouping.resolve (Grouping.store u')) (group_list u')).
    split; [|split; [|now apply alike_resolve]].
    + apply parseTapContent_spec. exists u. now split.
    + apply parseTapContent_spec. exists u'. rewrite Hlines, length_insert. now split.
Qed.

(** *** Lines and texts *)

Lemma split_lines_aux_line cur x :
  lf_free x -> split_lines_aux cur x = [rev cur ++ x].
Proof.
  intros Hx. revert cur. induction Hx as [|c x Hc _ IH]; intros cur.
  - cbn [split_lines_aux]. now rewrite app_nil_r.
  - cbn [split_lines_aux]. cbv beta in Hc. apply negb_true_iff in Hc. rewrite Hc.
    rewrite IH. cbn [rev]. now rewrite <- app_assoc.
Qed.

Lemma split_lines_aux_app cur x rest :
  lf_free x ->
  split_lines_aux cur (x ++ LF :: rest) = (rev cur ++ x) :: split_lines_aux [] rest.
Proof.
  intros Hx. revert cur. induction Hx as [|c x Hc _ IH]; intros cur.
  - cbn [app split_lines_aux]. change (char_eqb LF LF) with true. cbv iota.
    now rewrite app_nil_r.
  - cbn [app split_lines_aux]. cbv beta in Hc. apply negb_true_iff in Hc. rewrite Hc.
    rewrite IH. cbn [rev]. now rewrite <- app_assoc.
Qed.

Lemma split_lines_join ls :
  ls <> [] -> Forall lf_free ls -> split_lines (join [LF] ls) = ls.
Proof.
  intros Hne Hls. induction Hls as [|x ls Hx Hls IH]; [contradiction|].
  destruct ls as [|y ls].
  - cbn [join]. unfold split_lines. now rewrite split_lines_aux_line.
  - change (join [LF] (x :: y :: ls)) with (x ++ LF :: join [LF] (y :: ls)).
    unfold split_lines. rewrite split_lines_aux_app by exact Hx.
    cbn [rev app]. f_equal. apply IH. discriminate.
Qed.

Lemma split_lines_aux_lf_free cur s :
  lf_free cur -> Forall lf_free (split_lines_aux cur s).
Proof.
  revert cur. induction s as [|c s IH]; intros cur Hcur; cbn [split_lines_aux].
  - constructor; [now apply all_in_rev | constructor].
  - destruct (char_eqb c LF) eqn:Hc.
    + constructor; [now apply all_in_rev|]. apply IH. constructor.
    + apply IH. constructor; [cbv beta; now rewrite Hc | exact Hcur].
Qed.

Lemma split_lines_lf_free text : Forall lf_free (split_lines text).
Proof. apply split_lines_aux_lf_free. constructor. Qed.

Lemma split_lines_length text : 0 < length (split_lines text).
Proof.
  unfold split_lines. generalize (@nil char). induction text as [|c s IH]; intros cur;
    cbn [split_lines_aux]; [cbn; lia|].
  destruct (char_eqb c LF); [cbn; lia | apply IH].
Qed.

(** The lines of a blanked text. *)
Lemma split_lines_blanked i text :
  split_lines (blanked i text) = <[i := []]> (split_lines text).
Proof.
  unfold blanked. apply split_lines_join.
  - intros H. apply (f_equal length) in H. rewrite length_insert in H.
    pose proof (split_lines_length text). cbn in H. lia.
  - apply Forall_insert; [apply split_lines_lf_free | constructor].
Qed.

Lemma first_close_exists lines i j0 :
  i < j0 -> closes lines j0 -> exists j, first_close lines i j /\ j <= j0.
Proof.
  intros Hij Hc. assert (Hi : i < length lines) by (apply closes_lt in Hc; lia).
  destruct (yaml_branch_cases lines i [] Hi) as [(j & Hj & _) | (Hnone & _)].
  - exists j. split; [exact Hj|]. destruct Hj as (_ & _ & Hf).
    destruct (Nat.le_gt_cases j j0) as [H|H]; [exact H|].
    exfalso. apply (Hf j0); [lia | exact Hc].
  - exfalso. exact (Hnone j0 Hij Hc).
Qed.

Lemma blanked_current_provide text text' i l :
  split_lines text !! i = Some l -> trim l = str "---" ->
  (forall j, i < j -> ~ closes (split_lines text) j) ->
  split_lines text' = <[i := []]> (split_lines text) ->
  CurrentTest.provideFoldingRanges text' = CurrentTest.provideFoldingRanges text.
Proof.
  intros Hl Hopen Hnone Hlines. unfold CurrentTest.provideFoldingRanges. cbv zeta.
  rewrite Hlines, length_insert.
  rewrite (for_loop_ext _ _ _ (CurrentTest.fold_body (split_lines text))); [reflexivity|].
  intros j t _. now apply (blanked_current_fold_body _ _ l).
Qed.

Lemma blanked_legacy_provide text text' i l :
  split_lines text !! i = Some l -> trim l = str "---" ->
  (forall j, i < j -> ~ closes (split_lines text) j) ->
  split_lines text' = <[i := []]> (split_lines text) ->
  Legacy.provideFoldingRanges text' = Legacy.provideFoldingRanges text.
Proof.
  intros Hl Hopen Hnone Hlines. unfold Legacy.provideFoldingRanges. cbv zeta.
  rewrite Hlines, length_insert.
  rewrite (for_loop_ext _ _ _ (Legacy.fold_body (split_lines text))); [reflexivity|].
  intros j t _. now apply (blanked_legacy_fold_body _ _ l).
Qed.

Lemma blanked_flat_parse text text' i l :
  split_lines text !! i = Some l -> trim l = str "---" ->
  split_lines text' = <[i := []]> (split_lines text) ->
  Flat.parseTapContent text' = Flat.parseTapContent text.
Proof.
  intros Hl Hopen Hlines. unfold Flat.parseTapContent. cbv zeta.
  rewrite Hlines, length_insert. apply for_loop_ext.
  intros j t _. now apply (blanked_flat_body _ _ l).
Qed.

Lemma blanked_legacy_parse text text' i l :
  split_lines text !! i = Some l -> trim l = str "---" ->
  split_lines text' = <[i := []]> (split_lines text) ->
  Legacy.parseTapContent text' = Legacy.parseTapContent text.
Proof.
  intros Hl Hopen Hlines. unfold Legacy.parseTapContent. cbv zeta.
  rewrite Hlines, length_insert. apply for_loop_ext.
  intros j t _. now apply (blanked_legacy_body _ _ l).
Qed.
(** ** Test-plan lines *)

Lemma trimEnd_id s c : is_space c = false -> trimEnd (s ++ [c]) = s ++ [c].
Proof.
  intros Hc. unfold trimEnd. rewrite rev_app_distr. cbn [rev app trimStart].
  rewrite Hc. cbn [rev]. now rewrite rev_involutive.
Qed.

Lemma trimStart_frame s : exists ws, s = ws ++ trimStart s /\ all_in is_space ws.
Proof.
  rewrite trimStart_span. destruct (span is_space s) as [a b] eqn:H.
  destruct (span_spec _ _ _ _ H) as (-> & Ha & _). now exists a.
Qed.

Lemma trimEnd_frame s : exists ws, s = trimEnd s ++ ws /\ all_in is_space ws.
Proof.
  destruct (trimStart_frame (rev s)) as (ws & E & Hws). exists (rev ws).
  split; [|now apply all_in_rev]. unfold trimEnd.
  rewrite <- rev_app_distr, <- E. now rewrite rev_involutive.
Qed.

(** A line is its trimmed text between two runs of white space. *)
Lemma trim_frame s :
  exists ws ws', s = ws ++ trim s ++ ws' /\ all_in is_space ws /\ all_in is_space ws'.
Proof.
  destruct (trimStart_frame s) as (ws & E & Hws).
  destruct (trimEnd_frame (trimStart s)) as (ws' & E' & Hws').
  exists ws, ws'. unfold trim. now rewrite <- E', <- E.
Qed.

Lemma trim_framed ws x c ws' :
  all_in is_space ws -> all_in is_space ws' ->
  stops is_space (x ++ [c]) -> is_space c = false ->
  trim (ws ++ (x ++ [c]) ++ ws') = x ++ [c].
Proof.
  intros Hws Hws' Hx Hc. rewrite app_assoc, trim_app_spaces by exact Hws'.
  unfold trim. rewrite trimStart_app_spaces by exact Hws.
  rewrite trimStart_id by exact Hx. now apply trimEnd_id.
Qed.

(** [N..M] starts and ends with a digit. *)
Lemma plan_text_ends a b :
  is_digits a -> is_digits b ->
  exists x c, a ++ str ".." ++ b = x ++ [c] /\ is_space c = false /\
              stops is_space (x ++ [c]).
Proof.
  intros [Ha Hda] [Hb Hdb].
  destruct (exists_last Hb) as (b' & c & ->).
  exists (a ++ str ".." ++ b'), c. split; [now rewrite <- !app_assoc|].
  split.
  - apply Forall_app in Hdb as [_ Hc]. inversion Hc as [|? ? Hd _]; subst.
    now apply digit_not_space.
  - destruct a as [|c0 a]; [contradiction|]. cbn [app stops].
    inversion Hda as [|? ? Hd _]; subst. now apply digit_not_space.
Qed.

(** What the plan-stack folding takes for a test-plan line. *)
Lemma plan_head_spec l : plan_head l <-> exists a b, plan_text (trim l) a b.
Proof.
  unfold plan_head. rewrite run_TRIMMED_PLAN_REGEX. split.
  - destruct (read_plan (trim l)) as [[[ws a] b]|] eqn:E; [|congruence].
    destruct ws; [|congruence]. intros _.
    apply read_plan_spec in E as (E & _ & Ha & Hb). exists a, b. now split.
  - intros (a & b & E & Ha & Hb).
    assert (H : read_plan (trim l) = Some ([], a, b)).
    { apply read_plan_spec. split; [exact E|]. split; [constructor | now split]. }
    rewrite H. discriminate.
Qed.

Lemma plan_head_frame l :
  plan_head l <->
  exists ws a b ws',
    l = ws ++ (a ++ str ".." ++ b) ++ ws' /\
    all_in is_space ws /\ is_digits a /\ is_digits b /\ all_in is_space ws'.
Proof.
  rewrite plan_head_spec. split.
  - intros (a & b & E & Ha & Hb).
    destruct (trim_frame l) as (ws & ws' & El & Hws & Hws').
    exists ws, a, b, ws'. split; [rewrite <- E; exact El|].
    split; [exact Hws|]. split; [exact Ha|]. split; [exact Hb | exact Hws'].
  - intros (ws & a & b & ws' & -> & Hws & Ha & Hb & Hws').
    exists a, b. split; [|now split].
    destruct (plan_text_ends a b Ha Hb) as (x & c & -> & Hc & Hx).
    now apply trim_framed.
Qed.

(** What the grouping pass and the current-test folding take for one. *)
Lemma is_plan_line_spec l :
  is_plan_line l = true <->
  exists ws a b,
    l = ws ++ a ++ str ".." ++ b /\ all_in is_space ws /\ is_digits a /\ is_digits b.
Proof.
  unfold is_plan_line. rewrite run_TEST_PLAN_REGEX. split.
  - destruct (read_plan l) as [[[ws a] b]|] eqn:E; [|discriminate]. intros _.
    apply read_plan_spec in E. now exists ws, a, b.
  - intros (ws & a & b & H). apply read_plan_spec in H. now rewrite H.
Qed.

Lemma is_plan_line_trimEnd l : is_plan_line l = true <-> plan_head l /\ trimEnd l = l.
Proof.
  rewrite is_plan_line_spec, plan_head_frame. split.
  - intros (ws & a & b & -> & Hws & Ha & Hb). split.
    + exists ws, a, b, []. rewrite app_nil_r.
      split; [reflexivity|]. split; [exact Hws|]. split; [exact Ha|].
      split; [exact Hb | constructor].
    + destruct (plan_text_ends a b Ha Hb) as (x & c & -> & Hc & _).
      rewrite app_assoc. now apply trimEnd_id.
  - intros [(ws & a & b & ws' & -> & Hws & Ha & Hb & Hws') Hend].
    exists ws, a, b. split; [|split; [exact Hws|]; split; [exact Ha | exact Hb]].
    destruct (plan_text_ends a b Ha Hb) as (x & c & E & Hc & _). rewrite E in *.
    assert (Ht : trimEnd (ws ++ (x ++ [c]) ++ ws') = ws ++ x ++ [c]).
    { rewrite !app_assoc. rewrite trimEnd_app_spaces by exact Hws'. now apply trimEnd_id. }
    rewrite Ht in Hend. apply app_inv_head in Hend.
    assert (Hnil : [] = ws').
    { apply (app_inv_head (x ++ [c])). now rewrite app_nil_r. }
    subst ws'. now rewrite app_nil_r.
Qed.

(** White space after [N..M]: the plan-stack folding still takes the line
    for a plan line, the other passes do not, nor for a test-result line. *)
Lemma plan_line_trailing l w :
  is_plan_line l = true -> w <> [] -> all_in is_space w ->
  plan_head (l ++ w) /\ is_plan_line (l ++ w) = false /\
  is_result_line (l ++ w) = false.
Proof.
  intros Hl Hw Hsp. split; [|split].
  - apply plan_head_frame. apply is_plan_line_spec in Hl as (ws & a & b & -> & Hws & Ha & Hb).
    exists ws, a, b, w. rewrite <- !app_assoc.
    split; [reflexivity|]. split; [exact Hws|]. split; [exact Ha|].
    split; [exact Hb | exact Hsp].
  - destruct (is_plan_line (l ++ w)) eqn:E; [|reflexivity]. exfalso.
    apply is_plan_line_trimEnd in E as [_ E]. apply is_plan_line_trimEnd in Hl as [_ Hl].
    rewrite trimEnd_app_spaces, Hl in E by exact Hsp.
    apply Hw. symmetry. apply (app_inv_head l). now rewrite app_nil_r.
  - unfold is_plan_line in Hl. destruct (js_match l TEST_PLAN_REGEX) as [m|] eqn:Hm;
      [|discriminate].
    apply TEST_PLAN_REGEX_head in Hm as (c & s & Hc & Hd).
    unfold is_result_line. destruct (js_match (l ++ w) TEST_RESULT_REGEX) as [m'|] eqn:Hm';
      [|reflexivity].
    apply TEST_RESULT_REGEX_head in Hm'. rewrite trimStart_app_keep in Hm' by congruence.
    rewrite Hc in Hm'. cbn [app prefix str] in Hm'.
    exfalso. destruct Hm' as [Hm'|Hm']; apply andb_true_iff in Hm' as [Hm' _];
      apply char_eqb_eq in Hm'; subst c; discriminate Hd.
Qed.
(* ================================================================== *)
(** * Part V. Properties of the passes *)
(* ================================================================== *)

(** ** Test objects *)

(** C1.  The text of three lines [1..2], [ok 1 - a] and
    [not ok 2 - b # TODO later], each ended by a line feed, parses to exactly
    one group, named from the plan range [1..2], that holds exactly two test
    objects in order: the first passed, number 1, description [a]; the
    second failed, number 2, with [hasTodo] set and description [b], the
    comment being stripped.  The second is reported as skipped. *)
Theorem scenario_plan_and_two_results :
  let text := text_of ["1..2"%string; "ok 1 - a"%string;
                       "not ok 2 - b # TODO later"%string; EmptyString] in
  let first :=
    {| line := 1; indent := 0; passed := true; testNumber := Number_of_Z 1;
       description := str "a"; duration := None; hasTodo := false;
       hasSkip := false; fullLine := str "ok 1 - a"; output := [] |} in
  let second :=
    {| line := 2; indent := 0; passed := false; testNumber := Number_of_Z 2;
       description := str "b"; duration := None; hasTodo := true;
       hasSkip := false; fullLine := str "not ok 2 - b # TODO later";
       output := [] |} in
  Grouping.parseTapContent text
  = Normal [{| name := str "Tests 1..2"; group_line := 0; tests := [first; second] |}]
  /\ Grouping.report second = Grouping.Skipped
  /\ Grouping.updateTestsForDocument text
     = Normal [(str "1: a", Grouping.Passed None); (str "2: b", Grouping.Skipped)].
Proof. vm_compute. repeat split; reflexivity. Qed.

Lemma erase_output_duration t : duration (erase_output t) = duration t.
Proof. reflexivity. Qed.

Lemma erase_output_description t : description (erase_output t) = description t.
Proof. reflexivity. Qed.

Lemma milliseconds_s num u :
  ci_eq u (str "s") ->
  milliseconds num u = Number_mul (parseFloat (Some num)) (Number_of_Z 1000).
Proof. intros H. unfold milliseconds. now rewrite (lower_unit_s _ H). Qed.

Lemma milliseconds_ms num u :
  ci_eq u (str "ms") -> milliseconds num u = parseFloat (Some num).
Proof. intros H. unfold milliseconds. now rewrite (lower_unit_ms _ H). Qed.

(** C5.  For every test-result line whose cleaned description ends with a
    clause of white space, [in] in any case, white space, a decimal number
    and the unit [ms] or [s] in any case: the test object of the line has as
    duration that number, multiplied by 1000 when the unit is [s] and taken
    as it is when the unit is [ms], and as description the text before the
    clause, trimmed.  In particular [ok 1 - done in 1.5s] yields the
    duration 1500 and the description [done]. *)
Theorem duration_read_from_description :
  (forall text i l m pre clause num u,
     split_lines text !! i = Some l ->
     js_match l TEST_RESULT_REGEX = Some m ->
     cleaned_description l = pre ++ clause -> duration_clause clause num u ->
     exists gs g t,
       Grouping.parseTapContent text = Normal gs /\ In g gs /\ In t (tests g) /\
       line t = i /\ fullLine t = l /\
       description t = trim pre /\
       (ci_eq u (str "s") ->
        duration t = Some (Number_mul (parseFloat (Some num)) (Number_of_Z 1000))) /\
       (ci_eq u (str "ms") -> duration t = Some (parseFloat (Some num))))
  /\ Grouping.parseTapContent (str "ok 1 - done in 1.5s")
     = Normal [{| name := str "Tests"; group_line := 0;
                  tests := [{| line := 0; indent := 0; passed := true;
                               testNumber := Number_of_Z 1;
                               description := str "done";
                               duration := Some (Number_of_Z 1500);
                               hasTodo := false; hasSkip := false;
                               fullLine := str "ok 1 - done in 1.5s";
                               output := [] |}] |}].
Proof.
  split; [|vm_compute; reflexivity].
  intros text i l m pre clause num u Hl Hres Hclean Hclause.
  assert (Hplan := result_line_not_plan l m Hres).
  destruct (line_record text i l m Hl Hplan Hres) as (gs & g & t & Hp & Hg & Ht & Hrec & Hli & Hfl).
  destruct (record_of_duration _ _ _ _ _ _ _ Hrec Hclean Hclause) as (Hdur & Hdesc).
  rewrite erase_output_duration in Hdur. rewrite erase_output_description in Hdesc.
  exists gs, g, t. repeat split; try assumption.
  - intros Hu. now rewrite Hdur, (milliseconds_s _ _ Hu).
  - intros Hu. now rewrite Hdur, (milliseconds_ms _ _ Hu).
Qed.

Lemma duration_read_from_description_witness :
  exists gs g t,
    Grouping.parseTapContent (str "ok 7 - sum IN 250Ms") = Normal gs /\ In g gs /\
    In t (tests g) /\ line t = 0 /\ fullLine t = str "ok 7 - sum IN 250Ms" /\
    description t = trim (str "sum") /\
    (ci_eq (str "Ms") (str "s") ->
     duration t = Some (Number_mul (parseFloat (Some (str "250"))) (Number_of_Z 1000))) /\
    (ci_eq (str "Ms") (str "ms") -> duration t = Some (parseFloat (Some (str "250")))).
Proof.
  eapply (proj1 duration_read_from_description (str "ok 7 - sum IN 250Ms") 0
            (str "ok 7 - sum IN 250Ms") _ (str "sum") (str " IN 250Ms")
            (str "250") (str "Ms")).
  - vm_compute. reflexivity.
  - vm_compute. reflexivity.
  - vm_compute. reflexivity.
  - exists (str " "), (str "IN"), (str " "), [].
    split; [vm_compute; reflexivity|].
    split; [split; [discriminate | repeat constructor]|].
    split; [vm_compute; reflexivity|].
    split; [split; [discriminate | repeat constructor]|].
    split; [left; split; [discriminate | repeat constructor]|].
    split; [left; vm_compute; reflexivity | constructor].
Defined.

(** C10.  When the cleaned description of a test-result line is a duration
    clause alone, with no text and so no white space before [in], as for
    the line [ok 1 in 5s] whose cleaned description is [in 5s], no duration
    is read: the test object has no duration and its description is the
    clause itself.  This holds in the grouping and in the flat snapshot. *)
Theorem bare_duration_clause_kept :
  (forall text i l m num u,
     split_lines text !! i = Some l ->
     js_match l TEST_RESULT_REGEX = Some m ->
     bare_duration_clause (cleaned_description l) num u ->
     exists gs g t,
       Grouping.parseTapContent text = Normal gs /\ In g gs /\ In t (tests g) /\
       line t = i /\ fullLine t = l /\
       duration t = None /\ description t = cleaned_description l)
  /\ (forall text i l m num u,
       split_lines text !! i = Some l -> js_match l TEST_RESULT_REGEX = Some m ->
       bare_duration_clause (cleaned_description l) num u ->
       exists ts t,
         Flat.parseTapContent text = Normal ts /\ In t ts /\
         line t = i /\ fullLine t = l /\
         duration t = None /\ description t = cleaned_description l)
  /\ cleaned_description (str "ok 1 in 5s") = str "in 5s"
  /\ flat_map (fun g => map (fun t => (duration t, description t)) (tests g))
       match Grouping.parseTapContent (str "ok 1 in 5s") with
       | Normal gs => gs
       | Throw _ => []
       end
     = [(None, str "in 5s")]
  /\ match Flat.parseTapContent (str "ok 1 in 5s") with
     | Normal ts => map (fun t => (duration t, description t)) ts
     | Throw _ => []
     end
     = [(None, str "in 5s")].
Proof.
  split; [|split; [|vm_compute; repeat split; reflexivity]].
  - intros text i l m num u Hl Hres Hbare.
    assert (Hplan := result_line_not_plan l m Hres).
    destruct (line_record text i l m Hl Hplan Hres)
      as (gs & g & t & Hp & Hg & Ht & Hrec & Hli & Hfl).
    destruct (record_of_bare _ _ _ _ _ Hrec Hbare) as (Hdur & Hdesc).
    exists gs, g, t. now repeat split.
  - intros text i l m num u Hl Hres Hbare.
    destruct (flat_parse_spec text) as (ts & Hp & Hall & Hex).
    destruct (Hex i l) as (t & Hin & Hli & Hfl).
    + now apply lookup_lt_Some in Hl.
    + exact Hl.
    + unfold is_result_line. now rewrite Hres.
    + rewrite List.Forall_forall in Hall. destruct (Hall t Hin) as (_ & _ & Hrec).
      rewrite Hli, Hfl in Hrec.
      destruct (record_of_bare _ _ _ _ _ Hrec Hbare) as (Hdur & Hdesc).
      exists ts, t. now repeat split.
Qed.

Lemma bare_duration_clause_kept_witness :
  exists gs g t,
    Grouping.parseTapContent (str "not ok 3 In 12.5MS") = Normal gs /\ In g gs /\
    In t (tests g) /\ line t = 0 /\ fullLine t = str "not ok 3 In 12.5MS" /\
    duration t = None /\ description t = cleaned_description (str "not ok 3 In 12.5MS").
Proof.
  eapply (proj1 bare_duration_clause_kept (str "not ok 3 In 12.5MS") 0
            (str "not ok 3 In 12.5MS") _ (str "12.5") (str "MS")).
  - vm_compute. reflexivity.
  - vm_compute. reflexivity.
  - exists (str "In"), (str " "), [].
    split; [vm_compute; reflexivity|].
    split; [vm_compute; reflexivity|].
    split; [split; [discriminate | repeat constructor]|].
    split; [right; exists (str "12"), (str "5");
            split; [reflexivity|]; split; split; first [discriminate | repeat constructor]|].
    split; [left; vm_compute; reflexivity | constructor].
Defined.

Lemma hasTodo_spec l : js_test TODO_REGEX l = true <-> contains_ci "# TODO" l.
Proof. apply js_test_lit_i. Qed.

Lemma hasSkip_spec l : js_test SKIP_REGEX l = true <-> contains_ci "# SKIP" l.
Proof. apply js_test_lit_i. Qed.

Lemma contains_ci_middle pat pre sub post :
  ci_eq sub (str pat) -> contains_ci pat (pre ++ sub ++ post).
Proof. intros H. now exists pre, sub, post. Qed.

(** C9.  For every test-result line, [hasTodo] (respectively [hasSkip]) of
    its test object is true exactly when the raw line contains [# TODO]
    (respectively [# SKIP]) up to the case of the letters, in the grouping
    and in the legacy snapshot.  Lines that differ only in the spelling
    [# todo], [# TODO] or [# ToDo] have the same [hasTodo], likewise for
    [# SKIP], and the two flags are independent: each of the four
    combinations occurs. *)
Theorem directive_flags_case_insensitive :
  (forall text i l m,
     split_lines text !! i = Some l ->
     js_match l TEST_RESULT_REGEX = Some m ->
     exists gs g t,
       Grouping.parseTapContent text = Normal gs /\ In g gs /\ In t (tests g) /\
       line t = i /\ fullLine t = l /\
       (hasTodo t = true <-> contains_ci "# TODO" l) /\
       (hasSkip t = true <-> contains_ci "# SKIP" l))
  /\ (forall text i l m,
       split_lines text !! i = Some l -> js_match l DASHED_RESULT_REGEX = Some m ->
       exists ts t,
         Legacy.parseTapContent text = Normal ts /\ In t ts /\
         line t = i /\ fullLine t = l /\
         (hasTodo t = true <-> contains_ci "# TODO" l) /\
         (hasSkip t = true <-> contains_ci "# SKIP" l))
  /\ (forall pre post,
       js_test TODO_REGEX (pre ++ str "# todo" ++ post) = true /\
       js_test TODO_REGEX (pre ++ str "# TODO" ++ post) = true /\
       js_test TODO_REGEX (pre ++ str "# ToDo" ++ post) = true /\
       js_test SKIP_REGEX (pre ++ str "# skip" ++ post) = true /\
       js_test SKIP_REGEX (pre ++ str "# SKIP" ++ post) = true /\
       js_test SKIP_REGEX (pre ++ str "# Skip" ++ post) = true)
  /\ flags_of (Grouping.parseTapContent (str "ok 1 - a # TODO b # SKIP c")) = [(true, true)]
  /\ flags_of (Grouping.parseTapContent (str "ok 1 - a # todo b")) = [(true, false)]
  /\ flags_of (Grouping.parseTapContent (str "ok 1 - a # skip c")) = [(false, true)]
  /\ flags_of (Grouping.parseTapContent (str "ok 1 - a")) = [(false, false)].
Proof.
  split; [|split; [|split; [|vm_compute; repeat split; reflexivity]]].
  - intros text i l m Hl Hres.
    assert (Hplan := result_line_not_plan l m Hres).
    destruct (line_record text i l m Hl Hplan Hres)
      as (gs & g & t & Hp & Hg & Ht & Hrec & Hli & Hfl).
    destruct (record_of_fields _ _ _ Hrec) as (_ & _ & _ & Htodo & Hskip & _).
    exists gs, g, t. repeat split; try assumption.
    + intros H. apply hasTodo_spec. now rewrite <- Htodo.
    + intros H. apply hasTodo_spec in H. now rewrite <- H.
    + intros H. apply hasSkip_spec. now rewrite <- Hskip.
    + intros H. apply hasSkip_spec in H. now rewrite <- H.
  - intros text i l m Hl Hres.
    destruct (legacy_parse_spec text) as (ts & Hp & Hall & Hex).
    destruct (Hex i l) as (t & Hin & Hli & Hfl).
    + now apply lookup_lt_Some in Hl.
    + exact Hl.
    + unfold is_dashed_result_line. now rewrite Hres.
    + rewrite List.Forall_forall in Hall. destruct (Hall t Hin) as (_ & _ & Hrec).
      rewrite Hli, Hfl in Hrec. destruct Hrec as (m' & g1 & _ & _ & E).
      exists ts, t. split; [exact Hp|]. split; [exact Hin|].
      split; [exact Hli|]. split; [exact Hfl|].
      rewrite E. cbn [hasTodo hasSkip].
      split; [apply hasTodo_spec | apply hasSkip_spec].
  - intros pre post.
    repeat split; first [apply hasTodo_spec | apply hasSkip_spec];
      apply contains_ci_middle; vm_compute; reflexivity.
Qed.

Lemma directive_flags_case_insensitive_witness :
  exists gs g t,
    Grouping.parseTapContent (str "  not ok 4 - retry # Todo flaky") = Normal gs /\
    In g gs /\ In t (tests g) /\ line t = 0 /\
    fullLine t = str "  not ok 4 - retry # Todo flaky" /\
    (hasTodo t = true <-> contains_ci "# TODO" (str "  not ok 4 - retry # Todo flaky")) /\
    (hasSkip t = true <-> contains_ci "# SKIP" (str "  not ok 4 - retry # Todo flaky")).
Proof.
  eapply (proj1 directive_flags_case_insensitive
            (str "  not ok 4 - retry # Todo flaky") 0).
  - vm_compute. reflexivity.
  - vm_compute. reflexivity.
Defined.
(** ** Groups *)

Section GroupClaims.
Import Grouping.

(** C2.  In every group that the grouping pass returns the test numbers
    ascend.  When a test-result line comes while the current group is not
    empty and its number is at most the last number of that group, the
    group is sealed as it is and a new group, named [Tests (group N)],
    starts at the line with the new test object as its first: the object is
    not in the old group, in that state and in the result. *)
Theorem reset_of_test_number_starts_group :
  (forall text,
     exists gs, parseTapContent text = Normal gs /\
       Forall (fun g => Sorted Number_le_prop (map testNumber (tests g))) gs)
  /\ (forall text k st l m g r last_test,
        run_lines (split_lines text) k = Normal st ->
        split_lines text !! k = Some l ->
        js_match l TEST_RESULT_REGEX = Some m ->
        currentGroup st = Some g -> last (tests g) = Some r ->
        store st !! r = Some last_test ->
        Number_le (parseInt (group m 3)) (testNumber last_test) = true ->
        exists st' t,
          run_lines (split_lines text) (S k) = Normal st' /\
          record_of k l t /\
          store st' = store st ++ [t] /\
          groups st' = groups st ++ [g] /\
          currentGroup st'
          = Some {| name := str "Tests (group "
                              ++ decimal_of_nat (length (groups st) + 2) ++ str ")";
                    group_line := k; tests := [length (store st)] |} /\
          ~ In (length (store st)) (tests g) /\
          forall gs, parseTapContent text = Normal gs ->
            take (length (groups st) + 1) gs
            = map (resolve (store st)) (groups st ++ [g]) /\
            exists g' t' rest,
              gs !! (length (groups st) + 1) = Some g' /\
              name g' = str "Tests (group "
                          ++ decimal_of_nat (length (groups st) + 2) ++ str ")" /\
              group_line g' = k /\ tests g' = t' :: rest /\ erase_output t' = t).
Proof.
  split; [exact parse_sorted|].
  intros text k st l m g r last_test Est Hl Hres Hg Hlast Hr Hle.
  assert (Hplan := result_line_not_plan l m Hres).
  set (lines := split_lines text) in *.
  assert (Hk : k < length lines) by (now apply lookup_lt_Some in Hl).
  destruct (run_lines_inv' _ _ _ Est (Nat.lt_le_incl _ _ Hk)) as (Hrefs & Hord & _).
  assert (Hbound : Forall (fun r0 => r0 < length (store st)) (tests g)).
  { apply (refs_bound st g Hrefs). rewrite Hg. simpl. apply in_or_app. right. now left. }
  assert (Hlastn : lastTestNumber st = testNumber last_test).
  { destruct Hord as (_ & _ & _ & Hcur). apply (Hcur g); [exact Hg|].
    now apply (last_ordinals _ _ r). }
  assert (Hhas : has_tests (currentGroup st) = true).
  { rewrite Hg. unfold has_tests. destruct (tests g); [discriminate | reflexivity]. }
  destruct (test_step_spec k l m st Hres) as (t & g1 & Hrec & Hg1 & Estep).
  destruct (prepare_cases k (parseInt (group m 3)) st) as (_ & _ & _ & Hc).
  destruct Hc as [(_ & _ & Hgr & Hcg) | (Hcond & _)];
    [|rewrite Hlastn, Hle, Hhas in Hcond; discriminate].
  rewrite Hcg in Hg1. injection Hg1 as <-. rewrite Hgr in Estep. cbn [name group_line tests app] in Estep.
  rewrite Hg in Estep. cbn [seal] in Estep.
  assert (Hlen2 : length (groups st ++ [g]) + 1 = length (groups st) + 2)
    by (rewrite length_app; simpl; lia).
  rewrite Hlen2 in Estep.
  assert (Erun : run_lines lines (S k) = Normal
            {| store := store st ++ [t]; groups := groups st ++ [g];
               currentGroup := Some {| name := str "Tests (group "
                                   ++ decimal_of_nat (length (groups st) + 2) ++ str ")";
                                       group_line := k; tests := [length (store st)] |};
               currentTest := Some (length (store st));
               lastTestNumber := parseInt (group m 3) |}).
  { rewrite (run_lines_S _ _ _ Est). unfold parse_body. rewrite Hl.
    cbn [deref mbind completion_bind]. rewrite Hplan, Hres. exact Estep. }
  eexists _, t. split; [exact Erun|]. split; [exact Hrec|].
  split; [reflexivity|]. split; [reflexivity|]. split; [reflexivity|].
  split.
  { intros Hin. rewrite List.Forall_forall in Hbound. specialize (Hbound _ Hin). lia. }
  intros gs Hp. split.
  - replace (length (groups st) + 1) with (length (groups st ++ [g]))
      by (rewrite length_app; simpl; lia).
    assert (Hall : Forall (fun g0 => Forall (fun r0 => r0 < length (store st)) (tests g0))
                          (groups st ++ [g])).
    { apply List.Forall_forall. intros g0 Hg0.
      apply (refs_bound st g0 Hrefs). now rewrite Hg. }
    pose proof (final_sealed text (S k) _ (length (store st)) gs Erun Hk Hp) as Hs.
    cbn [store groups currentTest] in Hs. rewrite Hs.
    + apply map_ext_Forall. eapply Forall_impl; [exact Hall|].
      intros g0 Hg0. cbv beta.
      apply (resolve_take (length (store st))); [|exact Hg0].
      now rewrite take_app_length, firstn_all.
    + rewrite length_app. lia.
    + intros r0 [= <-]. lia.
    + exact Hall.
  - destruct (final_current text (S k) _ _ gs Erun Hk Hp eq_refl)
      as (g' & old & new & Hlook & Hname & Hline & Htests & Hold & _).
    cbn [groups name group_line resolve tests store omap list_omap] in *.
    rewrite list_lookup_middle in Hold by reflexivity. cbn [map] in Hold.
    destruct old as [|t' [|? ?]]; try discriminate Hold. cbn [map] in Hold.
    assert (Ht' : erase_output t' = erase_output t) by congruence.
    destruct (record_of_fields _ _ _ Hrec) as (_ & _ & Hout & _).
    rewrite (erase_output_fresh _ Hout) in Ht'.
    exists g', t', new. rewrite length_app in Hlook. simpl in Hlook.
    now repeat split.
Qed.

Lemma reset_of_test_number_starts_group_witness :
  exists st g,
    run_lines (split_lines (str (nl "ok 2" "ok 1"))) 1 = Normal st /\
    currentGroup st = Some g /\
    exists st' t,
      run_lines (split_lines (str (nl "ok 2" "ok 1"))) 2 = Normal st' /\
      record_of 1 (str "ok 1") t /\
      store st' = store st ++ [t] /\
      groups st' = groups st ++ [g] /\
      currentGroup st'
      = Some {| name := str "Tests (group "
                          ++ decimal_of_nat (length (groups st) + 2) ++ str ")";
                group_line := 1; tests := [length (store st)] |} /\
      ~ In (length (store st)) (tests g) /\
      forall gs, parseTapContent (str (nl "ok 2" "ok 1")) = Normal gs ->
        take (length (groups st) + 1) gs
        = map (resolve (store st)) (groups st ++ [g]) /\
        exists g' t' rest,
          gs !! (length (groups st) + 1) = Some g' /\
          name g' = str "Tests (group "
                      ++ decimal_of_nat (length (groups st) + 2) ++ str ")" /\
          group_line g' = 1 /\ tests g' = t' :: rest /\ erase_output t' = t.
Proof.
  eexists _, _.
  split; [vm_compute; reflexivity|].
  split; [vm_compute; reflexivity|].
  eapply (proj2 reset_of_test_number_starts_group (str (nl "ok 2" "ok 1")) 1 _ (str "ok 1"));
    vm_compute; reflexivity.
Defined.

(** C3.  On a test-plan line the grouping pass seals the current group, if
    there is one and whatever it holds, starts an empty group named from the
    two numbers of the plan, sets the last test number to 0 and clears the
    current test.  In the result the groups sealed so far are as they were
    at the plan line, output included, and the new group holds only test
    objects of later lines. *)
Theorem plan_line_starts_group text k st l m :
  run_lines (split_lines text) k = Normal st ->
  split_lines text !! k = Some l ->
  js_match l TEST_PLAN_REGEX = Some m ->
  exists ws a b st',
    l = ws ++ a ++ str ".." ++ b /\ all_in is_space ws /\ is_digits a /\ is_digits b /\
    run_lines (split_lines text) (S k) = Normal st' /\
    store st' = store st /\
    (forall g, currentGroup st = Some g -> groups st' = groups st ++ [g]) /\
    (currentGroup st = None -> groups st' = groups st) /\
    currentGroup st'
    = Some {| name := str "Tests " ++ a ++ str ".." ++ b; group_line := k; tests := [] |} /\
    lastTestNumber st' = Number_of_Z 0 /\
    currentTest st' = None /\
    forall gs, parseTapContent text = Normal gs ->
      take (length (groups st')) gs = map (resolve (store st)) (groups st') /\
      exists g',
        gs !! length (groups st') = Some g' /\
        name g' = str "Tests " ++ a ++ str ".." ++ b /\ group_line g' = k /\
        Forall (fun t => k < line t) (tests g').
Proof.
  intros Est Hl Hplan.
  set (lines := split_lines text) in *.
  assert (Hk : k < length lines) by (now apply lookup_lt_Some in Hl).
  destruct (TEST_PLAN_REGEX_groups l m Hplan) as (ws & a & b & El & Hws & Ha & Hb & H2 & H3).
  assert (Erun : run_lines lines (S k) = Normal
            {| store := store st; groups := seal (groups st) (currentGroup st);
               currentGroup := Some {| name := str "Tests " ++ a ++ str ".." ++ b;
                                       group_line := k; tests := [] |};
               currentTest := None; lastTestNumber := Number_of_Z 0 |}).
  { rewrite (run_lines_S _ _ _ Est). unfold parse_body. rewrite Hl.
    cbn [deref mbind completion_bind]. rewrite Hplan. unfold plan_step.
    now rewrite H2, H3. }
  destruct (run_lines_inv' _ _ _ Erun Hk) as (Hrefs & _).
  exists ws, a, b. eexists. split; [exact El|]. split; [exact Hws|].
  split; [exact Ha|]. split; [exact Hb|]. split; [exact Erun|].
  cbn [store groups currentGroup currentTest lastTestNumber].
  split; [reflexivity|].
  split; [now intros g ->|]. split; [now intros ->|].
  split; [reflexivity|]. split; [reflexivity|]. split; [reflexivity|].
  intros gs Hp. split.
  - pose proof (final_sealed text (S k) _ (length (store st)) gs Erun Hk Hp) as Hs.
    cbn [store groups currentTest] in Hs. apply Hs.
    + lia.
    + discriminate.
    + apply List.Forall_forall. intros g0 Hg0.
      apply (refs_bound _ g0 Hrefs). cbn [groups currentGroup seal].
      apply in_or_app. now left.
  - destruct (final_current text (S k) _ _ gs Erun Hk Hp eq_refl)
      as (g' & old & new & Hlook & Hname & Hline & Htests & Hold & Hnew).
    cbn [groups name group_line resolve tests store omap list_omap map] in *.
    destruct old; [|discriminate Hold].
    exists g'. split; [exact Hlook|]. split; [exact Hname|]. split; [exact Hline|].
    rewrite Htests. exact Hnew.
Qed.

Lemma plan_line_starts_group_witness :
  exists st,
    run_lines (split_lines (str (nl "ok 5" (nl " 1..3" "ok 1")))) 1 = Normal st /\
  exists ws a b st',
    str " 1..3" = ws ++ a ++ str ".." ++ b /\ all_in is_space ws /\
    is_digits a /\ is_digits b /\
    run_lines (split_lines (str (nl "ok 5" (nl " 1..3" "ok 1")))) 2 = Normal st' /\
    store st' = store st /\
    (forall g, currentGroup st = Some g -> groups st' = groups st ++ [g]) /\
    (currentGroup st = None -> groups st' = groups st) /\
    currentGroup st'
    = Some {| name := str "Tests " ++ a ++ str ".." ++ b; group_line := 1; tests := [] |} /\
    lastTestNumber st' = Number_of_Z 0 /\
    currentTest st' = None /\
    forall gs, parseTapContent (str (nl "ok 5" (nl " 1..3" "ok 1"))) = Normal gs ->
      take (length (groups st')) gs = map (resolve (store st)) (groups st') /\
      exists g',
        gs !! length (groups st') = Some g' /\
        name g' = str "Tests " ++ a ++ str ".." ++ b /\ group_line g' = 1 /\
        Forall (fun t => 1 < line t) (tests g').
Proof.
  eexists. split; [vm_compute; reflexivity|].
  eapply (plan_line_starts_group (str (nl "ok 5" (nl " 1..3" "ok 1"))) 1 _ (str " 1..3"));
    vm_compute; reflexivity.
Defined.

End GroupClaims.
(** ** No input fails *)

Lemma output_step_alike l st :
  Grouping.groups (Grouping.output_step l st) = Grouping.groups st /\
  Grouping.currentGroup (Grouping.output_step l st) = Grouping.currentGroup st /\
  Grouping.currentTest (Grouping.output_step l st) = Grouping.currentTest st /\
  Grouping.lastTestNumber (Grouping.output_step l st) = Grouping.lastTestNumber st /\
  map erase_output (Grouping.store (Grouping.output_step l st))
  = map erase_output (Grouping.store st).
Proof.
  unfold Grouping.output_step. destruct (Grouping.currentTest st) as [r|] eqn:E; [|easy].
  destruct (negb (is_empty (trim l))); [|now rewrite E].
  cbn [Grouping.groups Grouping.currentGroup Grouping.currentTest
       Grouping.lastTestNumber Grouping.store].
  repeat split.
  generalize (Grouping.store st). clear. revert r.
  intros r h. revert r. induction h as [|t h IH]; intros [|r]; try reflexivity.
  change (alter (Grouping.push_output l) (S r) (t :: h))
    with (t :: alter (Grouping.push_output l) r h).
  cbn [map]. now rewrite IH.
Qed.

(** C8.  For every text the grouping pass, the two flat passes and the two
    folding passes return normally; on the empty text each returns the
    empty list.  A line that is neither a test-plan line nor a test-result
    line leaves the groups, the current group, the test pointer, the last
    test number and every test object but for its output as they were. *)
Theorem parse_and_folding_never_fail :
  (forall text,
     (exists gs, Grouping.parseTapContent text = Normal gs) /\
     (exists ts, Flat.parseTapContent text = Normal ts) /\
     (exists ts, Legacy.parseTapContent text = Normal ts) /\
     (exists fs, CurrentTest.provideFoldingRanges text = Normal fs) /\
     (exists fs, Legacy.provideFoldingRanges text = Normal fs)) /\
  (Grouping.parseTapContent [] = Normal [] /\
   Flat.parseTapContent [] = Normal [] /\
   Legacy.parseTapContent [] = Normal [] /\
   CurrentTest.provideFoldingRanges [] = Normal [] /\
   Legacy.provideFoldingRanges [] = Normal []) /\
  (forall text k l st,
     Grouping.run_lines (split_lines text) k = Normal st ->
     split_lines text !! k = Some l ->
     js_match l TEST_PLAN_REGEX = None -> js_match l TEST_RESULT_REGEX = None ->
     exists st',
       Grouping.run_lines (split_lines text) (S k) = Normal st' /\
       Grouping.groups st' = Grouping.groups st /\
       Grouping.currentGroup st' = Grouping.currentGroup st /\
       Grouping.currentTest st' = Grouping.currentTest st /\
       Grouping.lastTestNumber st' = Grouping.lastTestNumber st /\
       map erase_output (Grouping.store st') = map erase_output (Grouping.store st)).
Proof.
  split; [|split].
  - intros text. split; [|split; [|split; [|split]]].
    + destruct (parse_sorted text) as (gs & E & _). eauto.
    + destruct (flat_parse_spec text) as (ts & E & _). eauto.
    + destruct (legacy_parse_spec text) as (ts & E & _). eauto.
    + unfold CurrentTest.provideFoldingRanges.
      destruct (fold_lines_total (split_lines text) (length (split_lines text)))
        as [st E]; [lia|].
      unfold fold_lines in E. cbv zeta. rewrite E. cbn [mbind completion_bind]. eauto.
    + unfold Legacy.provideFoldingRanges.
      destruct (stack_lines_total (split_lines text) (length (split_lines text)))
        as [st E]; [lia|].
      unfold stack_lines in E. cbv zeta. rewrite E. cbn [mbind completion_bind]. eauto.
  - repeat split; vm_compute; reflexivity.
  - intros text k l st Est Hl Hplan Hres.
    exists (Grouping.output_step l st). split; [|apply output_step_alike].
    rewrite (run_lines_S _ _ _ Est). unfold Grouping.parse_body. rewrite Hl.
    cbn [deref mbind completion_bind]. now rewrite Hplan, Hres.
Qed.

Lemma parse_and_folding_never_fail_witness :
  exists st,
    Grouping.run_lines (split_lines (str (nl "ok 1" "# note"))) 1 = Normal st /\
    exists st',
      Grouping.run_lines (split_lines (str (nl "ok 1" "# note"))) 2 = Normal st' /\
      Grouping.groups st' = Grouping.groups st /\
      Grouping.currentGroup st' = Grouping.currentGroup st /\
      Grouping.currentTest st' = Grouping.currentTest st /\
      Grouping.lastTestNumber st' = Grouping.lastTestNumber st /\
      map erase_output (Grouping.store st') = map erase_output (Grouping.store st).
Proof.
  eexists. split; [vm_compute; reflexivity|].
  eapply (proj2 (proj2 parse_and_folding_never_fail)
            (str (nl "ok 1" "# note")) 1 (str "# note"));
    vm_compute; reflexivity.
Defined.
(** ** Folding *)

(** C6.  In the current-test folding, a test-result or test-plan line at
    index [k] met while the test line [c] is open adds the fold from [c]
    to [k - 1] when [c + 1 < k] and adds nothing otherwise; at the end of
    the text the open test line [c] gets the fold from [c] to the last line
    when the last line is after [c], and nothing otherwise.  A blank line
    changes neither the folding state nor the state of the grouping pass,
    so it is no output of a test and no fold starts at it; between two
    test-result lines it is folded with the first of them. *)
Theorem current_test_fold_gap_rule :
  (forall text k l st,
     fold_lines (split_lines text) k = Normal st -> split_lines text !! k = Some l ->
     is_result_line l = true \/ is_plan_line l = true ->
     exists st',
       fold_lines (split_lines text) (S k) = Normal st' /\
       CurrentTest.currentTestLine st'
       = (if is_result_line l then Z.of_nat k else (-1)%Z) /\
       (CurrentTest.currentTestLine st = (-1)%Z
        \/ exists c, c < k /\ CurrentTest.currentTestLine st = Z.of_nat c) /\
       (forall c, CurrentTest.currentTestLine st = Z.of_nat c ->
          (c + 1 < k ->
           CurrentTest.foldingRanges st'
           = CurrentTest.foldingRanges st
               ++ [plain_fold (Z.of_nat c) (Z.of_nat k - 1)]) /\
          (~ c + 1 < k -> CurrentTest.foldingRanges st' = CurrentTest.foldingRanges st)) /\
       (CurrentTest.currentTestLine st = (-1)%Z ->
        CurrentTest.foldingRanges st' = CurrentTest.foldingRanges st)) /\
  (forall text,
     exists st fs,
       fold_lines (split_lines text) (length (split_lines text)) = Normal st /\
       CurrentTest.provideFoldingRanges text = Normal fs /\
       (forall c, CurrentTest.currentTestLine st = Z.of_nat c ->
          (c + 1 < length (split_lines text) ->
           fs = CurrentTest.foldingRanges st
                  ++ [plain_fold (Z.of_nat c) (Z.of_nat (length (split_lines text)) - 1)]) /\
          (~ c + 1 < length (split_lines text) -> fs = CurrentTest.foldingRanges st)) /\
       (CurrentTest.currentTestLine st = (-1)%Z -> fs = CurrentTest.foldingRanges st)) /\
  (forall text i l,
     split_lines text !! i = Some l -> trim l = [] ->
     (exists fs, CurrentTest.provideFoldingRanges text = Normal fs /\
                 Forall (fun f => fr_start f <> Z.of_nat i) fs) /\
     (forall st, fold_lines (split_lines text) i = Normal st ->
                 fold_lines (split_lines text) (S i) = Normal st) /\
     (forall st, Grouping.run_lines (split_lines text) i = Normal st ->
                 Grouping.run_lines (split_lines text) (S i) = Normal st)) /\
  (forall text i l0 l1 l2,
     split_lines text !! i = Some l0 -> is_result_line l0 = true ->
     split_lines text !! S i = Some l1 -> trim l1 = [] ->
     split_lines text !! S (S i) = Some l2 -> is_result_line l2 = true ->
     exists st st',
       fold_lines (split_lines text) (S (S i)) = Normal st /\
       fold_lines (split_lines text) (S (S (S i))) = Normal st' /\
       CurrentTest.foldingRanges st'
       = CurrentTest.foldingRanges st ++ [plain_fold (Z.of_nat i) (Z.of_nat (S i))]).
Proof.
  assert (Hstep : forall lines k l st,
            fold_lines lines k = Normal st -> lines !! k = Some l ->
            is_result_line l = true \/ is_plan_line l = true ->
            fold_lines lines (S k)
            = Normal {| CurrentTest.foldingRanges := CurrentTest.close_current st k;
                        CurrentTest.currentTestLine :=
                          if is_result_line l then Z.of_nat k else (-1)%Z |}).
  { intros lines k l st Est Hl Hrec. rewrite (fold_lines_S _ _ _ Est).
    unfold is_result_line, is_plan_line in *.
    destruct (current_fold_body_cases lines k st l Hl)
      as [(m & Hm & ->) | [(Hres & m & Hm & ->) | [(Hres & Hplan & _) | (Hres & Hplan & _)]]].
    - now rewrite Hm.
    - now rewrite Hres.
    - rewrite Hres, Hplan in Hrec. now destruct Hrec.
    - rewrite Hres, Hplan in Hrec. now destruct Hrec. }
  split; [|split; [|split]].
  - intros text k l st Est Hl Hrec.
    assert (Hk : k < length (split_lines text)) by (now apply lookup_lt_Some in Hl).
    destruct (fold_lines_inv' _ _ _ Est (Nat.lt_le_incl _ _ Hk)) as (_ & _ & Hc).
    eexists. split; [exact (Hstep _ _ _ _ Est Hl Hrec)|].
    cbn [CurrentTest.foldingRanges CurrentTest.currentTestLine].
    split; [reflexivity|]. split.
    { destruct Hc as [Hc | (c & lc & Hck & Ec & _)]; [now left | right; eauto]. }
    split; [intros c Ec; now apply close_current_open | apply close_current_none].
  - intros text. destruct (current_provide_spec text) as (st & Est & Ep).
    exists st. eexists. split; [exact Est|]. split; [exact Ep|].
    split; [intros c Ec; now apply close_current_open | apply close_current_none].
  - intros text i l Hl Hb. split; [|split].
    + destruct (current_provide_spec text) as (st & Est & Ep).
      eexists. split; [exact Ep|].
      destruct (current_folds_at text _ Ep) as [Hs _].
      eapply Forall_impl; [exact Hs|]. cbv beta.
      intros f (i' & l' & Ei' & Hl' & Hkind) Hi.
      assert (i' = i) as -> by lia. rewrite Hl in Hl'. injection Hl' as <-.
      destruct Hkind as [[_ Hhead] | [_ Hopen]].
      * unfold result_head, is_result_line in Hhead.
        rewrite (blank_line_not_result l Hb) in Hhead. discriminate Hhead.
      * rewrite Hb in Hopen. discriminate Hopen.
    + intros st Est. rewrite (fold_lines_S _ _ _ Est).
      now apply (blank_line_fold _ _ l).
    + intros st Est. rewrite (run_lines_S _ _ _ Est).
      unfold Grouping.parse_body. rewrite Hl. cbn [deref mbind completion_bind].
      rewrite (blank_line_not_plan l Hb), (blank_line_not_result l Hb).
      unfold Grouping.output_step. rewrite Hb.
      now destruct (Grouping.currentTest st).
  - intros text i l0 l1 l2 Hl0 Hr0 Hl1 Hb Hl2 Hr2.
    set (lines := split_lines text) in *.
    assert (Hi : S (S i) < length lines) by (now apply lookup_lt_Some in Hl2).
    destruct (fold_lines_total lines i) as [st0 E0]; [lia|].
    pose proof (Hstep _ _ _ _ E0 Hl0 (or_introl Hr0)) as E1. rewrite Hr0 in E1.
    pose proof (fold_lines_S _ _ _ E1) as E2.
    rewrite (blank_line_fold _ _ l1 _ Hl1 Hb) in E2.
    pose proof (Hstep _ _ _ _ E2 Hl2 (or_introl Hr2)) as E3.
    eexists _, _. split; [exact E2|]. split; [exact E3|].
    cbn [CurrentTest.foldingRanges].
    destruct (close_current_open
                {| CurrentTest.foldingRanges := CurrentTest.close_current st0 i;
                   CurrentTest.currentTestLine := Z.of_nat i |} i (S (S i)) eq_refl)
      as [Hadd _].
    rewrite Hadd by lia. cbn [CurrentTest.foldingRanges]. do 3 f_equal. lia.
Qed.

Lemma current_test_fold_gap_rule_witness :
  exists st st',
    fold_lines (split_lines (str (nl "ok 1" (nl EmptyString "ok 2")))) 2 = Normal st /\
    fold_lines (split_lines (str (nl "ok 1" (nl EmptyString "ok 2")))) 3 = Normal st' /\
    CurrentTest.foldingRanges st'
    = CurrentTest.foldingRanges st ++ [plain_fold (Z.of_nat 0) (Z.of_nat 1)].
Proof.
  eapply (proj2 (proj2 (proj2 current_test_fold_gap_rule))
            (str (nl "ok 1" (nl EmptyString "ok 2"))) 0 (str "ok 1") [] (str "ok 2"));
    vm_compute; reflexivity.
Defined.

(** C4.  Let the line [i] of a text be [---] once trimmed.  If a later line
    is [...] once trimmed, each folding pass returns exactly one fold that
    starts at [i]: the region from [i] to the first such line.  If no later
    line is, no fold starts at [i]; the folds of both passes and the lists
    of the flat passes are those of the text with the line [i] blanked, and
    the groups of the grouping pass are those of that text but for the line
    itself, which is output of the test it follows. *)
Theorem yaml_block_fold text i l :
  split_lines text !! i = Some l -> trim l = str "---" ->
  exists fs fs',
    CurrentTest.provideFoldingRanges text = Normal fs /\
    Legacy.provideFoldingRanges text = Normal fs' /\
    (forall j0, i < j0 -> closes (split_lines text) j0 ->
       exists j, first_close (split_lines text) i j /\ j <= j0 /\
         List.filter (starts_at i) fs = [region i j] /\
         List.filter (starts_at i) fs' = [region i j]) /\
    ((forall j, i < j -> ~ closes (split_lines text) j) ->
       List.filter (starts_at i) fs = [] /\ List.filter (starts_at i) fs' = [] /\
       split_lines (blanked i text) = <[i := []]> (split_lines text) /\
       CurrentTest.provideFoldingRanges (blanked i text) = Normal fs /\
       Legacy.provideFoldingRanges (blanked i text) = Normal fs' /\
       Flat.parseTapContent (blanked i text) = Flat.parseTapContent text /\
       Legacy.parseTapContent (blanked i text) = Legacy.parseTapContent text /\
       exists gs gs',
         Grouping.parseTapContent text = Normal gs /\
         Grouping.parseTapContent (blanked i text) = Normal gs' /\ same_groups l gs gs').
Proof.
  intros Hl Hopen.
  assert (Hi : i < length (split_lines text)) by (now apply lookup_lt_Some in Hl).
  destruct (current_provide_spec text) as (st & _ & Ep).
  destruct (legacy_provide_spec text) as (st' & _ & _ & Ep').
  destruct (current_folds_at text _ Ep) as [_ Hr].
  destruct (legacy_folds_at text _ Ep') as [_ Hr'].
  destruct (Hr i l Hl Hopen) as [_ Hin]. destruct (Hin Hi) as [Hsome Hnone].
  destruct (Hr' i l Hl Hopen) as [_ Hin']. destruct (Hin' Hi) as [Hsome' Hnone'].
  eexists _, _. split; [exact Ep|]. split; [exact Ep'|]. split.
  - intros j0 Hj0 Hc. destruct (first_close_exists _ _ _ Hj0 Hc) as (j & Hj & Hle).
    exists j. split; [exact Hj|]. split; [exact Hle|].
    split; [now apply Hsome | now apply Hsome'].
  - intros Hno. split; [now apply Hnone|]. split; [now apply Hnone'|].
    pose proof (split_lines_blanked i text) as Hlines. split; [exact Hlines|].
    split; [now rewrite (blanked_current_provide text (blanked i text) i l)|].
    split; [now rewrite (blanked_legacy_provide text (blanked i text) i l)|].
    split; [now apply (blanked_flat_parse text (blanked i text) i l)|].
    split; [now apply (blanked_legacy_parse text (blanked i text) i l)|].
    now apply (blanked_grouping text (blanked i text) i l).
Qed.

Lemma yaml_block_fold_witness :
  exists fs fs',
    CurrentTest.provideFoldingRanges (text_of ["not ok 1"; "  ---"; "  at: 3"; "  ..."]%string)
    = Normal fs /\
    Legacy.provideFoldingRanges (text_of ["not ok 1"; "  ---"; "  at: 3"; "  ..."]%string)
    = Normal fs' /\
    (forall j0,
       1 < j0 ->
       closes (split_lines (text_of ["not ok 1"; "  ---"; "  at: 3"; "  ..."]%string)) j0 ->
       exists j,
         first_close (split_lines (text_of ["not ok 1"; "  ---"; "  at: 3"; "  ..."]%string)) 1 j /\
         j <= j0 /\
         List.filter (starts_at 1) fs = [region 1 j] /\
         List.filter (starts_at 1) fs' = [region 1 j]).
Proof.
  destruct (yaml_block_fold (text_of ["not ok 1"; "  ---"; "  at: 3"; "  ..."]%string)
              1 (str "  ---")) as (fs & fs' & E & E' & Hsome & _).
  - vm_compute. reflexivity.
  - vm_compute. reflexivity.
  - exists fs, fs'. split; [exact E|]. split; [exact E'|]. exact Hsome.
Defined.
(** ** Test-plan lines *)

(** C7 fails on the line [1..2] followed by a space: trimmed, the line
    matches the pattern of the plan-stack folding, but the pattern of the
    grouping pass reads the untrimmed line and does not match, so the
    grouping pass returns no group for it, while it returns the group
    [Tests 1..2] for [1..2]. *)
Lemma plan_line_trailing_space_not_recognised :
  js_match (trim (str "1..2 ")) TRIMMED_PLAN_REGEX
  = Some {| m_index := 0; m_end := 4; m_caps := [(2, str "2"); (1, str "1")] |} /\
  js_match (str "1..2 ") TEST_PLAN_REGEX = None /\
  Grouping.parseTapContent (str "1..2 ") = Normal [] /\
  Grouping.parseTapContent (str "1..2")
  = Normal [{| name := str "Tests 1..2"; group_line := 0; tests := [] |}].
Proof. repeat split; vm_compute; reflexivity. Qed.

(** *** What each pass does with a line it takes, or does not take, for a
    test-plan line *)

(** The plan-stack folding closes the plans that are not less indented and
    pushes the line when the line, trimmed, is [N..M]; on any other line it
    leaves its stack alone and adds at most the region of a block. *)
Lemma legacy_fold_body_plan lines k l :
  lines !! k = Some l ->
  (plan_head l ->
   forall st,
     Legacy.fold_body lines k st
     = Normal
         {| Legacy.foldingRanges :=
              fst (Legacy.close_deeper k (indentation l)
                     (Legacy.stack st) (Legacy.foldingRanges st));
            Legacy.stack :=
              {| Legacy.startLine := k; Legacy.entry_indent := indentation l |}
              :: snd (Legacy.close_deeper k (indentation l)
                        (Legacy.stack st) (Legacy.foldingRanges st)) |}) /\
  (~ plan_head l ->
   forall st, exists fs,
     Legacy.fold_body lines k st
     = Normal {| Legacy.foldingRanges := Legacy.foldingRanges st ++ fs;
                 Legacy.stack := Legacy.stack st |} /\
     Forall (fun f => fr_kind f = Some Region) fs).
Proof.
  intros Hl. assert (Hk : k < length lines) by (now apply lookup_lt_Some in Hl).
  split; intros Hp st;
    destruct (legacy_fold_body_cases lines k st l Hl)
      as [(m & Hm & E) | [(Hplan & Hopen & fs & Efs & E) | (Hplan & Hopen & E)]].
  - exact E.
  - now destruct Hp.
  - now destruct Hp.
  - exfalso. apply Hp. unfold plan_head. rewrite Hm. discriminate.
  - destruct (yaml_branch_cases lines k (Legacy.foldingRanges st) Hk)
      as [(j & _ & E') | (_ & E')]; rewrite E' in Efs; injection Efs as <-.
    + exists [region k j]. split; [exact E|]. now repeat constructor.
    + exists []. rewrite app_nil_r. split; [exact E | constructor].
  - exists []. rewrite app_nil_r. split; [|constructor]. rewrite E. now destruct st.
Qed.

(** The current-test folding closes the open test and forgets it when the
    untrimmed line is [N..M] after white space; on any other line it opens
    a test, for a test-result line, or keeps the open test and adds at most
    the region of a block. *)
Lemma current_fold_body_plan lines k l :
  lines !! k = Some l ->
  (is_plan_line l = true ->
   forall st,
     CurrentTest.fold_body lines k st
     = Normal {| CurrentTest.foldingRanges := CurrentTest.close_current st k;
                 CurrentTest.currentTestLine := (-1)%Z |}) /\
  (is_plan_line l = false ->
   forall st,
     (is_result_line l = true /\
      CurrentTest.fold_body lines k st
      = Normal {| CurrentTest.foldingRanges := CurrentTest.close_current st k;
                  CurrentTest.currentTestLine := Z.of_nat k |})
     \/ (is_result_line l = false /\
         exists fs,
           CurrentTest.fold_body lines k st
           = Normal {| CurrentTest.foldingRanges := CurrentTest.foldingRanges st ++ fs;
                       CurrentTest.currentTestLine := CurrentTest.currentTestLine st |} /\
           Forall (fun f => fr_kind f = Some Region) fs)).
Proof.
  intros Hl. assert (Hk : k < length lines) by (now apply lookup_lt_Some in Hl).
  unfold is_plan_line, is_result_line.
  split; intros Hp st;
    destruct (current_fold_body_cases lines k st l Hl)
      as [(m & Hm & E) | [(Hres & m & Hm & E) | [(Hres & Hplan & Hopen & fs & Efs & E)
         | (Hres & Hplan & Hopen & E)]]].
  - rewrite (result_line_not_plan l m Hm) in Hp. discriminate Hp.
  - exact E.
  - rewrite Hplan in Hp. discriminate Hp.
  - rewrite Hplan in Hp. discriminate Hp.
  - left. rewrite Hm. now split.
  - rewrite Hm in Hp. discriminate Hp.
  - right. rewrite Hres. split; [reflexivity|].
    destruct (yaml_branch_cases lines k (CurrentTest.foldingRanges st) Hk)
      as [(j & _ & E') | (_ & E')]; rewrite E' in Efs; injection Efs as <-.
    + exists [region k j]. split; [exact E|]. now repeat constructor.
    + exists []. rewrite app_nil_r. split; [exact E | constructor].
  - right. rewrite Hres. split; [reflexivity|].
    exists []. rewrite app_nil_r. split; [|constructor]. rewrite E. now destruct st.
Qed.

(** The grouping pass seals the current group and starts the group
    [Tests N..M] when the untrimmed line is [N..M] after white space; any
    other line goes to the test-result branch or to the output branch. *)
Lemma grouping_parse_body_plan lines k l :
  lines !! k = Some l ->
  (is_plan_line l = true ->
   exists ws a b,
     l = ws ++ a ++ str ".." ++ b /\ all_in is_space ws /\ is_digits a /\ is_digits b /\
     forall st,
       Grouping.parse_body lines k st
       = Normal
           {| Grouping.store := Grouping.store st;
              Grouping.groups := Grouping.seal (Grouping.groups st) (Grouping.currentGroup st);
              Grouping.currentGroup :=
                Some {| name := str "Tests " ++ a ++ str ".." ++ b;
                        group_line := k; tests := [] |};
              Grouping.currentTest := None;
              Grouping.lastTestNumber := Number_of_Z 0 |}) /\
  (is_plan_line l = false ->
   forall st,
     Grouping.parse_body lines k st
     = match js_match l TEST_RESULT_REGEX with
       | Some testMatch => Grouping.test_step k l testMatch st
       | None => Normal (Grouping.output_step l st)
       end).
Proof.
  intros Hl.
  assert (Hl' : @lookup nat jsstring (list jsstring) _ k lines = Some l) by exact Hl.
  unfold is_plan_line. split; intros Hp.
  - destruct (js_match l TEST_PLAN_REGEX) as [m|] eqn:Hm; [|discriminate Hp].
    destruct (TEST_PLAN_REGEX_groups l m Hm) as (ws & a & b & El & Hws & Ha & Hb & H2 & H3).
    exists ws, a, b. split; [exact El|]. split; [exact Hws|]. split; [exact Ha|].
    split; [exact Hb|]. intros st.
    unfold Grouping.parse_body. rewrite Hl'. cbn [deref mbind completion_bind].
    rewrite Hm. unfold Grouping.plan_step. now rewrite H2, H3.
  - intros st. unfold Grouping.parse_body. rewrite Hl'. cbn [deref mbind completion_bind].
    destruct (js_match l TEST_PLAN_REGEX); [discriminate Hp | reflexivity].
Qed.

(** C7, with the trimming only where the code trims.  The plan-stack
    folding takes a line for a test-plan line exactly when, trimmed, it is
    [N..M], that is when it is [N..M] between two runs of white space.  The grouping pass and the current-test
    folding take it for one exactly when it is [N..M] after a run of white
    space and up to the end of the line, that is when moreover no white
    space ends the line.  A line [N..M] followed by white space is a plan
    line for the first only; the grouping pass keeps its groups on it and
    handles it as output.  Each pass is tied to its condition: the step of
    the plan-stack folding pushes the line exactly under the first, and
    the steps of the current-test folding and of the grouping pass take
    their test-plan branch exactly under the second. *)
Theorem plan_line_recognition :
  (forall l, plan_head l <-> exists a b, plan_text (trim l) a b) /\
  (forall l,
     plan_head l <->
     exists ws a b ws',
       l = ws ++ (a ++ str ".." ++ b) ++ ws' /\
       all_in is_space ws /\ is_digits a /\ is_digits b /\ all_in is_space ws') /\
  (forall l,
     is_plan_line l = true <->
     exists ws a b,
       l = ws ++ a ++ str ".." ++ b /\ all_in is_space ws /\ is_digits a /\ is_digits b) /\
  (forall l, is_plan_line l = true <-> plan_head l /\ trimEnd l = l) /\
  (forall l w,
     is_plan_line l = true -> w <> [] -> all_in is_space w ->
     plan_head (l ++ w) /\ is_plan_line (l ++ w) = false /\
     forall lines k st,
       lines !! k = Some (l ++ w) ->
       Grouping.parse_body lines k st = Normal (Grouping.output_step (l ++ w) st) /\
       Grouping.groups (Grouping.output_step (l ++ w) st) = Grouping.groups st /\
       Grouping.currentGroup (Grouping.output_step (l ++ w) st) = Grouping.currentGroup st) /\
  (forall lines k l,
     lines !! k = Some l ->
     (plan_head l ->
      forall st,
        Legacy.fold_body lines k st
        = Normal
            {| Legacy.foldingRanges :=
                 fst (Legacy.close_deeper k (indentation l)
                        (Legacy.stack st) (Legacy.foldingRanges st));
               Legacy.stack :=
                 {| Legacy.startLine := k; Legacy.entry_indent := indentation l |}
                 :: snd (Legacy.close_deeper k (indentation l)
                           (Legacy.stack st) (Legacy.foldingRanges st)) |}) /\
     (~ plan_head l ->
      forall st, exists fs,
        Legacy.fold_body lines k st
        = Normal {| Legacy.foldingRanges := Legacy.foldingRanges st ++ fs;
                    Legacy.stack := Legacy.stack st |} /\
        Forall (fun f => fr_kind f = Some Region) fs)) /\
  (forall lines k l,
     lines !! k = Some l ->
     (is_plan_line l = true ->
      forall st,
        CurrentTest.fold_body lines k st
        = Normal {| CurrentTest.foldingRanges := CurrentTest.close_current st k;
                    CurrentTest.currentTestLine := (-1)%Z |}) /\
     (is_plan_line l = false ->
      forall st,
        (is_result_line l = true /\
         CurrentTest.fold_body lines k st
         = Normal {| CurrentTest.foldingRanges := CurrentTest.close_current st k;
                     CurrentTest.currentTestLine := Z.of_nat k |})
        \/ (is_result_line l = false /\
            exists fs,
              CurrentTest.fold_body lines k st
              = Normal {| CurrentTest.foldingRanges := CurrentTest.foldingRanges st ++ fs;
                          CurrentTest.currentTestLine := CurrentTest.currentTestLine st |} /\
              Forall (fun f => fr_kind f = Some Region) fs))) /\
  (forall lines k l,
     lines !! k = Some l ->
     (is_plan_line l = true ->
      exists ws a b,
        l = ws ++ a ++ str ".." ++ b /\ all_in is_space ws /\ is_digits a /\ is_digits b /\
        forall st,
          Grouping.parse_body lines k st
          = Normal
              {| Grouping.store := Grouping.store st;
                 Grouping.groups :=
                   Grouping.seal (Grouping.groups st) (Grouping.currentGroup st);
                 Grouping.currentGroup :=
                   Some {| name := str "Tests " ++ a ++ str ".." ++ b;
                           group_line := k; tests := [] |};
                 Grouping.currentTest := None;
                 Grouping.lastTestNumber := Number_of_Z 0 |}) /\
     (is_plan_line l = false ->
      forall st,
        Grouping.parse_body lines k st
        = match js_match l TEST_RESULT_REGEX with
          | Some testMatch => Grouping.test_step k l testMatch st
          | None => Normal (Grouping.output_step l st)
          end)).
Proof.
  split; [exact plan_head_spec|]. split; [exact plan_head_frame|].
  split; [exact is_plan_line_spec|]. split; [exact is_plan_line_trimEnd|].
  split; [|split; [exact legacy_fold_body_plan|
           split; [exact current_fold_body_plan | exact grouping_parse_body_plan]]].
  intros l w Hl Hw Hsp.
  destruct (plan_line_trailing l w Hl Hw Hsp) as (Hhead & Hplan & Hres).
  split; [exact Hhead|]. split; [exact Hplan|].
  intros lines k st Hk. split.
  - assert (Hk' : @lookup nat jsstring (list jsstring) _ k lines = Some (l ++ w))
      by exact Hk.
    unfold Grouping.parse_body. rewrite Hk'. cbn [deref mbind completion_bind].
    unfold is_plan_line in Hplan. unfold is_result_line in Hres.
    destruct (js_match (l ++ w) TEST_PLAN_REGEX); [discriminate|].
    destruct (js_match (l ++ w) TEST_RESULT_REGEX); [discriminate | reflexivity].
  - unfold Grouping.output_step. destruct (Grouping.currentTest st); [|now split].
    destruct (negb (is_empty (trim (l ++ w)))); now split.
Qed.

(** The lines [1..2] and [1..2 ] of one text: every pass takes the first
    for a test-plan line, only the plan-stack folding takes the second. *)
Lemma plan_line_recognition_witness :
  (plan_head (str "1..2" ++ str " ") /\ is_plan_line (str "1..2" ++ str " ") = false /\
   forall lines k st,
     lines !! k = Some (str "1..2" ++ str " ") ->
     Grouping.parse_body lines k st
     = Normal (Grouping.output_step (str "1..2" ++ str " ") st) /\
     Grouping.groups (Grouping.output_step (str "1..2" ++ str " ") st) = Grouping.groups st /\
     Grouping.currentGroup (Grouping.output_step (str "1..2" ++ str " ") st)
     = Grouping.currentGroup st) /\
  (forall st,
     Legacy.fold_body [str "1..2"; str "1..2 "] 1 st
     = Normal
         {| Legacy.foldingRanges :=
              fst (Legacy.close_deeper 1 (indentation (str "1..2 "))
                     (Legacy.stack st) (Legacy.foldingRanges st));
            Legacy.stack :=
              {| Legacy.startLine := 1; Legacy.entry_indent := indentation (str "1..2 ") |}
              :: snd (Legacy.close_deeper 1 (indentation (str "1..2 "))
                        (Legacy.stack st) (Legacy.foldingRanges st)) |}) /\
  (forall st,
     CurrentTest.fold_body [str "1..2"; str "1..2 "] 0 st
     = Normal {| CurrentTest.foldingRanges := CurrentTest.close_current st 0;
                 CurrentTest.currentTestLine := (-1)%Z |}) /\
  (forall st,
     (is_result_line (str "1..2 ") = true /\
      CurrentTest.fold_body [str "1..2"; str "1..2 "] 1 st
      = Normal {| CurrentTest.foldingRanges := CurrentTest.close_current st 1;
                  CurrentTest.currentTestLine := Z.of_nat 1 |})
     \/ (is_result_line (str "1..2 ") = false /\
         exists fs,
           CurrentTest.fold_body [str "1..2"; str "1..2 "] 1 st
           = Normal {| CurrentTest.foldingRanges := CurrentTest.foldingRanges st ++ fs;
                       CurrentTest.currentTestLine := CurrentTest.currentTestLine st |} /\
           Forall (fun f => fr_kind f = Some Region) fs)) /\
  (forall st,
     Grouping.parse_body [str "1..2"; str "1..2 "] 1 st
     = match js_match (str "1..2 ") TEST_RESULT_REGEX with
       | Some testMatch => Grouping.test_step 1 (str "1..2 ") testMatch st
       | None => Normal (Grouping.output_step (str "1..2 ") st)
       end).
Proof.
  destruct plan_line_recognition as (_ & _ & _ & _ & Htrail & Hlegacy & Hcurrent & Hgrouping).
  split; [|split; [|split; [|split]]].
  - apply (Htrail (str "1..2") (str " ")).
    + vm_compute. reflexivity.
    + discriminate.
    + repeat constructor.
  - apply (proj1 (Hlegacy [str "1..2"; str "1..2 "] 1 (str "1..2 ") eq_refl)).
    vm_compute. discriminate.
  - apply (proj1 (Hcurrent [str "1..2"; str "1..2 "] 0 (str "1..2") eq_refl)).
    vm_compute. reflexivity.
  - apply (proj2 (Hcurrent [str "1..2"; str "1..2 "] 1 (str "1..2 ") eq_refl)).
    vm_compute. reflexivity.
  - apply (proj2 (Hgrouping [str "1..2"; str "1..2 "] 1 (str "1..2 ") eq_refl)).
    vm_compute. reflexivity.
Defined.
(* ================================================================== *)
(** * Part VI. Further properties *)
(* ================================================================== *)

(** ** The tests of the flat parsers *)

Lemma lines_where_S matches lines k :
  lines_where matches lines (S k)
  = lines_where matches lines k ++ (if matches (line_at lines k) then [k] else []).
Proof.
  unfold lines_where. rewrite seq_S, List.filter_app. cbn [List.filter plus].
  now destruct (matches (line_at lines k)).
Qed.

Lemma line_at_lookup lines i l : lines !! i = Some l -> line_at lines i = l.
Proof. unfold line_at. now intros ->. Qed.

Lemma flat_body_lines lines k ts :
  k < length lines ->
  map line ts = lines_where is_result_line lines k /\ Forall (fun t => output t = []) ts ->
  exists ts', Flat.parse_body lines k ts = Normal ts' /\
    map line ts' = lines_where is_result_line lines (S k) /\
    Forall (fun t => output t = []) ts'.
Proof.
  intros Hk [Hlines Hout]. unfold Flat.parse_body.
  destruct (lookup_lt_is_Some_2 lines k Hk) as [l Hl]. rewrite Hl.
  cbn [deref mbind completion_bind].
  rewrite lines_where_S, (line_at_lookup _ _ _ Hl). unfold is_result_line at 2.
  destruct (js_match l TEST_RESULT_REGEX) as [m|] eqn:Hm.
  - destruct (TEST_RESULT_REGEX_indent _ _ Hm) as [g1 Hg1]. rewrite Hg1.
    cbn [deref mbind completion_bind].
    destruct (describe_total k l (length g1) (strict_eq (group m 2) "ok")
                (parseInt (group m 3)) (or_default (group m 4) [])) as [t Ht].
    rewrite Ht. cbn [mbind completion_bind]. exists (ts ++ [t]). split; [reflexivity|].
    assert (Hrec : record_of k l t) by (exists m, g1; now repeat split).
    destruct (record_of_fields _ _ _ Hrec) as (Hline & _ & Ho & _).
    split.
    + now rewrite map_app, Hlines, <- Hline.
    + apply Forall_app. split; [exact Hout|]. now constructor.
  - exists ts. split; [reflexivity|]. now rewrite app_nil_r.
Qed.

Lemma legacy_body_lines lines k ts :
  k < length lines ->
  map line ts = lines_where is_dashed_result_line lines k ->
  exists ts', Legacy.parse_body lines k ts = Normal ts' /\
    map line ts' = lines_where is_dashed_result_line lines (S k).
Proof.
  intros Hk Hlines. unfold Legacy.parse_body.
  destruct (lookup_lt_is_Some_2 lines k Hk) as [l Hl]. rewrite Hl.
  cbn [deref mbind completion_bind].
  rewrite lines_where_S, (line_at_lookup _ _ _ Hl). unfold is_dashed_result_line at 2.
  destruct (js_match l DASHED_RESULT_REGEX) as [m|] eqn:Hm.
  - destruct (DASHED_RESULT_REGEX_indent _ _ Hm) as [g1 Hg1]. rewrite Hg1.
    cbn [deref mbind completion_bind]. eexists. split; [reflexivity|].
    now rewrite map_app, Hlines.
  - exists ts. split; [reflexivity|]. now rewrite app_nil_r.
Qed.

Lemma flat_lines text :
  exists ts, Flat.parseTapContent text = Normal ts /\
    map line ts
    = lines_where is_result_line (split_lines text) (length (split_lines text)).
Proof.
  destruct (for_loop_inv
              (fun k ts => map line ts = lines_where is_result_line (split_lines text) k /\
                           Forall (fun t => output t = []) ts)
              (length (split_lines text)) (Flat.parse_body (split_lines text)) [])
    as (ts & E & Hlines & _).
  - split; [reflexivity | constructor].
  - intros j t Hj. now apply flat_body_lines.
  - exists ts. now split.
Qed.

Lemma legacy_lines text :
  exists ts, Legacy.parseTapContent text = Normal ts /\
    map line ts
    = lines_where is_dashed_result_line (split_lines text) (length (split_lines text)).
Proof.
  unfold Legacy.parseTapContent. cbv zeta.
  apply (for_loop_inv
           (fun k ts => map line ts
                        = lines_where is_dashed_result_line (split_lines text) k)).
  - reflexivity.
  - intros j t Hj. now apply legacy_body_lines.
Qed.

Lemma lines_where_NoDup matches lines k : List.NoDup (lines_where matches lines k).
Proof. unfold lines_where. apply List.NoDup_filter, seq_NoDup. Qed.

(** X1.  The flat parser and the legacy parser return one test object per
    line that their pattern matches, in the order of the lines, each built
    from its line; no other line gives one. *)
Theorem flat_parsers_follow_lines text :
  (exists ts,
     Flat.parseTapContent text = Normal ts /\
     map line ts
     = lines_where is_result_line (split_lines text) (length (split_lines text)) /\
     Forall (fun t => split_lines text !! line t = Some (fullLine t) /\
                      record_of (line t) (fullLine t) t) ts) /\
  (exists ts,
     Legacy.parseTapContent text = Normal ts /\
     map line ts
     = lines_where is_dashed_result_line (split_lines text) (length (split_lines text)) /\
     Forall (fun t => split_lines text !! line t = Some (fullLine t) /\
                      legacy_record_of (line t) (fullLine t) t) ts).
Proof.
  split.
  - destruct (flat_parse_spec text) as (ts & E & Hall & _).
    destruct (flat_lines text) as (ts' & E' & Hlines).
    rewrite E in E'. injection E' as <-.
    exists ts. split; [exact E|]. split; [exact Hlines|].
    eapply Forall_impl; [exact Hall|]. intros t (_ & H). exact H.
  - destruct (legacy_parse_spec text) as (ts & E & Hall & _).
    destruct (legacy_lines text) as (ts' & E' & Hlines).
    rewrite E in E'. injection E' as <-.
    exists ts. split; [exact E|]. split; [exact Hlines|].
    eapply Forall_impl; [exact Hall|]. intros t (_ & H). exact H.
Qed.
(** ** The tests of the grouping pass *)

Section GroupingTests.
Import Grouping.

(** A property of the states of a run, by induction on the lines read. *)
Lemma run_lines_ind lines (P : nat -> pstate -> Prop) :
  P 0 initial ->
  (forall k st st',
     k < length lines -> grouping_inv lines k st -> P k st ->
     parse_body lines k st = Normal st' -> grouping_inv lines (S k) st' -> P (S k) st') ->
  forall k st, k <= length lines -> run_lines lines k = Normal st -> P k st.
Proof.
  intros H0 Hstep k st Hk E.
  destruct (for_loop_inv (fun j s => grouping_inv lines j s /\ P j s) k
              (parse_body lines) initial) as (st' & E' & _ & HP).
  - split; [|exact H0]. split; [exact refs_ok_initial|].
    split; [exact ordinals_ok_initial | apply provenance_initial].
  - intros j t Hj [Hinv HP].
    destruct (parse_body_inv lines j t) as (t' & Et & Hinv'); [lia | exact Hinv|].
    exists t'. split; [exact Et|]. split; [exact Hinv'|].
    apply (Hstep j t t'); try assumption. lia.
  - unfold run_lines in E. rewrite E in E'. now injection E' as <-.
Qed.

Lemma omap_lookup_seq {A} (h : list A) :
  omap (fun r : nat => h !! r) (seq 0 (length h)) = h.
Proof.
  induction h as [|x h IH] using rev_ind; [reflexivity|].
  rewrite length_app. cbn [length]. rewrite Nat.add_1_r, seq_S, omap_app. cbn [plus].
  cbn [omap list_omap]. rewrite list_lookup_middle by reflexivity. cbn.
  f_equal. rewrite <- IH at 2. apply list_omap_ext. apply Forall2_same_length_lookup_2.
  - reflexivity.
  - intros i a b Ha Hb. rewrite Ha in Hb. injection Hb as <-.
    apply lookup_seq in Ha as [-> Hi]. cbn. now apply lookup_app_l.
Qed.

Lemma resolve_concat h (L : list (TestGroup ref)) :
  concat (map tests (map (resolve h) L))
  = omap (fun r : nat => h !! r) (concat (map tests L)).
Proof.
  induction L as [|g L IH]; [reflexivity|].
  cbn [map concat resolve tests]. now rewrite omap_app, IH.
Qed.

(** The tests of the groups, in order, are the test objects of the store. *)
Lemma result_tests_store st :
  refs_ok st ->
  concat (map tests (map (resolve (store st)) (group_list st))) = store st.
Proof.
  intros [Hall _]. rewrite resolve_concat. unfold all_refs, group_list in *.
  rewrite Hall. apply omap_lookup_seq.
Qed.

Lemma plan_line_not_result l m :
  js_match l TEST_PLAN_REGEX = Some m -> js_match l TEST_RESULT_REGEX = None.
Proof.
  intros Hp. destruct (js_match l TEST_RESULT_REGEX) as [m'|] eqn:Hr; [|reflexivity].
  rewrite (result_line_not_plan l m' Hr) in Hp. discriminate Hp.
Qed.

Lemma output_step_erase l st :
  map erase_output (store (output_step l st)) = map erase_output (store st).
Proof.
  unfold output_step. destruct (currentTest st) as [r|]; [|reflexivity].
  destruct (negb (is_empty (trim l))); [|reflexivity]. cbn [store].
  generalize (store st). intros h. revert r.
  induction h as [|t h IH]; intros [|r]; try reflexivity.
  change (alter (push_output l) (S r) (t :: h)) with (t :: alter (push_output l) r h).
  cbn [map]. now rewrite IH.
Qed.

(** The flat parser builds, line by line, the test objects of the store. *)
Lemma run_lines_flat lines k st :
  k <= length lines -> run_lines lines k = Normal st ->
  exists ts, for_loop k 0 (Flat.parse_body lines) [] = Normal ts /\
             map erase_output (store st) = ts.
Proof.
  intros Hk Est.
  apply (run_lines_ind lines
           (fun k s => exists ts, for_loop k 0 (Flat.parse_body lines) [] = Normal ts /\
                                  map erase_output (store s) = ts)
           ltac:(now exists []) ); [|exact Hk | exact Est].
  clear k st Hk Est. intros k s s' Hk _ (ts & Ets & Hts) Es _.
  rewrite for_loop_snoc, Ets. cbn [mbind completion_bind plus].
  destruct (parse_body_cases _ _ _ _ Es)
    as (l & Hl & [(m & Hp & ->) | [(Hp & m & t & g & Hm & Hrec & Hg & ->) | (Hp & Hm & ->)]]);
    unfold Flat.parse_body; rewrite Hl; cbn [deref mbind completion_bind].
  - rewrite (plan_line_not_result l m Hp). exists ts. now split.
  - destruct Hrec as (m' & g1 & Hm' & Hg1 & Hd). rewrite Hm in Hm'. injection Hm' as <-.
    rewrite Hm, Hg1. cbn [deref mbind completion_bind]. rewrite Hd.
    cbn [mbind completion_bind]. exists (ts ++ [t]). split; [reflexivity|].
    cbn [store]. rewrite map_app, Hts. cbn [map]. do 2 f_equal.
    apply erase_output_fresh.
    assert (Hrec : record_of k l t) by (exists m, g1; now repeat split).
    now destruct (record_of_fields _ _ _ Hrec) as (_ & _ & Ho & _).
  - rewrite Hm. exists ts. split; [reflexivity|]. now rewrite output_step_erase.
Qed.

Lemma grouping_flat_tests text :
  exists gs ts,
    parseTapContent text = Normal gs /\ Flat.parseTapContent text = Normal ts /\
    map erase_output (concat (map tests gs)) = ts.
Proof.
  set (lines := split_lines text).
  destruct (run_lines_inv lines (length lines)) as (st & Est & Hrefs & _); [lia|].
  destruct (run_lines_flat lines _ st (Nat.le_refl _) Est) as (ts & Ets & Hts).
  exists (map (resolve (store st)) (group_list st)), ts.
  split; [apply parseTapContent_spec; now exists st|]. split; [exact Ets|].
  now rewrite result_tests_store.
Qed.

(** X2.  The grouping pass and the flat parser read the same tests: the
    tests of the groups, taken in order and without their output, are the
    list that the flat parser returns for the text. *)
Theorem grouping_and_flat_tests_agree text :
  exists gs ts,
    parseTapContent text = Normal gs /\ Flat.parseTapContent text = Normal ts /\
    map erase_output (concat (map tests gs)) = ts.
Proof.
  destruct (run_lines_inv (split_lines text) (length (split_lines text)))
    as (st & Est & Hrefs & _); [lia|].
  destruct (run_lines_flat _ _ st (Nat.le_refl _) Est) as (ts & Ets & Hts).
  exists (map (resolve (store st)) (group_list st)), ts.
  split; [apply parseTapContent_spec; now exists st|].
  split; [exact Ets|].
  rewrite result_tests_store by exact Hrefs. exact Hts.
Qed.

End GroupingTests.
(** ** The output of a test *)

Lemma segment_nil lines a : segment lines a a = [].
Proof. unfold segment. now rewrite Nat.sub_diag. Qed.

Lemma segment_S lines a k l :
  a <= k -> lines !! k = Some l -> segment lines a (S k) = segment lines a k ++ [l].
Proof.
  intros Ha Hl. unfold segment. replace (S k - a) with (S (k - a)) by lia.
  apply take_S_r. rewrite lookup_drop. now replace (a + (k - a)) with k by lia.
Qed.

Lemma segment_full lines a : segment lines a (length lines) = drop a lines.
Proof. unfold segment. apply take_ge. rewrite length_drop. lia. Qed.

Lemma captured_app_open xs ys :
  forallb is_other_line xs = true -> captured (xs ++ ys) = captured xs ++ captured ys.
Proof.
  induction xs as [|x xs IH]; [reflexivity|]. cbn [forallb app captured].
  intros H. apply andb_true_iff in H as [Hx Hxs]. rewrite Hx.
  destruct (negb (is_empty (trim x))); cbn [app]; now rewrite IH.
Qed.

Lemma captured_app_closed xs ys :
  forallb is_other_line xs = false -> captured (xs ++ ys) = captured xs.
Proof.
  induction xs as [|x xs IH]; [discriminate|]. cbn [forallb app captured].
  destruct (is_other_line x); [|reflexivity]. cbn [andb]. intros H.
  destruct (negb (is_empty (trim x))); now rewrite IH.
Qed.

Lemma forallb_snoc {A} (f : A -> bool) xs x :
  forallb f (xs ++ [x]) = forallb f xs && f x.
Proof. rewrite forallb_app. cbn [forallb]. now rewrite andb_true_r. Qed.

Lemma is_other_line_plan l m : js_match l TEST_PLAN_REGEX = Some m -> is_other_line l = false.
Proof. intros H. unfold is_other_line, is_plan_line. now rewrite H. Qed.

Lemma is_other_line_result l m :
  js_match l TEST_RESULT_REGEX = Some m -> is_other_line l = false.
Proof.
  intros H. unfold is_other_line, is_result_line. rewrite H. apply andb_false_r.
Qed.

Lemma is_other_line_other l :
  js_match l TEST_PLAN_REGEX = None -> js_match l TEST_RESULT_REGEX = None ->
  is_other_line l = true.
Proof. intros H1 H2. unfold is_other_line, is_plan_line, is_result_line. now rewrite H1, H2. Qed.

Section GroupingOutputs.
Import Grouping.

(** A line that is no other line closes every test. *)
Lemma outputs_ok_close lines k l (cur : option nat) (r : nat) (t : TestRecord) :
  lines !! k = Some l -> is_other_line l = false ->
  (line t < k /\ output t = captured (segment lines (S (line t)) k) /\
   (cur = Some r -> forallb is_other_line (segment lines (S (line t)) k) = true) /\
   (cur <> Some r -> forallb is_other_line (segment lines (S (line t)) k) = false)) ->
  line t < S k /\ output t = captured (segment lines (S (line t)) (S k)) /\
  forallb is_other_line (segment lines (S (line t)) (S k)) = false.
Proof.
  intros Hl Hno (Hlt & Hout & Hcur & Hncur).
  rewrite (segment_S _ _ _ l) by (lia || exact Hl). rewrite forallb_snoc, Hno, andb_false_r.
  split; [lia|]. split; [|reflexivity].
  destruct (decide (cur = Some r)) as [E|E].
  - rewrite captured_app_open by (now apply Hcur). cbn [captured]. rewrite Hno.
    now rewrite app_nil_r.
  - now rewrite captured_app_closed by (now apply Hncur).
Qed.

Lemma outputs_ok_step lines k st st' :
  k < length lines -> grouping_inv lines k st -> outputs_ok lines k st ->
  parse_body lines k st = Normal st' -> outputs_ok lines (S k) st'.
Proof.
  intros Hk (Hrefs & _) Hok E.
  destruct (parse_body_cases _ _ _ _ E)
    as (l & Hl & [(m & Hp & ->) | [(Hp & m & t0 & g & Hm & Hrec & Hg & ->) | (Hp & Hm & ->)]]).
  - intros r t Ht. cbn [plan_step store currentTest] in *.
    destruct (outputs_ok_close lines k l (currentTest st) r t Hl
                (is_other_line_plan l m Hp) (Hok r t Ht)) as (H1 & H2 & H3).
    split; [exact H1|]. split; [exact H2|]. split; [discriminate | now intros _].
  - intros r t Ht. cbn [store currentTest] in *.
    destruct (decide (r < length (store st))) as [Hr|Hr].
    + rewrite lookup_app_l in Ht by exact Hr.
      destruct (outputs_ok_close lines k l (currentTest st) r t Hl
                  (is_other_line_result l m Hm) (Hok r t Ht)) as (H1 & H2 & H3).
      split; [exact H1|]. split; [exact H2|].
      split; [intros [= Hc]; lia | now intros _].
    + assert (Hlen : r = length (store st)).
      { apply lookup_lt_Some in Ht. rewrite length_app in Ht. cbn in Ht. lia. }
      subst r. rewrite list_lookup_middle in Ht by reflexivity. injection Ht as <-.
      destruct (record_of_fields _ _ _ Hrec) as (Hline & _ & Hout & _).
      rewrite Hline, segment_nil, Hout. split; [lia|]. split; [reflexivity|].
      split; [reflexivity | congruence].
  - assert (Hother := is_other_line_other l Hp Hm).
    unfold output_step. destruct (currentTest st) as [r0|] eqn:Hcur.
    + assert (Hstep : forall r t,
                store st !! r = Some t ->
                line t < S k /\
                (r = r0 ->
                 captured (segment lines (S (line t)) (S k))
                 = output t ++ (if negb (is_empty (trim l)) then [l] else [])) /\
                (r <> r0 -> output t = captured (segment lines (S (line t)) (S k))) /\
                (r = r0 -> forallb is_other_line (segment lines (S (line t)) (S k)) = true) /\
                (r <> r0 -> forallb is_other_line (segment lines (S (line t)) (S k)) = false)).
      { intros r t Ht. destruct (Hok r t Ht) as (Hlt & Hout & Hc & Hnc).
        rewrite (segment_S _ _ _ l) by (lia || exact Hl).
        rewrite forallb_snoc, Hother, andb_true_r.
        split; [lia|]. split; [|split; [|split]].
        - intros ->. rewrite captured_app_open by (now apply Hc). cbn [captured].
          now rewrite Hother, Hout.
        - intros Hne. rewrite captured_app_closed; [exact Hout|]. apply Hnc. congruence.
        - intros ->. now apply Hc.
        - intros Hne. apply Hnc. congruence. }
      destruct (negb (is_empty (trim l))) eqn:Hblank.
      * intros r t Ht. cbn [store currentTest] in *.
        destruct (decide (r = r0)) as [->|Hne].
        -- rewrite list_lookup_alter_eq in Ht.
           apply fmap_Some in Ht as (t1 & Ht1 & ->). cbn [push_output line output].
           destruct (Hstep r0 t1 Ht1) as (H1 & H2 & _ & H4 & _).
           split; [exact H1|]. split; [now rewrite H2|].
           split; [intros _; now apply H4 | intros Hc; congruence].
        -- rewrite list_lookup_alter_ne in Ht by congruence.
           destruct (Hstep r t Ht) as (H1 & _ & H3 & _ & H5).
           split; [exact H1|]. split; [now apply H3|].
           split; [intros [= ?]; congruence | intros _; now apply H5].
      * intros r t Ht. rewrite Hcur.
        destruct (Hstep r t Ht) as (H1 & H2 & H3 & H4 & H5).
        split; [exact H1|]. split.
        { destruct (decide (r = r0)) as [->|Hne]; [|now apply H3].
          rewrite H2 by reflexivity. now rewrite app_nil_r. }
        split; [intros [= ->]; now apply H4 | intros Hne; apply H5; congruence].
    + intros r t Ht. rewrite Hcur.
      destruct (Hok r t Ht) as (Hlt & Hout & _ & Hnc).
      rewrite (segment_S _ _ _ l) by (lia || exact Hl).
      rewrite forallb_snoc, Hnc by congruence.
      split; [lia|]. split; [|split; [discriminate | reflexivity]].
      now rewrite captured_app_closed by (apply Hnc; congruence).
Qed.

Lemma run_lines_outputs lines k st :
  k <= length lines -> run_lines lines k = Normal st -> outputs_ok lines k st.
Proof.
  apply (run_lines_ind lines (outputs_ok lines)).
  - intros r t Ht. discriminate Ht.
  - intros j s s' Hj Hinv Hok E _. now apply (outputs_ok_step lines j s).
Qed.

(** X3.  The output of a test in the result of the grouping pass is the
    list, in order, of the lines after its own that are not blank once
    trimmed, up to the next test-plan or test-result line or the end of
    the text. *)
Theorem output_is_what_follows text gs g t :
  parseTapContent text = Normal gs -> In g gs -> In t (tests g) ->
  output t = captured (drop (S (line t)) (split_lines text)).
Proof.
  intros Hp Hg Ht. apply parseTapContent_spec in Hp as (st & Est & ->).
  destruct (In_resolve _ _ _ _ Hg Ht) as (g0 & r & _ & _ & Hr & _).
  destruct (run_lines_outputs _ _ _ (Nat.le_refl _) Est r t Hr) as (_ & Hout & _).
  now rewrite segment_full in Hout.
Qed.

Lemma output_is_what_follows_witness :
  exists gs g t,
    parseTapContent (text_of ["not ok 1"; "  at line 3"; " "; "# note"; "ok 2"; "x"]%string)
    = Normal gs /\
    In g gs /\ In t (tests g) /\
    output t = [str "  at line 3"; str "# note"] /\
    output t
    = captured (drop (S (line t))
        (split_lines
           (text_of ["not ok 1"; "  at line 3"; " "; "# note"; "ok 2"; "x"]%string))).
Proof.
  eexists _, _, _. split; [vm_compute; reflexivity|].
  split; [left; reflexivity|]. split; [left; reflexivity|]. split; [reflexivity|].
  eapply (output_is_what_follows
            (text_of ["not ok 1"; "  at line 3"; " "; "# note"; "ok 2"; "x"]%string)).
  - vm_compute. reflexivity.
  - left. reflexivity.
  - left. reflexivity.
Defined.

End GroupingOutputs.
(** ** The groups of the grouping pass *)

Section GroupShapes.
Import Grouping.

Lemma StronglySorted_snoc {A} (R : A -> A -> Prop) l x :
  StronglySorted R l -> Forall (fun y => R y x) l -> StronglySorted R (l ++ [x]).
Proof.
  induction 1 as [|a l Hl IH Ha]; intros Hx; cbn [app].
  - repeat constructor.
  - inversion Hx as [|? ? Hax Hlx]; subst. constructor; [now apply IH|].
    apply Forall_app. split; [exact Ha | now constructor].
Qed.

Lemma test_lines_extend h t refs :
  Forall (fun r => r < length h) refs -> test_lines (h ++ [t]) refs = test_lines h refs.
Proof. intros H. unfold test_lines. now rewrite omap_lookup_extend. Qed.

Lemma test_lines_snoc h t refs :
  Forall (fun r => r < length h) refs ->
  test_lines (h ++ [t]) (refs ++ [length h]) = test_lines h refs ++ [line t].
Proof.
  intros H. unfold test_lines. rewrite omap_app, map_app, omap_lookup_extend by exact H.
  f_equal. cbn [omap list_omap]. now rewrite list_lookup_middle.
Qed.

Lemma test_lines_alter f r h refs :
  (forall x, line (f x) = line x) -> test_lines (alter f r h) refs = test_lines h refs.
Proof.
  intros Hf. unfold test_lines. induction refs as [|r' refs IH]; [reflexivity|].
  cbn [omap list_omap]. destruct (decide (r = r')) as [->|Hne].
  - rewrite list_lookup_alter_eq. destruct (h !! r') as [x|]; simpl; [|exact IH].
    now rewrite Hf, IH.
  - rewrite list_lookup_alter_ne by exact Hne.
    destruct (h !! r'); simpl; [now rewrite IH | exact IH].
Qed.

Lemma group_list_plan k m st :
  group_list (plan_step k m st)
  = group_list st
      ++ [{| name := str "Tests " ++ template_of (group m 2)
                       ++ str ".." ++ template_of (group m 3);
             group_line := k; tests := [] |}].
Proof. reflexivity. Qed.

Lemma group_shape_later lines n gname gline tl k :
  gline < k -> group_shape lines n gname gline tl ->
  group_shape lines n gname gline (tl ++ [k]).
Proof.
  intros Hk [(ws & a & b & Hl & Hws & Ha & Hb & Hn & Hall) | (rest & -> & Hrest)].
  - left. exists ws, a, b. split; [exact Hl|]. split; [exact Hws|]. split; [exact Ha|].
    split; [exact Hb|]. split; [exact Hn|]. apply Forall_app. split; [exact Hall|].
    now constructor.
  - right. now exists (rest ++ [k]).
Qed.

Lemma groups_ok_step lines k st st' :
  k < length lines -> grouping_inv lines k st -> groups_ok lines k st ->
  parse_body lines k st = Normal st' -> groups_ok lines (S k) st'.
Proof.
  intros Hk (Hrefs & _) (Hnone & Hlt & Hsorted & Hshape) E.
  assert (Hlt' : Forall (fun g => group_line g < S k) (group_list st)).
  { eapply Forall_impl; [exact Hlt|]. intros g Hg. cbv beta in *. lia. }
  destruct (parse_body_cases _ _ _ _ E)
    as (l & Hl & [(m & Hp & ->) | [(Hp & m & t0 & g & Hm & Hrec & Hg & ->) | (Hp & Hm & ->)]]).
  - (* a plan line *)
    split; [discriminate|]. rewrite group_list_plan.
    split; [apply Forall_app; split; [exact Hlt' | constructor; [cbn; lia | constructor]]|].
    split.
    { rewrite map_app. apply StronglySorted_snoc; [exact Hsorted|].
      apply Forall_map. exact Hlt. }
    intros n g Hn. cbn [plan_step store].
    destruct (decide (n < length (group_list st))) as [Hlen|Hlen].
    + rewrite lookup_app_l in Hn by exact Hlen. now apply Hshape.
    + apply lookup_app_Some in Hn as [Hn | [_ Hn]];
        [apply lookup_lt_Some in Hn; lia|].
      apply list_lookup_singleton_Some in Hn as [_ <-]. cbn [name group_line tests].
      destruct (TEST_PLAN_REGEX_groups l m Hp) as (ws & a & b & -> & Hws & Ha & Hb & H2 & H3).
      left. exists ws, a, b. rewrite H2, H3. cbn [template_of].
      split; [exact Hl|]. split; [exact Hws|]. split; [exact Ha|]. split; [exact Hb|].
      split; [reflexivity | constructor].
  - (* a test-result line *)
    destruct (record_of_fields _ _ _ Hrec) as (Hline & _).
    assert (Hres : is_result_line (line_at lines k) = true).
    { rewrite (line_at_lookup _ _ _ Hl). unfold is_result_line. now rewrite Hm. }
    assert (Hold : forall n g0, group_list st !! n = Some g0 ->
              test_lines (store st ++ [t0]) (tests g0) = test_lines (store st) (tests g0)).
    { intros n g0 Hn. apply test_lines_extend. apply (refs_bound st g0 Hrefs).
      apply list_elem_of_In. now apply list_elem_of_lookup_2 in Hn. }
    destruct (prepare_cases k (parseInt (group m 3)) st)
      as (_ & _ & _ & [(_ & Hhas & Hgr & Hcg) | (_ & Hgr & [(c & Hc & Hcg) | (Hc & Hcg)])]);
      rewrite Hcg in Hg; injection Hg as <-; unfold groups_ok, group_list;
      cbn [groups currentGroup store seal name group_line tests]; rewrite Hgr.
    + (* the number resets *)
      fold (group_list st).
      split; [discriminate|].
      split; [apply Forall_app; split; [exact Hlt' | constructor; [cbn; lia | constructor]]|].
      split.
      { rewrite map_app. apply StronglySorted_snoc; [exact Hsorted|].
        apply Forall_map. exact Hlt. }
      intros n g Hn.
      destruct (decide (n < length (group_list st))) as [Hlen|Hlen].
      * rewrite lookup_app_l in Hn by exact Hlen. rewrite (Hold n g Hn). now apply Hshape.
      * apply lookup_app_Some in Hn as [Hn | [Hge Hn]];
          [apply lookup_lt_Some in Hn; lia|].
        apply list_lookup_singleton_Some in Hn as [Hn0 <-]. cbn [name group_line tests].
        assert (n = length (group_list st)) as -> by lia.
        right. exists []. unfold test_lines. cbn [omap list_omap app].
        rewrite list_lookup_middle by reflexivity. cbn [map]. rewrite Hline.
        split; [reflexivity|]. split; [exact Hres|]. right.
        split; [|reflexivity]. unfold group_list.
        destruct (currentGroup st); [|discriminate Hhas].
        cbn [seal]. rewrite length_app. cbn. lia.
    + (* the current group goes on *)
      assert (Hgl : group_list st = groups st ++ [c])
        by (unfold group_list; now rewrite Hc).
      rewrite Hgl in *.
      split; [discriminate|].
      split.
      { apply Forall_app in Hlt' as [H1 H2]. apply Forall_app. split; [exact H1|].
        inversion H2; subst. now constructor. }
      split.
      { rewrite map_app in *. exact Hsorted. }
      intros n g Hn.
      destruct (decide (n < length (groups st))) as [Hlen|Hlen].
      * rewrite lookup_app_l in Hn by exact Hlen.
        assert (Hn' : (groups st ++ [c]) !! n = Some g) by (now rewrite lookup_app_l).
        rewrite (Hold n g Hn'). now apply Hshape.
      * apply lookup_app_Some in Hn as [Hn | [Hge Hn]];
          [apply lookup_lt_Some in Hn; lia|].
        apply list_lookup_singleton_Some in Hn as [Hn0 <-]. cbn [name group_line tests].
        assert (n = length (groups st)) as -> by lia.
        assert (Hc' : (groups st ++ [c]) !! length (groups st) = Some c)
          by (now rewrite list_lookup_middle).
        rewrite test_lines_snoc, Hline.
        -- apply group_shape_later; [|now apply Hshape].
           apply Forall_app in Hlt as [_ H2]. now inversion H2.
        -- apply (refs_bound st c Hrefs). rewrite Hc. cbn [seal]. apply in_or_app.
           right. now left.
    + (* the first group *)
      rewrite (Hnone Hc). cbn [app].
      split; [discriminate|].
      split; [constructor; [cbn; lia | constructor]|].
      split; [repeat constructor|].
      intros n g Hn. apply list_lookup_singleton_Some in Hn as [-> <-].
      cbn [name group_line tests]. right. exists []. unfold test_lines.
      cbn [omap list_omap app]. rewrite list_lookup_middle by reflexivity. cbn [map].
      rewrite Hline. split; [reflexivity|]. split; [exact Hres|]. left. now split.
  - (* another line *)
    destruct (output_step_alike l st) as (Hg & Hc & _).
    unfold groups_ok, group_list. rewrite Hg, Hc. fold (group_list st).
    split; [exact Hnone|]. split; [exact Hlt'|]. split; [exact Hsorted|].
    intros n g Hn. specialize (Hshape n g Hn).
    unfold output_step. destruct (currentTest st) as [r|]; [|exact Hshape].
    destruct (negb (is_empty (trim l))); [|exact Hshape]. cbn [store].
    now rewrite test_lines_alter.
Qed.

Lemma run_lines_groups lines k st :
  k <= length lines -> run_lines lines k = Normal st -> groups_ok lines k st.
Proof.
  apply (run_lines_ind lines (groups_ok lines)).
  - split; [reflexivity|]. split; [constructor|]. split; [constructor|].
    intros n g Hn. discriminate Hn.
  - intros j s s' Hj Hinv Hok E _. now apply (groups_ok_step lines j s).
Qed.

(** X4.  The groups that the grouping pass returns are in the order of
    their lines, which differ.  A group is either started by a test-plan
    line, named [Tests N..M] from it and holding only tests of later lines,
    or started by a test-result line, which gives its first test; the
    latter is named [Tests] when it is the first group of the result and
    [Tests (group n)] when it is the [n]-th. *)
Theorem groups_follow_lines_and_names text :
  exists gs,
    parseTapContent text = Normal gs /\
    StronglySorted lt (map group_line gs) /\
    forall n g, gs !! n = Some g ->
      group_shape (split_lines text) n (name g) (group_line g) (map line (tests g)).
Proof.
  set (lines := split_lines text).
  destruct (run_lines_inv lines (length lines)) as (st & Est & _); [lia|].
  destruct (run_lines_groups lines _ st (Nat.le_refl _) Est) as (_ & _ & Hsorted & Hshape).
  exists (map (resolve (store st)) (group_list st)).
  split; [apply parseTapContent_spec; now exists st|]. split.
  - rewrite map_map. cbn [resolve group_line]. exact Hsorted.
  - intros n g Hn. rewrite list_lookup_fmap in Hn.
    apply fmap_Some in Hn as (g0 & Hg0 & ->). cbn [resolve name group_line tests].
    now apply Hshape.
Qed.

End GroupShapes.
(** ** The folds *)

Lemma fold_in_bounds_region n i j : i < j -> j < n -> fold_in_bounds n (region i j).
Proof. intros Hij Hj. unfold fold_in_bounds, region. cbn [fr_start fr_end]. lia. Qed.

Lemma fold_in_bounds_plain n c i :
  c + 1 < i -> i <= n -> fold_in_bounds n (plain_fold (Z.of_nat c) (Z.of_nat i - 1)).
Proof. intros Hc Hi. unfold fold_in_bounds, plain_fold. cbn [fr_start fr_end]. lia. Qed.

Lemma yaml_branch_bounds lines k fs fs' :
  k < length lines -> yaml_branch lines k fs = Normal fs' ->
  Forall (fold_in_bounds (length lines)) fs -> Forall (fold_in_bounds (length lines)) fs'.
Proof.
  intros Hk E H.
  destruct (yaml_branch_cases lines k fs Hk) as [(j & (Hkj & Hc & _) & E') | (_ & E')];
    rewrite E' in E; injection E as <-; [|exact H].
  apply Forall_app. split; [exact H|]. constructor; [|constructor].
  apply fold_in_bounds_region; [exact Hkj | now apply closes_lt].
Qed.

Lemma close_current_bounds n st i :
  i <= n -> Forall (fold_in_bounds n) (CurrentTest.foldingRanges st) ->
  Forall (fold_in_bounds n) (CurrentTest.close_current st i).
Proof.
  intros Hi H.
  destruct (close_current_cases st i) as [(c & Ec & Hc & ->) | (_ & ->)]; [|exact H].
  apply Forall_app. split; [exact H|]. constructor; [|constructor].
  now apply fold_in_bounds_plain.
Qed.

Lemma close_deeper_bounds n i ind stack fs :
  i < n -> Forall (fold_in_bounds n) fs ->
  Forall (fold_in_bounds n) (fst (Legacy.close_deeper i ind stack fs)).
Proof.
  intros Hi. revert fs. induction stack as [|e stack IH]; intros fs H; [exact H|].
  cbn [Legacy.close_deeper]. destruct (Nat.leb ind (Legacy.entry_indent e)); [|exact H].
  apply IH. destruct (Z.ltb_spec (Z.of_nat (Legacy.startLine e)) (Z.of_nat i - 1)) as [Hlt|];
    [|exact H].
  apply Forall_app. split; [exact H|]. constructor; [|constructor].
  apply fold_in_bounds_plain; lia.
Qed.

Lemma close_remaining_bounds n stack fs :
  Forall (fold_in_bounds n) fs ->
  Forall (fold_in_bounds n) (Legacy.close_remaining n stack fs).
Proof.
  revert fs. induction stack as [|e stack IH]; intros fs H; [exact H|].
  cbn [Legacy.close_remaining]. apply IH.
  destruct (Z.ltb_spec (Z.of_nat (Legacy.startLine e)) (Z.of_nat n - 1)) as [Hlt|];
    [|exact H].
  apply Forall_app. split; [exact H|]. constructor; [|constructor].
  apply fold_in_bounds_plain; lia.
Qed.

(** X5.  Every fold that the current-test folding or the plan-stack
    folding returns starts at a line of the text, ends at a later line of
    the text, and so spans two lines at least. *)
Theorem folds_are_in_bounds text :
  exists fs fs',
    CurrentTest.provideFoldingRanges text = Normal fs /\
    Legacy.provideFoldingRanges text = Normal fs' /\
    Forall (fold_in_bounds (length (split_lines text))) fs /\
    Forall (fold_in_bounds (length (split_lines text))) fs'.
Proof.
  set (lines := split_lines text). set (n := length lines).
  destruct (for_loop_inv
              (fun _ st => Forall (fold_in_bounds n) (CurrentTest.foldingRanges st))
              n (CurrentTest.fold_body lines)
              {| CurrentTest.foldingRanges := []; CurrentTest.currentTestLine := (-1)%Z |})
    as (st & E & H).
  { constructor. }
  { intros k s Hk Hs. destruct (lookup_lt_is_Some_2 lines k Hk) as [l Hl].
    destruct (current_fold_body_cases lines k s l Hl)
      as [(m & Hm & ->) | [(Hres & m & Hm & ->) | [(Hres & Hplan & Hopen & fs & Efs & ->)
         | (Hres & Hplan & Hopen & ->)]]];
      (eexists; split; [reflexivity|]); cbn [CurrentTest.foldingRanges].
    - apply close_current_bounds; [lia | exact Hs].
    - apply close_current_bounds; [lia | exact Hs].
    - now apply (yaml_branch_bounds lines k (CurrentTest.foldingRanges s)).
    - exact Hs. }
  destruct (for_loop_inv
              (fun _ st => Forall (fold_in_bounds n) (Legacy.foldingRanges st))
              n (Legacy.fold_body lines)
              {| Legacy.foldingRanges := []; Legacy.stack := [] |})
    as (st' & E' & H').
  { constructor. }
  { intros k s Hk Hs. destruct (lookup_lt_is_Some_2 lines k Hk) as [l Hl].
    destruct (legacy_fold_body_cases lines k s l Hl)
      as [(m & Hm & ->) | [(Hplan & Hopen & fs & Efs & ->) | (Hplan & Hopen & ->)]];
      (eexists; split; [reflexivity|]); cbn [Legacy.foldingRanges].
    - now apply close_deeper_bounds.
    - now apply (yaml_branch_bounds lines k (Legacy.foldingRanges s)).
    - exact Hs. }
  exists (CurrentTest.close_current st n),
         (Legacy.close_remaining n (Legacy.stack st') (Legacy.foldingRanges st')).
  split; [unfold CurrentTest.provideFoldingRanges; cbv zeta; fold lines; fold n;
          now rewrite E|].
  split; [unfold Legacy.provideFoldingRanges; cbv zeta; fold lines; fold n;
          now rewrite E'|].
  split; [now apply close_current_bounds | now apply close_remaining_bounds].
Qed.
(** ** What the folds of the current-test folding hide *)

Lemma is_other_line_blank : is_other_line [] = true.
Proof. vm_compute. reflexivity. Qed.

Lemma not_other_in_text lines j :
  is_other_line (line_at lines j) = false -> j < length lines.
Proof.
  intros H. destruct (lines !! j) as [l|] eqn:Hl; [now apply lookup_lt_Some in Hl|].
  unfold line_at in H. rewrite Hl in H. now rewrite is_other_line_blank in H.
Qed.

Lemma result_not_other l : is_result_line l = true -> is_other_line l = false.
Proof. intros H. unfold is_other_line. rewrite H. apply andb_false_r. Qed.

Lemma other_not_result l : is_other_line l = true -> is_result_line l = false.
Proof.
  unfold is_other_line. intros H. apply andb_true_iff in H as [_ H].
  now apply negb_true_iff in H.
Qed.

Lemma hides_upto_mono lines k c e :
  hides_upto lines k c e -> hides_upto lines (S k) c e.
Proof. intros (H1 & H2 & H3). split; [exact H1|]. split; [lia | exact H3]. Qed.

(** The test-result line that only other lines follow up to the line [k]
    is the open test line. *)
Lemma open_test_unique lines k c c0 :
  c < k -> c0 < k ->
  is_result_line (line_at lines c) = true -> is_result_line (line_at lines c0) = true ->
  (forall j, c < j < k -> is_other_line (line_at lines j) = true) ->
  (forall j, c0 < j < k -> is_other_line (line_at lines j) = true) ->
  c = c0.
Proof.
  intros Hc Hc0 Hres Hres0 Hoth Hoth0.
  destruct (Nat.lt_trichotomy c c0) as [Hlt | [-> | Hgt]]; [|reflexivity|].
  - pose proof (result_not_other _ Hres0) as Hx. rewrite Hoth in Hx by lia. discriminate.
  - pose proof (result_not_other _ Hres) as Hx. rewrite Hoth0 in Hx by lia. discriminate.
Qed.

Lemma plain_fold_pred c k :
  0 < k -> plain_fold (Z.of_nat c) (Z.of_nat k - 1) = plain_fold (Z.of_nat c) (Z.of_nat (k - 1)).
Proof. intros Hk. f_equal. lia. Qed.

(** The folds once the open test is closed at the line [k]. *)
Lemma extent_close lines k st :
  extent_inv lines k st ->
  (forall f, In f (CurrentTest.close_current st k) -> fr_kind f = None ->
     exists c e, f = plain_fold (Z.of_nat c) (Z.of_nat e) /\
       c < e /\ S e <= k /\
       is_result_line (line_at lines c) = true /\
       (forall j, c < j <= e -> is_other_line (line_at lines j) = true) /\
       (S e < k -> is_other_line (line_at lines (S e)) = false)) /\
  (forall c e, c < e -> S e = k -> is_result_line (line_at lines c) = true ->
     (forall j, c < j <= e -> is_other_line (line_at lines j) = true) ->
     In (plain_fold (Z.of_nat c) (Z.of_nat e)) (CurrentTest.close_current st k)) /\
  (forall c e, hides_upto lines k c e ->
     In (plain_fold (Z.of_nat c) (Z.of_nat e)) (CurrentTest.close_current st k)).
Proof.
  intros (Hsound & Hcomplete & Hcur).
  assert (Hold : forall f, In f (CurrentTest.foldingRanges st) -> fr_kind f = None ->
            exists c e, f = plain_fold (Z.of_nat c) (Z.of_nat e) /\
              c < e /\ S e <= k /\
              is_result_line (line_at lines c) = true /\
              (forall j, c < j <= e -> is_other_line (line_at lines j) = true) /\
              (S e < k -> is_other_line (line_at lines (S e)) = false)).
  { intros f Hf Hk. destruct (Hsound f Hf Hk) as (c & e & -> & H1 & H2 & H3 & H4 & H5).
    exists c, e. split; [reflexivity|]. split; [exact H1|]. split; [lia|].
    split; [exact H3|]. split; [exact H4 | now intros _]. }
  destruct Hcur as [[Hc Hq] | (c0 & Hc0 & Hc & Hres0 & Hoth0)].
  - rewrite !close_current_none by exact Hc.
    split; [exact Hold|]. split; [|exact Hcomplete].
    intros c e Hce He Hres Hoth. exfalso.
    destruct (Hq c ltac:(lia) Hres) as (j & Hj & Hno).
    rewrite Hoth in Hno by lia. discriminate.
  - destruct (close_current_open st c0 k Hc) as [Hadd Hsame].
    split; [|split].
    + destruct (decide (c0 + 1 < k)) as [Hgap|Hgap].
      * rewrite Hadd by exact Hgap. intros f Hf Hk.
        apply in_app_or in Hf as [Hf | [<- | []]]; [now apply Hold|].
        exists c0, (k - 1). split; [apply plain_fold_pred; lia|].
        split; [lia|]. split; [lia|]. split; [exact Hres0|].
        split; [intros j Hj; apply Hoth0; lia|].
        intros Hlt. lia.
      * rewrite Hsame by exact Hgap. exact Hold.
    + intros c e Hce He Hres Hoth.
      assert (c = c0) as ->.
      { apply (open_test_unique lines k); try assumption; try lia.
        intros j Hj. apply Hoth. lia. }
      rewrite Hadd by lia. apply in_or_app. right. left.
      rewrite plain_fold_pred by lia. f_equal. lia.
    + intros c e Hh. specialize (Hcomplete c e Hh).
      destruct (decide (c0 + 1 < k)) as [Hgap|Hgap].
      * rewrite Hadd by exact Hgap. apply in_or_app. now left.
      * now rewrite Hsame by exact Hgap.
Qed.

Lemma extent_step lines k st st' :
  k < length lines -> extent_inv lines k st ->
  CurrentTest.fold_body lines k st = Normal st' -> extent_inv lines (S k) st'.
Proof.
  intros Hk Hinv E. destruct (lookup_lt_is_Some_2 lines k Hk) as [l Hl].
  assert (Hat := line_at_lookup _ _ _ Hl).
  assert (Hrecognised : is_other_line l = false ->
            (forall f, In f (CurrentTest.close_current st k) -> fr_kind f = None ->
               exists c e, f = plain_fold (Z.of_nat c) (Z.of_nat e) /\
                           hides_upto lines (S k) c e) /\
            (forall c e, hides_upto lines (S k) c e ->
               In (plain_fold (Z.of_nat c) (Z.of_nat e)) (CurrentTest.close_current st k))).
  { intros Hno.
    destruct (extent_close lines k st Hinv) as (Hs & Hnew & Hc).
    split.
    - intros f Hf Hkind.
      destruct (Hs f Hf Hkind) as (c & e & -> & H1 & H2 & H4 & H5 & H6).
      exists c, e. split; [reflexivity|]. split; [exact H1|]. split; [lia|].
      split; [exact H4|]. split; [exact H5|].
      destruct (decide (S e < k)) as [Hlt|Hge]; [now apply H6|].
      assert (S e = k) as -> by lia. now rewrite Hat.
    - intros c e Hh. destruct (decide (S e < k)) as [Hlt|Hge].
      + apply Hc. destruct Hh as (H1 & _ & H3 & H4 & H5). now repeat split.
      + destruct Hh as (H1 & H2 & H3 & H4 & _). apply Hnew; try assumption. lia. }
  assert (Hkeep : is_other_line l = true ->
            (forall f, In f (CurrentTest.foldingRanges st) -> fr_kind f = None ->
               exists c e, f = plain_fold (Z.of_nat c) (Z.of_nat e) /\
                           hides_upto lines (S k) c e) /\
            (forall c e, hides_upto lines (S k) c e ->
               In (plain_fold (Z.of_nat c) (Z.of_nat e)) (CurrentTest.foldingRanges st)) /\
            ((CurrentTest.currentTestLine st = (-1)%Z /\
              forall c, c < S k -> is_result_line (line_at lines c) = true ->
                exists j, c < j < S k /\ is_other_line (line_at lines j) = false)
             \/ exists c0, c0 < S k /\ CurrentTest.currentTestLine st = Z.of_nat c0 /\
                  is_result_line (line_at lines c0) = true /\
                  forall j, c0 < j < S k -> is_other_line (line_at lines j) = true)).
  { intros Hoth. destruct Hinv as (Hsound & Hcomplete & Hcur). split; [|split].
    - intros f Hf Hkind. destruct (Hsound f Hf Hkind) as (c & e & -> & Hh).
      exists c, e. split; [reflexivity | now apply hides_upto_mono].
    - intros c e (H1 & H2 & H3 & H4 & H5). apply Hcomplete.
      split; [exact H1|]. split; [|now repeat split].
      destruct (decide (S e < k)) as [Hlt|Hge]; [exact Hlt|].
      assert (S e = k) as He by lia. rewrite He, Hat, Hoth in H5. discriminate.
    - destruct Hcur as [[Hc Hq] | (c0 & Hc0 & Hc & Hres0 & Hoth0)].
      + left. split; [exact Hc|]. intros c Hck Hres.
        destruct (decide (c = k)) as [->|Hne].
        * rewrite Hat, (other_not_result l Hoth) in Hres. discriminate.
        * destruct (Hq c ltac:(lia) Hres) as (j & Hj & Hno). exists j. split; [lia | exact Hno].
      + right. exists c0. split; [lia|]. split; [exact Hc|]. split; [exact Hres0|].
        intros j Hj. destruct (decide (j = k)) as [->|Hne]; [now rewrite Hat|].
        apply Hoth0. lia. }
  destruct (current_fold_body_cases lines k st l Hl)
    as [(m & Hm & E') | [(Hres & m & Hm & E') | [(Hres & Hplan & Hopen & fs & Efs & E')
       | (Hres & Hplan & Hopen & E')]]];
    rewrite E' in E; injection E as <-.
  - destruct (Hrecognised (is_other_line_result l m Hm)) as [Hs Hc].
    split; [exact Hs|]. split; [exact Hc|]. right. exists k.
    cbn [CurrentTest.currentTestLine]. split; [lia|]. split; [reflexivity|].
    split; [rewrite Hat; unfold is_result_line; now rewrite Hm|]. intros j Hj. lia.
  - destruct (Hrecognised (is_other_line_plan l m Hm)) as [Hs Hc].
    split; [exact Hs|]. split; [exact Hc|]. left.
    cbn [CurrentTest.currentTestLine]. split; [reflexivity|].
    intros c Hck Hresc. exists k. rewrite Hat, (is_other_line_plan l m Hm).
    split; [|reflexivity]. destruct (decide (c = k)) as [->|Hne]; [|lia].
    rewrite Hat in Hresc. unfold is_result_line in Hresc. now rewrite Hres in Hresc.
  - destruct (Hkeep (is_other_line_other l Hplan Hres)) as (Hs & Hc & Hcur).
    assert (Hfs : fs = CurrentTest.foldingRanges st
                  \/ exists j, fs = CurrentTest.foldingRanges st ++ [region k j]).
    { destruct (yaml_branch_cases lines k (CurrentTest.foldingRanges st) Hk)
        as [(j & _ & E'') | (_ & E'')]; rewrite E'' in Efs; injection Efs as <-; eauto. }
    split; [|split; [|exact Hcur]]; cbn [CurrentTest.foldingRanges].
    + intros f Hf Hkind. apply Hs; [|exact Hkind].
      destruct Hfs as [-> | (j & ->)]; [exact Hf|].
      apply in_app_or in Hf as [Hf | [<- | []]]; [exact Hf | discriminate Hkind].
    + intros c e Hh. specialize (Hc c e Hh).
      destruct Hfs as [-> | (j & ->)]; [exact Hc | apply in_or_app; now left].
  - exact (Hkeep (is_other_line_other l Hplan Hres)).
Qed.

Lemma fold_lines_extent lines k st :
  k <= length lines -> fold_lines lines k = Normal st -> extent_inv lines k st.
Proof.
  intros Hk E.
  destruct (for_loop_inv (extent_inv lines) k (CurrentTest.fold_body lines)
              {| CurrentTest.foldingRanges := []; CurrentTest.currentTestLine := (-1)%Z |})
    as (st' & E' & H).
  - split; [intros f []|]. split; [intros c e (_ & H & _); lia|].
    left. split; [reflexivity|]. intros c Hc. lia.
  - intros j t Hj Hinv.
    destruct (current_fold_body_total lines j t) as [t' Et]; [lia|].
    exists t'. split; [exact Et|]. apply (extent_step lines j t); [lia | exact Hinv | exact Et].
  - unfold fold_lines in E. rewrite E in E'. now injection E' as <-.
Qed.

(** The regions of a run are the blocks of the text. *)
Lemma regions_are_blocks head lines fs :
  starts_ok head lines fs -> regions_ok lines (length lines) fs ->
  (forall f, In f fs -> fr_kind f = Some Region ->
     exists i j, f = region i j /\ trim (line_at lines i) = str "---" /\
                 first_close lines i j) /\
  (forall i j, trim (line_at lines i) = str "---" -> first_close lines i j ->
     In (region i j) fs).
Proof.
  intros Hstarts Hregions. split.
  - intros f Hf Hkind. unfold starts_ok in Hstarts. rewrite List.Forall_forall in Hstarts.
    destruct (Hstarts f Hf) as (i & l & Hi & Hl & [[Hk _] | [_ Hopen]]); [congruence|].
    assert (Hlen : i < length lines) by (now apply lookup_lt_Some in Hl).
    destruct (Hregions i l Hl Hopen) as [_ Hin]. destruct (Hin Hlen) as [Hsome Hnone].
    assert (Hfilter : In f (List.filter (starts_at i) fs)).
    { apply filter_In. split; [exact Hf|]. unfold starts_at. rewrite Hi. apply Z.eqb_refl. }
    destruct (yaml_branch_cases lines i [] Hlen) as [(j & Hj & _) | (Hno & _)].
    + rewrite (Hsome j Hj) in Hfilter. destruct Hfilter as [<- | []].
      exists i, j. split; [reflexivity|]. split; [|exact Hj].
      now rewrite (line_at_lookup _ _ _ Hl).
    + rewrite (Hnone Hno) in Hfilter. destruct Hfilter.
  - intros i j Hopen Hj.
    assert (Hlen : i < length lines).
    { destruct Hj as (Hij & Hc' & _). apply closes_lt in Hc'. lia. }
    destruct (lookup_lt_is_Some_2 lines i Hlen) as [l Hl].
    rewrite (line_at_lookup _ _ _ Hl) in Hopen.
    destruct (Hregions i l Hl Hopen) as [_ Hin]. destruct (Hin Hlen) as [Hsome _].
    assert (Hfilter : In (region i j) (List.filter (starts_at i) fs))
      by (rewrite (Hsome j Hj); now left).
    now apply filter_In in Hfilter as [Hf _].
Qed.

(** The plain folds of the current-test folding. *)
Lemma current_plain_folds text :
  exists fs,
    CurrentTest.provideFoldingRanges text = Normal fs /\
    (forall f, In f fs -> fr_kind f = None ->
       exists c e, f = plain_fold (Z.of_nat c) (Z.of_nat e) /\ hides (split_lines text) c e) /\
    (forall c e, hides (split_lines text) c e ->
       In (plain_fold (Z.of_nat c) (Z.of_nat e)) fs).
Proof.
  set (lines := split_lines text).
  destruct (current_provide_spec text) as (st & Est & Ep). fold lines in Est.
  exists (CurrentTest.close_current st (length lines)). split; [exact Ep|].
  pose proof (fold_lines_extent lines _ st (Nat.le_refl _) Est) as Hinv.
  destruct (extent_close lines (length lines) st Hinv) as (Hs & Hnew & Hc).
  split.
  - intros f Hf Hkind.
    destruct (Hs f Hf Hkind) as (c & e & -> & H1 & H2 & H4 & H5 & H6).
    exists c, e. split; [reflexivity|]. split; [exact H1|]. split; [lia|].
    split; [exact H4|]. split; [exact H5|].
    destruct (decide (S e < length lines)) as [Hlt|Hge]; [right; now apply H6 | left; lia].
  - intros c e (H1 & H2 & H3 & H4 & [H5|H5]).
    + now apply Hnew.
    + apply Hc. split; [exact H1|]. split; [now apply not_other_in_text|].
      now repeat split.
Qed.

(** X6.  The folds of the current-test folding are these and no others.
    For each test-result line that an other line follows, one plain fold
    from that line to the last of the lines that follow it without being a
    test-plan or test-result line.  For each line that is [---] once
    trimmed and that a line which is [...] once trimmed follows, one region
    from the first to the first such line. *)
Theorem current_test_folds_are_outputs_and_blocks text :
  exists fs,
    CurrentTest.provideFoldingRanges text = Normal fs /\
    (forall f, In f fs -> fr_kind f = None ->
       exists c e, f = plain_fold (Z.of_nat c) (Z.of_nat e) /\ hides (split_lines text) c e) /\
    (forall c e, hides (split_lines text) c e ->
       In (plain_fold (Z.of_nat c) (Z.of_nat e)) fs) /\
    (forall f, In f fs -> fr_kind f = Some Region ->
       exists i j, f = region i j /\ trim (line_at (split_lines text) i) = str "---" /\
                   first_close (split_lines text) i j) /\
    (forall i j, trim (line_at (split_lines text) i) = str "---" ->
       first_close (split_lines text) i j -> In (region i j) fs).
Proof.
  destruct (current_plain_folds text) as (fs & Ep & Hsound & Hcomplete).
  exists fs. split; [exact Ep|].
  destruct (current_folds_at text _ Ep) as [Hstarts Hregions].
  destruct (regions_are_blocks _ _ _ Hstarts Hregions) as [Hreg1 Hreg2].
  split; [exact Hsound|]. split; [exact Hcomplete|]. split; [exact Hreg1 | exact Hreg2].
Qed.
(** ** The head of a test-result line *)

Lemma prefix_firstn pat s :
  prefix pat s = true -> firstn (length pat) s = pat /\ s = pat ++ skipn (length pat) s.
Proof.
  revert s. induction pat as [|p pat IH]; intros s; [now split|].
  destruct s as [|c s]; [discriminate|]. cbn [prefix]. intros H.
  apply andb_true_iff in H as [Hc Hs]. unfold char_eqb in Hc. apply N.eqb_eq in Hc.
  subst c. destruct (IH s Hs) as [H1 H2]. cbn [length firstn skipn app].
  split; [now rewrite H1 | now rewrite <- H2].
Qed.

(** The pattern after the number always matches: it is optional. *)
Lemma tail_total t pos s cs :
  exists e cs',
    run (Opt t) accept pos s cs = Some (e, cs') /\
    forall n v, no_cap n t = true -> cap_get n cs = Some v -> cap_get n cs' = Some v.
Proof.
  rewrite run_opt. destruct (run t accept pos s cs) as [[e cs']|] eqn:H; cbn [or_else].
  - exists e, cs'. split; [reflexivity|]. intros n v Hn Hv.
    exact (run_keeps_at n t accept Hn (keeps_at_accept n) pos s cs e cs' v H Hv).
  - exists pos, cs. split; [reflexivity|]. now intros n v _ Hv.
Qed.

(** A captured run before a continuation that always accepts. *)
Lemma run_cap_plus_total n p (k : mcont) pos s cs :
  (forall pos' s' cs', is_Some (k pos' s' cs')) ->
  run (Cap n (Plus p)) k pos s cs
  = match span p s with
    | ([], _) => None
    | (a, b) => k (pos + length a) b ((n, a) :: cs)
    end.
Proof.
  intros Hk. unfold Plus. cbn [run]. destruct s as [|c s]; [reflexivity|].
  cbn [span]. destruct (p c) eqn:Hc; [|reflexivity].
  destruct (span p s) as [a b] eqn:Hs.
  destruct (span_spec _ _ _ _ Hs) as (-> & _ & _).
  destruct (Hk (pos + length (c :: a)) b ((n, c :: a) :: cs)) as [r Hr].
  etransitivity; [|symmetry; exact Hr].
  apply star_loop_commit. rewrite Hs. cbn [fst snd].
  replace (S pos + length a - pos) with (S (length a)) by lia.
  cbn [firstn take]. rewrite take_app_length.
  cbn [length] in Hr. now replace (S pos + length a) with (pos + S (length a)) by lia.
Qed.

Section Head.
Variables (v t : regex) (rv : jsstring -> option (jsstring * jsstring)).
Hypothesis run_verdict : forall (k : mcont) pos s cs,
  run (Cap 2 v) k pos s cs
  = match rv s with
    | Some (w, s') => k (pos + length w) s' ((2, w) :: cs)
    | None => None
    end.
Hypothesis verdict_no_space : forall c s, is_space c = true -> rv (c :: s) = None.
Hypothesis tail_1 : no_cap 1 t = true.
Hypothesis tail_2 : no_cap 2 t = true.
Hypothesis tail_3 : no_cap 3 t = true.

(** The pattern matches exactly the lines that have a head, and its first
    three groups are the parts of the head. *)
Lemma result_pattern_head l :
  match read_head_with rv l with
  | Some (ws, w, ds, rest) =>
      exists m, js_match l (result_pattern v t) = Some m /\
                group m 1 = Some ws /\ group m 2 = Some w /\ group m 3 = Some ds
  | None => js_match l (result_pattern v t) = None
  end.
Proof.
  unfold result_pattern. rewrite js_match_anchored.
  unfold read_head_with. rewrite run_seq, run_cap_star_det.
  2:{ intros pos c s cs Hc. rewrite run_seq, run_verdict. now rewrite verdict_no_space. }
  destruct (span is_space l) as [ws s1] eqn:Hws. cbn [fst snd plus].
  rewrite run_seq, run_verdict. destruct (rv s1) as [[w s2]|] eqn:Hw; [|reflexivity].
  rewrite run_seq, run_plus_det by refuse.
  destruct (span is_space s2) as [sp s3] eqn:Hsp.
  destruct sp as [|c sp]; [reflexivity|].
  rewrite run_seq.
  rewrite run_cap_plus_total by (intros pos' s' cs'; destruct (tail_total t pos' s' cs')
                                   as (e & cs'' & -> & _); eauto).
  destruct (span is_digit s3) as [ds rest] eqn:Hds.
  destruct ds as [|d ds]; [reflexivity|].
  match goal with
  | |- context [run (Opt t) accept ?p ?s ?c0] =>
      destruct (tail_total t p s c0) as (e & cs' & E & Hkeep); rewrite E
  end.
  eexists. split; [reflexivity|]. unfold group. cbn [m_caps].
  split; [|split]; apply Hkeep; first [assumption | reflexivity].
Qed.

End Head.

Lemma run_verdict_either (k : mcont) pos s cs :
  run (Cap 2 (Alt (lit "ok") (lit "not ok"))) k pos s cs
  = match read_verdict s with
    | Some (w, s') => k (pos + length w) s' ((2, w) :: cs)
    | None => None
    end.
Proof.
  rewrite run_cap, run_alt, !run_lit. unfold read_verdict.
  destruct (prefix (str "ok") s) eqn:Hok.
  - assert (Hnot : prefix (str "not ok") s = false).
    { destruct s as [|c s]; [reflexivity|]. cbn [prefix str] in *.
      apply andb_true_iff in Hok as [Hc _]. unfold char_eqb in *.
      apply N.eqb_eq in Hc. subst c. reflexivity. }
    rewrite Hnot, or_else_none_r.
    destruct (prefix_firstn _ _ Hok) as [Hf _].
    replace (pos + length (str "ok") - pos) with (length (str "ok")) by lia.
    now rewrite Hf.
  - cbn [or_else]. destruct (prefix (str "not ok") s) eqn:Hnot; [|reflexivity].
    destruct (prefix_firstn _ _ Hnot) as [Hf _].
    replace (pos + length (str "not ok") - pos) with (length (str "not ok")) by lia.
    now rewrite Hf.
Qed.

Lemma run_verdict_not_ok (k : mcont) pos s cs :
  run (Cap 2 (lit "not ok")) k pos s cs
  = match read_not_ok s with
    | Some (w, s') => k (pos + length w) s' ((2, w) :: cs)
    | None => None
    end.
Proof.
  rewrite run_cap, run_lit. unfold read_not_ok.
  destruct (prefix (str "not ok") s) eqn:Hnot; [|reflexivity].
  destruct (prefix_firstn _ _ Hnot) as [Hf _].
  replace (pos + length (str "not ok") - pos) with (length (str "not ok")) by lia.
  now rewrite Hf.
Qed.

Lemma read_verdict_no_space c s : is_space c = true -> read_verdict (c :: s) = None.
Proof.
  intros Hc. unfold read_verdict. cbn [prefix str].
  assert (H1 : char_eqb (char_of_ascii "o") c = false) by (clear - Hc; chars).
  assert (H2 : char_eqb (char_of_ascii "n") c = false) by (clear - Hc; chars).
  now rewrite H1, H2.
Qed.

Lemma read_not_ok_no_space c s : is_space c = true -> read_not_ok (c :: s) = None.
Proof.
  intros Hc. unfold read_not_ok. cbn [prefix str].
  assert (H2 : char_eqb (char_of_ascii "n") c = false) by (clear - Hc; chars).
  now rewrite H2.
Qed.

(** The three patterns on a line. *)
Lemma TEST_RESULT_REGEX_read l :
  match read_head l with
  | Some (ws, w, ds, rest) =>
      exists m, js_match l TEST_RESULT_REGEX = Some m /\
                group m 1 = Some ws /\ group m 2 = Some w /\ group m 3 = Some ds
  | None => js_match l TEST_RESULT_REGEX = None
  end.
Proof.
  apply (result_pattern_head (Alt (lit "ok") (lit "not ok"))
           (rseq [Plus is_space; Opt (rseq [lit "-"; Plus is_space]); Cap 4 (Star is_dot)])
           read_verdict run_verdict_either read_verdict_no_space); reflexivity.
Qed.

Lemma DASHED_RESULT_REGEX_read l :
  match read_head l with
  | Some (ws, w, ds, rest) =>
      exists m, js_match l DASHED_RESULT_REGEX = Some m /\
                group m 1 = Some ws /\ group m 2 = Some w /\ group m 3 = Some ds
  | None => js_match l DASHED_RESULT_REGEX = None
  end.
Proof.
  apply (result_pattern_head (Alt (lit "ok") (lit "not ok"))
           (rseq [Plus is_space; lit "-"; Plus is_space; Cap 4 (Star is_dot)])
           read_verdict run_verdict_either read_verdict_no_space); reflexivity.
Qed.

Lemma NOT_OK_REGEX_read l :
  match read_head_with read_not_ok l with
  | Some (ws, w, ds, rest) =>
      exists m, js_match l NOT_OK_REGEX = Some m /\
                group m 1 = Some ws /\ group m 2 = Some w /\ group m 3 = Some ds
  | None => js_match l NOT_OK_REGEX = None
  end.
Proof.
  apply (result_pattern_head (lit "not ok")
           (rseq [Plus is_space; lit "-"; Plus is_space; Cap 4 (Star is_dot)])
           read_not_ok run_verdict_not_ok read_not_ok_no_space); reflexivity.
Qed.

(** What a head tells of its line. *)
Lemma read_head_with_spec rv l ws w ds rest :
  read_head_with rv l = Some (ws, w, ds, rest) ->
  exists s1, l = ws ++ s1 /\ trimStart l = s1 /\ all_in is_space ws /\
             is_Some (rv s1) /\ is_digits ds.
Proof.
  unfold read_head_with. rewrite trimStart_span.
  destruct (span is_space l) as [ws' s1] eqn:Hws. cbn [snd].
  destruct (span_spec _ _ _ _ Hws) as (-> & Hsp & _).
  destruct (rv s1) as [[w' s2]|] eqn:Hw; [|discriminate].
  destruct (span is_space s2) as [sp s3]. destruct sp as [|c sp]; [discriminate|].
  destruct (span is_digit s3) as [ds' rest'] eqn:Hds. destruct ds' as [|d ds']; [discriminate|].
  intros [= <- <- <- <-]. exists s1. split; [reflexivity|]. split; [reflexivity|].
  split; [exact Hsp|]. split; [eauto|]. split; [discriminate|].
  now destruct (span_spec _ _ _ _ Hds) as (_ & H & _).
Qed.

Lemma read_head_indentation rv l ws w ds rest :
  read_head_with rv l = Some (ws, w, ds, rest) ->
  length ws = indentation l /\ length ws <= length l.
Proof.
  intros H. destruct (read_head_with_spec _ _ _ _ _ _ H) as (s1 & -> & Ht & _).
  unfold indentation. rewrite Ht, length_app. lia.
Qed.

(** The verdict of a head is [ok] or [not ok]; a head that reads [not ok]
    is a head. *)
Lemma read_head_not_ok l :
  read_head_with read_not_ok l
  = match read_head l with
    | Some (ws, w, ds, rest) =>
        if jsstring_eqb w (str "ok") then None else Some (ws, w, ds, rest)
    | None => None
    end.
Proof.
  unfold read_head, read_head_with. destruct (span is_space l) as [ws s1].
  unfold read_verdict, read_not_ok.
  destruct (prefix (str "ok") s1) eqn:Hok.
  - assert (Hnot : prefix (str "not ok") s1 = false).
    { destruct s1 as [|c s]; [reflexivity|]. cbn [prefix str] in *.
      apply andb_true_iff in Hok as [Hc _]. unfold char_eqb in *.
      apply N.eqb_eq in Hc. subst c. reflexivity. }
    rewrite Hnot. destruct (span is_space (skipn 2 s1)) as [sp s3].
    destruct sp; [reflexivity|]. destruct (span is_digit s3) as [ds rest].
    now destruct ds.
  - destruct (prefix (str "not ok") s1); [|reflexivity].
    destruct (span is_space (skipn 6 s1)) as [sp s3].
    destruct sp; [reflexivity|]. destruct (span is_digit s3) as [ds rest].
    now destruct ds.
Qed.
(** ** The head fields of the tests in the snapshots *)

Lemma heads_upto_S lines k :
  heads_upto lines (S k)
  = heads_upto lines k
    ++ match head_of_line k (line_at lines k) with Some h => [h] | None => [] end.
Proof.
  unfold heads_upto. rewrite seq_S, omap_app. reflexivity.
Qed.

Lemma flat_body_heads lines k ts :
  k < length lines ->
  map head_fields ts = heads_upto lines k ->
  exists ts', Flat.parse_body lines k ts = Normal ts' /\
    map head_fields ts' = heads_upto lines (S k).
Proof.
  intros Hk Hheads. unfold Flat.parse_body.
  destruct (lookup_lt_is_Some_2 lines k Hk) as [l Hl]. rewrite Hl.
  cbn [deref mbind completion_bind].
  rewrite heads_upto_S, (line_at_lookup _ _ _ Hl). unfold head_of_line.
  pose proof (TEST_RESULT_REGEX_read l) as Hread.
  destruct (read_head l) as [[[[ws w] ds] rest]|].
  - destruct Hread as (m & Hm & H1 & H2 & H3). rewrite Hm, H1, H2, H3.
    cbn [deref mbind completion_bind strict_eq].
    destruct (describe_total k l (length ws) (jsstring_eqb w (str "ok"))
                (parseInt (Some ds)) (or_default (group m 4) [])) as [t Ht].
    rewrite Ht. cbn [mbind completion_bind]. exists (ts ++ [t]). split; [reflexivity|].
    destruct (describe_fields _ _ _ _ _ _ _ Ht) as (F1 & F2 & F3 & F4 & F5 & F6 & F7 & _).
    rewrite map_app, Hheads. cbn [map]. unfold head_fields.
    now rewrite F1, F2, F3, F4, F5, F6, F7.
  - rewrite Hread. exists ts. split; [reflexivity|]. now rewrite app_nil_r.
Qed.

Lemma legacy_body_heads lines k ts :
  k < length lines ->
  map head_fields ts = heads_upto lines k ->
  exists ts', Legacy.parse_body lines k ts = Normal ts' /\
    map head_fields ts' = heads_upto lines (S k).
Proof.
  intros Hk Hheads. unfold Legacy.parse_body.
  destruct (lookup_lt_is_Some_2 lines k Hk) as [l Hl]. rewrite Hl.
  cbn [deref mbind completion_bind].
  rewrite heads_upto_S, (line_at_lookup _ _ _ Hl). unfold head_of_line.
  pose proof (DASHED_RESULT_REGEX_read l) as Hread.
  destruct (read_head l) as [[[[ws w] ds] rest]|].
  - destruct Hread as (m & Hm & H1 & H2 & H3). rewrite Hm, H1, H2, H3.
    cbn [deref mbind completion_bind strict_eq].
    eexists. split; [reflexivity|].
    rewrite map_app, Hheads. reflexivity.
  - rewrite Hread. exists ts. split; [reflexivity|]. now rewrite app_nil_r.
Qed.

Lemma flat_heads text :
  exists ts, Flat.parseTapContent text = Normal ts /\
    map head_fields ts = heads_upto (split_lines text) (length (split_lines text)).
Proof.
  unfold Flat.parseTapContent. cbv zeta.
  apply (for_loop_inv (fun k ts => map head_fields ts = heads_upto (split_lines text) k)).
  - reflexivity.
  - intros j t Hj. now apply flat_body_heads.
Qed.

Lemma legacy_heads text :
  exists ts, Legacy.parseTapContent text = Normal ts /\
    map head_fields ts = heads_upto (split_lines text) (length (split_lines text)).
Proof.
  unfold Legacy.parseTapContent. cbv zeta.
  apply (for_loop_inv (fun k ts => map head_fields ts = heads_upto (split_lines text) k)).
  - reflexivity.
  - intros j t Hj. now apply legacy_body_heads.
Qed.

(** A head in the list is the head of its line. *)
Lemma heads_upto_In lines k h :
  In h (heads_upto lines k) ->
  exists i, i < k /\ head_of_line i (line_at lines i) = Some h.
Proof.
  unfold heads_upto. intros H. apply list_elem_of_In in H.
  apply list_elem_of_omap in H as (i & Hi & Hh). exists i. split; [|exact Hh].
  apply list_elem_of_In, in_seq in Hi. lia.
Qed.

Lemma read_head_passed l ws w ds rest :
  read_head l = Some (ws, w, ds, rest) ->
  jsstring_eqb w (str "ok") = prefix (str "ok") (trimStart l).
Proof.
  unfold read_head, read_head_with. rewrite trimStart_span.
  destruct (span is_space l) as [ws' s1]. cbn [snd]. unfold read_verdict.
  destruct (prefix (str "ok") s1) eqn:Hok.
  - destruct (span is_space (skipn 2 s1)) as [sp s3]. destruct sp; [discriminate|].
    destruct (span is_digit s3) as [ds' rest']. destruct ds'; [discriminate|].
    now intros [= <- <- <- <-].
  - destruct (prefix (str "not ok") s1); [|discriminate].
    destruct (span is_space (skipn 6 s1)) as [sp s3]. destruct sp; [discriminate|].
    destruct (span is_digit s3) as [ds' rest']. destruct ds'; [discriminate|].
    now intros [= <- <- <- <-].
Qed.

(** What the head of a line says of it. *)
Lemma head_of_line_spec lines i h :
  i < length lines -> head_of_line i (line_at lines i) = Some h ->
  exists t_line t_indent t_passed t_number t_todo t_skip t_full,
    h = (t_line, t_indent, t_passed, t_number, t_todo, t_skip, t_full) /\
    t_line = i /\ lines !! i = Some t_full /\
    t_indent = indentation t_full /\ t_indent <= length t_full /\
    t_passed = prefix (str "ok") (trimStart t_full) /\
    is_NaN t_number = false /\
    t_todo = js_test TODO_REGEX t_full /\ t_skip = js_test SKIP_REGEX t_full.
Proof.
  intros Hi. destruct (lookup_lt_is_Some_2 lines i Hi) as [l Hl].
  rewrite (line_at_lookup _ _ _ Hl). unfold head_of_line.
  destruct (read_head l) as [[[[ws w] ds] rest]|] eqn:Hread; [|discriminate].
  intros [= <-]. do 7 eexists. split; [reflexivity|].
  destruct (read_head_indentation _ _ _ _ _ _ Hread) as [Hind Hle].
  destruct (read_head_with_spec _ _ _ _ _ _ Hread) as (_ & _ & _ & _ & _ & Hds).
  split; [reflexivity|]. split; [exact Hl|]. split; [exact Hind|]. split; [exact Hle|].
  split; [exact (read_head_passed _ _ _ _ _ Hread)|].
  split; [now apply parseInt_digits_not_NaN|]. now split.
Qed.

(** X7.  The legacy parser and the flat parser find the same tests: the
    same lines in the same order, with the same indent, verdict, test
    number and directive flags; they can only differ in the description
    and the duration. *)
Theorem legacy_and_flat_tests_agree text :
  exists old new,
    Legacy.parseTapContent text = Normal old /\
    Flat.parseTapContent text = Normal new /\
    map head_fields old = map head_fields new.
Proof.
  destruct (legacy_heads text) as (old & Eo & Ho).
  destruct (flat_heads text) as (new & En & Hn).
  exists old, new. split; [exact Eo|]. split; [exact En|]. congruence.
Qed.

(** X8.  Every test of the flat parser reads its fields off its own line:
    the indent is the number of white-space characters that start the
    line, the test passed exactly when [ok] comes next, the test number is
    a number, and the range of its test item lies inside the line. *)
Theorem test_fields_read_off_the_line text :
  exists ts,
    Flat.parseTapContent text = Normal ts /\
    Forall (fun t =>
      split_lines text !! line t = Some (fullLine t) /\
      indent t = indentation (fullLine t) /\
      passed t = prefix (str "ok") (trimStart (fullLine t)) /\
      is_NaN (testNumber t) = false /\
      range_in_line (split_lines text) (test_range t)) ts.
Proof.
  destruct (flat_heads text) as (ts & E & Hheads). exists ts. split; [exact E|].
  apply List.Forall_forall. intros t Ht.
  assert (Hin : In (head_fields t)
                  (heads_upto (split_lines text) (length (split_lines text)))).
  { rewrite <- Hheads. now apply in_map. }
  apply heads_upto_In in Hin as (i & Hi & Hh).
  destruct (head_of_line_spec _ _ _ Hi Hh)
    as (a & b & c & d & e & f & g & Heq & -> & Hl & -> & Hle & -> & Hnan & _).
  unfold head_fields in Heq. injection Heq as H1 H2 H3 H4 _ _ H7.
  rewrite H1, H2, H3, H4, H7.
  split; [exact Hl|]. split; [reflexivity|]. split; [reflexivity|]. split; [exact Hnan|].
  unfold range_in_line, test_range. cbn [range_start range_end pos_line pos_character].
  rewrite H1, H2, H7, (line_at_lookup _ _ _ Hl).
  split; [reflexivity|]. split; [exact Hi|]. split; [exact Hle | reflexivity].
Qed.
(** ** The diagnostics *)

Lemma omap_map {A B C} (f : B -> option C) (g : A -> B) (l : list A) :
  omap f (map g l) = omap (fun x => f (g x)) l.
Proof.
  induction l as [|x l IH]; [reflexivity|]. cbn [map]. cbn. rewrite <- IH.
  reflexivity.
Qed.

Lemma omap_singleton {A B} (f : A -> option B) (x : A) :
  omap f [x] = match f x with Some y => [y] | None => [] end.
Proof. reflexivity. Qed.

Lemma diagnosis_of_head t : diagnosis_of t = head_diagnosis (head_fields t).
Proof. reflexivity. Qed.

Lemma verdict_is_ok l ws w ds rest :
  read_head l = Some (ws, w, ds, rest) -> w = str "ok" \/ w = str "not ok".
Proof.
  unfold read_head, read_head_with. destruct (span is_space l) as [ws' s1].
  unfold read_verdict. destruct (prefix (str "ok") s1).
  - destruct (span is_space (skipn 2 s1)) as [sp s3]. destruct sp; [discriminate|].
    destruct (span is_digit s3) as [ds' rest']. destruct ds'; [discriminate|].
    intros [= <- <- <- <-]. now left.
  - destruct (prefix (str "not ok") s1); [|discriminate].
    destruct (span is_space (skipn 6 s1)) as [sp s3]. destruct sp; [discriminate|].
    destruct (span is_digit s3) as [ds' rest']. destruct ds'; [discriminate|].
    intros [= <- <- <- <-]. now right.
Qed.

(** The pattern of the diagnostics matches the test-result lines that do
    not read [ok], with the same indent. *)
Lemma NOT_OK_REGEX_head l :
  match read_head l with
  | Some (ws, w, ds, rest) =>
      if jsstring_eqb w (str "ok") then js_match l NOT_OK_REGEX = None
      else exists m, js_match l NOT_OK_REGEX = Some m /\ group m 1 = Some ws /\
                     group m 3 = Some ds
  | None => js_match l NOT_OK_REGEX = None
  end.
Proof.
  pose proof (NOT_OK_REGEX_read l) as H. rewrite read_head_not_ok in H.
  destruct (read_head l) as [[[[ws w] ds] rest]|]; [|exact H].
  destruct (jsstring_eqb w (str "ok")); [exact H|].
  destruct H as (m & Hm & H1 & _ & H3). eauto.
Qed.

Lemma diagnose_body_heads lines k ds :
  k < length lines ->
  map shown ds = omap head_diagnosis (heads_upto lines k) ->
  exists ds', Diagnostics.diagnose_body lines k ds = Normal ds' /\
    map shown ds' = omap head_diagnosis (heads_upto lines (S k)) /\
    (Forall (fun d => Diagnostics.source d = str "TAP") ds ->
     Forall (fun d => Diagnostics.source d = str "TAP") ds').
Proof.
  intros Hk Hds. unfold Diagnostics.diagnose_body.
  destruct (lookup_lt_is_Some_2 lines k Hk) as [l Hl]. rewrite Hl.
  cbn [deref mbind completion_bind].
  rewrite heads_upto_S, omap_app, (line_at_lookup _ _ _ Hl), <- Hds. unfold head_of_line.
  pose proof (NOT_OK_REGEX_head l) as Hread.
  destruct (read_head l) as [[[[ws w] dg] rest]|].
  - rewrite omap_singleton. unfold head_diagnosis.
    destruct (jsstring_eqb w (str "ok")) eqn:Hw.
    + rewrite Hread. exists ds. split; [reflexivity|].
      split; [now rewrite app_nil_r | auto].
    + destruct Hread as (m & Hm & H1 & H3). rewrite Hm, H1.
      cbn [deref mbind completion_bind].
      destruct (js_test TODO_REGEX l), (js_test SKIP_REGEX l); cbn [negb andb];
        eexists; (split; [reflexivity|]);
        rewrite ?map_app, ?app_nil_r; (split; [reflexivity|]); intros Hs;
        try exact Hs; apply Forall_app; (split; [exact Hs|]); now constructor.
  - rewrite Hread. exists ds. split; [reflexivity|].
    split; [symmetry; apply app_nil_r | auto].
Qed.

(** X9.  For a document of the language [tap] the diagnostics provider
    sets one diagnostic per failed test of the parser that has [# TODO] or
    lacks [# SKIP], in the order of the tests and over the range of the
    test item: a warning with [# TODO], an error otherwise, all of source
    [TAP].  For a document of another language it sets nothing. *)
Theorem diagnostics_follow_failed_tests document :
  exists ts r,
    Flat.parseTapContent (getText document) = Normal ts /\
    Diagnostics.updateDiagnostics document = Normal r /\
    option_map (map shown) r
    = (if jsstring_eqb (languageId document) (str "tap")
       then Some (omap diagnosis_of ts) else None) /\
    Forall (fun d => Diagnostics.source d = str "TAP") (default [] r).
Proof.
  destruct (flat_heads (getText document)) as (ts & E & Hheads).
  exists ts. unfold Diagnostics.updateDiagnostics.
  destruct (jsstring_eqb (languageId document) (str "tap")); cbn [negb].
  2:{ exists None. split; [exact E|]. split; [reflexivity|]. split; [reflexivity|].
      constructor. }
  destruct (for_loop_inv
              (fun k ds =>
                 map shown ds
                 = omap head_diagnosis (heads_upto (split_lines (getText document)) k) /\
                 Forall (fun d => Diagnostics.source d = str "TAP") ds)
              (length (split_lines (getText document)))
              (Diagnostics.diagnose_body (split_lines (getText document))) [])
    as (ds & Eds & Hds & Hsrc).
  - split; [reflexivity | constructor].
  - intros j t Hj [H1 H2].
    destruct (diagnose_body_heads _ _ _ Hj H1) as (ds' & E' & H1' & H2').
    exists ds'. split; [exact E'|]. split; [exact H1' | now apply H2'].
  - exists (Some ds). split; [exact E|]. cbv zeta. rewrite Eds.
    cbn [mbind completion_bind]. split; [reflexivity|]. cbn [option_map default].
    split; [|exact Hsrc]. f_equal. rewrite Hds, <- Hheads, omap_map.
    reflexivity.
Qed.
(** ** The calls of the test providers *)

Lemma omap_flat_map {A B C} (f : B -> option C) (g : A -> list B) (l : list A) :
  omap f (flat_map g l) = flat_map (fun x => omap f (g x)) l.
Proof.
  induction l as [|x l IH]; [reflexivity|]. cbn [flat_map]. now rewrite omap_app, IH.
Qed.

Lemma flat_map_singleton {A B} (f : A -> B) (l : list A) :
  flat_map (fun x => [f x]) l = map f l.
Proof. induction l as [|x l IH]; [reflexivity|]. cbn. now rewrite IH. Qed.

Lemma file_item_calls_outcomes known uri : omap outcome_of (file_item_calls known uri) = [].
Proof. now destruct known. Qed.

Lemma legacy_test_calls_outcome uri t :
  omap outcome_of (LegacyProvider.test_calls uri t) = [test_outcome t].
Proof.
  unfold LegacyProvider.test_calls, test_outcome.
  now destruct (hasSkip t), (hasTodo t), (passed t).
Qed.

Lemma flat_test_calls_outcome uri t :
  omap outcome_of (FlatProvider.test_calls uri t) = [test_outcome t].
Proof.
  unfold FlatProvider.test_calls, test_outcome.
  now destruct (hasSkip t), (hasTodo t), (passed t).
Qed.

Lemma run_calls_outcome e :
  omap outcome_of (GroupingProvider.run_calls e) = [test_outcome (snd e)].
Proof.
  destruct e as [item t]. unfold GroupingProvider.run_calls, test_outcome. cbn [snd].
  now destruct (Nat.ltb 0 (length (output t))), (hasSkip t), (hasTodo t), (passed t).
Qed.

(** The outcome of a test is read from its head fields. *)
Lemma test_outcome_heads ts ts' :
  map head_fields ts = map head_fields ts' -> map test_outcome ts = map test_outcome ts'.
Proof.
  revert ts'. induction ts as [|t ts IH]; intros [|t' ts'] H; try discriminate;
    [reflexivity|].
  cbn [map] in *. injection H as H1 H2 H3 H4 H5 H6 H7 H.
  rewrite (IH ts' H). unfold test_outcome. now rewrite H3, H5, H6.
Qed.

Lemma test_outcome_erase ts : map test_outcome (map erase_output ts) = map test_outcome ts.
Proof. rewrite map_map. reflexivity. Qed.

(** *** The first loop of the grouping provider *)

Lemma test_steps uri parent gi ts (st : GroupingProvider.items) :
  exists calls,
    fold_left (GroupingProvider.test_step uri parent gi) ts st
    = (fst st ++ calls,
       snd st ++ map (fun t => (GroupingProvider.test_id uri gi t, t)) ts) /\
    omap outcome_of calls = [] /\
    omap created_id calls = map (fun t => GroupingProvider.test_id uri gi t) ts /\
    omap range_set calls = map test_range ts.
Proof.
  revert st. induction ts as [|t ts IH]; intros st.
  - exists []. cbn [fold_left map]. rewrite !app_nil_r. now destruct st.
  - cbn [fold_left]. destruct (IH (GroupingProvider.test_step uri parent gi st t))
      as (calls & E & Ho & Hc & Hr).
    rewrite E. unfold GroupingProvider.test_step at 1 2. cbn [fst snd].
    eexists. rewrite <- !app_assoc. split; [reflexivity|].
    rewrite !omap_app, Ho, Hc, Hr. now repeat split.
Qed.

Lemma imap_take_S {A B} (f : nat -> A -> B) (l : list A) k x :
  l !! k = Some x -> imap f (take (S k) l) = imap f (take k l) ++ [f k x].
Proof.
  intros Hk. rewrite (take_S_r _ _ _ Hk), imap_app. f_equal.
  cbn [imap]. rewrite length_take, Nat.min_l, Nat.add_0_r; [reflexivity|].
  apply lookup_lt_Some in Hk. lia.
Qed.

Lemma group_body_spec uri gs k (st : GroupingProvider.items) g :
  gs !! k = Some g ->
  exists calls,
    GroupingProvider.group_body uri gs k st
    = Normal (fst st ++ calls, snd st ++ group_entries uri k g) /\
    omap outcome_of calls = [] /\
    omap created_id calls = group_ids uri (Nat.ltb 1 (length gs)) k g /\
    Forall (fun r => (exists t, In t (tests g) /\ r = test_range t)
                     \/ r = {| range_start := {| pos_line := group_line g; pos_character := 0 |};
                               range_end := {| pos_line := group_line g; pos_character := 0 |} |})
           (omap range_set calls).
Proof.
  intros Hk. unfold GroupingProvider.group_body. rewrite Hk.
  cbn [deref mbind completion_bind]. unfold group_ids, group_entries.
  assert (Hranges : Forall (fun r => (exists t, In t (tests g) /\ r = test_range t)
                     \/ r = {| range_start := {| pos_line := group_line g; pos_character := 0 |};
                               range_end := {| pos_line := group_line g; pos_character := 0 |} |})
                      (map test_range (tests g))).
  { apply List.Forall_forall. intros r Hr. apply in_map_iff in Hr as (t & <- & Ht).
    left. eauto. }
  destruct (Nat.ltb 1 (length gs)).
  - match goal with
    | |- context [fold_left ?f (tests g) ?st0] =>
        destruct (test_steps uri (GroupingProvider.group_id uri k) k (tests g) st0)
          as (calls & E & Ho & Hc & Hr)
    end.
    rewrite E. cbn [fst snd]. eexists. rewrite <- app_assoc. split; [reflexivity|].
    rewrite !omap_app, Ho, Hc, Hr. cbn. rewrite map_map. cbn [fst].
    split; [reflexivity|]. split; [reflexivity|]. constructor; [now right | exact Hranges].
  - destruct (test_steps uri (uri_toString uri) k (tests g) st)
      as (calls & E & Ho & Hc & Hr).
    rewrite E. exists calls. split; [reflexivity|]. rewrite Ho, Hc, Hr, map_map. cbn [fst].
    now repeat split.
Qed.

(** The state of the first loop after [k] groups. *)
Lemma group_loop uri gs :
  exists st,
    for_loop (length gs) 0 (GroupingProvider.group_body uri gs) ([], []) = Normal st /\
    snd st = concat (imap (group_entries uri) gs) /\
    omap outcome_of (fst st) = [] /\
    omap created_id (fst st)
    = concat (imap (group_ids uri (Nat.ltb 1 (length gs))) gs) /\
    Forall (fun r => exists g, In g gs /\
              ((exists t, In t (tests g) /\ r = test_range t)
               \/ r = {| range_start := {| pos_line := group_line g; pos_character := 0 |};
                         range_end := {| pos_line := group_line g; pos_character := 0 |} |}))
           (omap range_set (fst st)).
Proof.
  destruct (for_loop_inv
              (fun k (st : GroupingProvider.items) =>
                 snd st = concat (imap (group_entries uri) (take k gs)) /\
                 omap outcome_of (fst st) = [] /\
                 omap created_id (fst st)
                 = concat (imap (group_ids uri (Nat.ltb 1 (length gs))) (take k gs)) /\
                 Forall (fun r => exists g, In g gs /\
                           ((exists t, In t (tests g) /\ r = test_range t)
                            \/ r = {| range_start := {| pos_line := group_line g;
                                                        pos_character := 0 |};
                                      range_end := {| pos_line := group_line g;
                                                      pos_character := 0 |} |}))
                        (omap range_set (fst st)))
              (length gs) (GroupingProvider.group_body uri gs) ([], []))
    as (st & E & H).
  - rewrite take_0. repeat split. constructor.
  - intros j st Hj (H1 & H2 & H3 & H4).
    destruct (lookup_lt_is_Some_2 gs j Hj) as [g Hg].
    destruct (group_body_spec uri gs j st g Hg) as (calls & E & Ho & Hc & Hr).
    eexists. split; [exact E|]. cbn [fst snd].
    rewrite !(imap_take_S _ _ _ _ Hg), !concat_app, !omap_app, H1, H2, H3, Ho, Hc.
    cbn [concat]. rewrite !app_nil_r.
    split; [reflexivity|]. split; [reflexivity|]. split; [reflexivity|].
    apply Forall_app. split; [exact H4|].
    eapply Forall_impl; [exact Hr|]. intros r Hrg. exists g. split; [|exact Hrg].
    apply list_elem_of_In. eapply list_elem_of_lookup_2. exact Hg.
  - rewrite firstn_all in H. exists st. split; [exact E | exact H].
Qed.

Lemma entries_tests uri gs :
  map snd (concat (imap (group_entries uri) gs)) = concat (map tests gs).
Proof.
  enough (H : forall k, map snd (concat (imap (fun i => group_entries uri (k + i)) gs))
                        = concat (map tests gs)) by exact (H 0).
  induction gs as [|g gs IH]; intros k; [reflexivity|].
  cbn [imap concat map]. rewrite map_app. f_equal.
  - unfold group_entries. rewrite map_map. cbn [snd]. apply map_id.
  - rewrite <- (IH (S k)). do 2 f_equal. apply imap_ext. intros i x _. cbn.
    unfold group_entries. now rewrite Nat.add_succ_r.
Qed.

(** X10.  The three test providers report the same outcomes for a
    document: one per test of the parser, in the order of the tests;
    skipped with [# SKIP], and with [# TODO] when the test failed; passed
    or failed as the test itself otherwise.  None of them throws. *)
Theorem providers_report_the_same_outcomes known document :
  exists ts legacy flat grouping,
    Flat.parseTapContent (getText document) = Normal ts /\
    LegacyProvider.updateTestsForDocument known document = Normal legacy /\
    FlatProvider.updateTestsForDocument known document = Normal flat /\
    GroupingProvider.updateTestsForDocument known document = Normal grouping /\
    omap outcome_of legacy = map test_outcome ts /\
    omap outcome_of flat = map test_outcome ts /\
    omap outcome_of grouping = map test_outcome ts.
Proof.
  destruct (legacy_heads (getText document)) as (old & Eo & Ho).
  destruct (flat_heads (getText document)) as (ts & Et & Ht).
  destruct (grouping_flat_tests (getText document)) as (gs & ts' & Eg & Et' & Hg).
  rewrite Et in Et'. injection Et' as <-.
  destruct (group_loop (doc_uri document) gs) as (st & Est & Hsnd & Hout & _).
  exists ts. unfold LegacyProvider.updateTestsForDocument,
    FlatProvider.updateTestsForDocument, GroupingProvider.updateTestsForDocument.
  cbv zeta. rewrite Eo, Et, Eg. cbn [mbind completion_bind]. rewrite Est.
  cbn [mbind completion_bind]. do 3 eexists.
  split; [reflexivity|]. split; [reflexivity|]. split; [reflexivity|].
  split; [reflexivity|].
  split; [|split].
  - rewrite !omap_app, file_item_calls_outcomes, omap_flat_map. cbn [omap list_omap outcome_of app].
    rewrite app_nil_r.
    erewrite flat_map_ext; [|intros t; apply legacy_test_calls_outcome].
    rewrite flat_map_singleton. apply test_outcome_heads. congruence.
  - rewrite !omap_app, file_item_calls_outcomes, omap_flat_map. cbn [omap list_omap outcome_of app].
    rewrite app_nil_r.
    erewrite flat_map_ext; [|intros t; apply flat_test_calls_outcome].
    now rewrite flat_map_singleton.
  - change (DocumentsSet ?a ?b :: ?l) with ([DocumentsSet a b] ++ l).
    rewrite !omap_app, file_item_calls_outcomes, Hout, omap_flat_map.
    cbn [omap list_omap outcome_of app]. rewrite app_nil_r.
    erewrite flat_map_ext; [|intros e; apply run_calls_outcome].
    rewrite flat_map_singleton, <- (map_map snd test_outcome), Hsnd, entries_tests.
    rewrite <- Hg. symmetry. apply test_outcome_erase.
Qed.
(** ** The ids of the test items *)

(** *** Decimal numerals *)

Lemma digits_value_app a xs ys :
  digits_value a (xs ++ ys) = digits_value (digits_value a xs) ys.
Proof. revert a. induction xs as [|c xs IH]; intros a; [reflexivity|]. apply IH. Qed.

Lemma decimal_of_pos_aux_spec fuel n acc :
  (0 <= n < 2 ^ Z.of_nat fuel)%Z -> fuel <> 0 ->
  exists xs, decimal_of_pos_aux fuel n acc = xs ++ acc /\ xs <> [] /\
             all_in is_digit xs /\ digits_value 0%Z xs = n.
Proof.
  revert n acc. induction fuel as [|fuel IH]; intros n acc Hn Hf; [contradiction|].
  cbn [decimal_of_pos_aux].
  assert (Hmod : (0 <= n mod 10 < 10)%Z) by (apply Z.mod_pos_bound; lia).
  assert (Hd : is_digit (Z.to_N (n mod 10) + 48)%N = true).
  { unfold is_digit. apply andb_true_iff. split; apply N.leb_le; lia. }
  assert (Hv : digit_value (Z.to_N (n mod 10) + 48)%N = (n mod 10)%Z).
  { unfold digit_value. lia. }
  destruct (n <? 10)%Z eqn:Hlt.
  - apply Z.ltb_lt in Hlt. exists [(Z.to_N (n mod 10) + 48)%N].
    split; [reflexivity|]. split; [discriminate|]. split; [now repeat constructor|].
    cbn [digits_value]. rewrite Hv, Z.mod_small by lia. lia.
  - apply Z.ltb_ge in Hlt.
    assert (Hq : (0 <= n / 10 < 2 ^ Z.of_nat fuel)%Z).
    { split; [apply Z.div_pos; lia|].
      rewrite Nat2Z.inj_succ, Z.pow_succ_r in Hn by lia.
      apply Z.div_lt_upper_bound; lia. }
    assert (Hf' : fuel <> 0).
    { intros ->. cbn in Hq. assert (1 <= n / 10)%Z by (apply Z.div_le_lower_bound; lia).
      lia. }
    destruct (IH (n / 10)%Z ((Z.to_N (n mod 10) + 48)%N :: acc) Hq Hf')
      as (xs & E & Hne & Hall & Hval).
    exists (xs ++ [(Z.to_N (n mod 10) + 48)%N]). rewrite E, <- app_assoc.
    split; [reflexivity|]. split; [now destruct xs|].
    split; [apply Forall_app; split; [exact Hall | now repeat constructor]|].
    rewrite digits_value_app, Hval. cbn [digits_value]. rewrite Hv.
    pose proof (Z.div_mod n 10). lia.
Qed.

(** The numeral of a number is a run of digits that reads back as it. *)
Lemma decimal_of_nat_spec n :
  is_digits (decimal_of_nat n) /\ digits_value 0%Z (decimal_of_nat n) = Z.of_nat n.
Proof.
  unfold decimal_of_nat, decimal_of_Z.
  destruct (decimal_of_pos_aux_spec (S (Z.to_nat (Z.log2 (Z.of_nat n)))) (Z.of_nat n) [])
    as (xs & E & Hne & Hall & Hval).
  - split; [lia|]. rewrite Nat2Z.inj_succ, Z2Nat.id by apply Z.log2_nonneg.
    destruct (Z.eq_dec (Z.of_nat n) 0%Z) as [->|Hnz]; [reflexivity|].
    apply Z.log2_spec. lia.
  - discriminate.
  - rewrite E, app_nil_r. now repeat split.
Qed.

Lemma decimal_of_nat_inj n m : decimal_of_nat n = decimal_of_nat m -> n = m.
Proof.
  intros H. destruct (decimal_of_nat_spec n) as [_ Hn].
  destruct (decimal_of_nat_spec m) as [_ Hm]. rewrite H in Hn. lia.
Qed.

(** Two numerals before a colon. *)
Lemma digits_colon a a' b b' :
  all_in is_digit a -> all_in is_digit a' ->
  a ++ str ":" ++ b = a' ++ str ":" ++ b' -> a = a' /\ b = b'.
Proof.
  intros Ha. revert a'. induction Ha as [|c a Hc Ha IH]; intros a' Ha' H.
  - destruct Ha' as [|c' a' Hc' Ha']; [now injection H|].
    cbn in H. injection H as <- _. discriminate Hc'.
  - destruct Ha' as [|c' a' Hc' Ha'].
    + cbn in H. injection H as -> _. discriminate Hc.
    + cbn [app] in H. injection H as <- H. destruct (IH a' Ha' H) as [-> ->]. now split.
Qed.

(** *** The ids are distinct *)

Lemma key_id_inj uri k k' : key_id uri k = key_id uri k' -> k = k'.
Proof.
  destruct k as [|i|i l], k' as [|i'|i' l']; unfold key_id, GroupingProvider.group_id;
    intros H.
  - reflexivity.
  - rewrite <- (app_nil_r (uri_toString uri)) in H at 1. apply app_inv_head in H.
    discriminate H.
  - rewrite <- (app_nil_r (uri_toString uri)) in H at 1. apply app_inv_head in H.
    discriminate H.
  - rewrite <- (app_nil_r (uri_toString uri)) in H at 2. apply app_inv_head in H.
    discriminate H.
  - apply app_inv_head in H. apply (app_inv_head (str "#group")) in H.
    now rewrite (decimal_of_nat_inj _ _ H).
  - apply app_inv_head in H. cbn [str app] in H. injection H as H.
    destruct (decimal_of_nat_spec i') as [[Hne Hall] _].
    destruct Hall as [|c ds Hc _]; [contradiction|].
    cbn [app] in H. injection H as <- _. discriminate Hc.
  - rewrite <- (app_nil_r (uri_toString uri)) in H at 2. apply app_inv_head in H.
    discriminate H.
  - apply app_inv_head in H. cbn [str app] in H. injection H as H.
    destruct (decimal_of_nat_spec i) as [[Hne Hall] _].
    destruct Hall as [|c ds Hc _]; [contradiction|].
    cbn [app] in H. injection H as -> _. discriminate Hc.
  - apply app_inv_head in H. apply (app_inv_head (str "#")) in H.
    destruct (decimal_of_nat_spec i) as [[_ Hi] _].
    destruct (decimal_of_nat_spec i') as [[_ Hi'] _].
    destruct (digits_colon _ _ _ _ Hi Hi' H) as [H1 H2].
    now rewrite (decimal_of_nat_inj _ _ H1), (decimal_of_nat_inj _ _ H2).
Qed.

Lemma group_ids_keys uri multi gi g :
  group_ids uri multi gi g = map (key_id uri) (group_keys multi gi g).
Proof.
  unfold group_ids, group_keys, group_entries. rewrite map_app, !map_map.
  now destruct multi.
Qed.

Lemma group_keys_index multi gi g k :
  In k (group_keys multi gi g) -> key_index k = Some gi.
Proof.
  unfold group_keys. intros H. apply in_app_iff in H as [H|H].
  - destruct multi; [|contradiction]. destruct H as [<-|[]]. reflexivity.
  - apply in_map_iff in H as (t & <- & _). reflexivity.
Qed.

Lemma group_keys_NoDup multi gi g :
  NoDup (map line (tests g)) -> NoDup (group_keys multi gi g).
Proof.
  intros H. unfold group_keys. apply NoDup_app. split; [|split].
  - destruct multi; [apply NoDup_singleton | constructor].
  - intros k Hk Hk'. apply list_elem_of_In, in_map_iff in Hk' as (t & <- & _).
    destruct multi; apply list_elem_of_In in Hk; [|contradiction].
    now destruct Hk as [Hk|[]].
  - induction (tests g) as [|t ts IH]; [constructor|].
    cbn [map] in *. apply NoDup_cons in H as [Hnot Hnd].
    apply NoDup_cons. split; [|now apply IH].
    intros Hin. apply Hnot. apply list_elem_of_In, in_map_iff in Hin as (t' & [= Heq] & Hin).
    apply list_elem_of_In, in_map_iff. exists t'. now split.
Qed.

Lemma keys_from_NoDup multi gs k :
  NoDup (map line (concat (map tests gs))) ->
  NoDup (concat (imap (fun i => group_keys multi (k + i)) gs)) /\
  forall x, In x (concat (imap (fun i => group_keys multi (k + i)) gs)) ->
            exists i, key_index x = Some i /\ k <= i.
Proof.
  revert k. induction gs as [|g gs IH]; intros k H.
  - split; [constructor | intros x []].
  - cbn [map concat] in H. rewrite map_app in H.
    apply NoDup_app in H as (Hg & _ & Hrest).
    destruct (IH (S k) Hrest) as [Hnd Hidx].
    assert (Hext : imap ((fun i => group_keys multi (k + i)) ∘ S) gs
                   = imap (fun i => group_keys multi (S k + i)) gs).
    { apply imap_ext. intros i x _. cbn. now rewrite Nat.add_succ_r. }
    cbn [imap concat]. rewrite Hext, Nat.add_0_r. split.
    + apply NoDup_app. split; [now apply group_keys_NoDup|]. split; [|exact Hnd].
      intros x Hx Hx'. apply list_elem_of_In in Hx, Hx'.
      apply group_keys_index in Hx. destruct (Hidx x Hx') as (i & Hi & Hle).
      rewrite Hx in Hi. injection Hi as <-. lia.
    + intros x Hx. apply in_app_iff in Hx as [Hx|Hx].
      * exists k. split; [now apply group_keys_index in Hx | lia].
      * destruct (Hidx x Hx) as (i & Hi & Hle). exists i. split; [exact Hi | lia].
Qed.

Lemma concat_imap_map {A B C} (f : B -> C) (g : nat -> A -> list B) (l : list A) :
  concat (imap (fun i x => map f (g i x)) l) = map f (concat (imap g l)).
Proof.
  revert g. induction l as [|x l IH]; intros g; [reflexivity|].
  cbn [imap concat]. rewrite map_app. f_equal. apply (IH (g ∘ S)).
Qed.

Lemma file_item_calls_ids known uri :
  omap created_id (file_item_calls known uri)
  = map (key_id uri) (if known then [] else [FileKey]).
Proof. now destruct known. Qed.

Lemma run_calls_ids e : omap created_id (GroupingProvider.run_calls e) = [].
Proof.
  destruct e as [item t]. unfold GroupingProvider.run_calls.
  now destruct (Nat.ltb 0 (length (output t))), (hasSkip t), (hasTodo t), (passed t).
Qed.

Lemma flat_map_nil {A B} (f : A -> list B) (l : list A) :
  (forall x, f x = []) -> flat_map f l = [].
Proof. intros H. induction l as [|x l IH]; [reflexivity|]. cbn. now rewrite H, IH. Qed.

(** X11.  The grouping provider never creates two test items with the same
    id for a document: the file item, the group items and the test items
    all differ, however the test numbers repeat in the text. *)
Theorem grouping_items_have_distinct_ids known document :
  exists calls,
    GroupingProvider.updateTestsForDocument known document = Normal calls /\
    List.NoDup (omap created_id calls).
Proof.
  destruct (grouping_flat_tests (getText document)) as (gs & ts & Eg & Et & Hg).
  destruct (flat_lines (getText document)) as (ts' & Et' & Hlines).
  rewrite Et in Et'. injection Et' as <-.
  destruct (group_loop (doc_uri document) gs) as (st & Est & Hsnd & _ & Hids & _).
  unfold GroupingProvider.updateTestsForDocument. cbv zeta. rewrite Eg.
  cbn [mbind completion_bind]. rewrite Est. cbn [mbind completion_bind].
  eexists. split; [reflexivity|]. apply NoDup_ListNoDup.
  change (DocumentsSet ?a ?b :: ?l) with ([DocumentsSet a b] ++ l).
  rewrite !omap_app, file_item_calls_ids, Hids, omap_flat_map.
  rewrite (flat_map_nil _ _ run_calls_ids). cbn [omap list_omap created_id app].
  rewrite !app_nil_r.
  erewrite imap_ext; [|intros i g _; apply group_ids_keys].
  rewrite concat_imap_map, <- map_app.
  apply NoDup_fmap_2; [intros k k'; apply key_id_inj|].
  assert (Hnd : NoDup (map line (concat (map tests gs)))).
  { replace (map line (concat (map tests gs))) with (map line ts).
    - rewrite Hlines. apply NoDup_ListNoDup, lines_where_NoDup.
    - rewrite <- Hg, map_map. reflexivity. }
  destruct (keys_from_NoDup (Nat.ltb 1 (length gs)) gs 0 Hnd) as [Hkeys Hidx].
  apply NoDup_app. split; [|split; [|exact Hkeys]].
  - destruct known; [constructor | apply NoDup_singleton].
  - intros x Hx Hx'. apply list_elem_of_In in Hx, Hx'.
    destruct (Hidx x Hx') as (i & Hi & _).
    destruct known; [contradiction|]. destruct Hx as [<-|[]]. discriminate Hi.
Qed.
(** ** The ranges of the test items *)

Lemma heads_ranges lines ts :
  map head_fields ts = heads_upto lines (length lines) ->
  Forall (fun t => range_in_line lines (test_range t)) ts.
Proof.
  intros Hheads. apply List.Forall_forall. intros t Ht.
  assert (Hin : In (head_fields t) (heads_upto lines (length lines))).
  { rewrite <- Hheads. now apply in_map. }
  apply heads_upto_In in Hin as (i & Hi & Hh).
  destruct (head_of_line_spec _ _ _ Hi Hh)
    as (a & b & c & d & e & f & g & Heq & -> & Hl & -> & Hle & _).
  unfold head_fields in Heq. injection Heq as H1 H2 _ _ _ _ H7.
  unfold range_in_line, test_range. cbn [range_start range_end pos_line pos_character].
  rewrite H1, H2, H7, (line_at_lookup _ _ _ Hl).
  split; [reflexivity|]. split; [exact Hi|]. split; [exact Hle | reflexivity].
Qed.

Lemma file_item_calls_ranges known uri : omap range_set (file_item_calls known uri) = [].
Proof. now destruct known. Qed.

Lemma legacy_test_calls_range uri t :
  omap range_set (LegacyProvider.test_calls uri t) = [test_range t].
Proof.
  unfold LegacyProvider.test_calls.
  now destruct (hasSkip t), (hasTodo t), (passed t).
Qed.

Lemma flat_test_calls_range uri t :
  omap range_set (FlatProvider.test_calls uri t) = [test_range t].
Proof.
  unfold FlatProvider.test_calls.
  now destruct (hasSkip t), (hasTodo t), (passed t).
Qed.

Lemma run_calls_ranges e : omap range_set (GroupingProvider.run_calls e) = [].
Proof.
  destruct e as [item t]. unfold GroupingProvider.run_calls.
  now destruct (Nat.ltb 0 (length (output t))), (hasSkip t), (hasTodo t), (passed t).
Qed.

(** X12.  Every range that the three test providers set on a test item
    lies inside one line of the document, its start not after its end:
    the ranges of the tests, from the indent to the end of the line, and
    the empty ranges at the start of the line of a group. *)
Theorem providers_set_ranges_inside_lines known document :
  exists legacy flat grouping,
    LegacyProvider.updateTestsForDocument known document = Normal legacy /\
    FlatProvider.updateTestsForDocument known document = Normal flat /\
    GroupingProvider.updateTestsForDocument known document = Normal grouping /\
    Forall (range_in_line (split_lines (getText document))) (omap range_set legacy) /\
    Forall (range_in_line (split_lines (getText document))) (omap range_set flat) /\
    Forall (range_in_line (split_lines (getText document))) (omap range_set grouping).
Proof.
  set (lines := split_lines (getText document)).
  destruct (legacy_heads (getText document)) as (old & Eo & Ho).
  destruct (flat_heads (getText document)) as (ts & Et & Ht).
  destruct (grouping_flat_tests (getText document)) as (gs & ts' & Eg & Et' & Hg).
  rewrite Et in Et'. injection Et' as <-.
  pose proof (heads_ranges lines old Ho) as Hold.
  pose proof (heads_ranges lines ts Ht) as Hnew.
  destruct (group_loop (doc_uri document) gs) as (st & Est & _ & _ & _ & Hrs).
  apply parseTapContent_spec in Eg as Hst. destruct Hst as (s & Es & Hgs).
  pose proof (run_lines_groups lines (length lines) s (Nat.le_refl _) Es)
    as (_ & Hglines & _).
  unfold LegacyProvider.updateTestsForDocument,
    FlatProvider.updateTestsForDocument, GroupingProvider.updateTestsForDocument.
  cbv zeta. rewrite Eo, Et, Eg. cbn [mbind completion_bind]. rewrite Est.
  cbn [mbind completion_bind]. do 3 eexists.
  split; [reflexivity|]. split; [reflexivity|]. split; [reflexivity|].
  split; [|split].
  - rewrite !omap_app, file_item_calls_ranges, omap_flat_map.
    cbn [omap list_omap range_set app]. rewrite app_nil_r.
    erewrite flat_map_ext; [|intros t; apply legacy_test_calls_range].
    rewrite flat_map_singleton. apply Forall_map. exact Hold.
  - rewrite !omap_app, file_item_calls_ranges, omap_flat_map.
    cbn [omap list_omap range_set app]. rewrite app_nil_r.
    erewrite flat_map_ext; [|intros t; apply flat_test_calls_range].
    rewrite flat_map_singleton. apply Forall_map. exact Hnew.
  - change (DocumentsSet ?a ?b :: ?l) with ([DocumentsSet a b] ++ l).
    rewrite !omap_app, file_item_calls_ranges, omap_flat_map.
    rewrite (flat_map_nil _ _ run_calls_ranges).
    cbn [omap list_omap range_set app]. rewrite app_nil_r.
    eapply Forall_impl; [exact Hrs|]. intros r (g & Hgin & [(t & Htin & ->) | ->]).
    + assert (Hin : In (erase_output t) ts).
      { rewrite <- Hg. apply in_map, in_concat. exists (tests g).
        split; [now apply in_map | exact Htin]. }
      rewrite List.Forall_forall in Hnew. exact (Hnew _ Hin).
    + rewrite Hgs in Hgin. apply in_map_iff in Hgin as (g0 & <- & Hg0).
      rewrite List.Forall_forall in Hglines. specialize (Hglines _ Hg0).
      unfold range_in_line. cbn [range_start range_end pos_line pos_character
                                  group_line Grouping.resolve].
      split; [reflexivity|]. split; [exact Hglines|]. split; [reflexivity | lia].
Qed.
(** ** What the folds of the plan-stack folding hold *)






(** *** Closing entries *)





(** *** The invariant *)




(** ** The descriptions of the tests *)






(** ** The plain folds never cross *)





(** ** The file item *)

Lemma last_cons_some {A} (x : A) l y : last l = Some y -> last (x :: l) = Some y.
Proof. destruct l as [|z l]; [discriminate|]. trivial. Qed.

(** The last piece of a split is what follows the last separator. *)
Lemma pop_split_aux sep cur s :
  Forall (fun c => char_eqb c sep = false) cur ->
  exists name,
    pop (split_aux sep cur s) = Some name /\
    Forall (fun c => char_eqb c sep = false) name /\
    (rev cur ++ s = name \/ exists dir, rev cur ++ s = dir ++ sep :: name).
Proof.
  revert cur. induction s as [|c s IH]; intros cur Hcur.
  - exists (rev cur). cbn [split_aux pop last]. split; [reflexivity|].
    split; [now apply Forall_rev | left; apply app_nil_r].
  - cbn [split_aux]. destruct (char_eqb c sep) eqn:Hc.
    + destruct (IH [] ltac:(constructor)) as (name & Hpop & Hname & Hs).
      exists name. split; [unfold pop in *; now apply last_cons_some|].
      split; [exact Hname|]. right.
      unfold char_eqb in Hc. apply N.eqb_eq in Hc. subst c.
      cbn [rev app] in Hs. destruct Hs as [<- | (dir & ->)].
      * now exists (rev cur).
      * exists (rev cur ++ sep :: dir). now rewrite <- app_assoc.
    + destruct (IH (c :: cur)) as (name & Hpop & Hname & Hs); [now constructor|].
      exists name. split; [exact Hpop|]. split; [exact Hname|].
      cbn [rev] in Hs. now rewrite <- app_assoc in Hs.
Qed.

(** X16.  The file item that the test providers create for a document
    that has none is labelled with the file name: the part of the path of
    the document after its last slash, or the whole path when it has no
    slash.  The label is never undefined. *)
Theorem file_item_is_named_after_the_file document :
  exists name legacy flat grouping,
    Forall (fun c => char_eqb c (char_of_ascii "/") = false) name /\
    (uri_path (doc_uri document) = name
     \/ exists dir, uri_path (doc_uri document) = dir ++ str "/" ++ name) /\
    LegacyProvider.updateTestsForDocument false document = Normal legacy /\
    FlatProvider.updateTestsForDocument false document = Normal flat /\
    GroupingProvider.updateTestsForDocument false document = Normal grouping /\
    let item := CreateTestItem (uri_toString (doc_uri document)) (Some name)
                  (doc_uri document) in
    In item legacy /\ In item flat /\ In item grouping.
Proof.
  destruct (pop_split_aux (char_of_ascii "/") [] (uri_path (doc_uri document))
              ltac:(constructor)) as (name & Hpop & Hname & Hpath).
  destruct (legacy_heads (getText document)) as (old & Eo & _).
  destruct (flat_heads (getText document)) as (ts & Et & _).
  destruct (grouping_flat_tests (getText document)) as (gs & _ & Eg & _).
  destruct (group_loop (doc_uri document) gs) as (st & Est & _).
  exists name. unfold LegacyProvider.updateTestsForDocument,
    FlatProvider.updateTestsForDocument, GroupingProvider.updateTestsForDocument.
  cbv zeta. rewrite Eo, Et, Eg. cbn [mbind completion_bind]. rewrite Est.
  cbn [mbind completion_bind]. do 3 eexists.
  split; [exact Hname|]. split; [exact Hpath|].
  split; [reflexivity|]. split; [reflexivity|]. split; [reflexivity|].
  unfold file_item_calls. change (split 47%N) with (split (char_of_ascii "/")).
  unfold split. rewrite Hpop.
  split; [|split]; cbn [app In]; auto.
Qed.
